(* ===== verification/_CoqProject ===== *)
-Q . S2P
Prelude.v
MemoryPool.v
PoolClients.v
Heap.v
Msg.v
QueueSpec.v
MessageQueue.v
QueueSort.v
QueueConcurrency.v
QueueThreads.v
QueueWait.v
QueueAlone.v
Logger.v
LoggerThreads.v
Sinks.v
World.v
Broker.v
TaskBase.v
BusPrograms.v
PeriodicRate.v
OwnThread.v
StateManager.v
DemandWait.v
HeartBeat.v
Locks.v
Races.v
System.v
Typing.v
Handshake.v
Stopping.v
Rounds.v
Schedules.v
Shutdown.v
Lifecycle.v
Network.v
Demands.v
Polling.v
Traffic.v
Monitored.v
DemandCalls.v
Unresponsive.v
Scenario.v
Tests.v
