(* ===== verification/Prelude.v ===== *)
(** * ProtoCore: a verification development (root file)

    ProtoCore is a C++17 framework of message-driven tasks in one process.
    A [Task] has a message queue and a thread that handles its messages, and
    may have a second thread that works periodically; the static [Broker]
    copies every published message to the subscribers of its type; a
    [StateManager] broadcasts state requests and waits until every registered
    task has acknowledged; a [HeartBeatTask] observes registrations, polls the
    registered tasks and reports the silent ones to the state manager; a
    [Logger] writes entries from a worker thread to its sinks. The queue keeps
    its nodes in a [MemoryPool] of fixed blocks and orders them with the
    standard heap algorithms.

    ** The files, in dependency order

    - Prelude: outcomes of a C++ operation ([result], [error]), assertions,
      machine-width integers, object representations, slices of a buffer, the
      hint databases [pool], [heap] and [bus].
    - MemoryPool (src/memory_pool.cpp, include/memory_pool.h): the pool as a
      buffer of bytes with the free list inside its free blocks. Abstraction:
      a stack of block addresses. PoolClients: clients that also read and write
      in the blocks they hold; abstractly these are separate arrays of bytes.
    - Heap: [std::push_heap] and [std::pop_heap]; the class [HeapAlgorithms] is
      the standard's contract, the instance the algorithms of libstdc++.
    - Msg (include/msg/, include/task/task_state.h): the four system messages,
      the container [Msg], type names, priorities and task states.
    - QueueSpec: the abstract queue [aqueue] and the class [QueueImpl], which
      is what the broker and the tasks know of a queue; the reference queue is
      itself an instance, used by the witnesses. The class [QueueTyping] adds
      that a queue holds well-formed messages only.
    - MessageQueue (src/message_queue.cpp, include/message_queue.h): the queue
      over pool and heap, and its instances of [QueueImpl] and [QueueTyping].
    - QueueSort: a filled queue that is emptied, against insertion sort.
    - QueueConcurrency: the same queue with producers and consumers
      interleaved between its two mutexes.
    - QueueThreads: the calls of a queue cut into turns, with the waits, the
      notifications, the time-outs and the spurious wake-ups; QueueWait: that
      nobody oversleeps and that every schedule ends; QueueAlone: what one
      thread's calls return when nobody interferes.
    - Logger (src/logger.cpp, include/logger.h): callers, worker and sinks, a
      sink being the text that reached it.
    - LoggerThreads: the same with the calls cut at the lock and the
      notification, and the worker's sleep and wake-ups.
    - Sinks (same files): the classes behind [ILogSink] with the files and
      streams they write to, and what they do when the system refuses.
    - World: the objects the bus operations share, as the record [World], and
      the state-and-error monad [M] in which these operations are written.
    - Broker (include/broker.h): [initialize], [publish], [subscribe],
      [deliver_message]. Abstraction: the record [bus].
    - TaskBase (src/task.cpp, include/task/task.h): start, stop, the two
      loops turn by turn, the joins, the destructor; the class [Virtual] holds
      the functions that derived classes override.
    - BusPrograms (broker.h and the destructor of task.h): programs of broker
      calls and ends of tasks, and the same programs on the abstract bus.
    - PeriodicRate: how often the periodic work begins. OwnThread: [stop] when a
      thread of the task itself calls it.
    - StateManager (src/state_manager.cpp, include/state_manager.h):
      registration, requests, demands, acknowledgements, initialize and
      shutdown; the class [RegistrationObserver] is what it calls back.
    - DemandWait: the timed wait of a demand, with its time-out and spurious
      wake-ups, side by side with the thread that records acknowledgements and
      notifies.
    - HeartBeat (src/heart_beat.cpp, include/heart_beat.h): the heartbeat task
      and its instance of [RegistrationObserver].
    - Locks: the mutexes every operation takes, and threads interleaving them.
    - Races: the members the operations access between these locks.
    - System: the instance of [Virtual] that dispatches on the dynamic type, and
      the transition system of all calls and all threads.
    - Typing: which references, queues and messages every operation and every
      turn of a thread needs and keeps, as rules for the monad's programs.
    - Handshake: the demand protocol over all components, turn by turn.
    - Stopping: [stop] of one task by another thread, with the joins of both
      threads of the task.
    - Rounds: threads that take turns in any order, as an invariant with a
      measure that every turn lowers unless its thread has to wait.
    - Schedules: a demand while the message threads take turns in any order.
    - Shutdown: the same to the end: the demand for STOPPED, and the joins of
      all threads.
    - Lifecycle: from created tasks through [initialize] and any number of
      demands to the end of [shutdown].
    - Network: requests, acknowledgements, heartbeats and answers of a state
      manager, a heartbeat task and any number of user tasks, all under way at
      the same time, as an abstract transition system.
    - Demands: any number of threads inside [demand_state_transition] over
      that network, with the mutex, the notifications and the time-outs.
    - Polling: a round of heartbeats to tasks that answer, turns in any order.
    - Traffic: every turn of a message thread is a step of the network;
      Monitored: so is every turn of the periodic thread, and a demand that is
      made while all this goes on. DemandCalls: the pieces of
      [demand_state_transition] in several threads are steps of Demands.
    - Unresponsive: rounds of heartbeats to a task that hangs.
    - Scenario: a state manager, a heartbeat task and a user task executed on
      the real queue, from construction to the last join.
    - Tests: the repository's unit tests as programs over the model, evaluated
      under one schedule. They check the model and prove nothing of the program.

    A definition has the name of the function, method or member it models;
    where two classes use a name, the class comes first
    ([StateManager_transition_to_state], [HeartBeat_handle_acknowledgment]).
    Long functions are cut at their lock scopes or loops ([enqueue_allocate]
    and [enqueue_insert]; [demand_begin] and [demand_end]; [worker_take] and
    [worker_dispatch]) and composed in the order of the source.

    ** What the theorems show

    - Memory pool: a refinement to the stack of free blocks, exhaustion after
      exactly [block_count] allocations; from construction on, clients that
      keep to the blocks they hold read back what they wrote there, as if every
      block were memory of its own; and what happens when the size computation
      wraps.
    - Queue: from construction on, every program of operations has the
      outcomes of the abstract queue, oldest of the highest priority first and
      errors included; the same for every interleaving of producers and
      consumers; with the waits and the notifications, no thread sleeps while a
      message is there for it, and every schedule of the threads ends, with
      their calls made or in a [dequeue] that has nothing to wait for; one
      thread alone gets from its calls, cut into pieces, what the abstract
      queue returns; filling and emptying it is the stable insertion sort;
      destructor, shutdown; and the end of the order when the 32-bit sequence
      number wraps.
    - Messages: construction, type names and the order of priorities.
    - Broker: every program of broker calls and ends of tasks refines the
      abstract bus, where the end of a running or unjoined task terminates the
      process; a task receives in order and once each what was published while
      it was subscribed, a publication reaches the live subscribers only.
    - Tasks: a turn of the message loop, the announcement of a state change,
      termination of [stop] with both joins for handlers that may publish,
      restarting, destruction; the
      periodic work begins at most once per interval; a task that stops itself
      ends the process.
    - State manager: a demand is decided by the last acknowledgements, and
      succeeds when the registered tasks are responsive, under every schedule
      that gives all threads their turns; a wake-up of its wait can be lost;
      several demands at the same time come to an end, in one of the demanded
      states, though one of two that cross may sleep to its time-out; an
      acknowledgement is recorded exactly for registered tasks; registration
      and initialization; a shutdown ends every thread and leaves every
      registered task in STOPPED; with tasks that follow requests the whole
      lifecycle, from creation to the last join, completes.
    - Heartbeat: a round polls exactly the tasks that owe nothing, a check
      marks exactly the overdue tasks, an acknowledgement counts only for the
      last identifier, identifiers repeat after 2^32; a task that answers is
      not marked, under every such schedule, and a task that hangs ends in the
      abort of the process.
    - Both protocols at once: in every order of turns of all message threads
      and of the periodic thread, the program follows the abstract network, in
      which nothing that is under way is lost; so whatever queues hold is
      settled in the end, and a demand succeeds while the heartbeats go round.
    - Logger: under every interleaving the sinks hold a prefix of the accepted
      entries, all of them once the worker has left, and every schedule of
      callers and worker ends with nothing forgotten; they reach the files and
      streams behind the sinks as long as the system grants the writes, and a
      file sink whose write is refused drops the rest in silence.
    - Whole system: a typing of calls and worlds under which no call and no
      turn has undefined behaviour but for the read of [target_state] before the
      first demand; an invariant of all reachable worlds, whatever handlers the
      user's tasks have; absence of deadlock among the operations that keep to
      the lock order; a deadlock between the two that do not; the members that
      are free of data races, and for each of the others two calls that race.

    ** How the program is modelled

    - Errors. An operation returns a value or an [error]: a failed assertion
      (the build without NDEBUG), an exception that leaves it,
      [std::terminate], or undefined behaviour, which never has a value. Where
      a theorem says that an operation succeeds, it excludes all four.
    - Integers keep their width: [u32], [u64] reduce at the operation that
      wraps. Priorities, types and states are [int]s with named values.
      Pointers have 8 bytes and nodes are laid out as on LP64 ([lp64_layout]);
      the queue's theorems hold for every [NodeLayout].
    - Memory. The pool's buffer is a list of bytes at a base address; every
      access is checked against it. Task objects are named by addresses, and
      an address is not used for a second object, so a [weak_ptr] can be
      locked exactly while its address is live.
    - Time. [clock] is an arbitrary sequence of readings, one for each time
      somebody asks; theorems about deadlines state what they need of it. Those
      of Monitored assume of a run that none of its checks finds an answer
      overdue ([on_time]); a clock on which no two readings are further apart
      than the response timeout ([punctual]) is a special case.
    - Blocking. A wait is an outcome ([Blocks], [Waiting]) and not a duration:
      a thread whose turn comes to a wait takes no step. What other threads do
      during the wait of a demand is the argument [others]; the theorems about
      whole protocols put there the turns of the message threads, in rounds
      ([schedule], [fair]): five per task and one more are always enough, as
      each turn but a waiting one is a step of one of the messages under way;
      with other messages under way, as many as [workload] says.
    - Interleaving. A call of the bus and a turn of a thread are steps: the
      mutexes make the calls of one object atomic, and Locks checks the order
      in which several are held. Inside a queue, QueueConcurrency cuts the
      operations at their mutexes, and QueueThreads and LoggerThreads also at
      their waits and notifications. Where the source updates a member without
      the mutex ([StateManager::handle_acknowledgment]), the other files' steps
      are coarser than the program; DemandWait and Demands have finer ones (in
      Demands a broadcast, and the recording of an acknowledgement with the
      comparison that follows, are still one step each), and Races says which members this concerns: a program that races has no defined
      behaviour, and the theorems are about its executions without a race.
    - Loops and fuel. Loops over containers are structural. The joins take the
      number of turns the joined thread gets: two are enough for the message
      thread of a stopped task; the periodic thread takes as many readings of the
      clock as its sleep, which [stop_terminates] and the theorems about
      [shutdown] state as a bound. The heap algorithms recurse on
      fuel equal to the length of the heap, which bounds the depth.
    - Bounds. The theorems about order in a queue assume fewer than 2^32
      enqueues since a dequeue last emptied it ([aq_ticks]); [fifo_wraparound]
      shows what happens beyond.

    ** What is not modelled

    The traits and macros that generate message types at compile time
    (msg_traits.h, declare_msg.h), of which Msg models the result for the
    default list; protocore.h (forward declarations); the operating system,
    whose answers to attempts to open and to write are the parameters [granted]
    and [written] of Sinks, and which flushes a stream when it is asked to;
    reorderings of a weak memory model, which only the members that race could
    show; of the tests, those that measure time, count the calls of a mock
    object or let threads race on purpose. *)

From stdpp Require Export base tactics list list_numbers numbers strings pretty gmap sets sorting.
From Stdlib Require Export ZArith Lia.

#[local] Open Scope Z_scope.

(** ** Outcomes of a C++ operation *)

(** How an operation can go wrong: an [assert] that fails (the process
    aborts), an exception that leaves the function, a call of
    [std::terminate], or undefined behaviour, which the model never gives a
    value to. *)
Inductive error : Type :=
  | AssertFailed (why : string)
  | Thrown (exn : string)
  | Terminated (why : string)
  | UB (why : string).

Inductive result (A : Type) : Type :=
  | Ok (a : A)
  | Err (e : error).
Arguments Ok {A} a.
Arguments Err {A} e.

#[export] Instance error_eq_dec : EqDecision error.
Proof. solve_decision. Defined.

#[export] Instance result_ret : MRet result := fun A a => Ok a.
#[export] Instance result_bind : MBind result := fun A B f m =>
  match m with
  | Ok a => f a
  | Err e => Err e
  end.

(** Facts about the pool's geometry, the queue's heap and the bus, for [eauto]. *)
Create HintDb pool.
Create HintDb heap.
Create HintDb bus.

Declare Scope protocore_scope.
Delimit Scope protocore_scope with protocore.

(** [assert(P && why)] of [<cassert>], in a build without [NDEBUG]. *)
Definition assert_that (P : Prop) `{Decision P} (why : string) : result unit :=
  if decide P then Ok tt else Err (AssertFailed why).
Arguments assert_that P {_} why.

(** A condition without which the C++ statement has no defined behaviour. *)
Definition require_defined (P : Prop) `{Decision P} (why : string) : result unit :=
  if decide P then Ok tt else Err (UB why).
Arguments require_defined P {_} why.

Definition is_ok {A} (r : result A) : bool :=
  match r with Ok _ => true | Err _ => false end.

Lemma assert_that_true (P : Prop) `{Decision P} why : P -> assert_that P why = Ok tt.
Proof. intros HP. unfold assert_that. by rewrite decide_True. Qed.

Lemma assert_that_false (P : Prop) `{Decision P} why :
  ~ P -> assert_that P why = Err (AssertFailed why).
Proof. intros HP. unfold assert_that. by rewrite decide_False. Qed.

Lemma require_defined_true (P : Prop) `{Decision P} why : P -> require_defined P why = Ok tt.
Proof. intros HP. unfold require_defined. by rewrite decide_True. Qed.

Lemma require_defined_false (P : Prop) `{Decision P} why :
  ~ P -> require_defined P why = Err (UB why).
Proof. intros HP. unfold require_defined. by rewrite decide_False. Qed.

Lemma result_bind_Ok {A B} (m : result A) (f : A -> result B) b :
  m ≫= f = Ok b <-> exists a, m = Ok a /\ f a = Ok b.
Proof.
  destruct m as [a|e]; cbn; split.
  - intros H. by exists a.
  - by intros (? & [= ->] & ?).
  - done.
  - by intros (? & ? & ?).
Qed.

Lemma assert_that_Ok (P : Prop) `{Decision P} why : assert_that P why = Ok tt <-> P.
Proof. unfold assert_that. case_decide; naive_solver. Qed.

Lemma require_defined_Ok (P : Prop) `{Decision P} why u : require_defined P why = Ok u <-> P.
Proof. destruct u. unfold require_defined. case_decide; naive_solver. Qed.

(** Take a hypothesis [x ← m; k = Ok b] apart into the outcomes of its steps. *)
Ltac inv_bind :=
  repeat match goal with
  | H : _ ≫= _ = Ok _ |- _ => apply result_bind_Ok in H as (? & ? & ?)
  | H : assert_that _ _ = Ok ?u |- _ => destruct u; apply assert_that_Ok in H
  | H : require_defined _ _ = Ok _ |- _ => apply require_defined_Ok in H
  | H : Ok _ = Ok _ |- _ => injection H as H; subst
  | H : mret _ = Ok _ |- _ => injection H as H; subst
  end.

Lemma assert_that_bind {A} (P : Prop) `{Decision P} why (f : unit -> result A) :
  P -> assert_that P why ≫= f = f tt.
Proof. intros HP. by rewrite assert_that_true. Qed.

Lemma require_defined_bind {A} (P : Prop) `{Decision P} why (f : unit -> result A) :
  P -> require_defined P why ≫= f = f tt.
Proof. intros HP. by rewrite require_defined_true. Qed.

Lemma require_defined_bind_false {A} (P : Prop) `{Decision P} why (f : unit -> result A) :
  ~ P -> require_defined P why ≫= f = Err (UB why).
Proof. intros HP. by rewrite require_defined_false. Qed.

(** Step over a check whose condition the context proves. *)
Ltac pass_check tac :=
  first [ rewrite assert_that_bind by tac | rewrite require_defined_bind by tac ].

(** ** Machine-width integers *)

Definition u8 (z : Z) : Z := z mod 2 ^ 8.
Definition u16 (z : Z) : Z := z mod 2 ^ 16.
Definition u32 (z : Z) : Z := z mod 2 ^ 32.
Definition u64 (z : Z) : Z := z mod 2 ^ 64.

Lemma u8_small z : 0 <= z < 2 ^ 8 -> u8 z = z.
Proof. apply Z.mod_small. Qed.
Lemma u32_small z : 0 <= z < 2 ^ 32 -> u32 z = z.
Proof. apply Z.mod_small. Qed.
Lemma u64_small z : 0 <= z < 2 ^ 64 -> u64 z = z.
Proof. apply Z.mod_small. Qed.
Lemma u32_range z : 0 <= u32 z < 2 ^ 32.
Proof. apply Z.mod_pos_bound; lia. Qed.
Lemma u64_range z : 0 <= u64 z < 2 ^ 64.
Proof. apply Z.mod_pos_bound; lia. Qed.

(** Reducing modulo [2 ^ 64] takes at least one [2 ^ 64] off what exceeds it. *)
Lemma u64_wrapped z : 2 ^ 64 <= z -> 0 <= u64 z <= z - 2 ^ 64.
Proof.
  intros Hz. unfold u64. pose proof (Z.div_mod z (2 ^ 64)). pose proof (Z.mod_pos_bound z (2 ^ 64)).
  assert (1 <= z / 2 ^ 64) by (apply Z.div_le_lower_bound; lia). lia.
Qed.

(** [std::chrono::duration_cast<std::chrono::milliseconds>] of a count of
    nanoseconds: the quotient, truncated towards zero. *)
Definition duration_cast_ms (ns : Z) : Z := Z.quot ns 1000000.

Lemma duration_cast_ms_le a b : a <= b -> duration_cast_ms a <= duration_cast_ms b.
Proof. intros. apply Z.quot_le_mono; lia. Qed.

Lemma duration_cast_ms_nonneg a : 0 <= a -> 0 <= duration_cast_ms a.
Proof. intros. apply Z.quot_pos; lia. Qed.

(** ** Little-endian object representations *)

(** [n] bytes of the unsigned integer [z], least significant first. *)
Fixpoint le_encode (n : nat) (z : Z) : list Z :=
  match n with
  | O => []
  | S n' => z mod 256 :: le_encode n' (z / 256)
  end.

Fixpoint le_decode (bs : list Z) : Z :=
  match bs with
  | [] => 0
  | b :: bs' => b + 256 * le_decode bs'
  end.

Lemma length_le_encode n z : length (le_encode n z) = n.
Proof. revert z. induction n; intros; cbn; f_equal; auto. Qed.

Lemma le_decode_encode_mod n z : le_decode (le_encode n z) = z mod 256 ^ Z.of_nat n.
Proof.
  revert z. induction n as [|n IH]; intros z; cbn [le_encode le_decode].
  { by rewrite Z.pow_0_r, Z.mod_1_r. }
  rewrite IH, Nat2Z.inj_succ, Z.pow_succ_r by lia.
  rewrite Z.rem_mul_r by lia. lia.
Qed.

Lemma le_decode_encode n z :
  0 <= z < 256 ^ Z.of_nat n -> le_decode (le_encode n z) = z.
Proof. intros. rewrite le_decode_encode_mod. by apply Z.mod_small. Qed.

(** ** Reading and writing a slice of a list in place *)

Definition read_at {A} (off n : nat) (l : list A) : list A := take n (drop off l).
Definition write_at {A} (off : nat) (bs l : list A) : list A :=
  take off l ++ bs ++ drop (off + length bs) l.

#[global] Arguments read_at : simpl never.
#[global] Arguments write_at : simpl never.

Section slices.
Context {A : Type}.
Implicit Types l bs : list A.

Lemma length_write_at off bs l :
  (off + length bs <= length l)%nat -> length (write_at off bs l) = length l.
Proof. intros. unfold write_at. rewrite !length_app, length_take, length_drop. lia. Qed.

Lemma length_read_at off n l :
  (off + n <= length l)%nat -> length (read_at off n l) = n.
Proof. intros. unfold read_at. rewrite length_take, length_drop. lia. Qed.

Lemma lookup_write_at off bs l i :
  (off + length bs <= length l)%nat ->
  write_at off bs l !! i =
    if decide (off <= i < off + length bs)%nat then bs !! (i - off)%nat else l !! i.
Proof.
  intros Hlen. unfold write_at. case_decide as Hi.
  - rewrite lookup_app_r by (rewrite length_take; lia).
    rewrite length_take_le by lia. rewrite lookup_app_l by lia. done.
  - destruct (decide (i < off)%nat).
    + rewrite lookup_app_l by (rewrite length_take; lia). by rewrite lookup_take_lt by lia.
    + rewrite lookup_app_r by (rewrite length_take; lia).
      rewrite length_take_le by lia. rewrite lookup_app_r by lia.
      rewrite lookup_drop. f_equal. lia.
Qed.

Lemma read_write_same off bs l :
  (off + length bs <= length l)%nat -> read_at off (length bs) (write_at off bs l) = bs.
Proof.
  intros. unfold read_at, write_at.
  rewrite drop_app_length' by (rewrite length_take; lia).
  by rewrite take_app_length.
Qed.

Lemma read_write_disjoint off bs l off' n :
  (off + length bs <= length l)%nat ->
  (off' + n <= off)%nat \/ (off + length bs <= off')%nat ->
  read_at off' n (write_at off bs l) = read_at off' n l.
Proof.
  intros Hlen Hdisj. apply list_eq. intros i. unfold read_at.
  destruct (decide (i < n)%nat).
  - rewrite !lookup_take_lt, !lookup_drop, lookup_write_at by lia.
    rewrite decide_False by lia. done.
  - by rewrite !lookup_take_ge by lia.
Qed.
End slices.

(** ** Lists of threads: what they own and what they weigh, taken together *)

Definition total {A} (f : A -> nat) (l : list A) : nat := sum_list_with f l.

#[global] Arguments total : simpl never.

Lemma total_cons {A} (f : A -> nat) x (l : list A) : total f (x :: l) = (f x + total f l)%nat.
Proof. done. Qed.

Lemma total_update {A} (f : A -> nat) (l : list A) i x y :
  l !! i = Some x -> (total f (<[i := y]> l) + f x = total f l + f y)%nat.
Proof.
  revert i. induction l as [|z l IH]; intros [|i] Hi; simplify_eq/=; unfold total in *; cbn [sum_list_with]; [lia|].
  specialize (IH i Hi). lia.
Qed.

Lemma total_map {A} (f : A -> nat) (g : A -> A) (l : list A) : (forall x, f (g x) = f x) -> total f (map g l) = total f l.
Proof. intros Hg. induction l as [|x l IH]; cbn; [done|]. unfold total in *. cbn. by rewrite Hg, IH. Qed.

(** Two functions that differ at one element. *)
Lemma total_swap {A} (f g : A -> nat) (l : list A) p :
  NoDup l -> p ∈ l -> (forall q, q ∈ l -> q <> p -> f q = g q) -> (total f l + g p = total g l + f p)%nat.
Proof.
  intros Hnd. revert p. induction Hnd as [|z l Hz Hnd IH]; intros p Hp Hfg; [by apply elem_of_nil in Hp|].
  rewrite !total_cons. apply elem_of_cons in Hp as [->|Hp].
  - assert (total f l = total g l) as ->; [|lia]. clear IH Hnd. induction l as [|y l IH]; [done|].
    apply not_elem_of_cons in Hz as [Hzy Hz]. rewrite !total_cons, IH; [|done|].
    + f_equal. apply Hfg; [|done]. apply list_elem_of_further, list_elem_of_here.
    + intros q [->|Hq]%elem_of_cons; [by intros ?|]. apply Hfg. by do 2 apply list_elem_of_further.
  - assert (z <> p) by (intros ->; done). rewrite (Hfg z) by (done || apply list_elem_of_here).
    specialize (IH p Hp (fun q Hq => Hfg q (list_elem_of_further _ _ _ Hq))). lia.
Qed.

Lemma total_0 {A} (f : A -> nat) (l : list A) : total f l = 0%nat <-> Forall (fun x => f x = 0%nat) l.
Proof.
  induction l as [|x l IH]; unfold total in *; cbn; [done|]. rewrite Forall_cons, <- IH. lia.
Qed.

Lemma total_le {A} (f g : A -> nat) (l : list A) : (forall x, x ∈ l -> f x <= g x)%nat -> (total f l <= total g l)%nat.
Proof.
  induction l as [|x l IH]; intros Hfg; unfold total in *; cbn; [lia|].
  pose proof (Hfg x (list_elem_of_here _ _)). assert (sum_list_with f l <= sum_list_with g l)%nat; [|lia].
  apply IH. intros y Hy. apply Hfg. by right.
Qed.

Lemma bind_update {A B} (f : A -> list B) (l : list A) i x y :
  l !! i = Some x -> (<[i := y]> l ≫= f) ++ f x ≡ₚ (l ≫= f) ++ f y.
Proof.
  revert i. induction l as [|z l IH]; intros [|i] Hi; simplify_eq/=.
  - by rewrite <- !app_assoc, (Permutation_app_comm (f y)), !(assoc_L (++)), (Permutation_app_comm (f x)).
  - rewrite <- !app_assoc. by apply Permutation_app_head, IH.
Qed.

Lemma bind_map {A B} (f : A -> list B) (g : A -> A) (l : list A) : (forall x, f (g x) = f x) -> map g l ≫= f = l ≫= f.
Proof. intros Hg. induction l as [|x l IH]; cbn; [done|]. by rewrite Hg, IH. Qed.

Lemma bind_update_same {A B} (f : A -> list B) (l : list A) i x y :
  l !! i = Some x -> f y = f x -> <[i := y]> l ≫= f = l ≫= f.
Proof.
  revert i. induction l as [|z l IH]; intros [|i] Hi Hf; simplify_eq/=; [by rewrite Hf|]. by rewrite (IH i).
Qed.

Lemma total_bound {A} (f : A -> nat) (l : list A) : (forall x, f x <= 1)%nat -> (total f l <= length l)%nat.
Proof. intros Hf. induction l as [|x l IH]; [done|]. rewrite total_cons. cbn [length]. specialize (Hf x). lia. Qed.

Lemma total_room {A} (f : A -> nat) (l : list A) p :
  (forall x, x ∈ l -> f x <= 1)%nat -> p ∈ l -> f p = 0%nat -> (total f l < length l)%nat.
Proof.
  intros Hf. induction l as [|x l IH]; [intros Hp; by apply elem_of_nil in Hp|]. rewrite total_cons. cbn [length].
  assert (Hl : (total f l <= length l)%nat).
  { clear IH. assert (Hf' : forall y, y ∈ l -> (f y <= 1)%nat) by (intros y Hy; apply Hf; by right). clear Hf.
    induction l as [|y l IH]; [done|]. rewrite total_cons. cbn [length]. pose proof (Hf' y (list_elem_of_here _ _)).
    assert (total f l <= length l)%nat; [|lia]. apply IH. intros z Hz. apply Hf'. by right. }
  pose proof (Hf x (list_elem_of_here _ _)). intros [->|Hp]%elem_of_cons Hz; [lia|].
  assert (total f l < length l)%nat; [|lia]. apply IH; [|done..]. intros y Hy. apply Hf. by right.
Qed.

Lemma total_lookup {A} (f : A -> nat) (l : list A) i x : l !! i = Some x -> (f x <= total f l)%nat.
Proof.
  revert i. induction l as [|z l IH]; intros [|i] Hi; simplify_eq/=; unfold total in *; cbn [sum_list_with]; [lia|].
  specialize (IH i Hi). lia.
Qed.

Lemma bind_lookup {A B} (f : A -> list B) (l : list A) i x y : l !! i = Some x -> y ∈ f x -> y ∈ l ≫= f.
Proof. intros Hi Hy. apply list_elem_of_bind. exists x. split; [done|]. by eapply list_elem_of_lookup_2. Qed.

Lemma total_ext {A} (f g : A -> nat) (l : list A) : (forall x, x ∈ l -> f x = g x) -> total f l = total g l.
Proof. intros Hfg. apply Nat.le_antisymm; apply total_le; intros x Hx; by rewrite Hfg. Qed.

(** Two functions of which one is greater at one element. *)
Lemma total_at {A} (f g : A -> nat) (l : list A) p d :
  NoDup l -> p ∈ l -> (forall q, q ∈ l -> q <> p -> f q = g q) -> f p = (d + g p)%nat -> total f l = (d + total g l)%nat.
Proof. intros Hnd Hp Hfg Hd. pose proof (total_swap f g l p Hnd Hp Hfg). lia. Qed.

Lemma total_succ {A} (f : A -> nat) (l : list A) : total (fun x => f x + 1)%nat l = (length l + total f l)%nat.
Proof. induction l as [|x l IH]; [done|]. rewrite !total_cons, IH. cbn [length]. lia. Qed.

(** A list in the middle of which something is has one element at most. *)
Lemma app_cons_at_most_one {A} (l1 l2 : list A) x (b : bool) y :
  l1 ++ x :: l2 = (if b then [y] else []) -> b = true /\ l1 = [] /\ x = y /\ l2 = [].
Proof. destruct b, l1 as [|z [|? l1]]; cbn; by intros [=]. Qed.

Lemma perm_exchange {A} (a b c d : list A) : (a ++ b) ++ (c ++ d) ≡ₚ (a ++ c) ++ (b ++ d).
Proof. by rewrite <- !app_assoc, (Permutation_app_swap_app b c). Qed.

(** A sum of three readings of which a step moves parts from one to another:
    [e], [a0], [u0] leave, [a1], [u1] come. *)
Lemma perm_balance {A} (t e a a' u u' a0 a1 u0 u1 ms : list A) :
  a' ++ a0 ≡ₚ a ++ a1 -> u' ++ u0 ≡ₚ u ++ u1 -> e ++ a1 ++ u1 ≡ₚ a0 ++ u0 -> t ++ a ++ u ≡ₚ ms -> (t ++ e) ++ a' ++ u' ≡ₚ ms.
Proof.
  intros Ha Hu He Ht. apply (inj (.++ (a0 ++ u0))).
  rewrite <- (assoc_L (++) (t ++ e)), (perm_exchange a' u'), Ha, Hu, (perm_exchange a a1), (perm_exchange t e), He.
  by rewrite Ht.
Qed.
