(* ===== verification/MemoryPool.v ===== *)
(** * MemoryPool: the fixed-block allocator (memory_pool.h, memory_pool.cpp)

    The pool is modelled at byte level: [pool_data] is the buffer the
    constructor obtains, the free list is threaded through the first
    [sizeof(void* )] bytes of the free blocks, and every access through a
    pointer is bounds-checked, an access outside the buffer being undefined
    behaviour. The abstract view is a stack of free block addresses
    ([pool_rep]); the operations are shown to be its push and pop. *)

From S2P Require Import Prelude.
#[local] Open Scope Z_scope.

(** ** Data *)

(** [sizeof(void* )] on the 64-bit targets the code is built for. *)
Definition sizeof_ptr : nat := 8.
Definition nullptr : Z := 0.

Record MemoryPool := mkMemoryPool {
  block_size : Z;
  block_count : Z;
  pool_base : Z;        (* pool_data.get() *)
  pool_data : list Z;   (* the bytes behind it *)
  free_list : Z
}.

Definition set_free_list (a : Z) (p : MemoryPool) : MemoryPool :=
  mkMemoryPool (block_size p) (block_count p) (pool_base p) (pool_data p) a.
Definition set_pool_data (d : list Z) (p : MemoryPool) : MemoryPool :=
  mkMemoryPool (block_size p) (block_count p) (pool_base p) d (free_list p).

(** ** Access through a pointer *)

Definition in_buffer (p : MemoryPool) (addr : Z) (n : nat) : Prop :=
  pool_base p <= addr /\ addr + Z.of_nat n <= pool_base p + Z.of_nat (length (pool_data p)).
#[export] Instance in_buffer_dec p addr n : Decision (in_buffer p addr n).
Proof. unfold in_buffer. apply _. Defined.

Definition offset (p : MemoryPool) (addr : Z) : nat := Z.to_nat (addr - pool_base p).

Definition load_bytes (p : MemoryPool) (addr : Z) (n : nat) : result (list Z) :=
  require_defined (in_buffer p addr n) "read outside the pool buffer" ≫= fun _ =>
  Ok (read_at (offset p addr) n (pool_data p)).

Definition store_bytes (p : MemoryPool) (addr : Z) (bs : list Z) : result MemoryPool :=
  require_defined (in_buffer p addr (length bs)) "write outside the pool buffer" ≫= fun _ =>
  Ok (set_pool_data (write_at (offset p addr) bs (pool_data p)) p).

(** [*reinterpret_cast<std::byte**>(addr)] read and assigned. *)
Definition load_ptr (p : MemoryPool) (addr : Z) : result Z :=
  bs ← load_bytes p addr sizeof_ptr; Ok (le_decode bs).
Definition store_ptr (p : MemoryPool) (addr v : Z) : result MemoryPool :=
  store_bytes p addr (le_encode sizeof_ptr v).

(** ** Operations *)

(** [pool_data.get() + block_size * block_count], the product in [std::size_t]. *)
Definition pool_size (bs bc : Z) : Z := u64 (bs * bc).
Definition pool_end (p : MemoryPool) : Z := pool_base p + pool_size (block_size p) (block_count p).

(** The constructor's loop: [n] more links to write, the next at [current_block]. *)
Fixpoint link_blocks (n : nat) (p : MemoryPool) (current_block : Z) : result (MemoryPool * Z) :=
  match n with
  | O => Ok (p, current_block)
  | S n' =>
      let next := current_block + block_size p in
      p' ← store_ptr p current_block next;
      link_blocks n' p' next
  end.

(** [MemoryPool::MemoryPool]; [base] is the address [std::make_unique]
    returns for the zero-initialised buffer. *)
Definition MemoryPool_new (base block_size block_count : Z) : result MemoryPool :=
  assert_that (0 < block_count) "block_count must be greater than 0" ≫= fun _ =>
  assert_that (Z.of_nat sizeof_ptr < block_size) "block_size must be greater than a pointer size" ≫= fun _ =>
  let data := replicate (Z.to_nat (pool_size block_size block_count)) 0 in
  let p := mkMemoryPool block_size block_count base data base in
  '(p, current_block) ← link_blocks (Z.to_nat (block_count - 1)) p (free_list p);
  store_ptr p current_block nullptr.

(** [MemoryPool::allocate]: the address handed out, [nullptr] when exhausted. *)
Definition allocate (p : MemoryPool) : result (Z * MemoryPool) :=
  if decide (free_list p = nullptr) then Ok (nullptr, p)
  else
    assert_that (pool_base p <= free_list p /\ free_list p < pool_end p)
      "free_list pointer is out of range" ≫= fun _ =>
    let allocated_block := free_list p in
    next ← load_ptr p (free_list p);
    Ok (allocated_block, set_free_list next p).

(** [MemoryPool::deallocate]. *)
Definition deallocate (p : MemoryPool) (ptr : Z) : result MemoryPool :=
  assert_that (pool_base p <= ptr /\ ptr < pool_end p)
    "Trying to deallocate a pointer not in the memory pool" ≫= fun _ =>
  p ← store_ptr p ptr (free_list p);
  Ok (set_free_list ptr p).

(** ** The abstract view: a stack of free blocks *)

Definition nth_block (p : MemoryPool) (i : nat) : Z := pool_base p + block_size p * Z.of_nat i.
Definition all_blocks (base bs bc : Z) : list Z :=
  (fun i => base + bs * Z.of_nat i) <$> seq 0 (Z.to_nat bc).
Definition blocks (p : MemoryPool) : list Z :=
  all_blocks (pool_base p) (block_size p) (block_count p).

(** What the constructor establishes and nothing later changes. *)
Record pool_geometry (p : MemoryPool) : Prop := {
  geo_block_size : Z.of_nat sizeof_ptr < block_size p;
  geo_block_count : 0 < block_count p;
  geo_no_wrap : block_size p * block_count p < 2 ^ 64;
  geo_base : 0 < pool_base p;
  geo_end : pool_base p + block_size p * block_count p <= 2 ^ 64;
  geo_data : Z.of_nat (length (pool_data p)) = block_size p * block_count p
}.

(** The linked list that starts at [hd] visits exactly [l]. *)
Fixpoint chain (p : MemoryPool) (hd : Z) (l : list Z) : Prop :=
  match l with
  | [] => hd = nullptr
  | a :: l' => hd = a /\ exists next, load_ptr p a = Ok next /\ chain p next l'
  end.

Record pool_rep (p : MemoryPool) (free : list Z) : Prop := {
  rep_geometry : pool_geometry p;
  rep_nodup : NoDup free;
  rep_blocks : free ⊆ blocks p;
  rep_chain : chain p (free_list p) free
}.

(** [p'] is [p] but for the bytes and the head of the free list. *)
Definition same_shape (p p' : MemoryPool) : Prop :=
  block_size p' = block_size p /\ block_count p' = block_count p /\
  pool_base p' = pool_base p /\ length (pool_data p') = length (pool_data p).

(** The abstract pool: allocation pops, deallocation pushes. *)
Module Spec.
Inductive op := Allocate | Deallocate (ptr : Z).

(** [None]: a use the pool's contract excludes (freeing what is not held). *)
Definition step (all : list Z) (free : list Z) (o : op) : option (Z * list Z) :=
  match o with
  | Allocate => Some (match free with [] => (nullptr, []) | a :: free' => (a, free') end)
  | Deallocate a => if decide (a ∈ all /\ a ∉ free) then Some (a, a :: free) else None
  end.

Fixpoint run (all : list Z) (free : list Z) (os : list op) : option (list Z * list Z) :=
  match os with
  | [] => Some ([], free)
  | o :: os' =>
      '(r, free') ← step all free o;
      '(rs, free'') ← run all free' os';
      Some (r :: rs, free'')
  end.
End Spec.

(** The same programs run on the pool itself. *)
Definition pool_exec (p : MemoryPool) (o : Spec.op) : result (Z * MemoryPool) :=
  match o with
  | Spec.Allocate => allocate p
  | Spec.Deallocate a => p' ← deallocate p a; Ok (a, p')
  end.

Fixpoint pool_exec_all (p : MemoryPool) (os : list Spec.op) : result (list Z * MemoryPool) :=
  match os with
  | [] => Ok ([], p)
  | o :: os' =>
      '(r, p') ← pool_exec p o;
      '(rs, p'') ← pool_exec_all p' os';
      Ok (r :: rs, p'')
  end.

(** ** Lemmas: memory accesses *)

Section access.
Implicit Types p : MemoryPool.

Lemma same_shape_refl p : same_shape p p.
Proof. by repeat split. Qed.

Lemma same_shape_sym p p' : same_shape p p' -> same_shape p' p.
Proof. unfold same_shape. intuition congruence. Qed.

Lemma same_shape_trans p1 p2 p3 : same_shape p1 p2 -> same_shape p2 p3 -> same_shape p1 p3.
Proof. unfold same_shape. intuition congruence. Qed.

Lemma same_shape_blocks p p' : same_shape p p' -> blocks p' = blocks p.
Proof.
  intros (Hs & Hc & Hb & _). unfold blocks, nth_block. by rewrite Hs, Hc, Hb.
Qed.

Lemma same_shape_nth p p' i : same_shape p p' -> nth_block p' i = nth_block p i.
Proof. intros (Hs & _ & Hb & _). unfold nth_block. by rewrite Hs, Hb. Qed.

Lemma same_shape_geometry p p' : same_shape p p' -> pool_geometry p -> pool_geometry p'.
Proof.
  intros (Hs & Hc & Hb & Hd) []. constructor; rewrite ?Hs, ?Hc, ?Hb, ?Hd; done.
Qed.

Lemma same_shape_in_buffer p p' a n : same_shape p p' -> in_buffer p a n -> in_buffer p' a n.
Proof. intros (_ & _ & Hb & Hd). unfold in_buffer. by rewrite Hb, Hd. Qed.

Lemma load_bytes_ok p a n :
  in_buffer p a n -> load_bytes p a n = Ok (read_at (offset p a) n (pool_data p)).
Proof. intros H. unfold load_bytes. by pass_check ltac:(exact H). Qed.

Lemma store_bytes_ok p a bs :
  in_buffer p a (length bs) ->
  exists p', store_bytes p a bs = Ok p' /\ same_shape p p' /\ free_list p' = free_list p /\
    load_bytes p' a (length bs) = Ok bs.
Proof.
  intros H. unfold store_bytes. pass_check ltac:(exact H).
  eexists; split; [done|]. unfold in_buffer in H.
  assert (offset p a + length bs <= length (pool_data p))%nat by (unfold offset; lia).
  split; [|split; [done|]].
  - repeat split. by apply length_write_at.
  - rewrite load_bytes_ok.
    + cbn. f_equal. by apply read_write_same.
    + unfold in_buffer; cbn. rewrite length_write_at by done. lia.
Qed.

Lemma load_bytes_same_data p p' a n :
  same_shape p p' -> pool_data p' = pool_data p -> load_bytes p' a n = load_bytes p a n.
Proof. destruct p, p'; cbn. by intros (? & ? & ? & _) ?; cbn in *; subst. Qed.

(** The frame property of a store. *)
Lemma store_bytes_frame p a bs p' a' n :
  store_bytes p a bs = Ok p' ->
  a' + Z.of_nat n <= a \/ a + Z.of_nat (length bs) <= a' ->
  load_bytes p' a' n = load_bytes p a' n.
Proof.
  intros Hst Hdis. unfold store_bytes in Hst. inv_bind.
  match goal with H : in_buffer p a _ |- _ => rename H into Hin; unfold in_buffer in Hin end.
  assert (offset p a + length bs <= length (pool_data p))%nat by (unfold offset; lia).
  set (p' := set_pool_data _ p).
  assert (Hsh : same_shape p p') by (repeat split; by apply length_write_at).
  destruct (decide (in_buffer p a' n)) as [Hin'|Hin'].
  - rewrite !load_bytes_ok by eauto using same_shape_in_buffer. f_equal.
    unfold in_buffer in Hin'. apply read_write_disjoint; [done|]. unfold offset in *; cbn. lia.
  - unfold load_bytes. rewrite !require_defined_false; [done|done|].
    contradict Hin'. eapply same_shape_in_buffer; [|exact Hin']. by apply same_shape_sym.
Qed.

Lemma store_ptr_load p a v :
  in_buffer p a sizeof_ptr -> 0 <= v < 2 ^ 64 ->
  exists p', store_ptr p a v = Ok p' /\ same_shape p p' /\ free_list p' = free_list p /\
    load_ptr p' a = Ok v.
Proof.
  intros Hin Hv. destruct (store_bytes_ok p a (le_encode sizeof_ptr v)) as (p' & ? & ? & ? & Hl).
  { by rewrite length_le_encode. }
  exists p'. do 3 (split; [done|]). rewrite length_le_encode in Hl.
  unfold load_ptr. rewrite Hl. cbn -[le_encode]. by rewrite le_decode_encode.
Qed.

Lemma store_ptr_frame p a v p' a' n :
  store_ptr p a v = Ok p' ->
  a' + Z.of_nat n <= a \/ a + Z.of_nat sizeof_ptr <= a' ->
  load_bytes p' a' n = load_bytes p a' n.
Proof.
  intros Hst ?. eapply store_bytes_frame; [exact Hst|]. by rewrite length_le_encode.
Qed.
End access.

(** ** Lemmas: blocks *)

Section blocks.
Implicit Types p : MemoryPool.

Lemma elem_of_blocks p a :
  a ∈ blocks p <->
  exists i, (i < Z.to_nat (block_count p))%nat /\ a = nth_block p i.
Proof.
  unfold blocks, all_blocks. rewrite list_elem_of_fmap. setoid_rewrite elem_of_seq.
  split; intros (i & ? & ?); exists i; split; (done || lia).
Qed.

Lemma length_blocks p : length (blocks p) = Z.to_nat (block_count p).
Proof. unfold blocks, all_blocks. by rewrite length_fmap, length_seq. Qed.

Lemma pool_size_exact p :
  pool_geometry p -> pool_size (block_size p) (block_count p) = block_size p * block_count p.
Proof. intros []. apply u64_small. nia. Qed.

Lemma block_bounds p a :
  pool_geometry p -> a ∈ blocks p ->
  pool_base p <= a /\ a + block_size p <= pool_base p + block_size p * block_count p.
Proof.
  intros [] (i & ? & ->)%elem_of_blocks. unfold nth_block.
  assert (Z.of_nat i + 1 <= block_count p) by lia. nia.
Qed.

Lemma block_nonnull p a : pool_geometry p -> a ∈ blocks p -> 0 < a < 2 ^ 64.
Proof. intros G Ha. pose proof (block_bounds p a G Ha). destruct G. unfold sizeof_ptr in *. lia. Qed.

Lemma block_in_buffer p a n :
  pool_geometry p -> a ∈ blocks p -> Z.of_nat n <= block_size p -> in_buffer p a n.
Proof.
  intros G Ha Hn. pose proof (block_bounds p a G Ha). destruct G. unfold in_buffer. lia.
Qed.

Lemma block_in_range p a :
  pool_geometry p -> a ∈ blocks p -> pool_base p <= a /\ a < pool_end p.
Proof.
  intros G Ha. unfold pool_end. rewrite pool_size_exact by done.
  pose proof (block_bounds p a G Ha). destruct G. unfold sizeof_ptr in *. lia.
Qed.

Lemma ptr_fits p : pool_geometry p -> Z.of_nat sizeof_ptr <= block_size p.
Proof. intros []. lia. Qed.

(** Two different blocks never share a byte. *)
Lemma blocks_apart p a b :
  pool_geometry p -> a ∈ blocks p -> b ∈ blocks p -> a <> b ->
  a + block_size p <= b \/ b + block_size p <= a.
Proof.
  intros [] (i & ? & ->)%elem_of_blocks (j & ? & ->)%elem_of_blocks Hne.
  unfold nth_block in *. unfold sizeof_ptr in *.
  destruct (Nat.lt_trichotomy i j) as [|[->|]]; [left|done|right]; nia.
Qed.

Lemma NoDup_blocks p : pool_geometry p -> NoDup (blocks p).
Proof.
  intros []. unfold blocks. apply NoDup_fmap_2_strong; [|apply NoDup_seq].
  intros i j _ _. unfold sizeof_ptr in *. nia.
Qed.
End blocks.

#[export] Hint Resolve same_shape_refl same_shape_in_buffer same_shape_geometry
  block_in_buffer block_in_range ptr_fits : pool.

(** ** Lemmas: the free list *)

Section free_list.
Implicit Types p : MemoryPool.

Lemma chain_frame p p' hd l :
  (forall a, a ∈ l -> load_ptr p' a = load_ptr p a) -> chain p hd l -> chain p' hd l.
Proof.
  revert hd. induction l as [|a l IH]; intros hd Hld; cbn; [done|].
  intros (-> & nx & Hl & Hc). split; [done|]. exists nx. split.
  - by rewrite Hld by apply list_elem_of_here.
  - apply IH; [|done]. intros b Hb. apply Hld. by apply list_elem_of_further.
Qed.

Lemma chain_head p hd l :
  pool_geometry p -> l ⊆ blocks p -> chain p hd l -> 0 <= hd < 2 ^ 64.
Proof.
  intros G Hsub. destruct l as [|a l]; cbn; [unfold nullptr; lia|]. intros [-> _].
  assert (Ha : a ∈ blocks p) by apply Hsub, list_elem_of_here.
  pose proof (block_nonnull p a G Ha). lia.
Qed.

(** A store confined to a block leaves the other blocks' bytes alone. *)
Lemma store_other_block p a b bs p' n :
  pool_geometry p -> a ∈ blocks p -> b ∈ blocks p -> a <> b ->
  Z.of_nat (length bs) <= block_size p -> Z.of_nat n <= block_size p ->
  store_bytes p a bs = Ok p' -> load_bytes p' b n = load_bytes p b n.
Proof.
  intros G Ha Hb Hne ?? Hst. eapply store_bytes_frame; [exact Hst|].
  pose proof (blocks_apart p a b G Ha Hb Hne). lia.
Qed.

(** What a client writes to a block it holds does not touch the pool's
    own structure, nor any other block. *)
Lemma client_store p free a bs :
  pool_rep p free -> a ∈ blocks p -> a ∉ free -> Z.of_nat (length bs) <= block_size p ->
  exists p', store_bytes p a bs = Ok p' /\ pool_rep p' free /\ same_shape p p' /\
    free_list p' = free_list p /\ load_bytes p' a (length bs) = Ok bs /\
    (forall b n, b ∈ blocks p -> b <> a -> Z.of_nat n <= block_size p ->
       load_bytes p' b n = load_bytes p b n).
Proof.
  intros [G ND Hsub Hch] Ha Hfree Hlen.
  destruct (store_bytes_ok p a bs) as (p' & Hst & Hsh & Hfl & Hld); [by eauto with pool|].
  assert (Hother : forall b n, b ∈ blocks p -> b <> a -> Z.of_nat n <= block_size p ->
            load_bytes p' b n = load_bytes p b n)
    by (intros b n Hb Hne Hn; by apply (store_other_block p a b bs)).
  exists p'. do 2 (split; [done || constructor|]); eauto with pool.
  - by rewrite (same_shape_blocks p p').
  - rewrite Hfl. eapply chain_frame; [|exact Hch]. intros b Hb. unfold load_ptr.
    rewrite Hother; [done|by apply Hsub|congruence|by apply ptr_fits].
Qed.

Lemma allocate_empty p : pool_rep p [] -> allocate p = Ok (nullptr, p).
Proof. intros [_ _ _ Hch]. unfold allocate. by rewrite decide_True. Qed.

Lemma allocate_pop p a free :
  pool_rep p (a :: free) ->
  exists p', allocate p = Ok (a, p') /\ pool_rep p' free /\ same_shape p p' /\
    pool_data p' = pool_data p /\ a ∈ blocks p /\ a ∉ free.
Proof.
  intros [G ND Hsub (Hhd & nx & Hld & Hch)]. apply NoDup_cons in ND as [Hna ND].
  assert (Ha : a ∈ blocks p) by apply Hsub, list_elem_of_here.
  unfold allocate. rewrite Hhd, decide_False by (pose proof (block_nonnull p a G Ha); unfold nullptr; lia).
  pass_check ltac:(by apply block_in_range). rewrite Hld; cbn [mbind result_bind].
  exists (set_free_list nx p). split; [done|]. split; [|done].
  constructor; [by destruct G; constructor|done| |].
  - intros b Hb. apply Hsub. by apply list_elem_of_further.
  - eapply chain_frame; [|exact Hch]. done.
Qed.

Lemma deallocate_push p a free :
  pool_rep p free -> a ∈ blocks p -> a ∉ free ->
  exists p', deallocate p a = Ok p' /\ pool_rep p' (a :: free) /\ same_shape p p' /\
    (forall b n, b ∈ blocks p -> b <> a -> Z.of_nat n <= block_size p ->
       load_bytes p' b n = load_bytes p b n).
Proof.
  intros Hrep Ha Hfree. pose proof Hrep as [G ND Hsub Hch]. unfold deallocate.
  pass_check ltac:(by apply block_in_range).
  destruct (client_store p free a (le_encode sizeof_ptr (free_list p)))
    as (p' & Hst & [G' _ Hsub' Hch'] & Hsh & Hfl & Hld & Hother);
    [done..|rewrite length_le_encode; by apply ptr_fits|].
  unfold store_ptr. rewrite Hst; cbn [mbind result_bind].
  exists (set_free_list a p'). split; [done|]. split; [|done].
  constructor; cbn -[le_encode].
  - by destruct G'; constructor.
  - by constructor.
  - intros b [->|Hb]%elem_of_cons; [|by apply Hsub'].
    change (a ∈ blocks p'). by rewrite (same_shape_blocks p p').
  - split; [done|]. exists (free_list p). split.
    + change (load_ptr p' a = Ok (free_list p)). unfold load_ptr.
      rewrite length_le_encode in Hld. rewrite Hld. cbn -[le_encode].
      rewrite le_decode_encode; [done|]. by apply (chain_head p _ free).
    + rewrite Hfl in Hch'. eapply chain_frame; [|exact Hch']. done.
Qed.
End free_list.

(** ** Lemmas: the constructor *)

Section construction.
Implicit Types p : MemoryPool.

Lemma nth_block_elem p j : (j < Z.to_nat (block_count p))%nat -> nth_block p j ∈ blocks p.
Proof. intros Hj. apply elem_of_blocks. by exists j. Qed.

Lemma nth_block_in_buffer p j :
  pool_geometry p -> (j < Z.to_nat (block_count p))%nat -> in_buffer p (nth_block p j) sizeof_ptr.
Proof. intros. apply block_in_buffer; auto using nth_block_elem, ptr_fits. Qed.

(** Writing the link in one block keeps the links in the others. *)
Lemma store_ptr_other p i j v p' :
  pool_geometry p -> i <> j -> store_ptr p (nth_block p i) v = Ok p' ->
  load_ptr p' (nth_block p j) = load_ptr p (nth_block p j).
Proof.
  intros G Hne Hst. unfold load_ptr. erewrite store_ptr_frame; [done|exact Hst|].
  pose proof (ptr_fits p G). unfold nth_block, sizeof_ptr in *. destruct G.
  destruct (Nat.lt_trichotomy i j) as [|[|]]; [right|done|left]; nia.
Qed.

(** The loop writes the link of blocks [i], ..., [i + n - 1] and no other. *)
Lemma link_blocks_ok n p i :
  pool_geometry p -> (i + n < Z.to_nat (block_count p))%nat ->
  exists p', link_blocks n p (nth_block p i) = Ok (p', nth_block p (i + n)) /\ same_shape p p' /\
    free_list p' = free_list p /\
    (forall j, (i <= j < i + n)%nat -> load_ptr p' (nth_block p j) = Ok (nth_block p (S j))) /\
    (forall j, (j < i)%nat -> load_ptr p' (nth_block p j) = load_ptr p (nth_block p j)).
Proof.
  revert p i. induction n as [|n IH]; intros p i G Hn; cbn [link_blocks].
  { exists p. rewrite Nat.add_0_r. split_and!; try done. intros j ?. lia. }
  replace (nth_block p i + block_size p) with (nth_block p (S i)) by (unfold nth_block; lia).
  destruct (store_ptr_load p (nth_block p i) (nth_block p (S i))) as (p1 & Hst & Hsh & Hfl & Hld).
  { apply nth_block_in_buffer; [done|lia]. }
  { pose proof (block_nonnull p (nth_block p (S i)) G ltac:(apply nth_block_elem; lia)). lia. }
  rewrite Hst; cbn [mbind result_bind]. pose proof Hsh as (_ & Ec & _).
  destruct (IH p1 (S i)) as (p2 & Hlk & Hsh2 & Hfl2 & Hset & Hkeep);
    [by eauto with pool|rewrite Ec; lia|].
  rewrite !(same_shape_nth p p1) in Hlk by done.
  exists p2. rewrite Hlk, <- Nat.add_succ_comm. split_and!; [done|..].
  - by eapply same_shape_trans.
  - congruence.
  - intros j Hj. rewrite <- !(same_shape_nth p p1) by done.
    destruct (decide (j = i)) as [->|]; [|apply Hset; lia].
    rewrite Hkeep by lia. by rewrite !(same_shape_nth p p1).
  - intros j Hj. rewrite <- (same_shape_nth p p1) by done. rewrite Hkeep by lia.
    rewrite (same_shape_nth p p1) by done. eapply store_ptr_other; [done| |exact Hst]. lia.
Qed.

(** A chain of consecutive links is the run of blocks it starts at. *)
Lemma consecutive_chain p k i :
  (forall j, (i <= j < i + k)%nat -> load_ptr p (nth_block p j) = Ok (nth_block p (S j))) ->
  load_ptr p (nth_block p (i + k)) = Ok nullptr ->
  chain p (nth_block p i) ((fun j => nth_block p j) <$> seq i (S k)).
Proof.
  revert i. induction k as [|k IH]; intros i Hlink Hlast.
  { cbn. rewrite Nat.add_0_r in Hlast. split; [done|]. by exists nullptr. }
  change (chain p (nth_block p i) (nth_block p i :: (nth_block p <$> seq (S i) (S k)))).
  split; [done|]. exists (nth_block p (S i)). split; [apply Hlink; lia|]. apply IH.
  - intros j Hj. apply Hlink. lia.
  - by rewrite Nat.add_succ_comm.
Qed.

(** [std::make_unique] hands out a non-null region inside the address space. *)
Definition fresh_region (base size : Z) : Prop := 0 < base /\ base + size <= 2 ^ 64.

(** The constructor's two writing phases, from any state of the right geometry. *)
Lemma build_free_list p :
  pool_geometry p -> free_list p = pool_base p ->
  exists p', ('(p', cur) ← link_blocks (Z.to_nat (block_count p - 1)) p (free_list p);
              store_ptr p' cur nullptr) = Ok p' /\
    same_shape p p' /\ pool_rep p' (blocks p').
Proof.
  intros G Hfree. pose proof (geo_block_count p G).
  set (k := Z.to_nat (block_count p - 1)).
  destruct (link_blocks_ok k p 0 G) as (p1 & Hlk & Hsh & Hfl & Hset & _); [lia|].
  replace (free_list p) with (nth_block p 0) by (unfold nth_block; lia).
  rewrite Hlk; cbn [mbind result_bind Nat.add] in *. pose proof Hsh as (_ & Ec & Eb & _).
  destruct (store_ptr_load p1 (nth_block p1 k) nullptr) as (p2 & Hst & Hsh2 & Hfl2 & Hld).
  { apply nth_block_in_buffer; [by eauto with pool|lia]. }
  { by unfold nullptr. }
  rewrite (same_shape_nth p p1) in Hst, Hld by done. exists p2. split; [done|].
  pose proof (same_shape_trans _ _ _ Hsh Hsh2) as Hsh'. pose proof Hsh' as (_ & Ec' & Eb' & _).
  split; [done|]. assert (G2 : pool_geometry p2) by eauto with pool.
  constructor; [done|by apply NoDup_blocks|done|].
  replace (free_list p2) with (nth_block p2 0)
    by (rewrite Hfl2, Hfl, Hfree, (same_shape_nth p p2) by done; unfold nth_block; lia).
  unfold blocks, all_blocks. replace (Z.to_nat (block_count p2)) with (S k) by lia.
  apply consecutive_chain; [intros j Hj|]; rewrite !(same_shape_nth p p2) by done; [|done].
  rewrite <- Hset by done. rewrite <- !(same_shape_nth p p1) in * by done.
  eapply store_ptr_other; [by eauto with pool| |exact Hst]. lia.
Qed.

Lemma MemoryPool_new_ok base bs bc :
  Z.of_nat sizeof_ptr < bs -> 0 < bc -> bs * bc < 2 ^ 64 -> fresh_region base (bs * bc) ->
  exists p, MemoryPool_new base bs bc = Ok p /\ pool_rep p (blocks p) /\
    block_size p = bs /\ block_count p = bc /\ pool_base p = base.
Proof.
  intros Hbs Hbc Hwrap [Hbase Hend]. unfold MemoryPool_new.
  do 2 pass_check ltac:(done).
  assert (Hsize : pool_size bs bc = bs * bc) by (apply u64_small; nia).
  set (p0 := mkMemoryPool _ _ _ _ _).
  destruct (build_free_list p0) as (p & Hnew & (Es & Ec & Eb & _) & Hrep); [|done|by exists p].
  constructor; try done. cbn. rewrite length_replicate, Hsize. nia.
Qed.
End construction.

(** ** Lemmas: programs over the pool *)

Section programs.
Implicit Types p : MemoryPool.

Lemma pool_exec_refines p free o r free' :
  pool_rep p free -> Spec.step (blocks p) free o = Some (r, free') ->
  exists p', pool_exec p o = Ok (r, p') /\ pool_rep p' free' /\ same_shape p p'.
Proof.
  intros Hrep. destruct o as [|a]; cbn.
  - destruct free as [|a free0]; intros [= <- <-].
    + exists p. rewrite allocate_empty by done. auto with pool.
    + destruct (allocate_pop p a free0 Hrep) as (p' & ? & ? & ? & _). eauto.
  - case_decide as Hheld; [|done]. intros [= <- <-]. destruct Hheld as [Ha Hfree].
    destruct (deallocate_push p a free Hrep Ha Hfree) as (p' & Hd & ? & ? & _).
    exists p'. by rewrite Hd.
Qed.

Lemma pool_exec_all_refines p free os rs free' :
  pool_rep p free -> Spec.run (blocks p) free os = Some (rs, free') ->
  exists p', pool_exec_all p os = Ok (rs, p') /\ pool_rep p' free' /\ same_shape p p'.
Proof.
  revert p free rs. induction os as [|o os IH]; intros p free rs Hrep Hrun; cbn in *.
  { injection Hrun as <- <-. eauto with pool. }
  apply bind_Some in Hrun as ([r free1] & Hstep & Hrun).
  apply bind_Some in Hrun as ([rs1 free2] & Hrun & [= <- <-]).
  destruct (pool_exec_refines p free o r free1 Hrep Hstep) as (p1 & -> & Hrep1 & Hsh1).
  rewrite <- (same_shape_blocks p p1) in Hrun by done.
  destruct (IH p1 free1 rs1 Hrep1 Hrun) as (p2 & Hex & Hrep2 & Hsh2).
  exists p2. cbn. rewrite Hex. split; [done|]. eauto using same_shape_trans.
Qed.

Lemma spec_allocate_all all (free : list Z) n :
  Spec.run all free (replicate (length free + n) Spec.Allocate) =
    Some (free ++ replicate n nullptr, []).
Proof.
  induction free as [|a free IH]; cbn.
  - induction n as [|n IHn]; cbn; [done|]. by rewrite IHn.
  - by rewrite IH.
Qed.

(** Without the bounds the buffer gives them, the constructor's writes fail. *)
Lemma link_blocks_cases n p cur :
  (exists p', link_blocks n p cur = Ok (p', cur + block_size p * Z.of_nat n) /\ same_shape p p') \/
  (exists why, link_blocks n p cur = Err (UB why)).
Proof.
  revert p cur. induction n as [|n IH]; intros p cur; cbn [link_blocks].
  { left. exists p. split; [do 2 f_equal; lia|apply same_shape_refl]. }
  unfold store_ptr, store_bytes at 1 2, require_defined at 1 2. case_decide as Hin; [|by right; eexists].
  cbn [mbind result_bind]. set (p1 := set_pool_data _ p).
  assert (Hsh : same_shape p p1).
  { repeat split. apply length_write_at. unfold in_buffer, offset in *. lia. }
  destruct (IH p1 (cur + block_size p)) as [(p' & Hlk & Hsh')|[why Hlk]]; [left|right; eauto].
  exists p'. rewrite Hlk. split; [do 2 f_equal; cbn; lia|]. by eapply same_shape_trans.
Qed.
End programs.

(** ** A small pool, for the witnesses *)

(** Two 16-byte blocks at 4096. *)
Definition demo_pool : MemoryPool :=
  mkMemoryPool 16 2 4096 (le_encode 8 4112 ++ replicate 24 0) 4096.

Lemma demo_pool_new : MemoryPool_new 4096 16 2 = Ok demo_pool.
Proof. vm_compute. reflexivity. Qed.

Lemma demo_pool_rep : pool_rep demo_pool [4096; 4112].
Proof.
  destruct (MemoryPool_new_ok 4096 16 2) as (p & Hnew & Hrep & _); [done..|].
  rewrite demo_pool_new in Hnew. injection Hnew as <-. exact Hrep.
Qed.

(** ** Properties *)

Section properties.
Implicit Types p : MemoryPool.

(** C3. For every block size above a pointer's, every count and every region
    the allocator may return, construction succeeds, and from there every
    program of allocations and of deallocations of held blocks returns
    exactly what the stack of block addresses returns, and leaves the pool
    representing the resulting stack. *)
Theorem pool_refines_stack base bs bc os rs free' :
  Z.of_nat sizeof_ptr < bs -> 0 < bc -> bs * bc < 2 ^ 64 -> fresh_region base (bs * bc) ->
  Spec.run (all_blocks base bs bc) (all_blocks base bs bc) os = Some (rs, free') ->
  exists p p', MemoryPool_new base bs bc = Ok p /\ pool_exec_all p os = Ok (rs, p') /\ pool_rep p' free'.
Proof.
  intros Hbs Hbc Hwrap Hreg Hrun.
  destruct (MemoryPool_new_ok base bs bc Hbs Hbc Hwrap Hreg) as (p & Hnew & Hrep & <- & <- & <-).
  destruct (pool_exec_all_refines p (blocks p) os rs free' Hrep Hrun) as (p' & ? & ? & _).
  by exists p, p'.
Qed.

Lemma pool_refines_stack_witness :
  exists p p', MemoryPool_new 4096 16 3 = Ok p /\
    pool_exec_all p [Spec.Allocate; Spec.Allocate; Spec.Deallocate 4096; Spec.Allocate;
                Spec.Allocate; Spec.Allocate] =
      Ok ([4096; 4112; 4096; 4096; 4128; 0], p') /\ pool_rep p' [].
Proof.
  apply (pool_refines_stack 4096 16 3); [done|lia|lia|split; lia|vm_compute; reflexivity].
Defined.

(** A fresh pool hands out all of its [block_count] blocks, pairwise
    different and none null, before it answers [nullptr], and from then on
    it answers nothing else. *)
Theorem pool_exhaustion base bs bc n :
  Z.of_nat sizeof_ptr < bs -> 0 < bc -> bs * bc < 2 ^ 64 -> fresh_region base (bs * bc) ->
  exists p p', MemoryPool_new base bs bc = Ok p /\
    pool_exec_all p (replicate (Z.to_nat bc + n) Spec.Allocate) =
      Ok (all_blocks base bs bc ++ replicate n nullptr, p') /\
    NoDup (all_blocks base bs bc) /\ nullptr ∉ all_blocks base bs bc.
Proof.
  intros Hbs Hbc Hwrap Hreg.
  destruct (MemoryPool_new_ok base bs bc Hbs Hbc Hwrap Hreg) as (p & Hnew & Hrep & <- & <- & <-).
  destruct (pool_exec_all_refines p (blocks p) (replicate (length (blocks p) + n) Spec.Allocate)
    (blocks p ++ replicate n nullptr) [] Hrep) as (p' & Hex & _ & _); [by rewrite spec_allocate_all|].
  rewrite length_blocks in Hex. exists p, p'. pose proof (rep_geometry _ _ Hrep) as G.
  split_and!; [done|done|by apply (NoDup_blocks p)|].
  intros Hnull. pose proof (block_nonnull p nullptr G Hnull). unfold nullptr in *. lia.
Qed.

Lemma pool_exhaustion_witness :
  exists p p', MemoryPool_new 4096 9 4 = Ok p /\
    pool_exec_all p (replicate (Z.to_nat 4 + 2) Spec.Allocate) =
      Ok (all_blocks 4096 9 4 ++ replicate 2 nullptr, p') /\
    NoDup (all_blocks 4096 9 4) /\ nullptr ∉ all_blocks 4096 9 4.
Proof. apply (pool_exhaustion 4096 9 4 2); [done|lia|lia|split; lia]. Defined.

(** When [block_size * block_count] exceeds [std::size_t] the product
    wraps, the buffer is smaller than the blocks laid out in it, and the
    constructor writes past its end: no pool is ever returned. *)
Theorem pool_size_overflow base bs bc :
  Z.of_nat sizeof_ptr < bs < 2 ^ 64 -> 0 < bc < 2 ^ 64 -> 2 ^ 64 <= bs * bc ->
  exists why, MemoryPool_new base bs bc = Err (UB why).
Proof.
  intros [Hbs Hbs'] [Hbc Hbc'] Hwrap. unfold MemoryPool_new. do 2 pass_check ltac:(done).
  set (p := mkMemoryPool _ _ _ _ _).
  destruct (link_blocks_cases (Z.to_nat (bc - 1)) p (free_list p)) as [(p' & -> & Hsh)|[why ->]];
    [|by exists why].
  cbn [mbind result_bind]. unfold store_ptr, store_bytes.
  rewrite require_defined_false; [by eexists|]. rewrite length_le_encode.
  destruct Hsh as (_ & _ & Eb & El). unfold in_buffer. rewrite Eb, El. cbn -[Z.mul].
  rewrite length_replicate. unfold pool_size, sizeof_ptr in *.
  pose proof (u64_wrapped (bs * bc) Hwrap). nia.
Qed.

Lemma pool_size_overflow_witness : exists why, MemoryPool_new 4096 (2 ^ 63) 3 = Err (UB why).
Proof. apply pool_size_overflow; unfold sizeof_ptr; lia. Defined.

(** [deallocate] accepts a pointer exactly when it lies in the pool's
    buffer; any other aborts on the assertion. *)
Theorem deallocate_range_check p free a :
  pool_rep p free ->
  (pool_base p <= a < pool_base p + block_size p * block_count p <->
   deallocate p a <> Err (AssertFailed "Trying to deallocate a pointer not in the memory pool")).
Proof.
  intros [G _ _ _]. unfold deallocate, pool_end. rewrite (pool_size_exact p G).
  split; [intros Hin|intros Hne].
  - pass_check ltac:(done). unfold store_ptr, store_bytes, require_defined. by case_decide.
  - destruct (decide (pool_base p <= a < pool_base p + block_size p * block_count p)); [done|].
    by rewrite assert_that_false in Hne by done.
Qed.

Lemma deallocate_range_check_witness :
  4096 <= 4100 < 4096 + 16 * 2 <->
  deallocate demo_pool 4100 <> Err (AssertFailed "Trying to deallocate a pointer not in the memory pool").
Proof. exact (deallocate_range_check demo_pool [4096; 4112] 4100 demo_pool_rep). Defined.

(** The pool keeps no record of what is out: deallocating the block on
    top of the free list once more is accepted and makes the free list a
    loop, after which every allocation returns that same block. *)
Theorem double_free_loops p a free n :
  pool_rep p (a :: free) ->
  exists p', deallocate p a = Ok p' /\
    pool_exec_all p' (replicate n Spec.Allocate) = Ok (replicate n a, p').
Proof.
  intros [G _ Hsub [Hhd _]].
  assert (Ha : a ∈ blocks p) by apply Hsub, list_elem_of_here.
  pose proof (block_nonnull p a G Ha) as Hna.
  destruct (store_ptr_load p a (free_list p)) as (p1 & Hst & Hsh & Hfl & Hld);
    [by eauto with pool|lia|].
  exists (set_free_list a p1). unfold deallocate.
  pass_check ltac:(by apply block_in_range). rewrite Hst. split; [done|].
  assert (Hal : allocate (set_free_list a p1) = Ok (a, set_free_list a p1)).
  { unfold allocate; cbn [free_list set_free_list].
    rewrite decide_False by (unfold nullptr; lia).
    pass_check ltac:(destruct Hsh as (Es & Ec & Eb & _); unfold pool_end; cbn;
                     rewrite Es, Ec, Eb; by apply block_in_range).
    rewrite Hhd in Hld. change (load_ptr (set_free_list a p1) a) with (load_ptr p1 a).
    by rewrite Hld. }
  induction n as [|n IH]; [done|]. cbn [replicate pool_exec_all pool_exec]. rewrite Hal.
  cbn [mbind result_bind]. by rewrite IH.
Qed.

Lemma double_free_loops_witness :
  exists p', deallocate demo_pool 4096 = Ok p' /\
    pool_exec_all p' (replicate 3 Spec.Allocate) = Ok ([4096; 4096; 4096], p').
Proof. exact (double_free_loops demo_pool 4096 [4112] 3 demo_pool_rep). Defined.
End properties.
