(* ===== verification/PoolClients.v ===== *)
(** * PoolClients: the memory pool as its clients use it (memory_pool.cpp)

    A client allocates blocks, writes and reads bytes anywhere inside the
    blocks it holds, and gives blocks back. The pool keeps its free list in
    the same bytes; abstractly there is a stack of free blocks and, for every
    block that is out, the bytes its owner has written. *)

From S2P Require Import Prelude MemoryPool.
#[local] Open Scope Z_scope.

(** ** Clients of the pool *)

(** [allocate()], [deallocate(a)], and accesses through [a + off]. *)
Inductive client_op :=
  | CAllocate
  | CDeallocate (a : Z)
  | CWrite (a : Z) (off : nat) (bytes : list Z)
  | CRead (a : Z) (off n : nat).

Inductive client_result := GotBlock (a : Z) | GotBytes (bytes : list Z) | Done.

Definition client_exec (p : MemoryPool) (o : client_op) : result (client_result * MemoryPool) :=
  match o with
  | CAllocate => '(a, p') ← allocate p; Ok (GotBlock a, p')
  | CDeallocate a => p' ← deallocate p a; Ok (Done, p')
  | CWrite a off bytes => p' ← store_bytes p (a + Z.of_nat off) bytes; Ok (Done, p')
  | CRead a off n => bytes ← load_bytes p (a + Z.of_nat off) n; Ok (GotBytes bytes, p)
  end.

Fixpoint client_exec_all (p : MemoryPool) (os : list client_op) : result (list client_result * MemoryPool) :=
  match os with
  | [] => Ok ([], p)
  | o :: os' =>
      '(r, p') ← client_exec p o;
      '(rs, p'') ← client_exec_all p' os';
      Ok (r :: rs, p'')
  end.

(** ** What clients may rely on *)

(** The free blocks, next one first, and the bytes of the blocks that are
    out; [None] is a byte that has not been written since the block was
    handed out. *)
Record memory := mkMemory { mem_free : list Z; mem_held : gmap Z (list (option Z)) }.

(** [None] as the outcome: the client does what it must not, such as using a
    block it does not hold, leaving the block, or reading what nobody wrote. *)
Definition memory_step (size : Z) (s : memory) (o : client_op) : option (client_result * memory) :=
  match o with
  | CAllocate =>
      match mem_free s with
      | [] => Some (GotBlock nullptr, s)
      | a :: free => Some (GotBlock a, mkMemory free (<[a := replicate (Z.to_nat size) None]> (mem_held s)))
      end
  | CDeallocate a =>
      _ ← mem_held s !! a;
      Some (Done, mkMemory (a :: mem_free s) (delete a (mem_held s)))
  | CWrite a off bytes =>
      c ← mem_held s !! a;
      if decide (off + length bytes <= length c)%nat
      then Some (Done, mkMemory (mem_free s) (<[a := write_at off (Some <$> bytes) c]> (mem_held s)))
      else None
  | CRead a off n =>
      c ← mem_held s !! a;
      if decide (off + n <= length c)%nat
      then bytes ← mapM id (read_at off n c); Some (GotBytes bytes, s)
      else None
  end.

Fixpoint memory_run (size : Z) (s : memory) (os : list client_op) : option (list client_result * memory) :=
  match os with
  | [] => Some ([], s)
  | o :: os' =>
      '(r, s') ← memory_step size s o;
      '(rs, s'') ← memory_run size s' os';
      Some (r :: rs, s'')
  end.

(** ** Lemmas *)

Section clients.
Implicit Types p : MemoryPool.

(** The bytes of the block [a] are those of [c] where these are known. *)
Definition block_holds p (a : Z) (c : list (option Z)) : Prop :=
  length c = Z.to_nat (block_size p) /\
  forall i v, c !! i = Some (Some v) -> pool_data p !! (offset p a + i)%nat = Some v.

Record memory_rep p (s : memory) : Prop := {
  mr_pool : pool_rep p (mem_free s);
  mr_held : forall a c, mem_held s !! a = Some c -> a ∈ blocks p /\ (a ∉ mem_free s) /\ block_holds p a c
}.

(** A store, seen from the bytes. *)
Lemma store_bytes_data p x bytes p' :
  store_bytes p x bytes = Ok p' ->
  in_buffer p x (length bytes) /\ same_shape p p' /\ free_list p' = free_list p /\
  pool_data p' = write_at (offset p x) bytes (pool_data p) /\
  (offset p x + length bytes <= length (pool_data p))%nat.
Proof.
  unfold store_bytes. intros Hst. inv_bind.
  match goal with H : in_buffer p x _ |- _ => rename H into Hin end. split; [done|].
  assert (offset p x + length bytes <= length (pool_data p))%nat by (unfold in_buffer, offset in *; lia).
  split_and!; try done. repeat split. by apply length_write_at.
Qed.

Lemma same_shape_offset p p' a : same_shape p p' -> offset p' a = offset p a.
Proof. intros (_ & _ & Hb & _). unfold offset. by rewrite Hb. Qed.

Lemma lookup_read_at {A} off n (l : list A) i : (i < n)%nat -> read_at off n l !! i = l !! (off + i)%nat.
Proof. intros Hi. unfold read_at. by rewrite lookup_take_lt, lookup_drop. Qed.

(** A change of the pool that keeps the bytes of a block keeps what it holds. *)
Lemma block_holds_frame p p' b c :
  pool_geometry p -> b ∈ blocks p -> same_shape p p' ->
  load_bytes p' b (Z.to_nat (block_size p)) = load_bytes p b (Z.to_nat (block_size p)) ->
  block_holds p b c -> block_holds p' b c.
Proof.
  intros G Hb Hsh Heq [Hl Hc]. pose proof Hsh as (Hs & _). split; [by rewrite Hs|].
  assert (Hin : in_buffer p b (Z.to_nat (block_size p))) by (apply block_in_buffer; [done|done|destruct G; lia]).
  rewrite (load_bytes_ok p b _ Hin), (load_bytes_ok p' b _ (same_shape_in_buffer p p' b _ Hsh Hin)) in Heq.
  injection Heq as Heq. intros i v Hi. assert (Hlt : (i < Z.to_nat (block_size p))%nat) by (rewrite <- Hl; by apply lookup_lt_Some in Hi).
  rewrite <- (lookup_read_at (offset p' b) _ _ i Hlt), Heq, lookup_read_at by done. by apply Hc.
Qed.

(** A store inside one block keeps the bytes of the others. *)
Lemma store_keeps_block p a b off bytes p' n :
  pool_geometry p -> a ∈ blocks p -> b ∈ blocks p -> b <> a ->
  Z.of_nat (off + length bytes) <= block_size p -> Z.of_nat n <= block_size p ->
  store_bytes p (a + Z.of_nat off) bytes = Ok p' -> load_bytes p' b n = load_bytes p b n.
Proof.
  intros G Ha Hb Hne Hlen Hn Hst. apply (store_bytes_frame p _ bytes p' b n Hst).
  pose proof (blocks_apart p b a G Hb Ha Hne). lia.
Qed.

(** A store inside a block that is out leaves the free list alone. *)
Lemma store_keeps_pool p free a off bytes p' :
  pool_rep p free -> a ∈ blocks p -> a ∉ free -> Z.of_nat (off + length bytes) <= block_size p ->
  store_bytes p (a + Z.of_nat off) bytes = Ok p' -> pool_rep p' free.
Proof.
  intros [G Hnd Hsub Hch] Ha Hfree Hlen Hst. pose proof (store_bytes_data _ _ _ _ Hst) as (_ & Hsh & Hfl & _).
  constructor; [by eauto with pool|done|by rewrite (same_shape_blocks p p')|]. rewrite Hfl.
  apply (chain_frame p); [|done]. intros b Hb. unfold load_ptr.
  rewrite (store_keeps_block p a b off bytes p' sizeof_ptr); try done; [by apply Hsub|by intros ->|by apply ptr_fits].
Qed.

(** The accesses of a client inside the block [a], of which [c] is known. *)
Lemma block_access p a off n c :
  pool_geometry p -> a ∈ blocks p -> block_holds p a c -> (off + n <= length c)%nat ->
  in_buffer p (a + Z.of_nat off) n /\ offset p (a + Z.of_nat off) = (offset p a + off)%nat /\
  Z.of_nat (off + n) <= block_size p.
Proof.
  intros G Ha [Hl _] Hn. pose proof (block_bounds p a G Ha). destruct G. unfold in_buffer, offset. lia.
Qed.

Lemma read_refines p a off n c bytes :
  pool_geometry p -> a ∈ blocks p -> block_holds p a c -> (off + n <= length c)%nat ->
  mapM id (read_at off n c) = Some bytes -> load_bytes p (a + Z.of_nat off) n = Ok bytes.
Proof.
  intros G Ha Hc Hn Hm. destruct (block_access p a off n c G Ha Hc Hn) as (Hin & Hoff & _).
  rewrite (load_bytes_ok _ _ _ Hin), Hoff. f_equal. apply mapM_Some_1 in Hm.
  pose proof (Forall2_length _ _ _ Hm) as Hlen. rewrite length_read_at in Hlen by done.
  destruct Hin as [_ Hend]. apply (list_eq_same_length _ _ n); [done| |].
  - apply length_read_at. destruct Hc as [Hl _]. pose proof (block_bounds p a G Ha). destruct G. unfold offset. lia.
  - intros i x y Hi Hx Hy. rewrite lookup_read_at in Hx by done.
    destruct (Forall2_lookup_r _ _ _ _ _ Hm Hy) as (v & Hv & Heq). cbn in Heq. subst v.
    rewrite lookup_read_at in Hv by done. destruct Hc as [_ Hc]. apply Hc in Hv. rewrite Nat.add_assoc in Hv. congruence.
Qed.

Lemma write_refines p a off bytes c p' :
  pool_geometry p -> a ∈ blocks p -> block_holds p a c -> (off + length bytes <= length c)%nat ->
  store_bytes p (a + Z.of_nat off) bytes = Ok p' -> block_holds p' a (write_at off (Some <$> bytes) c).
Proof.
  intros G Ha Hc Hn Hst. destruct (block_access p a off _ c G Ha Hc Hn) as (_ & Hoff & _).
  destruct Hc as [Hl Hc]. destruct (store_bytes_data _ _ _ _ Hst) as (_ & Hsh & _ & Hdata & Hd). pose proof Hsh as (Hs & _).
  split; [rewrite length_write_at by (by rewrite length_fmap); by rewrite Hs|].
  intros i v. rewrite (same_shape_offset p p' a Hsh), Hdata, lookup_write_at by (by rewrite length_fmap).
  rewrite lookup_write_at, Hoff, length_fmap by done. case_decide as Hi.
  - rewrite decide_True by lia. rewrite list_lookup_fmap. intros (v' & Hv & [= ->])%fmap_Some.
    by replace (offset p a + i - (offset p a + off))%nat with (i - off)%nat by lia.
  - rewrite decide_False by lia. apply Hc.
Qed.
End clients.

(** ** One operation, and programs *)

Section refinement.
Implicit Types (p : MemoryPool) (s : memory).

Lemma allocate_refines p s r s' :
  memory_rep p s -> memory_step (block_size p) s CAllocate = Some (r, s') ->
  exists p', client_exec p CAllocate = Ok (r, p') /\ memory_rep p' s' /\ same_shape p p'.
Proof.
  intros [Hp Hh]. cbn. destruct (mem_free s) as [|a free] eqn:Hf; intros [= <- <-].
  - rewrite allocate_empty by done. exists p. split; [done|]. split; [|done]. constructor; [by rewrite Hf|]. by rewrite Hf.
  - destruct (allocate_pop p a free Hp) as (p' & Hal & Hp' & Hsh & Hdata & Ha & Hna). exists p'. rewrite Hal.
    split; [done|]. split; [|done]. pose proof Hsh as (Hs & _). constructor; [done|]. cbn.
    intros b c. rewrite (same_shape_blocks p p' Hsh). intros [[<- <-]|[Hne Hb]]%lookup_insert_Some.
    + split_and!; [done|done|]. split; [by rewrite length_replicate, Hs|]. intros i v [[=] _]%lookup_replicate.
    + destruct (Hh b c Hb) as (Hbb & Hbf & Hbc). apply not_elem_of_cons in Hbf as [_ Hbf]. split_and!; [done|done|].
      apply (block_holds_frame p); [apply Hp|done|done| |done]. by apply load_bytes_same_data.
Qed.

Lemma deallocate_refines p s a r s' :
  memory_rep p s -> memory_step (block_size p) s (CDeallocate a) = Some (r, s') ->
  exists p', client_exec p (CDeallocate a) = Ok (r, p') /\ memory_rep p' s' /\ same_shape p p'.
Proof.
  intros [Hp Hh] (c & Hc & [= <- <-])%bind_Some. destruct (Hh a c Hc) as (Ha & Hfree & _).
  destruct (deallocate_push p a (mem_free s) Hp Ha Hfree) as (p' & Hd & Hp' & Hsh & Hother). exists p'. cbn. rewrite Hd.
  split; [done|]. split; [|done]. constructor; [done|]. cbn. intros b cb [Hne Hb]%lookup_delete_Some.
  destruct (Hh b cb Hb) as (Hbb & Hbf & Hbc). rewrite (same_shape_blocks p p' Hsh). split_and!; [done| |].
  - apply not_elem_of_cons. split; [by apply not_eq_sym|done].
  - apply (block_holds_frame p); [apply Hp|done|done| |done]. apply Hother; [done|by apply not_eq_sym|].
    destruct (rep_geometry _ _ Hp). lia.
Qed.

Lemma access_refines p s o r s' :
  memory_rep p s -> (forall a, o <> CDeallocate a) -> o <> CAllocate -> memory_step (block_size p) s o = Some (r, s') ->
  exists p', client_exec p o = Ok (r, p') /\ memory_rep p' s' /\ same_shape p p'.
Proof.
  intros [Hp Hh] Hnd Hna. pose proof (rep_geometry _ _ Hp) as G. destruct o as [|a|a off bytes|a off n]; [done|by destruct (Hnd a)|..].
  - intros (c & Hc & Hrest)%bind_Some. case_decide as Hlen; [|done]. injection Hrest as <- <-.
    destruct (Hh a c Hc) as (Ha & Hfree & Hac). destruct (block_access p a off _ c G Ha Hac Hlen) as (Hin & _ & Hle).
    destruct (store_bytes_ok p _ bytes Hin) as (p' & Hst & Hsh & _). exists p'. cbn. rewrite Hst.
    split; [done|]. split; [|done]. constructor; [by eapply store_keeps_pool|]. cbn. intros b cb.
    rewrite (same_shape_blocks p p' Hsh). intros [[<- <-]|[Hne Hb]]%lookup_insert_Some.
    + split_and!; [done|done|]. by apply (write_refines p).
    + destruct (Hh b cb Hb) as (Hbb & Hbf & Hbc). split_and!; [done|done|].
      apply (block_holds_frame p); [done|done|done| |done].
      apply (store_keeps_block p a b off bytes); try done. destruct G; lia.
  - intros (c & Hc & Hrest)%bind_Some. case_decide as Hlen; [|done].
    apply bind_Some in Hrest as (bytes & Hm & [= <- <-]). destruct (Hh a c Hc) as (Ha & _ & Hac). exists p. cbn.
    rewrite (read_refines p a off n c bytes G Ha Hac Hlen Hm).
    split; [done|]. by split.
Qed.

Lemma client_exec_refines p s o r s' :
  memory_rep p s -> memory_step (block_size p) s o = Some (r, s') ->
  exists p', client_exec p o = Ok (r, p') /\ memory_rep p' s' /\ same_shape p p'.
Proof.
  intros Hs. destruct o as [|a|a off bytes|a off n]; [by apply allocate_refines|by apply deallocate_refines|..]; by apply access_refines.
Qed.

Lemma client_exec_all_refines os p s rs s' :
  memory_rep p s -> memory_run (block_size p) s os = Some (rs, s') ->
  exists p', client_exec_all p os = Ok (rs, p') /\ memory_rep p' s'.
Proof.
  revert p s rs. induction os as [|o os IH]; intros p s rs Hs; cbn [memory_run client_exec_all].
  { intros [= <- <-]. by exists p. }
  intros ([r s1] & Hstep & ([rs1 s2] & Hrun & [= <- <-])%bind_Some)%bind_Some.
  destruct (client_exec_refines p s o r s1 Hs Hstep) as (p1 & Hex & Hs1 & (Hsize & _)). rewrite <- Hsize in Hrun.
  destruct (IH p1 s1 rs1 Hs1 Hrun) as (p2 & Hex2 & Hs2). exists p2. rewrite Hex. cbn. by rewrite Hex2.
Qed.
End refinement.

(** ** Property *)

(** C22. The pool gives its clients memory of their own: from construction, in
    every program that allocates blocks, writes and reads inside the blocks it
    holds and gives them back, every allocation, and every read of bytes that
    have been written since their block was handed out, has exactly the result
    it has when every block that is out is a separate array of bytes. So
    neither the pool's free list, kept in the bytes of the free blocks, nor
    other blocks are ever seen or damaged. *)
Theorem pool_client_isolation base bs bc os rs s' :
  Z.of_nat sizeof_ptr < bs -> 0 < bc -> bs * bc < 2 ^ 64 -> fresh_region base (bs * bc) ->
  memory_run bs (mkMemory (all_blocks base bs bc) ∅) os = Some (rs, s') ->
  exists p p', MemoryPool_new base bs bc = Ok p /\ client_exec_all p os = Ok (rs, p') /\
    pool_rep p' (mem_free s') /\
    (forall a c i v, mem_held s' !! a = Some c -> c !! i = Some (Some v) -> load_bytes p' (a + Z.of_nat i) 1 = Ok [v]).
Proof.
  intros Hbs Hbc Hwrap Hreg Hrun.
  destruct (MemoryPool_new_ok base bs bc Hbs Hbc Hwrap Hreg) as (p & Hnew & Hrep & <- & <- & <-).
  destruct (client_exec_all_refines os p (mkMemory (blocks p) ∅) rs s') as (p' & Hex & [Hp' Hh]); [|done|].
  { constructor; [done|]. cbn [mem_held]. by intros a c Ha%lookup_empty_Some. }
  exists p, p'. split_and!; [done|done|done|]. intros a c i v Hc Hi. destruct (Hh a c Hc) as (Ha & _ & Hac).
  pose proof (lookup_lt_Some _ _ _ Hi) as Hlt.
  apply (read_refines p' a i 1 c [v]); [apply Hp'|done|done|lia|].
  unfold read_at. rewrite (drop_S c (Some v) i Hi). done.
Qed.

(** ** Witness: two clients that fill their blocks, links included *)

Definition client_program : list client_op :=
  [CAllocate; CAllocate; CAllocate; CWrite 4096 0 (replicate 16 171); CWrite 4112 2 [1; 2; 3]; CDeallocate 4096;
   CRead 4112 3 2; CAllocate; CRead 4112 2 3].

Lemma pool_client_isolation_witness :
  exists p p', MemoryPool_new 4096 16 2 = Ok p /\
    client_exec_all p client_program =
      Ok ([GotBlock 4096; GotBlock 4112; GotBlock 0; Done; Done; Done; GotBytes [2; 3]; GotBlock 4096; GotBytes [1; 2; 3]], p') /\
    pool_rep p' [] /\ load_bytes p' (4112 + 2) 1 = Ok [1].
Proof.
  destruct (pool_client_isolation 4096 16 2 client_program
    [GotBlock 4096; GotBlock 4112; GotBlock 0; Done; Done; Done; GotBytes [2; 3]; GotBlock 4096; GotBytes [1; 2; 3]]
    (mkMemory [] (<[4096 := replicate 16 None]>
      {[4112 := [None; None; Some 1; Some 2; Some 3] ++ replicate 11 None]})))
    as (p & p' & H1 & H2 & H3 & H4); [done|lia|lia|split; lia|vm_compute; reflexivity|].
  exists p, p'. split_and!; [done|done|done|]. by apply (H4 4112 ([None; None; Some 1; Some 2; Some 3] ++ replicate 11 None) 2%nat 1).
Defined.
