(* ===== verification/Heap.v ===== *)
(** * Heap: [std::push_heap] and [std::pop_heap]

    The message queue keeps its nodes in a binary heap through the two
    standard algorithms. [HeapAlgorithms] is what the C++ standard promises
    of them for a comparator that is a strict weak order; the queue is
    verified against this interface. [libstdcxx] is the implementation of
    libstdc++ (bits/stl_heap.h), hole and all, and its instance discharges
    the interface. *)

From Stdlib Require Import ZifyNat.
From S2P Require Import Prelude.
#[local] Open Scope nat_scope.

(** Index arithmetic divides by two. *)
#[local] Ltac Zify.zify_post_hook ::= Z.to_euclidean_division_equations.

(** ** The interface *)

Class StrictWeakOrder {A} (lt : A -> A -> bool) : Prop := {
  swo_irrefl x : lt x x = false;
  swo_asym x y : lt x y = true -> lt y x = false;
  swo_ntrans x y z : lt x y = false -> lt y z = false -> lt x z = false
}.

Definition parent (i : nat) : nat := (i - 1) / 2.

(** [std::is_heap]: no element is above its parent. *)
Definition is_heap {A} (lt : A -> A -> bool) (l : list A) : Prop :=
  forall i x y, 0 < i -> l !! parent i = Some x -> l !! i = Some y -> lt x y = false.

Class HeapAlgorithms := {
  push_heap : forall {A}, (A -> A -> bool) -> list A -> list A;
  pop_heap : forall {A}, (A -> A -> bool) -> list A -> list A;
  push_heap_spec {A} (lt : A -> A -> bool) `{!StrictWeakOrder lt} l x :
    is_heap lt l ->
    is_heap lt (push_heap lt (l ++ [x])) /\ push_heap lt (l ++ [x]) ≡ₚ l ++ [x];
  pop_heap_spec {A} (lt : A -> A -> bool) `{!StrictWeakOrder lt} x l :
    is_heap lt (x :: l) ->
    exists rest, pop_heap lt (x :: l) = rest ++ [x] /\ is_heap lt rest /\ rest ≡ₚ l
}.

(** The first element of a heap is a greatest one. *)
Lemma heap_top {A} (lt : A -> A -> bool) `{!StrictWeakOrder lt} l x y :
  is_heap lt l -> l !! 0 = Some x -> y ∈ l -> lt x y = false.
Proof.
  intros Hh Hx [i Hi]%list_elem_of_lookup. revert y Hi.
  induction (lt_wf i) as [i _ IH]. intros y Hi.
  destruct i as [|i]; [rewrite Hx in Hi; injection Hi as ->; apply swo_irrefl|].
  assert (Hp : parent (S i) < S i) by (unfold parent; lia).
  destruct (lookup_lt_is_Some_2 l (parent (S i))) as [p Hlp].
  { apply lookup_lt_Some in Hi. lia. }
  apply swo_ntrans with p; [by apply (IH (parent (S i)))|]. apply (Hh (S i)); [lia|done|done].
Qed.

(** ** libstdc++ *)

Section algorithms.
Context {A : Type} (lt : A -> A -> bool).
Implicit Types l : list A.

(** [std::__push_heap]: the value rises from [hole] towards index 0. *)
Fixpoint push_hole (fuel : nat) l (hole : nat) (value : A) : list A :=
  match fuel with
  | O => <[hole := value]> l
  | S fuel' =>
      if decide (0 < hole) then
        match l !! parent hole with
        | Some pv =>
            if lt pv value then push_hole fuel' (<[hole := pv]> l) (parent hole) value
            else <[hole := value]> l
        | None => <[hole := value]> l
        end
      else <[hole := value]> l
  end.

Definition libstdcxx_push_heap l : list A :=
  match last l with
  | Some value => push_hole (length l) l (length l - 1) value
  | None => l
  end.

(** The first loop of [std::__adjust_heap]: the hole sinks along the greater
    children while it has two of them. *)
Fixpoint sink_hole (fuel : nat) l (hole : nat) : list A * nat :=
  match fuel with
  | O => (l, hole)
  | S fuel' =>
      if decide (hole < (length l - 1) / 2) then
        let child := 2 * (hole + 1) in
        match l !! child, l !! (child - 1) with
        | Some r, Some s =>
            if lt r s then sink_hole fuel' (<[hole := s]> l) (child - 1)
            else sink_hole fuel' (<[hole := r]> l) child
        | _, _ => (l, hole)
        end
      else (l, hole)
  end.

(** The rest of [std::__adjust_heap]: a last node with one child, then up. *)
Definition adjust_heap l (value : A) : list A :=
  let '(l1, hole) := sink_hole (length l) l 0 in
  let '(l2, hole) :=
    if decide (Nat.even (length l) = true /\ hole = (length l - 2) / 2) then
      match l1 !! (2 * (hole + 1) - 1) with
      | Some s => (<[hole := s]> l1, 2 * (hole + 1) - 1)
      | None => (l1, hole)
      end
    else (l1, hole) in
  push_hole (length l) l2 hole value.

Definition libstdcxx_pop_heap l : list A :=
  match l with
  | x :: _ :: _ =>
      match last l with
      | Some value => adjust_heap (take (length l - 1) l) value ++ [x]
      | None => l
      end
  | _ => l
  end.

(** ** Correctness *)

Context `{!StrictWeakOrder lt}.

(** A heap but for the element at [h], whose children are below its parent. *)
Record hole_heap l (h : nat) : Prop := {
  hole_edges i x y : 0 < i -> i <> h -> parent i <> h ->
    l !! parent i = Some x -> l !! i = Some y -> lt x y = false;
  hole_bridge i x y : 0 < h -> 0 < i -> parent i = h ->
    l !! parent h = Some x -> l !! i = Some y -> lt x y = false
}.

Definition children_below l (h : nat) (v : A) : Prop :=
  forall i y, 0 < i -> parent i = h -> l !! i = Some y -> lt v y = false.

Lemma is_heap_hole l h : is_heap lt l -> hole_heap l h.
Proof.
  intros Hh. constructor; [intros i x y ? _ _; by apply Hh|].
  intros i x y Hpos Hi Hpar Hx Hy.
  destruct (lookup_lt_is_Some_2 l h) as [z Hz].
  { apply lookup_lt_Some in Hy. unfold parent in Hpar. lia. }
  apply swo_ntrans with z; [by apply (Hh h)|]. apply (Hh i); [done|by rewrite Hpar|done].
Qed.

Lemma parent_lt i : 0 < i -> parent i < i.
Proof. unfold parent. lia. Qed.

Lemma fill_hole l h v :
  hole_heap l h -> children_below l h v ->
  (forall x, 0 < h -> l !! parent h = Some x -> lt x v = false) ->
  is_heap lt (<[h := v]> l).
Proof.
  intros [He _] Hc Hp i x y Hi Hx Hy. pose proof (parent_lt i Hi).
  destruct (decide (i = h)) as [->|Hne].
  - rewrite list_lookup_insert_ne in Hx by lia.
    rewrite list_lookup_insert_eq in Hy
      by (apply lookup_lt_Some in Hy; by rewrite length_insert in Hy).
    injection Hy as <-. by apply Hp.
  - rewrite list_lookup_insert_ne in Hy by done.
    destruct (decide (parent i = h)) as [Hpar|Hpar].
    + rewrite Hpar, list_lookup_insert_eq in Hx
        by (apply lookup_lt_Some in Hx; rewrite length_insert in Hx; congruence).
      injection Hx as <-. by apply (Hc i).
    + rewrite list_lookup_insert_ne in Hx by done. by apply (He i).
Qed.

Lemma hole_up l h v pv :
  hole_heap l h -> children_below l h v -> 0 < h < length l ->
  l !! parent h = Some pv -> lt pv v = true ->
  hole_heap (<[h := pv]> l) (parent h) /\ children_below (<[h := pv]> l) (parent h) v.
Proof.
  intros [He Hb] Hc [Hpos Hlen] Hpv Hlt. pose proof (parent_lt h Hpos) as Hph.
  assert (Hself : <[h := pv]> l !! h = Some pv) by by apply list_lookup_insert_eq.
  split; [constructor|].
  - intros i x y Hi Hne Hnp Hx Hy. rewrite list_lookup_insert_ne in Hy by congruence.
    destruct (decide (parent i = h)) as [Hpar|Hpar].
    + rewrite Hpar, Hself in Hx. injection Hx as <-. by apply (Hb i).
    + rewrite list_lookup_insert_ne in Hx by done.
      destruct (decide (i = h)) as [->|]; [done|]. by apply (He i).
  - intros i x y Hppos Hi Hpar Hx Hy. pose proof (parent_lt _ Hppos).
    rewrite list_lookup_insert_ne in Hx by lia.
    assert (Hxp : lt x pv = false) by (apply (He (parent h)); [done|lia|lia|done|done]).
    destruct (decide (i = h)) as [->|Hne]; [congruence|].
    rewrite list_lookup_insert_ne in Hy by done.
    apply swo_ntrans with pv; [done|]. apply (He i); [done|done|lia|by rewrite Hpar|done].
  - intros i y Hi Hpar Hy. apply swo_asym in Hlt.
    destruct (decide (i = h)) as [->|Hne]; [congruence|].
    rewrite list_lookup_insert_ne in Hy by done.
    apply swo_ntrans with pv; [done|]. apply (He i); [done|done|lia|by rewrite Hpar|done].
Qed.
Lemma hole_down l h c z :
  hole_heap l h -> h < length l -> parent c = h -> 0 < c -> l !! c = Some z ->
  (forall i y, 0 < i -> parent i = h -> l !! i = Some y -> lt z y = false) ->
  hole_heap (<[h := z]> l) c.
Proof.
  intros [He Hb] Hlen Hpc Hc Hz Hmax. pose proof (parent_lt c Hc) as Hhc.
  assert (Hself : <[h := z]> l !! h = Some z) by by apply list_lookup_insert_eq.
  constructor.
  - intros i x y Hi Hne Hnp Hx Hy. pose proof (parent_lt i Hi).
    destruct (decide (i = h)) as [->|Hih].
    + rewrite list_lookup_insert_ne in Hx by lia. rewrite Hself in Hy. injection Hy as <-.
      by apply (Hb c).
    + rewrite list_lookup_insert_ne in Hy by done.
      destruct (decide (parent i = h)) as [Hpar|Hpar].
      * rewrite Hpar, Hself in Hx. injection Hx as <-. by apply (Hmax i).
      * rewrite list_lookup_insert_ne in Hx by done. by apply (He i).
  - intros i x y _ Hi Hpar Hx Hy. rewrite Hpc, Hself in Hx. injection Hx as <-.
    pose proof (parent_lt i Hi). rewrite list_lookup_insert_ne in Hy by lia.
    apply (He i); [done|lia|lia|by rewrite Hpar|done].
Qed.

(** Moving the hole is an exchange. *)
Lemma move_hole_perm l i j v y :
  i <> j -> i < length l -> l !! j = Some y -> <[j := v]> (<[i := y]> l) ≡ₚ <[i := v]> l.
Proof.
  intros Hne Hi Hj. rewrite <- (list_insert_insert_eq l i y v).
  apply Permutation_insert_swap.
  - by apply list_lookup_insert_eq.
  - by rewrite list_lookup_insert_ne.
Qed.

Lemma push_hole_ok fuel l hole v :
  hole <= fuel -> hole < length l -> hole_heap l hole -> children_below l hole v ->
  is_heap lt (push_hole fuel l hole v) /\ push_hole fuel l hole v ≡ₚ <[hole := v]> l.
Proof.
  revert l hole. induction fuel as [|fuel IH]; intros l hole Hf Hlen Hh Hc; cbn [push_hole].
  { split; [|done]. apply fill_hole; [done|done|lia]. }
  case_decide as Hpos; [|by split; [apply fill_hole; [done|done|lia]|]].
  pose proof (parent_lt hole Hpos).
  destruct (lookup_lt_is_Some_2 l (parent hole)) as [pv Hpv]; [lia|]. rewrite Hpv.
  destruct (lt pv v) eqn:Hlt.
  - destruct (hole_up l hole v pv Hh Hc (conj Hpos Hlen) Hpv Hlt) as [Hh' Hc'].
    destruct (IH (<[hole := pv]> l) (parent hole)) as [Hheap Hperm];
      [lia|rewrite length_insert; lia|done|done|].
    split; [done|]. rewrite Hperm. apply move_hole_perm; [lia|done|done].
  - split; [|done]. apply fill_hole; [done|done|]. intros x _ Hx. congruence.
Qed.

(** What the sinking phase leaves: the hole where at most one child is left. *)
Lemma sink_hole_ok fuel l hole l' hole' v :
  length l <= fuel + hole -> hole < length l -> hole_heap l hole ->
  sink_hole fuel l hole = (l', hole') ->
  length l' = length l /\ hole_heap l' hole' /\ hole' < length l /\
  (length l - 1) / 2 <= hole' /\ <[hole' := v]> l' ≡ₚ <[hole := v]> l.
Proof.
  revert l hole. induction fuel as [|fuel IH]; intros l hole Hf Hlen Hh; cbn [sink_hole]; [lia|].
  case_decide as Hlt; [|intros [= <- <-]; split_and!; done || lia].
  destruct (lookup_lt_is_Some_2 l (2 * (hole + 1))) as [r Hr]; [lia|].
  destruct (lookup_lt_is_Some_2 l (2 * (hole + 1) - 1)) as [s Hs]; [lia|]. rewrite Hr, Hs.
  assert (Hkids : forall i, 0 < i -> parent i = hole ->
    i = 2 * (hole + 1) \/ i = 2 * (hole + 1) - 1) by (unfold parent; lia).
  assert (Hstep : forall c z, parent c = hole -> hole < c -> l !! c = Some z ->
    (forall i y, 0 < i -> parent i = hole -> l !! i = Some y -> lt z y = false) ->
    sink_hole fuel (<[hole := z]> l) c = (l', hole') ->
    length l' = length l /\ hole_heap l' hole' /\ hole' < length l /\
    (length l - 1) / 2 <= hole' /\ <[hole' := v]> l' ≡ₚ <[hole := v]> l).
  { intros c z Hpc Hc Hz Hmax Hsink. pose proof (lookup_lt_Some _ _ _ Hz).
    destruct (IH (<[hole := z]> l) c) as (Hl' & Hh' & ? & ? & Hperm); rewrite ?length_insert in *;
      [lia|done|by apply hole_down; [| |done|lia| |]|done|].
    split_and!; [done..|]. rewrite Hperm. apply move_hole_perm; [lia|done|done]. }
  destruct (lt r s) eqn:Hrs; apply Hstep; try done; try (unfold parent; lia).
  all: intros i y Hi Hpar Hy; destruct (Hkids i Hi Hpar) as [-> | ->]; simplify_eq;
    auto using swo_asym, swo_irrefl.
Qed.

Lemma adjust_heap_ok l v :
  0 < length l -> hole_heap l 0 ->
  is_heap lt (adjust_heap l v) /\ adjust_heap l v ≡ₚ <[0 := v]> l.
Proof.
  intros Hlen Hh. unfold adjust_heap. destruct (sink_hole (length l) l 0) as [l1 hole] eqn:Hsink.
  destruct (sink_hole_ok (length l) l 0 l1 hole v) as (Hl1 & Hh1 & Hhole & Hleaf & Hperm); [lia|done..|].
  assert (Hkids : forall i, 0 < i -> parent i = hole -> i < length l -> i = 2 * (hole + 1) - 1)
    by (unfold parent; lia).
  case_decide as Hlast.
  - destruct Hlast as [[k Hev]%Nat.even_spec Hlast].
    destruct (lookup_lt_is_Some_2 l1 (2 * (hole + 1) - 1)) as [s Hs]; [lia|]. rewrite Hs.
    destruct (push_hole_ok (length l) (<[hole := s]> l1) (2 * (hole + 1) - 1) v) as [Hheap Hp2].
    { lia. } { rewrite length_insert. lia. }
    { apply hole_down; [done|lia|unfold parent; lia|lia|done|].
      intros i y Hi Hpar Hy. pose proof (lookup_lt_Some _ _ _ Hy).
      rewrite (Hkids i) in Hy by lia. simplify_eq. apply swo_irrefl. }
    { intros i y Hi Hpar Hy. apply lookup_lt_Some in Hy. rewrite length_insert in Hy.
      unfold parent in Hpar. lia. }
    split; [done|]. rewrite Hp2, move_hole_perm by (done || lia). done.
  - destruct (push_hole_ok (length l) l1 hole v) as [Hheap Hp2]; [lia|lia|done| |].
    { intros i y Hi Hpar Hy. apply lookup_lt_Some in Hy. exfalso. apply Hlast.
      assert (i = 2 * hole + 1) by (unfold parent in Hpar; lia).
      split; [apply Nat.even_spec; exists (hole + 1); lia|lia]. }
    split; [done|]. by rewrite Hp2.
Qed.
End algorithms.

(** [push_heap]: the vector is a heap but for its last slot. *)
Lemma snoc_hole_heap {A} (lt : A -> A -> bool) l x :
  is_heap lt l -> hole_heap lt (l ++ [x]) (length l).
Proof.
  intros Hh. constructor; intros i a b; intros.
  - assert (Hi : i < length l).
    { pose proof (lookup_lt_Some (l ++ [x]) i b ltac:(done)) as Hlt.
      rewrite length_app in Hlt. cbn in Hlt. lia. }
    pose proof (parent_lt i ltac:(done)). rewrite lookup_app_l in * by lia. by apply (Hh i).
  - pose proof (lookup_lt_Some (l ++ [x]) i b ltac:(done)) as Hlt.
    rewrite length_app in Hlt. cbn in Hlt. unfold parent in *. lia.
Qed.

Lemma libstdcxx_push_heap_ok {A} (lt : A -> A -> bool) `{!StrictWeakOrder lt} l x :
  is_heap lt l ->
  is_heap lt (libstdcxx_push_heap lt (l ++ [x])) /\ libstdcxx_push_heap lt (l ++ [x]) ≡ₚ l ++ [x].
Proof.
  intros Hh. unfold libstdcxx_push_heap. rewrite last_snoc, length_app; cbn [length].
  replace (length l + 1 - 1) with (length l) by lia.
  destruct (push_hole_ok lt (length l + 1) (l ++ [x]) (length l) x) as [Hheap Hperm].
  - lia.
  - rewrite length_app; cbn; lia.
  - by apply snoc_hole_heap.
  - intros i y Hi Hpar Hy. apply lookup_lt_Some in Hy. rewrite length_app in Hy. cbn in Hy.
    unfold parent in Hpar. lia.
  - split; [done|]. rewrite Hperm, list_insert_id; [done|].
    by rewrite lookup_app_r, Nat.sub_diag by lia.
Qed.

Lemma is_heap_take {A} (lt : A -> A -> bool) l n : is_heap lt l -> is_heap lt (take n l).
Proof.
  intros Hh i x y Hi Hx Hy. apply lookup_take_Some in Hx as [Hx _], Hy as [Hy _]. by apply (Hh i).
Qed.

Lemma libstdcxx_pop_heap_ok {A} (lt : A -> A -> bool) `{!StrictWeakOrder lt} x l :
  is_heap lt (x :: l) ->
  exists rest, libstdcxx_pop_heap lt (x :: l) = rest ++ [x] /\ is_heap lt rest /\ rest ≡ₚ l.
Proof.
  intros Hh. destruct l as [|y l]; [by exists []|].
  destruct (exists_last (l := y :: l)) as (l0 & v & Hl); [done|]. rewrite Hl in *.
  assert (Hpop : libstdcxx_pop_heap lt (x :: l0 ++ [v]) = adjust_heap lt (x :: l0) v ++ [x]).
  { unfold libstdcxx_pop_heap. destruct (l0 ++ [v]) as [|z l1] eqn:E; [by destruct l0|].
    rewrite <- E. change (x :: l0 ++ [v]) with ((x :: l0) ++ [v]). rewrite last_snoc.
    rewrite length_app. cbn [length]. rewrite Nat.add_sub.
    change (S (length l0)) with (length (x :: l0)). by rewrite take_app_length. }
  destruct (adjust_heap_ok lt (x :: l0) v) as [Hheap Hperm]; [cbn; lia| |].
  { apply is_heap_hole; [done|]. rewrite <- (take_app_length (x :: l0) [v]). by apply is_heap_take. }
  eexists; split; [exact Hpop|]. split; [done|]. rewrite Hperm. cbn. by rewrite Permutation_app_comm.
Qed.

#[export] Instance libstdcxx : HeapAlgorithms := {|
  push_heap := @libstdcxx_push_heap;
  pop_heap := @libstdcxx_pop_heap;
  push_heap_spec := @libstdcxx_push_heap_ok;
  pop_heap_spec := @libstdcxx_pop_heap_ok
|}.

Example push_heap_3 : push_heap Nat.ltb (push_heap Nat.ltb (push_heap Nat.ltb [1] ++ [5]) ++ [3]) = [5; 1; 3].
Proof. reflexivity. Qed.
Example pop_heap_5 : pop_heap Nat.ltb [9; 5; 8; 1; 2] = [8; 5; 2; 1; 9].
Proof. reflexivity. Qed.
