(* ===== verification/Msg.v ===== *)
(** * Msg: message data, the [msg::Msg] container and task states

    Models include/msg/ (the four system messages, the variant, its type
    enumeration, priorities and names, and the [Msg] class) and
    include/task/task_state.h. An [enum class] holds any value of its
    underlying [int], and the code casts received bytes to [TaskState], so the
    two enumerations are integers with named values. *)

From S2P Require Import Prelude Heap.
#[local] Open Scope Z_scope.
#[local] Open Scope string_scope.

(** ** Task states (task_state.h) *)

Abbreviation TaskState := Z (only parsing).
Definition NOT_STARTED : TaskState := 0.
Definition IDLE : TaskState := 1.
Definition RUNNING : TaskState := 2.
Definition STOPPED : TaskState := 3.
Definition ERROR : TaskState := 4.

Definition task_states_named : list TaskState := [NOT_STARTED; IDLE; RUNNING; STOPPED; ERROR].

Definition task_state_to_string (state : TaskState) : string :=
  if decide (state = NOT_STARTED) then "NOT_STARTED"
  else if decide (state = IDLE) then "IDLE"
  else if decide (state = RUNNING) then "RUNNING"
  else if decide (state = STOPPED) then "STOPPED"
  else if decide (state = ERROR) then "ERROR"
  else "UNKNOWN".

(** [static_cast<uint8_t>(state)] on the way out, [static_cast<TaskState>] back. *)
Definition state_to_byte (state : TaskState) : Z := u8 state.
Definition state_of_byte (b : Z) : TaskState := b.

(** ** The system messages (system_msgs.h) *)

Record StateMsg := mkStateMsg { sm_state : Z (* uint8_t *) }.
Record StateAckMsg := mkStateAckMsg { sa_state : Z (* uint8_t *) }.
Record HeartbeatMsg := mkHeartbeatMsg {
  unique_id : Z; (* uint32_t *)
  timestamp : Z  (* uint64_t *)
}.
Record HeartbeatAckMsg := mkHeartbeatAckMsg {
  orig_unique_id : Z; (* uint32_t *)
  orig_timestamp : Z; (* uint64_t *)
  ack_timestamp : Z   (* uint64_t *)
}.

(** [std::to_string] of an unsigned value. *)
Definition to_string (z : Z) : string := pretty z.

Definition StateMsg_str (m : StateMsg) : string :=
  "StateMsg { State = " +:+ task_state_to_string (state_of_byte (sm_state m)) +:+ " }".
Definition StateAckMsg_str (m : StateAckMsg) : string :=
  "StateAckMsg { State = " +:+ task_state_to_string (state_of_byte (sa_state m)) +:+ " }".
Definition HeartbeatMsg_str (m : HeartbeatMsg) : string :=
  "HeartBeatMsg { Unique_id = " +:+ to_string (unique_id m) +:+
  " timestamp = " +:+ to_string (timestamp m) +:+ " }".
Definition HeartbeatAckMsg_str (m : HeartbeatAckMsg) : string :=
  "HeartbeatAckMsg { orig Unique_id = " +:+ to_string (orig_unique_id m) +:+
  " orig timestamp = " +:+ to_string (orig_timestamp m) +:+
  " ack timestamp = " +:+ to_string (ack_timestamp m) +:+ " }".

(** ** The variant (msg_variant_types_default.h) *)

Inductive MessageVariant :=
  | VStateMsg (m : StateMsg)
  | VStateAckMsg (m : StateAckMsg)
  | VHeartbeatMsg (m : HeartbeatMsg)
  | VHeartbeatAckMsg (m : HeartbeatAckMsg).

Abbreviation MsgType := Z (only parsing).
Definition Type_StateMsg : MsgType := 0.
Definition Type_StateAckMsg : MsgType := 1.
Definition Type_HeartbeatMsg : MsgType := 2.
Definition Type_HeartbeatAckMsg : MsgType := 3.

(** The list the macros expand, and the tables made from it. *)
Definition MESSAGE_VARIANT_TYPES : list (string * Z) :=
  [("StateMsg", 100); ("StateAckMsg", 99); ("HeartbeatMsg", 50); ("HeartbeatAckMsg", 49)].
Definition message_priorities : list Z := MESSAGE_VARIANT_TYPES.*2.
Definition message_type_names : list string := MESSAGE_VARIANT_TYPES.*1.

(** [std::variant_size_v<MessageVariant>]. *)
Definition variant_size : Z := Z.of_nat (length MESSAGE_VARIANT_TYPES).
Definition variant_index (d : MessageVariant) : Z :=
  match d with
  | VStateMsg _ => 0
  | VStateAckMsg _ => 1
  | VHeartbeatMsg _ => 2
  | VHeartbeatAckMsg _ => 3
  end.

(** [static_cast<size_t>] of the enumeration, the test and the table access. *)
Definition msg_type_to_string (type : MsgType) : string :=
  let index := u64 type in
  if decide (index < Z.of_nat (length message_type_names)) then
    default "Unknown" (message_type_names !! Z.to_nat index)
  else "Unknown".

(** ** [msg::Msg] (msg.h) *)

Record Msg := mkMsg {
  sending_task : Z; (* task::Task*, possibly null *)
  msg_data : MessageVariant;
  msg_priority : Z; (* uint16_t *)
  msg_type : MsgType
}.

Definition get_internal_priority (d : MessageVariant) : result Z :=
  let index := variant_index d in
  assert_that (index < Z.of_nat (length message_priorities)) "index < message_priorities" ≫= fun _ =>
  match message_priorities !! Z.to_nat index with
  | Some p => Ok p
  | None => Err (UB "message_priorities[index]")
  end.

Definition get_internal_type (d : MessageVariant) : result MsgType :=
  let index := variant_index d in
  assert_that (index < variant_size) "index < std::variant_size" ≫= fun _ =>
  Ok index.

Definition Msg_new (sender : Z) (data : MessageVariant) : result Msg :=
  priority ← get_internal_priority data;
  type ← get_internal_type data;
  Ok (mkMsg sender data priority type).

Definition get_priority (m : Msg) : Z := msg_priority m.
Definition get_type (m : Msg) : MsgType := msg_type m.
Definition get_sender (m : Msg) : Z := sending_task m.

(** The alternatives of the variant, for the templates [has_data_type<T>] and
    [get_data_as<T>] ([std::holds_alternative], [std::get_if]). *)
Inductive alternative := AStateMsg | AStateAckMsg | AHeartbeatMsg | AHeartbeatAckMsg.

Definition payload (T : alternative) : Type :=
  match T with
  | AStateMsg => StateMsg
  | AStateAckMsg => StateAckMsg
  | AHeartbeatMsg => HeartbeatMsg
  | AHeartbeatAckMsg => HeartbeatAckMsg
  end.

Definition inject (T : alternative) : payload T -> MessageVariant :=
  match T with
  | AStateMsg => VStateMsg
  | AStateAckMsg => VStateAckMsg
  | AHeartbeatMsg => VHeartbeatMsg
  | AHeartbeatAckMsg => VHeartbeatAckMsg
  end.

Definition get_data_as (T : alternative) (m : Msg) : option (payload T) :=
  match T as T, msg_data m return option (payload T) with
  | AStateMsg, VStateMsg x => Some x
  | AStateAckMsg, VStateAckMsg x => Some x
  | AHeartbeatMsg, VHeartbeatMsg x => Some x
  | AHeartbeatAckMsg, VHeartbeatAckMsg x => Some x
  | _, _ => None
  end.

Definition has_data_type (T : alternative) (m : Msg) : bool :=
  match get_data_as T m with Some _ => true | None => false end.

(** [Msg::operator<]. *)
Definition msg_lt (a b : Msg) : bool := (msg_priority a <? msg_priority b)%Z.

(** [Msg::str], the visit of the alternative's own [str]. *)
Definition Msg_str (m : Msg) : string :=
  match msg_data m with
  | VStateMsg x => StateMsg_str x
  | VStateAckMsg x => StateAckMsg_str x
  | VHeartbeatMsg x => HeartbeatMsg_str x
  | VHeartbeatAckMsg x => HeartbeatAckMsg_str x
  end.

(** The ranges the C++ types give the fields, and what the constructor fixes. *)
Definition variant_wf (d : MessageVariant) : Prop :=
  match d with
  | VStateMsg m => 0 <= sm_state m < 2 ^ 8
  | VStateAckMsg m => 0 <= sa_state m < 2 ^ 8
  | VHeartbeatMsg m => 0 <= unique_id m < 2 ^ 32 /\ 0 <= timestamp m < 2 ^ 64
  | VHeartbeatAckMsg m =>
      0 <= orig_unique_id m < 2 ^ 32 /\ 0 <= orig_timestamp m < 2 ^ 64 /\
      0 <= ack_timestamp m < 2 ^ 64
  end.

Record msg_wf (m : Msg) : Prop := {
  msg_wf_sender : 0 <= sending_task m < 2 ^ 64;
  msg_wf_data : variant_wf (msg_data m);
  msg_wf_priority : message_priorities !! Z.to_nat (variant_index (msg_data m)) = Some (msg_priority m);
  msg_wf_type : msg_type m = variant_index (msg_data m)
}.

(** ** Lemmas *)

#[export] Instance HeartbeatMsg_eq_dec : EqDecision HeartbeatMsg.
Proof. solve_decision. Defined.
#[export] Instance HeartbeatAckMsg_eq_dec : EqDecision HeartbeatAckMsg.
Proof. solve_decision. Defined.
#[export] Instance StateMsg_eq_dec : EqDecision StateMsg.
Proof. solve_decision. Defined.
#[export] Instance StateAckMsg_eq_dec : EqDecision StateAckMsg.
Proof. solve_decision. Defined.
#[export] Instance MessageVariant_eq_dec : EqDecision MessageVariant.
Proof. solve_decision. Defined.
#[export] Instance Msg_eq_dec : EqDecision Msg.
Proof. solve_decision. Defined.

#[export] Instance msg_lt_swo : StrictWeakOrder msg_lt.
Proof. constructor; unfold msg_lt; intros; lia. Qed.

(** The message a (sender, payload) pair is packed into: the constructor's
    assertions hold for every alternative of the variant. *)
Definition pack (sender : Z) (d : MessageVariant) : Msg :=
  mkMsg sender d (default 0 (message_priorities !! Z.to_nat (variant_index d))) (variant_index d).

Lemma Msg_new_pack sender d : Msg_new sender d = Ok (pack sender d).
Proof. by destruct d. Qed.

Lemma msg_wf_pack m : msg_wf m -> m = pack (sending_task m) (msg_data m).
Proof. destruct m as [s d p t]. intros [_ _ Hp Ht]. unfold pack. cbn -[message_priorities] in *. by rewrite Hp, Ht. Qed.

Lemma pack_wf sender d : 0 <= sender < 2 ^ 64 -> variant_wf d -> msg_wf (pack sender d).
Proof. intros. by constructor; [| |destruct d|]. Qed.

Lemma get_data_as_Some T m x : get_data_as T m = Some x <-> msg_data m = inject T x.
Proof. destruct m as [s d p t], T, d; cbn; naive_solver. Qed.

(** ** Properties *)

Section properties.
Implicit Types m : Msg.

(** Constructing a message never trips an assertion; the message has the
    given sender, the type of the alternative it carries, the priority the
    table gives that type, and [get_data_as<T>] answers with the payload
    exactly when [T] is the alternative carried (and null otherwise). *)
Theorem msg_construction sender d :
  exists m, Msg_new sender d = Ok m /\ get_sender m = sender /\ get_type m = variant_index d /\
    message_priorities !! Z.to_nat (get_type m) = Some (get_priority m) /\
    (forall T x, get_data_as T m = Some x <-> d = inject T x) /\
    (forall T, has_data_type T m = true <-> exists x, d = inject T x).
Proof.
  exists (pack sender d). rewrite Msg_new_pack.
  assert (Hdata : forall T x, get_data_as T (pack sender d) = Some x <-> d = inject T x)
    by (intros T x; apply get_data_as_Some).
  split_and!; try done; [by destruct d|]. intros T. setoid_rewrite <- Hdata.
  unfold has_data_type. destruct (get_data_as T (pack sender d)) as [y|]; split; try done.
  - intros _. by exists y.
  - by intros [x Hx].
Qed.

(** Between constructed messages, lower priority means a later
    alternative of the list of message types: state requests outrank state
    acknowledgements, which outrank heartbeats, which outrank heartbeat
    acknowledgements, and messages of one type are equivalent. *)
Theorem msg_priority_order s1 d1 m1 s2 d2 m2 :
  Msg_new s1 d1 = Ok m1 -> Msg_new s2 d2 = Ok m2 ->
  (msg_lt m1 m2 = true <-> get_type m2 < get_type m1).
Proof.
  rewrite !Msg_new_pack. intros [= <-] [= <-]. unfold msg_lt.
  destruct d1, d2; cbn; (split; [done || lia|done || lia]).
Qed.

Lemma msg_priority_order_witness :
  let ack := pack 16 (VHeartbeatAckMsg (mkHeartbeatAckMsg 1 2 3)) in
  let req := pack 32 (VStateMsg (mkStateMsg 2)) in
  msg_lt ack req = true <-> get_type req < get_type ack.
Proof.
  exact (msg_priority_order 16 (VHeartbeatAckMsg (mkHeartbeatAckMsg 1 2 3)) _
                            32 (VStateMsg (mkStateMsg 2)) _ eq_refl eq_refl).
Defined.

(** [msg_type_to_string] gives every declared type its own name, and
    "Unknown" for every other value of the enumeration's [int]. *)
Theorem msg_type_names t t' :
  - 2 ^ 31 <= t < 2 ^ 31 -> - 2 ^ 31 <= t' < 2 ^ 31 ->
  (msg_type_to_string t = "Unknown" <-> ~ 0 <= t < variant_size) /\
  (0 <= t < variant_size -> msg_type_to_string t = msg_type_to_string t' -> t = t').
Proof.
  intros Ht Ht'.
  assert (Hout : forall z, - 2 ^ 31 <= z < 2 ^ 31 -> ~ 0 <= z < variant_size ->
            msg_type_to_string z = "Unknown").
  { intros z Hz Hno. unfold msg_type_to_string. rewrite decide_False; [done|].
    change (Z.of_nat (length message_type_names)) with 4. change variant_size with 4 in *. unfold u64.
    destruct (decide (0 <= z)); [rewrite Z.mod_small; lia|].
    rewrite <- (Z.mod_unique z (2 ^ 64) (-1) (z + 2 ^ 64)); lia. }
  assert (Hin : forall z, 0 <= z < variant_size -> z = 0 \/ z = 1 \/ z = 2 \/ z = 3)
    by (change variant_size with 4; lia).
  split; [split; [|by apply Hout]|].
  - intros Heq Hr. by destruct (Hin t Hr) as [->|[->|[->| ->]]].
  - intros Hr Heq. destruct (decide (0 <= t' < variant_size)) as [Hr'|Hr'].
    + by destruct (Hin t Hr) as [->|[->|[->| ->]]]; destruct (Hin t' Hr') as [->|[->|[->| ->]]].
    + rewrite (Hout t') in Heq by done. by destruct (Hin t Hr) as [->|[->|[->| ->]]].
Qed.

Lemma msg_type_names_witness :
  (msg_type_to_string 3 = "Unknown" <-> ~ 0 <= 3 < variant_size) /\
  (0 <= 3 < variant_size -> msg_type_to_string 3 = msg_type_to_string (-1) -> 3 = -1).
Proof. apply (msg_type_names 3 (-1)); lia. Defined.
End properties.
