(* ===== verification/QueueSpec.v ===== *)
(** * QueueSpec: what a message queue promises its clients

    The abstract message queue is the list of its messages in order of
    arrival, a capacity and a shutdown flag; [pop_best] takes out the oldest
    message of the highest priority. [QueueImpl] is the interface the broker
    and the tasks are verified against; MessageQueue.v implements it over the
    memory pool and the binary heap. *)

From S2P Require Import Prelude Heap Msg.
#[local] Open Scope Z_scope.

(** A blocking call either has nothing to return yet or returns. *)
Inductive wakeup (A : Type) := Blocks | Returns (a : A).
Arguments Blocks {A}.
Arguments Returns {A} a.

(** ** Stable priority selection *)

Section pop_best.
Context {A : Type} (lt : A -> A -> bool).
Implicit Types l : list A.

(** The first of the greatest elements, and the list without it. *)
Fixpoint pop_best l : option (A * list A) :=
  match l with
  | [] => None
  | x :: l' =>
      match pop_best l' with
      | Some (y, r) => if lt x y then Some (y, x :: r) else Some (x, l')
      | None => Some (x, l')
      end
  end.

Lemma pop_best_None l : pop_best l = None <-> l = [].
Proof. destruct l as [|x l]; cbn; [done|]. destruct (pop_best l) as [[y r]|]; [|done]. by destruct (lt x y). Qed.

Context `{!StrictWeakOrder lt}.

Lemma pop_best_Some l x r :
  pop_best l = Some (x, r) ->
  exists l1 l2, l = l1 ++ x :: l2 /\ r = l1 ++ l2 /\
    (forall y, y ∈ l1 -> lt y x = true) /\ (forall y, y ∈ l2 -> lt x y = false).
Proof.
  revert x r. induction l as [|z l IH]; intros x r; cbn; [done|].
  destruct (pop_best l) as [[y r']|] eqn:Hp.
  - destruct (IH y r' eq_refl) as (l1 & l2 & -> & -> & Hb & Ha).
    destruct (lt z y) eqn:Hzy; intros [= <- <-].
    + exists (z :: l1), l2. split_and!; try done. intros w [->|Hw]%elem_of_cons; auto.
    + exists [], (l1 ++ y :: l2). split_and!; try done; [intros w; by rewrite elem_of_nil|].
      intros w [Hw|[->|Hw]%elem_of_cons]%elem_of_app.
      * apply (swo_ntrans z y w); [done|]. apply swo_asym. auto.
      * done.
      * apply (swo_ntrans z y w); auto.
  - apply pop_best_None in Hp as ->. intros [= <- <-].
    exists [], []. split_and!; try done; intros w; by rewrite elem_of_nil.
Qed.

Lemma pop_best_split l1 x l2 :
  (forall y, y ∈ l1 -> lt y x = true) -> (forall y, y ∈ l2 -> lt x y = false) ->
  pop_best (l1 ++ x :: l2) = Some (x, l1 ++ l2).
Proof.
  induction l1 as [|z l1 IH]; intros Hb Ha; cbn.
  - destruct (pop_best l2) as [[y r]|] eqn:Hp; [|done].
    destruct (pop_best_Some _ _ _ Hp) as (k1 & k2 & -> & _). rewrite Ha; [done|]. set_solver.
  - rewrite IH; [|intros y Hy; apply Hb; by apply list_elem_of_further|done].
    rewrite Hb; [done|]. apply list_elem_of_here.
Qed.
End pop_best.

Lemma pop_best_fmap {A B} (f : A -> B) (ltA : A -> A -> bool) (ltB : B -> B -> bool) (l : list A) :
  (forall x y, ltA x y = ltB (f x) (f y)) ->
  pop_best ltB (f <$> l) = (fun p : A * list A => (f p.1, f <$> p.2)) <$> pop_best ltA l.
Proof.
  intros Hf. induction l as [|x l IH]; cbn; [done|]. rewrite IH.
  destruct (pop_best ltA l) as [[y r]|]; cbn; [|done]. rewrite Hf. by destruct (ltB (f x) (f y)).
Qed.

(** ** The abstract queue *)

Record aqueue := mkAqueue {
  aq_items : list Msg;  (* in order of arrival *)
  aq_capacity : nat;
  aq_closed : bool;
  aq_ticks : Z          (* sequence numbers handed out since the last reset *)
}.

Definition aq_new (capacity : nat) : aqueue := mkAqueue [] capacity false 0.

(** [queue_full] is the message of the assertion a full queue trips. *)
Definition queue_full : error := AssertFailed "Memory pool out of memory!".

Definition aq_enqueue (a : aqueue) (m : Msg) : result aqueue :=
  if decide (length (aq_items a) < aq_capacity a)%nat then
    Ok (mkAqueue (aq_items a ++ [m]) (aq_capacity a) (aq_closed a) (aq_ticks a + 1))
  else Err queue_full.

Definition aq_dequeue (a : aqueue) : wakeup (option Msg) * aqueue :=
  match pop_best msg_lt (aq_items a) with
  | Some (m, r) =>
      (Returns (Some m),
       mkAqueue r (aq_capacity a) (aq_closed a) (match r with [] => 0 | _ => aq_ticks a end))
  | None =>
      if aq_closed a then (Returns None, mkAqueue [] (aq_capacity a) true 0)
      else (Blocks, a)
  end.

(** Unlike [aq_dequeue]: no reset of the numbering, and no answer for a queue
    that is closed and empty. *)
Definition aq_try_dequeue (a : aqueue) : result (option Msg * aqueue) :=
  match pop_best msg_lt (aq_items a) with
  | Some (m, r) => Ok (Some m, mkAqueue r (aq_capacity a) (aq_closed a) (aq_ticks a))
  | None => if aq_closed a then Err (UB "pop_heap on an empty range") else Ok (None, a)
  end.

Definition aq_close (a : aqueue) : aqueue :=
  mkAqueue (aq_items a) (aq_capacity a) true (aq_ticks a).

(** ** The interface *)

Class QueueImpl (Q : Type) := {
  q_enqueue : Q -> Msg -> result Q;
  q_dequeue : Q -> result (wakeup (option Msg) * Q);
  q_try_dequeue : Q -> result (option Msg * Q);
  q_is_empty : Q -> bool;
  q_notify_shutdown : Q -> Q;
  (** the queue is in a proper state and stands for the abstract one *)
  q_view : Q -> aqueue -> Prop;
  q_enqueue_ok q a a' m :
    q_view q a -> msg_wf m -> aq_ticks a < 2 ^ 32 - 1 -> aq_enqueue a m = Ok a' ->
    exists q', q_enqueue q m = Ok q' /\ q_view q' a';
  q_enqueue_full q a m e :
    q_view q a -> aq_enqueue a m = Err e -> q_enqueue q m = Err e;
  q_dequeue_ok q a :
    q_view q a -> exists q', q_dequeue q = Ok (fst (aq_dequeue a), q') /\ q_view q' (snd (aq_dequeue a));
  q_try_dequeue_ok q a r a' :
    q_view q a -> aq_try_dequeue a = Ok (r, a') -> exists q', q_try_dequeue q = Ok (r, q') /\ q_view q' a';
  q_try_dequeue_ub q a e :
    q_view q a -> aq_try_dequeue a = Err e -> q_try_dequeue q = Err e;
  q_is_empty_ok q a : q_view q a -> q_is_empty q = bool_decide (aq_items a = []);
  q_notify_shutdown_ok q a : q_view q a -> q_view (q_notify_shutdown q) (aq_close a);
  q_view_bound q a : q_view q a -> (length (aq_items a) <= aq_capacity a)%nat /\ 0 <= aq_ticks a < 2 ^ 32
}.

(** The reference implementation: the abstract queue itself, with the counter
    kept in 32 bits. *)
#[export] Program Instance reference_queue : QueueImpl aqueue := {|
  q_enqueue a m := a' ← aq_enqueue a m; Ok (mkAqueue (aq_items a') (aq_capacity a') (aq_closed a') (u32 (aq_ticks a')));
  q_dequeue a := Ok (aq_dequeue a);
  q_try_dequeue := aq_try_dequeue;
  q_is_empty a := bool_decide (aq_items a = []);
  q_notify_shutdown := aq_close;
  q_view a a' := a = a' /\ (length (aq_items a) <= aq_capacity a)%nat /\ 0 <= aq_ticks a < 2 ^ 32
|}.
Next Obligation.
  intros q a a' m (-> & Hlen & Ht) _ Hn. unfold aq_enqueue. case_decide; [|done]. intros [= <-].
  eexists; split; [done|]. cbn. rewrite u32_small, length_app by lia. cbn. split_and!; done || lia.
Qed.
Next Obligation. intros q a m e (-> & _) He. by rewrite He. Qed.
Next Obligation.
  intros q a (-> & Hlen & Ht). exists (snd (aq_dequeue a)). split; [cbn; by rewrite <- surjective_pairing|].
  unfold aq_dequeue. destruct (pop_best msg_lt (aq_items a)) as [[m r]|] eqn:Hp; cbn.
  - destruct (pop_best_Some _ _ _ _ Hp) as (l1 & l2 & Hl & -> & _). rewrite Hl in Hlen.
    rewrite !length_app in *. cbn in Hlen. split_and!; [done|lia| |]; destruct (l1 ++ l2); lia.
  - destruct (aq_closed a); cbn; split_and!; done || lia.
Qed.
Next Obligation.
  intros q a r a' (-> & Hlen & Ht) He. eexists; split; [done|]. revert He. unfold aq_try_dequeue.
  destruct (pop_best msg_lt (aq_items a)) as [[m r']|] eqn:Hp.
  - intros [= <- <-]. destruct (pop_best_Some _ _ _ _ Hp) as (l1 & l2 & Hl & -> & _).
    rewrite Hl in Hlen. cbn. rewrite !length_app in *. cbn in Hlen. split_and!; done || lia.
  - destruct (aq_closed a); [done|]. by intros [= <- <-].
Qed.
Next Obligation. by intros q a e (-> & _) He. Qed.
Next Obligation. by intros q a (-> & _). Qed.
Next Obligation. intros q a (-> & ? & ?). done. Qed.
Next Obligation. by intros q a (-> & ? & ?). Qed.

(** ** The types of a queue's contents

    What a client that never looks into the queue may rely on, however many
    messages have gone through it: a queue that holds well-formed messages
    accepts one or is full, and gives well-formed messages back. No bound on
    the sequence numbers is needed for that. *)
Class QueueTyping (Q : Type) `{QueueImpl Q} := {
  queue_typed : Q -> Prop;
  enqueue_typed q m :
    queue_typed q -> msg_wf m ->
    match q_enqueue q m with Ok q' => queue_typed q' | Err e => e = queue_full end;
  dequeue_typed q :
    queue_typed q -> exists r q', q_dequeue q = Ok (r, q') /\ queue_typed q' /\
      forall m, r = Returns (Some m) -> msg_wf m;
  notify_shutdown_typed q : queue_typed q -> queue_typed (q_notify_shutdown q)
}.

Lemma aq_dequeue_Forall (P : Msg -> Prop) a :
  Forall P (aq_items a) ->
  Forall P (aq_items (aq_dequeue a).2) /\ forall m, (aq_dequeue a).1 = Returns (Some m) -> P m.
Proof.
  intros Hf. unfold aq_dequeue. destruct (pop_best msg_lt (aq_items a)) as [[m r]|] eqn:Hp.
  - destruct (pop_best_Some _ _ _ _ Hp) as (l1 & l2 & Hl & -> & _). rewrite Hl in Hf.
    apply Forall_app in Hf as [H1 [Hm H2]%Forall_cons]. cbn. split; [by apply Forall_app|]. by intros m' [= <-].
  - destruct (aq_closed a); cbn; (split; [first [done|constructor]|done]).
Qed.

#[export] Program Instance reference_queue_typing : QueueTyping aqueue := {|
  queue_typed a := Forall msg_wf (aq_items a)
|}.
Next Obligation.
  intros a m Ha Hm. unfold q_enqueue, reference_queue, aq_enqueue. case_decide; cbn; [|done].
  apply Forall_app. split; [done|by apply Forall_singleton].
Qed.
Next Obligation.
  intros a Ha. destruct (aq_dequeue_Forall msg_wf a Ha) as [Hr Hm].
  exists (aq_dequeue a).1, (aq_dequeue a).2. split; [cbn; by rewrite <- surjective_pairing|done].
Qed.
Next Obligation. done. Qed.

(** ** Programs over a queue *)

Inductive qop := OEnqueue (m : Msg) | ODequeue | OTryDequeue | OIsEmpty | OShutdown.
Inductive qret := RUnit | RDequeue (r : wakeup (option Msg)) | RTry (r : option Msg) | RBool (b : bool).

Section programs.
Context {Q : Type} `{QueueImpl Q}.

Definition exec (q : Q) (o : qop) : result (qret * Q) :=
  match o with
  | OEnqueue m => q' ← q_enqueue q m; Ok (RUnit, q')
  | ODequeue => '(r, q') ← q_dequeue q; Ok (RDequeue r, q')
  | OTryDequeue => '(r, q') ← q_try_dequeue q; Ok (RTry r, q')
  | OIsEmpty => Ok (RBool (q_is_empty q), q)
  | OShutdown => Ok (RUnit, q_notify_shutdown q)
  end.

Fixpoint exec_all (q : Q) (os : list qop) : result (list qret * Q) :=
  match os with
  | [] => Ok ([], q)
  | o :: os' =>
      '(r, q') ← exec q o;
      '(rs, q'') ← exec_all q' os';
      Ok (r :: rs, q'')
  end.
End programs.

(** The same programs on the abstract queue. *)
Definition aq_exec (a : aqueue) (o : qop) : result (qret * aqueue) :=
  match o with
  | OEnqueue m => a' ← aq_enqueue a m; Ok (RUnit, a')
  | ODequeue => Ok (RDequeue (fst (aq_dequeue a)), snd (aq_dequeue a))
  | OTryDequeue => '(r, a') ← aq_try_dequeue a; Ok (RTry r, a')
  | OIsEmpty => Ok (RBool (bool_decide (aq_items a = [])), a)
  | OShutdown => Ok (RUnit, aq_close a)
  end.

Fixpoint aq_exec_all (a : aqueue) (os : list qop) : result (list qret * aqueue) :=
  match os with
  | [] => Ok ([], a)
  | o :: os' =>
      '(r, a') ← aq_exec a o;
      '(rs, a'') ← aq_exec_all a' os';
      Ok (r :: rs, a'')
  end.

Definition is_enqueue (o : qop) : bool := match o with OEnqueue _ => true | _ => false end.
Definition enqueues (os : list qop) : Z := foldr (fun o n => (if is_enqueue o then 1 else 0) + n) 0 os.

Lemma enqueues_nonneg os : 0 <= enqueues os.
Proof. unfold enqueues. induction os as [|o os IH]; cbn; [lia|]. destruct (is_enqueue o); lia. Qed.

Definition qop_wf (o : qop) : Prop := match o with OEnqueue m => msg_wf m | _ => True end.

(** An operation numbers at most one message. *)
Lemma aq_exec_ticks a o r a' :
  aq_exec a o = Ok (r, a') ->
  aq_ticks a' <= Z.max 0 (aq_ticks a) + (if is_enqueue o then 1 else 0).
Proof.
  destruct o; cbn [aq_exec is_enqueue].
  - unfold aq_enqueue. case_decide; cbn [mbind result_bind]; [|done].
    intros [= _ <-]; cbn [aq_ticks]. lia.
  - unfold aq_dequeue. intros [= _ <-].
    destruct (pop_best msg_lt (aq_items a)) as [[m [|]]|]; [cbn [snd aq_ticks]; lia..|].
    destruct (aq_closed a); cbn [snd aq_ticks]; lia.
  - unfold aq_try_dequeue. destruct (pop_best msg_lt (aq_items a)) as [[m l]|]; cbn [mbind result_bind].
    + intros [= _ <-]; cbn [aq_ticks]. lia.
    + destruct (aq_closed a); cbn [mbind result_bind]; [done|]. intros [= _ <-]. lia.
  - intros [= _ <-]. lia.
  - intros [= _ <-]. cbn [aq_close aq_ticks]. lia.
Qed.

Section refinement.
Context {Q : Type} `{QueueImpl Q}.

Lemma exec_view (q : Q) a o :
  q_view q a -> qop_wf o -> (is_enqueue o = true -> aq_ticks a < 2 ^ 32 - 1) ->
  match aq_exec a o with
  | Ok (r, a') => exists q', exec q o = Ok (r, q') /\ q_view q' a'
  | Err e => exec q o = Err e
  end.
Proof.
  intros Hv Hwf Ht. destruct o as [m| | | |]; cbn.
  - destruct (aq_enqueue a m) as [a'|e] eqn:He; cbn.
    + destruct (q_enqueue_ok q a a' m Hv Hwf (Ht eq_refl) He) as (q' & -> & ?). by exists q'.
    + by rewrite (q_enqueue_full q a m e Hv He).
  - destruct (q_dequeue_ok q a Hv) as (q' & -> & ?). by exists q'.
  - destruct (aq_try_dequeue a) as [[r a']|e] eqn:He; cbn.
    + destruct (q_try_dequeue_ok q a r a' Hv He) as (q' & -> & ?). by exists q'.
    + by rewrite (q_try_dequeue_ub q a e Hv He).
  - exists q. by rewrite (q_is_empty_ok q a Hv).
  - eexists; split; [done|]. by apply q_notify_shutdown_ok.
Qed.

Lemma exec_all_view (q : Q) a os :
  q_view q a -> Forall qop_wf os -> aq_ticks a + enqueues os < 2 ^ 32 ->
  match aq_exec_all a os with
  | Ok (rs, a') => exists q', exec_all q os = Ok (rs, q') /\ q_view q' a'
  | Err e => exec_all q os = Err e
  end.
Proof.
  revert q a. induction os as [|o os IH]; intros q a Hv Hwf Ht; cbn; [by exists q|].
  apply Forall_cons in Hwf as [Hwf Hwfs].
  assert (Hn : enqueues (o :: os) = (if is_enqueue o then 1 else 0) + enqueues os) by done.
  pose proof (enqueues_nonneg os).
  pose proof (q_view_bound q a Hv) as [_ Hb].
  pose proof (exec_view q a o Hv Hwf) as Hstep. specialize (Hstep ltac:(intros He; rewrite He in Hn; lia)).
  destruct (aq_exec a o) as [[r a']|e] eqn:He; cbn; [|by rewrite Hstep].
  destruct Hstep as (q' & -> & Hv'). cbn.
  apply aq_exec_ticks in He. set (k := if is_enqueue o then 1 else 0) in *.
  specialize (IH q' a' Hv' Hwfs ltac:(lia)).
  destruct (aq_exec_all a' os) as [[rs a'']|e]; cbn; [|by rewrite IH].
  destruct IH as (q'' & -> & ?). by exists q''.
Qed.
End refinement.
