(* ===== verification/MessageQueue.v ===== *)
(** * MessageQueue: the priority queue of a task (message_queue.h, message_queue.cpp)

    The queue keeps nodes in blocks of its own memory pool and their addresses
    in a binary heap. The nodes live in the pool's bytes: constructing one in
    a block writes its object representation there and comparing two reads it
    back, so that a block handed out twice or a stray write would show.

    [NodeLayout] is the compiler's representation of a [Node]; [lp64_layout]
    is the one of the 64-bit Itanium ABI. *)

From S2P Require Import Prelude MemoryPool Heap Msg QueueSpec.
#[local] Open Scope Z_scope.

(** ** Nodes and their representation *)

Record Node := mkNode {
  message : Msg;
  sequence_number : Z (* uint32_t *)
}.

Definition node_wf (n : Node) : Prop := msg_wf (message n) /\ 0 <= sequence_number n < 2 ^ 32.

Class NodeLayout := {
  sizeof_Node : Z;
  node_repr : Node -> list Z;
  node_of : list Z -> Node;
  node_repr_size n : Z.of_nat (length (node_repr n)) = sizeof_Node;
  sizeof_Node_ptr : Z.of_nat sizeof_ptr < sizeof_Node;
  node_of_repr n : node_wf n -> node_of (node_repr n) = n
}.

(** *** The layout of the 64-bit Itanium ABI

    [Msg]: the sender at 0, the variant at 8 (24 bytes of storage, the index
    at 24 of it), the priority at 40, the type at 44; [Node] adds the sequence
    number at 48. Padding is written as zero. *)

Definition pad (n : nat) : list Z := replicate n 0.

Definition variant_repr (d : MessageVariant) : list Z :=
  match d with
  | VStateMsg m => le_encode 1 (sm_state m) ++ pad 23
  | VStateAckMsg m => le_encode 1 (sa_state m) ++ pad 23
  | VHeartbeatMsg m => le_encode 4 (unique_id m) ++ pad 4 ++ le_encode 8 (timestamp m) ++ pad 8
  | VHeartbeatAckMsg m =>
      le_encode 4 (orig_unique_id m) ++ pad 4 ++ le_encode 8 (orig_timestamp m) ++
      le_encode 8 (ack_timestamp m)
  end ++ le_encode 1 (variant_index d) ++ pad 7.

Definition lp64_repr (n : Node) : list Z :=
  le_encode 8 (sending_task (message n)) ++ variant_repr (msg_data (message n)) ++
  le_encode 2 (msg_priority (message n)) ++ pad 2 ++ le_encode 4 (msg_type (message n)) ++
  le_encode 4 (sequence_number n) ++ pad 4.

Definition field (off n : nat) (bs : list Z) : Z := le_decode (read_at off n bs).

Definition lp64_variant (bs : list Z) : MessageVariant :=
  let index := field 24 1 bs in
  if decide (index = 0) then VStateMsg (mkStateMsg (field 0 1 bs))
  else if decide (index = 1) then VStateAckMsg (mkStateAckMsg (field 0 1 bs))
  else if decide (index = 2) then VHeartbeatMsg (mkHeartbeatMsg (field 0 4 bs) (field 8 8 bs))
  else VHeartbeatAckMsg (mkHeartbeatAckMsg (field 0 4 bs) (field 8 8 bs) (field 16 8 bs)).

Definition lp64_node (bs : list Z) : Node :=
  mkNode (mkMsg (field 0 8 bs) (lp64_variant (read_at 8 32 bs)) (field 40 2 bs) (field 44 4 bs))
         (field 48 4 bs).

Lemma field_encoded off n bs z :
  read_at off n bs = le_encode n z -> 0 <= z < 256 ^ Z.of_nat n -> field off n bs = z.
Proof. intros Hr Hz. unfold field. by rewrite Hr, le_decode_encode. Qed.

Lemma lp64_variant_repr d : variant_wf d -> lp64_variant (variant_repr d) = d.
Proof.
  intros Hd. unfold lp64_variant.
  rewrite (field_encoded 24 1 _ (variant_index d)) by (destruct d; first [reflexivity|cbn; lia]).
  destruct d as [[a]|[a]|[a b]|[a b c]]; cbn in Hd; cbn [variant_index];
    rewrite ?decide_True by done; rewrite ?decide_False by done;
    repeat f_equal; apply field_encoded; first [reflexivity | lia].
Qed.

#[export] Instance lp64_layout : NodeLayout.
Proof.
  refine {| sizeof_Node := 56; node_repr := lp64_repr; node_of := lp64_node |}.
  - intros n. unfold lp64_repr, variant_repr.
    destruct (msg_data (message n)); rewrite !length_app, !length_le_encode; reflexivity.
  - unfold sizeof_ptr. lia.
  - intros [[s d p t] k] [[Hs Hd Hp Ht] Hk]; cbn in Hs, Hd, Hp, Ht, Hk. unfold lp64_node.
    assert (Hv : read_at 8 32 (lp64_repr (mkNode (mkMsg s d p t) k)) = variant_repr d) by by destruct d.
    rewrite Hv, lp64_variant_repr by done.
    assert (0 <= p < 256 ^ Z.of_nat 2 /\ 0 <= t < 256 ^ Z.of_nat 4) as [].
    { subst t. destruct d; injection Hp as <-; cbn; lia. }
    repeat f_equal; (apply field_encoded; [destruct d; reflexivity|done || lia]).
Defined.

(** [NodeComparator], on the nodes themselves. *)
Definition node_lt (a b : Node) : bool :=
  if msg_lt (message a) (message b) then true
  else if msg_lt (message b) (message a) then false
  else sequence_number a >? sequence_number b.

#[export] Instance node_lt_swo : StrictWeakOrder node_lt.
Proof.
  constructor; unfold node_lt, msg_lt; intros;
    repeat match goal with
    | |- context [if ?b then _ else _] => destruct b eqn:?
    | H : context [if ?b then _ else _] |- _ => destruct b eqn:?
    end; try done; lia.
Qed.

(** A comparator that reads keys through pointers inherits their order. *)
#[export] Instance swo_through {A B} (f : A -> B) (lt : B -> B -> bool) `{!StrictWeakOrder lt} :
  StrictWeakOrder (fun x y => lt (f x) (f y)).
Proof. constructor; intros; [apply swo_irrefl|by apply swo_asym|by eapply swo_ntrans]. Qed.

Section queue.
Context `{NodeLayout} `{HeapAlgorithms}.

(** ** Data *)

Record MessageQueue := mkMessageQueue {
  pool : MemoryPool;
  queue : list Z;    (* std::vector<Node*>, a heap *)
  shutdown : bool;
  sequence : Z       (* uint32_t *)
}.

Definition set_pool (p : MemoryPool) (q : MessageQueue) : MessageQueue :=
  mkMessageQueue p (queue q) (shutdown q) (sequence q).
Definition set_sequence (s : Z) (q : MessageQueue) : MessageQueue :=
  mkMessageQueue (pool q) (queue q) (shutdown q) s.

(** [node_size()]. *)
Definition node_size : Z := sizeof_Node.

Definition node_bytes : nat := Z.to_nat sizeof_Node.

(** [*node], for the comparator and for reading the message out. *)
Definition node_at (p : MemoryPool) (a : Z) : Node :=
  node_of (read_at (offset p a) node_bytes (pool_data p)).
Definition read_node (p : MemoryPool) (a : Z) : result Node :=
  bs ← load_bytes p a node_bytes; Ok (node_of bs).

Definition NodeComparator (p : MemoryPool) (a b : Z) : bool := node_lt (node_at p a) (node_at p b).

(** The heap algorithms dereference every pointer they compare. *)
Definition dereferenceable (p : MemoryPool) (l : list Z) : Prop :=
  Forall (fun a => in_buffer p a node_bytes) l.
#[export] Instance dereferenceable_dec p l : Decision (dereferenceable p l).
Proof. unfold dereferenceable. apply _. Defined.

(** ** Operations *)

(** The constructor; [base] is where the pool's buffer lands. *)
Definition MessageQueue_new (base msg_size max_msgs : Z) : result MessageQueue :=
  p ← MemoryPool_new base msg_size max_msgs;
  Ok (mkMessageQueue p [] false 0).

(** [enqueue], its first statement: a block of the pool, outside the queue's lock. *)
Definition enqueue_allocate (q : MessageQueue) : result (Z * MessageQueue) :=
  '(raw, p) ← allocate (pool q);
  assert_that (raw <> nullptr) "Memory pool out of memory!" ≫= fun _ =>
  Ok (raw, set_pool p q).

(** [enqueue], the rest: the critical section. *)
Definition enqueue_insert (q : MessageQueue) (raw : Z) (msg : Msg) : result MessageQueue :=
  let node := mkNode msg (sequence q) in
  p ← store_bytes (pool q) raw (node_repr node);
  let vec := queue q ++ [raw] in
  require_defined (dereferenceable p vec) "dangling node in the queue" ≫= fun _ =>
  Ok (mkMessageQueue p (push_heap (NodeComparator p) vec) (shutdown q) (u32 (sequence q + 1))).

Definition enqueue (q : MessageQueue) (msg : Msg) : result MessageQueue :=
  '(raw, q) ← enqueue_allocate q;
  enqueue_insert q raw msg.

(** [pop_heap], [back] and [pop_back], all undefined on an empty vector. *)
Definition pop_top (q : MessageQueue) : result (Z * MessageQueue) :=
  require_defined (queue q <> []) "pop_heap on an empty range" ≫= fun _ =>
  require_defined (dereferenceable (pool q) (queue q)) "dangling node in the queue" ≫= fun _ =>
  let vec := pop_heap (NodeComparator (pool q)) (queue q) in
  match last vec with
  | Some node => Ok (node, mkMessageQueue (pool q) (removelast vec) (shutdown q) (sequence q))
  | None => Err (UB "back of an empty vector")
  end.

(** Copying the message out, destroying the node, returning its block. *)
Definition release (q : MessageQueue) (node : Z) : result (Msg * MessageQueue) :=
  n ← read_node (pool q) node;
  p ← deallocate (pool q) node;
  Ok (message n, set_pool p q).

(** [dequeue], entered with the lock held: [Blocks] when the wait goes on. *)
Definition dequeue (q : MessageQueue) : result (wakeup (option Msg) * MessageQueue) :=
  if decide (queue q = [] /\ shutdown q = false) then Ok (Blocks, q)
  else if decide (shutdown q = true /\ queue q = []) then Ok (Returns None, set_sequence 0 q)
  else
    '(node, q) ← pop_top q;
    let q := if decide (queue q = []) then set_sequence 0 q else q in
    '(m, q) ← release q node;
    Ok (Returns (Some m), q).

(** [try_dequeue], from the moment its timed wait ends: the wait returns
    whether the queue is non-empty or shut down. *)
Definition try_dequeue (q : MessageQueue) : result (option Msg * MessageQueue) :=
  if decide (queue q = [] /\ shutdown q = false) then Ok (None, q)
  else
    '(node, q) ← pop_top q;
    '(m, q) ← release q node;
    Ok (Some m, q).

Definition is_empty (q : MessageQueue) : bool :=
  match queue q with [] => true | _ => false end.

Definition notify_shutdown (q : MessageQueue) : MessageQueue :=
  mkMessageQueue (pool q) (queue q) true (sequence q).

(** The destructor's loop: every remaining node goes back to the pool. *)
Fixpoint drain (p : MemoryPool) (nodes : list Z) : result MemoryPool :=
  match nodes with
  | [] => Ok p
  | node :: nodes' => p ← deallocate p node; drain p nodes'
  end.

Definition MessageQueue_destroy (q : MessageQueue) : result MessageQueue :=
  p ← drain (pool q) (queue q);
  Ok (mkMessageQueue p [] (shutdown q) (sequence q)).

(** ** The representation invariant *)

(** The memory half: the pool's blocks are the free ones, those in the heap
    and those producers hold between their allocation and their insertion;
    the vector is a heap of well-formed nodes. *)
Record queue_mem (q : MessageQueue) (free held : list Z) : Prop := {
  qm_pool : pool_rep (pool q) free;
  qm_partition : free ++ queue q ++ held ≡ₚ blocks (pool q);
  qm_size : sizeof_Node <= block_size (pool q);
  qm_heap : is_heap (NodeComparator (pool q)) (queue q);
  qm_nodes : Forall (fun a => node_wf (node_at (pool q) a)) (queue q);
  qm_sequence : 0 <= sequence q < 2 ^ 32
}.

(** The nodes in the heap, in heap order. *)
Definition nodes (q : MessageQueue) : list Node := node_at (pool q) <$> queue q.

(** The order half: [items] are the nodes by age, numbered below the counter. *)
Record by_age (q : MessageQueue) (items : list Node) : Prop := {
  ba_nodes : items ≡ₚ nodes q;
  ba_sorted : StronglySorted (fun a b => sequence_number a < sequence_number b) items;
  ba_bound : Forall (fun n => sequence_number n < sequence q) items
}.

Definition view (q : MessageQueue) (held : list Z) (a : aqueue) : Prop :=
  exists free items, queue_mem q free held /\ by_age q items /\
    aq_items a = message <$> items /\ aq_capacity a = Z.to_nat (block_count (pool q)) /\
    aq_closed a = shutdown q /\ aq_ticks a = sequence q.

(** ** Lemmas: nodes in memory *)

Implicit Types q : MessageQueue.

Lemma node_repr_length n : length (node_repr n) = node_bytes.
Proof. unfold node_bytes. pose proof (node_repr_size n). lia. Qed.

Lemma node_bytes_size : Z.of_nat node_bytes = sizeof_Node.
Proof. unfold node_bytes. pose proof sizeof_Node_ptr. unfold sizeof_ptr in *. lia. Qed.

Lemma node_at_loaded p a bs : load_bytes p a node_bytes = Ok bs -> node_at p a = node_of bs.
Proof. unfold load_bytes. intros ?. by inv_bind. Qed.

Lemma node_at_frame p p' a :
  in_buffer p a node_bytes -> load_bytes p' a node_bytes = load_bytes p a node_bytes ->
  node_at p' a = node_at p a.
Proof. intros Hin Hl. rewrite (load_bytes_ok p) in Hl by done. by apply node_at_loaded in Hl. Qed.

Lemma is_heap_ext {A} (lt lt' : A -> A -> bool) l :
  (forall x y, x ∈ l -> y ∈ l -> lt' x y = lt x y) -> is_heap lt l -> is_heap lt' l.
Proof.
  intros Heq Hh i x y Hi Hx Hy. rewrite Heq by eauto using list_elem_of_lookup_2. by apply (Hh i).
Qed.

(** ** Lemmas: where the queue's blocks are *)

Lemma qm_geometry q free held : queue_mem q free held -> pool_geometry (pool q).
Proof. intros []. by eapply rep_geometry. Qed.

Lemma qm_nodup q free held : queue_mem q free held -> NoDup (free ++ queue q ++ held).
Proof. intros Hq. rewrite qm_partition by done. apply NoDup_blocks. by eapply qm_geometry. Qed.

Lemma qm_in_blocks q free held a :
  queue_mem q free held -> a ∈ free \/ a ∈ queue q \/ a ∈ held -> a ∈ blocks (pool q).
Proof. intros Hq Ha. rewrite <- qm_partition by done. by rewrite !elem_of_app. Qed.

(** A block a producer holds is neither free nor queued. *)
Lemma qm_held q free held a :
  queue_mem q free (a :: held) -> a ∈ blocks (pool q) /\ (a ∉ free) /\ (a ∉ queue q).
Proof.
  intros Hq. split.
  - eapply qm_in_blocks; [done|]. right; right. apply list_elem_of_here.
  - pose proof (qm_nodup _ _ _ Hq) as (_ & Hdis & (_ & Hdis' & _)%NoDup_app)%NoDup_app.
    split; intros Ha; [apply (Hdis a Ha), elem_of_app; right|apply (Hdis' a Ha)];
      apply list_elem_of_here.
Qed.

Lemma qm_deref q free held a :
  queue_mem q free held -> a ∈ blocks (pool q) -> in_buffer (pool q) a node_bytes.
Proof.
  intros Hq Ha. apply block_in_buffer; [by eapply qm_geometry|done|].
  rewrite node_bytes_size. by eapply qm_size.
Qed.

Lemma qm_dereferenceable q free held : queue_mem q free held -> dereferenceable (pool q) (queue q).
Proof.
  intros Hq. apply Forall_forall. intros a Ha. eapply qm_deref; [done|].
  eapply qm_in_blocks; [done|auto].
Qed.

(** Replacing the pool by one in which the queue's nodes read the same. *)
Lemma qm_transfer q free held p' free' held' :
  queue_mem q free held -> pool_rep p' free' -> same_shape (pool q) p' ->
  free' ++ queue q ++ held' ≡ₚ blocks (pool q) ->
  (forall a, a ∈ queue q -> load_bytes p' a node_bytes = load_bytes (pool q) a node_bytes) ->
  queue_mem (set_pool p' q) free' held' /\ nodes (set_pool p' q) = nodes q.
Proof.
  intros Hq Hrep Hsh Hpart Hload.
  assert (Hat : forall a, a ∈ queue q -> node_at p' a = node_at (pool q) a).
  { intros a Ha. apply node_at_frame; [|by apply Hload]. eapply qm_deref; [done|].
    eapply qm_in_blocks; [done|auto]. }
  destruct Hq. split; [constructor; cbn; try done|].
  - by rewrite (same_shape_blocks (pool q) p').
  - destruct Hsh as (Hs & _). by rewrite Hs.
  - eapply is_heap_ext; [|done]. intros x y Hx Hy. unfold NodeComparator. by rewrite !Hat.
  - rewrite !Forall_forall in *. intros a Ha. rewrite Hat by done. auto.
  - unfold nodes; cbn. apply list_fmap_ext. intros i a Ha. apply Hat. by eapply list_elem_of_lookup_2.
Qed.

Lemma qm_set_sequence q free held s :
  0 <= s < 2 ^ 32 -> queue_mem q free held -> queue_mem (set_sequence s q) free held.
Proof. intros Hs []. by constructor. Qed.

(** ** Lemmas: the steps of the operations *)

Lemma enqueue_allocate_ok q raw free held :
  queue_mem q (raw :: free) held ->
  exists p', enqueue_allocate q = Ok (raw, set_pool p' q) /\ same_shape (pool q) p' /\
    queue_mem (set_pool p' q) free (raw :: held) /\ nodes (set_pool p' q) = nodes q.
Proof.
  intros Hq. destruct (allocate_pop (pool q) raw free) as (p' & Hal & Hrep & Hsh & Hdata & Hin & Hnf);
    [by eapply qm_pool|].
  exists p'. unfold enqueue_allocate. rewrite Hal; cbn [mbind result_bind].
  pass_check ltac:(pose proof (block_nonnull _ raw (qm_geometry _ _ _ Hq) Hin); unfold nullptr; lia).
  split; [done|]. split; [done|].
  eapply qm_transfer; [done..| |].
  - rewrite <- (qm_partition q _ _ Hq). cbn. by rewrite !Permutation_middle.
  - intros a _. by apply load_bytes_same_data.
Qed.

Lemma enqueue_allocate_full q held : queue_mem q [] held -> enqueue_allocate q = Err queue_full.
Proof.
  intros Hq. unfold enqueue_allocate. rewrite allocate_empty by by eapply qm_pool.
  cbn [mbind result_bind]. rewrite assert_that_false; [done|]. by intros Hne.
Qed.

Lemma enqueue_insert_ok q raw free held m :
  queue_mem q free (raw :: held) -> msg_wf m ->
  exists q', enqueue_insert q raw m = Ok q' /\ queue_mem q' free held /\
    nodes q' ≡ₚ mkNode m (sequence q) :: nodes q /\ same_shape (pool q) (pool q') /\
    shutdown q' = shutdown q /\ sequence q' = u32 (sequence q + 1).
Proof.
  intros Hq Hm. set (n := mkNode m (sequence q)).
  destruct (qm_held _ _ _ _ Hq) as (Hraw & Hnfree & Hnqueue).
  destruct (client_store (pool q) free raw (node_repr n)) as (p' & Hst & Hrep & Hsh & _ & Hld & Hoth).
  { by eapply qm_pool. } { done. } { done. }
  { rewrite node_repr_size. by eapply qm_size. }
  rewrite node_repr_length in Hld.
  assert (Hn : node_at p' raw = n).
  { rewrite (node_at_loaded _ _ _ Hld). apply node_of_repr. split; [done|apply (qm_sequence _ _ _ Hq)]. }
  destruct (qm_transfer q free (raw :: held) p' free (raw :: held)) as [Hq' Hnodes]; [done|done|done| | |].
  { by apply qm_partition. }
  { intros a Ha. apply Hoth.
    - eapply qm_in_blocks; [done|auto].
    - by intros ->.
    - rewrite node_bytes_size. by eapply qm_size. }
  destruct (push_heap_spec (NodeComparator p') (queue q) raw (qm_heap _ _ _ Hq')) as [Hheap Hperm].
  unfold enqueue_insert. cbn zeta. fold n. rewrite Hst; cbn [mbind result_bind].
  assert (Hder : dereferenceable p' (queue q ++ [raw])).
  { apply Forall_app; split; [by apply (qm_dereferenceable _ _ _ Hq')|]. apply Forall_singleton.
    eapply same_shape_in_buffer; [done|]. by eapply qm_deref. }
  pass_check ltac:(exact Hder). eexists; split; [done|].
  split; [|split; [|done]].
  - destruct Hq'. constructor; cbn in *; try done.
    + rewrite <- qm_partition0, Hperm, <- !app_assoc. done.
    + rewrite Hperm. apply Forall_app; split; [done|]. apply Forall_singleton. rewrite Hn.
      split; [done|]. apply (qm_sequence _ _ _ Hq).
    + apply u32_range.
  - unfold nodes at 1. cbn. rewrite Hperm, fmap_app. cbn. rewrite Hn.
    change (node_at p' <$> queue q) with (nodes (set_pool p' q)). rewrite Hnodes.
    by rewrite Permutation_app_comm.
Qed.

Lemma enqueue_mem q raw free held m :
  queue_mem q (raw :: free) held -> msg_wf m ->
  exists q', enqueue q m = Ok q' /\ queue_mem q' free held /\
    nodes q' ≡ₚ mkNode m (sequence q) :: nodes q /\ same_shape (pool q) (pool q') /\
    shutdown q' = shutdown q /\ sequence q' = u32 (sequence q + 1).
Proof.
  intros Hq Hm. destruct (enqueue_allocate_ok q raw free held Hq) as (p1 & Hal & Hsh1 & Hq1 & Hn1).
  destruct (enqueue_insert_ok _ raw free held m Hq1 Hm) as (q2 & Hins & Hq2 & Hn2 & Hsh2 & Hsd & Hsq).
  unfold enqueue. rewrite Hal; cbn [mbind result_bind]. exists q2. rewrite Hn1 in Hn2.
  do 2 (split; [done|]). split; [done|]. by split; [eapply same_shape_trans|].
Qed.

Lemma pop_top_ok q free held :
  queue_mem q free held -> queue q <> [] ->
  exists a vec, pop_top q = Ok (a, mkMessageQueue (pool q) vec (shutdown q) (sequence q)) /\
    let q' := mkMessageQueue (pool q) vec (shutdown q) (sequence q) in
    queue_mem q' free (a :: held) /\ nodes q ≡ₚ node_at (pool q) a :: nodes q' /\
    (forall n, n ∈ nodes q -> node_lt (node_at (pool q) a) n = false).
Proof.
  intros Hq Hne. unfold pop_top. pass_check ltac:(done).
  pass_check ltac:(by eapply qm_dereferenceable).
  destruct (queue q) as [|a l] eqn:Hqueue; [done|].
  pose proof (qm_heap _ _ _ Hq) as Hh. rewrite Hqueue in Hh.
  destruct (pop_heap_spec (NodeComparator (pool q)) a l Hh) as (vec & -> & Hheap & Hperm).
  rewrite last_snoc, removelast_last. exists a, vec. split; [done|]. cbn.
  assert (Hvec : queue q ≡ₚ a :: vec) by by rewrite Hqueue, Hperm.
  split; [|split].
  - destruct Hq. constructor; cbn; try done.
    + rewrite <- qm_partition0, Hvec. cbn. by rewrite <- Permutation_middle.
    + rewrite Hvec in qm_nodes0. by apply Forall_cons in qm_nodes0 as [_ ?].
  - unfold nodes. by rewrite Hvec.
  - intros n (b & -> & Hb)%list_elem_of_fmap. rewrite Hqueue in Hb.
    by apply (heap_top (NodeComparator (pool q)) (a :: l)).
Qed.

Lemma release_ok q a free held :
  queue_mem q free (a :: held) ->
  exists p', release q a = Ok (message (node_at (pool q) a), set_pool p' q) /\
    same_shape (pool q) p' /\
    queue_mem (set_pool p' q) (a :: free) held /\ nodes (set_pool p' q) = nodes q.
Proof.
  intros Hq. destruct (qm_held _ _ _ _ Hq) as (Ha & Hnfree & Hnqueue).
  destruct (deallocate_push (pool q) a free) as (p' & Hd & Hrep & Hsh & Hoth).
  { by eapply qm_pool. } { done. } { done. }
  exists p'. unfold release, read_node. rewrite load_bytes_ok by by eapply qm_deref.
  cbn [mbind result_bind]. rewrite Hd; cbn [mbind result_bind]. split; [done|]. split; [done|].
  apply qm_transfer with free (a :: held); try done.
  - rewrite <- (qm_partition _ _ _ Hq). cbn. by rewrite !Permutation_middle.
  - intros b Hb. apply Hoth.
    + eapply qm_in_blocks; [done|auto].
    + by intros ->.
    + rewrite node_bytes_size. by eapply qm_size.
Qed.

(** Taking the top node out and giving its block back, [s] being the
    sequence number the operation leaves. *)
Lemma take_ok q free held s :
  queue_mem q free held -> queue q <> [] -> (forall vec, 0 <= s vec < 2 ^ 32) ->
  exists a vec p',
    pop_top q = Ok (a, mkMessageQueue (pool q) vec (shutdown q) (sequence q)) /\
    release (mkMessageQueue (pool q) vec (shutdown q) (s vec)) a =
      Ok (message (node_at (pool q) a), mkMessageQueue p' vec (shutdown q) (s vec)) /\
    let q' := mkMessageQueue p' vec (shutdown q) (s vec) in
    queue_mem q' (a :: free) held /\ same_shape (pool q) p' /\
    nodes q ≡ₚ node_at (pool q) a :: nodes q' /\
    (forall n, n ∈ nodes q -> node_lt (node_at (pool q) a) n = false).
Proof.
  intros Hq Hne Hs. destruct (pop_top_ok q free held Hq Hne) as (a & vec & Hpop & Hq1 & Hn & Hbest).
  apply (qm_set_sequence _ _ _ (s vec)) in Hq1; [|done].
  destruct (release_ok _ _ _ _ Hq1) as (p' & Hrel & Hsh & Hq2 & Hn2).
  exists a, vec, p'. cbn zeta. split_and!; try done.
  rewrite Hn. apply reflexive_eq. f_equal. symmetry. exact Hn2.
Qed.

Lemma set_sequence_if q (P : Prop) `{Decision P} :
  (if decide P then set_sequence 0 q else q) = set_sequence (if decide P then 0 else sequence q) q.
Proof. destruct q. by case_decide. Qed.

Lemma dequeue_nonempty q free held :
  queue_mem q free held -> queue q <> [] ->
  exists n q', dequeue q = Ok (Returns (Some (message n)), q') /\
    (exists a, queue_mem q' (a :: free) held) /\ same_shape (pool q) (pool q') /\
    shutdown q' = shutdown q /\ sequence q' = (if decide (queue q' = []) then 0 else sequence q) /\
    nodes q ≡ₚ n :: nodes q' /\ (forall n', n' ∈ nodes q -> node_lt n n' = false).
Proof.
  intros Hq Hne.
  destruct (take_ok q free held (fun vec => if decide (vec = []) then 0 else sequence q))
    as (a & vec & p' & Hpop & Hrel & Hq' & Hsh & Hn & Hbest); [done|done| |].
  { intros vec. pose proof (qm_sequence _ _ _ Hq). case_decide; lia. }
  exists (node_at (pool q) a); eexists. unfold dequeue.
  rewrite !decide_False by (by intros []). rewrite Hpop; cbn [mbind result_bind].
  rewrite set_sequence_if. change (release _ a) with (release (mkMessageQueue (pool q) vec (shutdown q)
    (if decide (vec = []) then 0 else sequence q)) a). rewrite Hrel.
  split; [done|]. split_and!; try done. by exists a.
Qed.

Lemma try_dequeue_nonempty q free held :
  queue_mem q free held -> queue q <> [] ->
  exists n q', try_dequeue q = Ok (Some (message n), q') /\
    (exists a, queue_mem q' (a :: free) held) /\ same_shape (pool q) (pool q') /\
    shutdown q' = shutdown q /\ sequence q' = sequence q /\
    nodes q ≡ₚ n :: nodes q' /\ (forall n', n' ∈ nodes q -> node_lt n n' = false).
Proof.
  intros Hq Hne.
  destruct (take_ok q free held (fun _ => sequence q))
    as (a & vec & p' & Hpop & Hrel & Hq' & Hsh & Hn & Hbest); [done|done| |].
  { intros _. apply (qm_sequence _ _ _ Hq). }
  exists (node_at (pool q) a); eexists. unfold try_dequeue.
  rewrite !decide_False by (by intros []). rewrite Hpop; cbn [mbind result_bind]. rewrite Hrel.
  split; [done|]. split_and!; try done. by exists a.
Qed.

(** ** Lemmas: the age of the nodes *)

Lemma by_age_insert q q' items m :
  by_age q items -> nodes q' ≡ₚ mkNode m (sequence q) :: nodes q -> sequence q' = sequence q + 1 ->
  by_age q' (items ++ [mkNode m (sequence q)]).
Proof.
  intros [Hp Hs Hb] Hn Hseq. constructor.
  - by rewrite Hn, Permutation_app_comm, Hp.
  - apply StronglySorted_app_2; [|done|by repeat constructor].
    intros x y Hx ->%list_elem_of_singleton. rewrite Forall_forall in Hb. by apply Hb.
  - rewrite Hseq. apply Forall_app; split; [|apply Forall_singleton; cbn; lia].
    eapply Forall_impl; [exact Hb|]. cbn. lia.
Qed.

Lemma by_age_nil q : nodes q = [] -> by_age q [].
Proof. intros Hn. constructor; [by rewrite Hn|constructor|constructor]. Qed.

(** The greatest node is the oldest of the messages of highest priority. *)
Lemma by_age_pop q q' items n :
  by_age q items -> nodes q ≡ₚ n :: nodes q' -> (forall n', n' ∈ nodes q -> node_lt n n' = false) ->
  sequence q' = sequence q \/ nodes q' = [] ->
  exists rest, by_age q' rest /\ rest ≡ₚ nodes q' /\
    pop_best msg_lt (message <$> items) = Some (message n, message <$> rest).
Proof.
  intros [Hp Hs Hb] Hn Hbest Hseq.
  assert (Hin : n ∈ items) by (rewrite Hp, Hn; apply list_elem_of_here).
  apply list_elem_of_split in Hin as (l1 & l2 & ->).
  assert (Hrest : l1 ++ l2 ≡ₚ nodes q').
  { symmetry. apply (Permutation_cons_app_inv _ _ (a := n)). by rewrite <- Hn, Hp. }
  assert (Hb' : forall x, x ∈ l1 ++ n :: l2 -> node_lt n x = false)
    by (intros x Hx; apply Hbest; by rewrite <- Hp).
  exists (l1 ++ l2). split_and!; [|done|].
  - destruct Hseq as [Hseq|Hempty].
    + apply StronglySorted_app in Hs as (Hc & Hs1 & [Hf2 Hs2]%StronglySorted_cons).
      apply Forall_app in Hb as [Hb1 [Hbn Hb2]%Forall_cons].
      constructor; [done| |rewrite Hseq; by apply Forall_app].
      apply StronglySorted_app_2; [|done|done]. intros x y Hx Hy. apply Hc; [done|by right].
    + rewrite Hempty in Hrest. apply Permutation_nil_r in Hrest. rewrite Hrest. by apply by_age_nil.
  - rewrite (pop_best_fmap message (fun a b => msg_lt (message a) (message b))) by done.
    rewrite (pop_best_split _ l1 n l2); [done| |].
    + intros x Hx. assert (Hage : sequence_number x < sequence_number n)
        by (apply (StronglySorted_app_1_elem_of _ _ _ _ _ Hs); [done|apply list_elem_of_here]).
      pose proof (Hb' x ltac:(apply elem_of_app; by left)) as Hlt. revert Hlt.
      unfold node_lt, msg_lt. repeat case_match; try done; lia.
    + intros x Hx. pose proof (Hb' x ltac:(apply elem_of_app; right; by right)) as Hlt. revert Hlt.
      unfold node_lt. by case_match.
Qed.

(** ** Lemmas: the operations on the abstract queue *)

Lemma queue_mem_nodes q free held : queue_mem q free held -> (queue q = [] <-> nodes q = []).
Proof. intros _. unfold nodes. by destruct (queue q). Qed.

(** Every block is free, queued, or held by a producer. *)
Lemma queue_mem_count q free held :
  queue_mem q free held ->
  (length free + (length (queue q) + length held) = Z.to_nat (block_count (pool q)))%nat.
Proof.
  intros Hq. rewrite <- length_blocks, <- (qm_partition q free held Hq). by rewrite !length_app.
Qed.

Lemma by_age_length q items : by_age q items -> length items = length (queue q).
Proof. intros [Hp _ _]. rewrite Hp. unfold nodes. by rewrite length_fmap. Qed.

Lemma view_count q held a free :
  view q held a -> queue_mem q free held ->
  (length free + (length (aq_items a) + length held) = aq_capacity a)%nat.
Proof.
  intros (free' & items & Hq' & Hage & -> & -> & _) Hq. rewrite length_fmap, (by_age_length q) by done.
  by apply queue_mem_count.
Qed.

Lemma block_count_shape p p' : same_shape p p' -> block_count p' = block_count p.
Proof. by intros (_ & ? & _). Qed.

Lemma view_new base msg_size max_msgs :
  sizeof_Node <= msg_size -> 0 < max_msgs -> msg_size * max_msgs < 2 ^ 64 ->
  fresh_region base (msg_size * max_msgs) ->
  exists q, MessageQueue_new base msg_size max_msgs = Ok q /\ view q [] (aq_new (Z.to_nat max_msgs)).
Proof.
  intros Hsize Hmax Hwrap Hreg. pose proof sizeof_Node_ptr.
  destruct (MemoryPool_new_ok base msg_size max_msgs) as (p & Hnew & Hrep & Hbs & Hbc & _); [lia|done..|].
  unfold MessageQueue_new. rewrite Hnew; cbn [mbind result_bind].
  eexists; split; [done|]. exists (blocks p), []. split_and!; try done; [|by apply by_age_nil|by rewrite <- Hbc].
  constructor; cbn; try done.
  - by rewrite app_nil_r.
  - by rewrite Hbs.
Qed.

Lemma view_enqueue q a a' m :
  view q [] a -> msg_wf m -> aq_ticks a < 2 ^ 32 - 1 -> aq_enqueue a m = Ok a' ->
  exists q', enqueue q m = Ok q' /\ view q' [] a'.
Proof.
  intros Hview Hm Ht. pose proof Hview as (free & items & Hq & Hage & Hit & Hcap & Hcl & Htk).
  pose proof (view_count q [] a free Hview Hq) as Hcount.
  unfold aq_enqueue. case_decide as Hroom; [|done]. intros [= <-].
  destruct free as [|raw free]; [cbn in Hcount; lia|].
  destruct (enqueue_mem q raw free [] m Hq Hm) as (q' & Henq & Hq' & Hn & Hsh & Hsd & Hsq).
  pose proof (qm_sequence _ _ _ Hq). rewrite u32_small in Hsq by lia.
  exists q'. split; [done|]. exists free, (items ++ [mkNode m (sequence q)]). split; [done|].
  split; [by apply (by_age_insert q)|]. cbn.
  by rewrite Hit, Hcap, Hcl, Hsd, Hsq, Htk, fmap_app, (block_count_shape _ _ Hsh).
Qed.

Lemma view_enqueue_full q a m e :
  view q [] a -> aq_enqueue a m = Err e -> enqueue q m = Err e.
Proof.
  intros Hview. pose proof Hview as (free & items & Hq & Hage & Hit & Hcap & Hcl & Htk).
  pose proof (view_count q [] a free Hview Hq) as Hcount.
  unfold aq_enqueue. case_decide as Hroom; [done|]. intros [= <-].
  destruct free as [|raw free]; [|cbn in Hcount; lia].
  unfold enqueue. by rewrite enqueue_allocate_full with (held := []).
Qed.

(** Both dequeuing operations, on a queue that has something. *)
Lemma view_take q held a q' n free' :
  view q held a -> queue q <> [] -> queue_mem q' free' held -> same_shape (pool q) (pool q') ->
  shutdown q' = shutdown q -> sequence q' = sequence q \/ (nodes q' = [] /\ sequence q' = 0) ->
  nodes q ≡ₚ n :: nodes q' -> (forall n', n' ∈ nodes q -> node_lt n n' = false) ->
  exists r, pop_best msg_lt (aq_items a) = Some (message n, r) /\ (r = [] <-> queue q' = []) /\
    view q' held (mkAqueue r (aq_capacity a) (aq_closed a) (sequence q')).
Proof.
  intros (free & items & Hq & Hage & Hit & Hcap & Hcl & Htk) Hne Hq' Hsh Hsd Hsq Hn Hbest.
  destruct (by_age_pop q q' items n Hage Hn Hbest) as (rest & Hage' & Hrest & Hpop);
    [by destruct Hsq as [?|[? _]]; [left|right]|].
  exists (message <$> rest). rewrite Hit. split; [done|]. split.
  - rewrite (queue_mem_nodes q' free' held) by done. destruct rest as [|x rest]; cbn.
    + by apply Permutation_nil_l in Hrest as <-.
    + split; [done|]. intros He. rewrite He in Hrest. by apply Permutation_nil_r in Hrest.
  - exists free', rest. split; [done|]. split; [done|]. cbn. split; [done|].
    by rewrite Hcap, Hcl, Hsd, (block_count_shape _ _ Hsh).
Qed.

Lemma view_empty q held a : view q held a -> queue q = [] -> pop_best msg_lt (aq_items a) = None.
Proof.
  intros (free & items & Hq & Hage & Hit & _) He. rewrite Hit. apply by_age_length in Hage.
  rewrite He in Hage. by destruct items.
Qed.

Lemma view_dequeue q a :
  view q [] a ->
  exists q', dequeue q = Ok (fst (aq_dequeue a), q') /\ view q' [] (snd (aq_dequeue a)).
Proof.
  intros Hview. pose proof Hview as (free & items & Hq & Hage & Hit & Hcap & Hcl & Htk).
  destruct (decide (queue q = [])) as [He|Hne].
  - unfold aq_dequeue. rewrite (view_empty q [] a) by done. rewrite Hcl. unfold dequeue.
    destruct (shutdown q) eqn:Hsd; cbn [fst snd].
    + rewrite decide_False, decide_True by (done || by intros []).
      exists (set_sequence 0 q). split; [done|]. exists free, [].
      assert (Hno : nodes q = []) by by apply (queue_mem_nodes q free []).
      split; [by apply qm_set_sequence|]. split; [by apply by_age_nil|]. by rewrite Hcap.
    + rewrite decide_True by done. by exists q.
  - destruct (dequeue_nonempty q free [] Hq Hne) as (n & q' & Hd & [b Hq'] & Hsh & Hsd & Hsq & Hn & Hbest).
    destruct (view_take q [] a q' n (b :: free)) as (r & Hpop & Hr & Hv); try done.
    { rewrite Hsq. case_decide; [right|by left]. split; [by apply (queue_mem_nodes q' (b :: free) [])|done]. }
    exists q'. unfold aq_dequeue. rewrite Hpop; cbn [fst snd]. split; [done|].
    replace (match r with [] => 0 | _ => aq_ticks a end) with (sequence q'); [done|].
    rewrite Hsq, Htk. destruct r; case_decide as He; [done|by destruct He; apply Hr|by apply Hr in He|done].
Qed.

Lemma view_try_dequeue q a r a' :
  view q [] a -> aq_try_dequeue a = Ok (r, a') ->
  exists q', try_dequeue q = Ok (r, q') /\ view q' [] a'.
Proof.
  intros Hview. pose proof Hview as (free & items & Hq & Hage & Hit & Hcap & Hcl & Htk).
  destruct (decide (queue q = [])) as [He|Hne]; unfold aq_try_dequeue.
  - rewrite (view_empty q [] a), Hcl by done.
    destruct (shutdown q) eqn:Hsd; [done|]. intros [= <- <-].
    unfold try_dequeue. rewrite decide_True by done. by exists q.
  - destruct (try_dequeue_nonempty q free [] Hq Hne) as (n & q' & Hd & [b Hq'] & Hsh & Hsd & Hsq & Hn & Hbest).
    destruct (view_take q [] a q' n (b :: free)) as (l & Hpop & _ & Hv); try done; [by left|].
    rewrite Hpop, Htk. intros [= <- <-]. exists q'. by rewrite <- Hsq.
Qed.

Lemma try_dequeue_closed_empty q :
  queue q = [] -> shutdown q = true -> try_dequeue q = Err (UB "pop_heap on an empty range").
Proof.
  intros He Hsd. unfold try_dequeue, pop_top. rewrite decide_False by (rewrite Hsd; by intros []).
  rewrite require_defined_bind_false; [done|]. by intros Hne.
Qed.

Lemma view_try_dequeue_ub q a e :
  view q [] a -> aq_try_dequeue a = Err e -> try_dequeue q = Err e.
Proof.
  intros Hview. pose proof Hview as (free & items & Hq & Hage & Hit & Hcap & Hcl & Htk).
  unfold aq_try_dequeue. destruct (pop_best msg_lt (aq_items a)) as [[m r]|] eqn:Hp; [done|].
  apply pop_best_None in Hp. rewrite Hcl. destruct (shutdown q) eqn:Hsd; [|done]. intros [= <-].
  apply try_dequeue_closed_empty; [|done]. apply length_zero_iff_nil.
  rewrite <- (by_age_length q items), <- (length_fmap message items), <- Hit, Hp by done. done.
Qed.

Lemma view_is_empty q a : view q [] a -> is_empty q = bool_decide (aq_items a = []).
Proof.
  intros (free & items & Hq & Hage & Hit & _). unfold is_empty. apply by_age_length in Hage.
  rewrite Hit. by destruct (queue q), items.
Qed.

Lemma view_notify_shutdown q held a : view q held a -> view (notify_shutdown q) held (aq_close a).
Proof.
  intros (free & items & [] & [] & ? & ? & ? & ?). exists free, items.
  split; [by constructor|]. split; [by constructor|]. done.
Qed.

Lemma view_bound q a : view q [] a -> (length (aq_items a) <= aq_capacity a)%nat /\ 0 <= aq_ticks a < 2 ^ 32.
Proof.
  intros Hview. pose proof Hview as (free & items & Hq & _ & _ & _ & _ & ->).
  pose proof (view_count q [] a free Hview Hq). split; [lia|]. apply (qm_sequence _ _ _ Hq).
Qed.

(** MessageQueue keeps the promises of the abstract queue. *)
#[export] Instance message_queue_impl : QueueImpl MessageQueue := {|
  q_enqueue := enqueue;
  q_dequeue := dequeue;
  q_try_dequeue := try_dequeue;
  q_is_empty := is_empty;
  q_notify_shutdown := notify_shutdown;
  q_view q a := view q [] a;
  q_enqueue_ok := view_enqueue;
  q_enqueue_full := view_enqueue_full;
  q_dequeue_ok := view_dequeue;
  q_try_dequeue_ok := view_try_dequeue;
  q_try_dequeue_ub := view_try_dequeue_ub;
  q_is_empty_ok := view_is_empty;
  q_notify_shutdown_ok q a := view_notify_shutdown q [] a;
  q_view_bound := view_bound
|}.

(** ** Lemmas: the contents' types

    Memory is in order and the nodes hold well-formed messages, whatever the
    sequence numbers are. *)
Definition contents_typed (q : MessageQueue) : Prop := exists free, queue_mem q free [].

Lemma contents_typed_enqueue q m :
  contents_typed q -> msg_wf m ->
  match enqueue q m with Ok q' => contents_typed q' | Err e => e = queue_full end.
Proof.
  intros [[|raw free] Hq] Hm.
  - unfold enqueue. by rewrite (enqueue_allocate_full q []).
  - destruct (enqueue_mem q raw free [] m Hq Hm) as (q' & -> & Hq' & _). by exists free.
Qed.

Lemma contents_typed_dequeue q :
  contents_typed q -> exists r q', dequeue q = Ok (r, q') /\ contents_typed q' /\
    forall m, r = Returns (Some m) -> msg_wf m.
Proof.
  intros [free Hq]. destruct (decide (queue q = [])) as [He|Hne].
  - unfold dequeue. destruct (shutdown q) eqn:Hsd.
    + rewrite decide_False, decide_True by (done || by intros []). eexists _, _. split; [done|]. split; [|done].
      exists free. by apply qm_set_sequence.
    + rewrite decide_True by done. eexists _, _. split; [done|]. split; [by exists free|done].
  - destruct (dequeue_nonempty q free [] Hq Hne) as (n & q' & Hd & [b Hq'] & _ & _ & _ & Hn & _).
    eexists _, _. split; [done|]. split; [by exists (b :: free)|]. intros m [= <-].
    assert (Hall : Forall node_wf (nodes q)) by apply Forall_fmap, (qm_nodes _ _ _ Hq).
    rewrite Hn in Hall. by apply Forall_cons in Hall as [[] _].
Qed.

Lemma contents_typed_shutdown q : contents_typed q -> contents_typed (notify_shutdown q).
Proof. intros [free []]. exists free. by constructor. Qed.

#[export] Instance message_queue_typing : QueueTyping MessageQueue := {|
  queue_typed := contents_typed;
  enqueue_typed := contents_typed_enqueue;
  dequeue_typed := contents_typed_dequeue;
  notify_shutdown_typed := contents_typed_shutdown
|}.

(** ** Lemmas: the destructor, and runs of the numbering *)

Lemma drain_ok p l free :
  pool_rep p free -> NoDup (free ++ l) -> l ⊆ blocks p ->
  exists p', drain p l = Ok p' /\ pool_rep p' (reverse l ++ free) /\ same_shape p p'.
Proof.
  revert p free. induction l as [|a l IH]; intros p free Hrep Hnd Hsub; cbn [drain].
  { exists p. split_and!; [done|done|apply same_shape_refl]. }
  assert (Ha : a ∈ blocks p) by apply Hsub, list_elem_of_here.
  rewrite <- Permutation_middle in Hnd. apply NoDup_cons in Hnd as [Hna Hnd].
  rewrite elem_of_app in Hna.
  destruct (deallocate_push p a free Hrep Ha) as (p1 & -> & Hrep1 & Hsh1 & _); [tauto|].
  destruct (IH p1 (a :: free) Hrep1) as (p2 & Hd & Hrep2 & Hsh2).
  - cbn. apply NoDup_cons. by rewrite elem_of_app.
  - rewrite (same_shape_blocks p p1) by done. intros b Hb. apply Hsub. by right.
  - exists p2. cbn [mbind result_bind]. rewrite Hd. split; [done|].
    rewrite reverse_cons, <- app_assoc.
    split; [done|]. by eapply same_shape_trans.
Qed.

(** [n] rounds of sending a message and polling for it. *)
Fixpoint rounds (n : nat) (m : Msg) : list qop :=
  match n with O => [] | S n' => OEnqueue m :: OTryDequeue :: rounds n' m end.

Lemma enqueues_rounds n m : enqueues (rounds n m) = Z.of_nat n.
Proof. unfold enqueues. induction n as [|n IH]; cbn [rounds foldr is_enqueue]; lia. Qed.

Lemma rounds_wf n m : msg_wf m -> Forall qop_wf (rounds n m).
Proof. intros Hm. induction n as [|n IH]; cbn [rounds]; [apply Forall_nil|]; by repeat (apply Forall_cons; split). Qed.

(** Polling never resets the numbering. *)
Lemma aq_rounds n m cap t :
  (0 < cap)%nat ->
  exists rs, aq_exec_all (mkAqueue [] cap false t) (rounds n m) =
    Ok (rs, mkAqueue [] cap false (t + Z.of_nat n)).
Proof.
  intros Hcap. revert t. induction n as [|n IH]; intros t.
  { exists []. cbn. by rewrite Z.add_0_r. }
  destruct (IH (t + 1)) as [rs Hrs]. exists (RUnit :: RTry (Some m) :: rs).
  cbn [rounds aq_exec_all aq_exec]. unfold aq_enqueue at 1. cbn [aq_items length aq_capacity].
  rewrite decide_True by done. cbn -[aq_exec_all]. rewrite Hrs. cbn. do 3 f_equal. lia.
Qed.
End queue.

Lemma queue_exec_view `{NodeLayout} `{HeapAlgorithms} (q : MessageQueue) a os :
  view q [] a -> Forall qop_wf os -> aq_ticks a + enqueues os < 2 ^ 32 ->
  match aq_exec_all a os with
  | Ok (rs, a') => exists q', exec_all q os = Ok (rs, q') /\ view q' [] a'
  | Err e => exec_all q os = Err e
  end.
Proof. exact (exec_all_view (Q := MessageQueue) q a os). Qed.

(** ** A small queue, for the witnesses *)

Definition demo_heartbeat (id : Z) : Msg := pack 16 (VHeartbeatMsg (mkHeartbeatMsg id 7)).
Definition demo_request (s : Z) : Msg := pack 32 (VStateMsg (mkStateMsg s)).

Lemma demo_heartbeat_wf id : 0 <= id < 2 ^ 32 -> msg_wf (demo_heartbeat id).
Proof. intros. apply pack_wf; cbn; lia. Qed.
Lemma demo_request_wf s : 0 <= s < 2 ^ 8 -> msg_wf (demo_request s).
Proof. intros. apply pack_wf; cbn; lia. Qed.

Lemma demo_view os :
  Forall qop_wf os -> enqueues os < 2 ^ 32 ->
  forall rs a, aq_exec_all (aq_new 4) os = Ok (rs, a) -> exists q : MessageQueue, view q [] a.
Proof.
  intros Hwf Hn rs a Ha. destruct (view_new 4096 56 4) as (q & _ & Hv); [done..|].
  pose proof (queue_exec_view q (aq_new 4) os Hv Hwf) as Hex. rewrite Ha in Hex.
  destruct Hex as (q' & _ & ?); [cbn; lia|]. by exists q'.
Qed.

Ltac demo_messages :=
  repeat match goal with
  | |- Forall qop_wf [] => apply Forall_nil; exact I
  | |- Forall qop_wf (_ :: _) => apply Forall_cons; split
  | |- qop_wf (OEnqueue _) => cbn [qop_wf]
  | |- qop_wf _ => exact I
  | |- msg_wf (demo_heartbeat _) => apply demo_heartbeat_wf; lia
  | |- msg_wf (demo_request _) => apply demo_request_wf; lia
  end.

(** ** Properties *)

Section properties.
Context `{NodeLayout} `{HeapAlgorithms}.
Implicit Types q : MessageQueue.

(** C1. From construction on, every program of enqueue, dequeue, timed
    dequeue, emptiness test and shutdown over well-formed messages, with
    fewer than [2 ^ 32] enqueues, has exactly the outcome it has on the
    abstract queue (list in order of arrival, oldest of the highest priority
    first), failures included, and leaves the queue standing for the
    abstract one. *)
Theorem message_queue_refines base msg_size max_msgs os :
  sizeof_Node <= msg_size -> 0 < max_msgs -> msg_size * max_msgs < 2 ^ 64 ->
  fresh_region base (msg_size * max_msgs) -> Forall qop_wf os -> enqueues os < 2 ^ 32 ->
  exists q, MessageQueue_new base msg_size max_msgs = Ok q /\
    match aq_exec_all (aq_new (Z.to_nat max_msgs)) os with
    | Ok (rs, a') => exists q', exec_all q os = Ok (rs, q') /\ view q' [] a'
    | Err e => exec_all q os = Err e
    end.
Proof.
  intros Hsize Hmax Hwrap Hreg Hwf Hn.
  destruct (view_new base msg_size max_msgs Hsize Hmax Hwrap Hreg) as (q & Hnew & Hview).
  exists q. split; [done|]. by apply queue_exec_view.
Qed.

(** C2. A dequeue from a non-empty queue returns a message no other message
    outranks and that is older than every other message of its priority,
    and removes that message only. *)
Theorem dequeue_priority_fifo q a :
  view q [] a -> aq_items a <> [] ->
  exists l1 m l2 q' a', dequeue q = Ok (Returns (Some m), q') /\ view q' [] a' /\
    aq_items a = l1 ++ m :: l2 /\ aq_items a' = l1 ++ l2 /\
    (forall m', m' ∈ l1 -> msg_lt m' m = true) /\ (forall m', m' ∈ l2 -> msg_lt m m' = false).
Proof.
  intros Hview Hne. destruct (view_dequeue q a Hview) as (q' & Hd & Hv').
  unfold aq_dequeue in Hd, Hv'. destruct (pop_best msg_lt (aq_items a)) as [[m r]|] eqn:Hp.
  - destruct (pop_best_Some _ _ _ _ Hp) as (l1 & l2 & Hl & -> & Hb & Ha).
    exists l1, m, l2, q'. eexists. by split_and!.
  - by apply pop_best_None in Hp.
Qed.

(** An enqueue succeeds exactly while fewer messages are queued than
    the queue was built for, appends the message as the youngest, and
    otherwise aborts on the pool assertion. *)
Theorem enqueue_capacity q a m :
  view q [] a -> msg_wf m -> aq_ticks a < 2 ^ 32 - 1 ->
  if decide (length (aq_items a) < aq_capacity a)%nat then
    exists q' a', enqueue q m = Ok q' /\ view q' [] a' /\ aq_items a' = aq_items a ++ [m]
  else enqueue q m = Err (AssertFailed "Memory pool out of memory!").
Proof.
  intros Hview Hm Ht. case_decide as Hroom.
  - destruct (view_enqueue q a (mkAqueue (aq_items a ++ [m]) (aq_capacity a) (aq_closed a) (aq_ticks a + 1)) m)
      as (q' & Henq & Hv'); [done..|by unfold aq_enqueue; rewrite decide_True|].
    eexists q', _. by split_and!.
  - apply (view_enqueue_full q a); [done|]. unfold aq_enqueue. by rewrite decide_False.
Qed.

(** C35. On a queue that is empty when it is shut down, [dequeue] returns an
    empty optional, but [try_dequeue], whose wait also ends on shutdown,
    goes on to pop an empty heap: undefined behaviour. *)
Theorem shutdown_empty_dequeue q a :
  view q [] a -> aq_items a = [] ->
  (exists q', dequeue (notify_shutdown q) = Ok (Returns None, q') /\ view q' [] (mkAqueue [] (aq_capacity a) true 0)) /\
  try_dequeue (notify_shutdown q) = Err (UB "pop_heap on an empty range").
Proof.
  intros Hview Hemp. pose proof (view_notify_shutdown q [] a Hview) as Hv'. split.
  - destruct (view_dequeue _ _ Hv') as (q' & Hd & Hv2). exists q'.
    unfold aq_dequeue, aq_close in Hd, Hv2. cbn [aq_items] in Hd, Hv2. by rewrite Hemp in Hd, Hv2.
  - apply (view_try_dequeue_ub _ _ _ Hv'). unfold aq_try_dequeue, aq_close. cbn [aq_items]. by rewrite Hemp.
Qed.

(** C36. The sequence number is 32 bits wide and polling with [try_dequeue]
    never resets it: after [2 ^ 32 - 1] rounds of sending and polling, of
    two messages of equal priority the younger is delivered first. *)
Theorem fifo_wraparound base msg_size max_msgs n m m1 m2 :
  sizeof_Node <= msg_size -> 2 <= max_msgs -> msg_size * max_msgs < 2 ^ 64 ->
  fresh_region base (msg_size * max_msgs) -> msg_wf m -> msg_wf m1 -> msg_wf m2 ->
  msg_lt m1 m2 = false -> msg_lt m2 m1 = false -> Z.of_nat n = 2 ^ 32 - 1 ->
  exists q q0 rs q', MessageQueue_new base msg_size max_msgs = Ok q /\
    exec_all q (rounds n m) = Ok (rs, q0) /\
    exec_all q0 [OEnqueue m1; OEnqueue m2; ODequeue] =
      Ok ([RUnit; RUnit; RDequeue (Returns (Some m2))], q').
Proof.
  intros Hsize Hmax Hwrap Hreg Hm Hm1 Hm2 H12 H21 Hn.
  destruct (view_new base msg_size max_msgs) as (q & Hnew & Hview); [done|lia|done..|].
  pose proof (queue_exec_view q _ (rounds n m) Hview) as Hex. rewrite enqueues_rounds in Hex.
  specialize (Hex (rounds_wf n m Hm) ltac:(cbn; lia)).
  destruct (aq_rounds n m (Z.to_nat max_msgs) 0) as [rs Hrs]; [lia|].
  unfold aq_new in Hex. rewrite Hrs in Hex. destruct Hex as (q0 & Hex & Hv0).
  pose proof Hv0 as (free & items & Hq & Hage & Hit & Hcap & _ & Htk). cbn in Hit, Hcap, Htk.
  pose proof (view_count _ _ _ _ Hv0 Hq) as Hcount. cbn in Hcount.
  destruct free as [|f1 [|f2 free]]; cbn in Hcount; [lia|lia|].
  apply by_age_length in Hage. symmetry in Hit. apply fmap_nil_inv in Hit as ->.
  symmetry in Hage. apply length_zero_iff_nil in Hage.
  apply (queue_mem_nodes q0 _ _ Hq) in Hage.
  destruct (enqueue_mem q0 f1 (f2 :: free) [] m1 Hq Hm1) as (q1 & He1 & Hq1 & Hn1 & _ & _ & Hs1).
  destruct (enqueue_mem q1 f2 free [] m2 Hq1 Hm2) as (q2 & He2 & Hq2 & Hn2 & _ & _ & Hs2).
  rewrite Hage, <- Htk, Hn in Hn1. rewrite <- Htk, Hn in Hs1. rewrite Hs1, Hn1 in Hn2.
  assert (Hne2 : queue q2 <> []).
  { rewrite (queue_mem_nodes q2 free []) by done. intros He. rewrite He in Hn2.
    by apply Permutation_nil_cons in Hn2. }
  destruct (dequeue_nonempty q2 free [] Hq2 Hne2) as (nd & q3 & Hd & _ & _ & _ & _ & Hn3 & Hbest).
  exists q, q0, rs, q3. split; [done|]. split; [done|]. cbn [exec_all exec q_enqueue q_dequeue message_queue_impl].
  rewrite He1; cbn [mbind result_bind]. rewrite He2; cbn [mbind result_bind].
  rewrite Hd; cbn [mbind result_bind]. do 5 f_equal.
  assert (Hin : nd ∈ nodes q2) by (rewrite Hn3; apply list_elem_of_here).
  rewrite Hn2 in Hin. apply elem_of_cons in Hin as [->|Hin]; [done|].
  apply elem_of_cons in Hin as [->|Hin]; [|by apply elem_of_nil in Hin].
  specialize (Hbest (mkNode m2 (u32 (2 ^ 32 - 1 + 1)))).
  unfold node_lt in Hbest. cbn [message sequence_number] in Hbest. rewrite H12, H21 in Hbest.
  specialize (Hbest ltac:(rewrite Hn2; apply list_elem_of_here)). done.
Qed.

(** The destructor returns every queued node's block: with no producer
    inside [enqueue], all of the pool's blocks are free afterwards. *)
Theorem destructor_returns_all q a :
  view q [] a ->
  exists q' free, MessageQueue_destroy q = Ok q' /\ queue q' = [] /\
    pool_rep (pool q') free /\ free ≡ₚ blocks (pool q).
Proof.
  intros (free & items & Hq & _). unfold MessageQueue_destroy.
  pose proof (qm_nodup _ _ _ Hq) as Hnd. rewrite app_nil_r in Hnd.
  destruct (drain_ok (pool q) (queue q) free) as (p' & -> & Hrep & Hsh); [by eapply qm_pool|done| |].
  { intros b Hb. eapply qm_in_blocks; [done|]. auto. }
  eexists _, _. split; [done|]. split; [done|]. split; [exact Hrep|].
  rewrite <- (qm_partition _ _ _ Hq), app_nil_r, reverse_Permutation. by rewrite Permutation_app_comm.
Qed.
End properties.

(** The 64-bit layout of a node takes 56 bytes, more than a pointer, and
    reading it back gives the node, whichever message it carries. *)
Theorem lp64_roundtrip n :
  node_wf n -> Z.of_nat (length (lp64_repr n)) = 56 /\ lp64_node (lp64_repr n) = n.
Proof. intros Hn. split; [apply (node_repr_size (NodeLayout := lp64_layout))|by apply (node_of_repr (NodeLayout := lp64_layout))]. Qed.

(** ** Witnesses *)

Lemma lp64_roundtrip_witness :
  Z.of_nat (length (lp64_repr (mkNode (demo_heartbeat 9) 3))) = 56 /\
  lp64_node (lp64_repr (mkNode (demo_heartbeat 9) 3)) = mkNode (demo_heartbeat 9) 3.
Proof. apply lp64_roundtrip. split; [apply demo_heartbeat_wf; lia|cbn; lia]. Defined.

Lemma message_queue_refines_witness :
  let os := [OEnqueue (demo_heartbeat 1); OEnqueue (demo_request 1); OEnqueue (demo_heartbeat 2);
             OEnqueue (demo_request 2); ODequeue; ODequeue; ODequeue; OShutdown; ODequeue; ODequeue] in
  let rs := [RUnit; RUnit; RUnit; RUnit; RDequeue (Returns (Some (demo_request 1)));
             RDequeue (Returns (Some (demo_request 2))); RDequeue (Returns (Some (demo_heartbeat 1)));
             RUnit; RDequeue (Returns (Some (demo_heartbeat 2))); RDequeue (Returns None)] in
  exists q q' : MessageQueue, MessageQueue_new 4096 56 4 = Ok q /\ exec_all q os = Ok (rs, q').
Proof.
  intros os rs.
  destruct (message_queue_refines 4096 56 4 os) as (q & Hnew & q' & Hex & _);
    [done|done|done|done|unfold os; demo_messages|done|].
  by exists q, q'.
Defined.

Lemma dequeue_priority_fifo_witness :
  exists q a, view q [] a /\ aq_items a <> [] /\
  exists l1 m l2 q' a', dequeue q = Ok (Returns (Some m), q') /\ view q' [] a' /\
    aq_items a = l1 ++ m :: l2 /\ aq_items a' = l1 ++ l2 /\
    (forall m', m' ∈ l1 -> msg_lt m' m = true) /\ (forall m', m' ∈ l2 -> msg_lt m m' = false).
Proof.
  destruct (demo_view [OEnqueue (demo_heartbeat 1); OEnqueue (demo_request 1)]) with
    (rs := [RUnit; RUnit]) (a := mkAqueue [demo_heartbeat 1; demo_request 1] 4 false 2) as [q Hv];
    [demo_messages|done|done|].
  eexists q, _. split; [exact Hv|]. split; [done|]. exact (dequeue_priority_fifo q _ Hv ltac:(done)).
Defined.

Lemma enqueue_capacity_witness :
  exists q, view q [] (mkAqueue [demo_heartbeat 1; demo_heartbeat 2; demo_heartbeat 3; demo_heartbeat 4] 4 false 4) /\
    enqueue q (demo_request 1) = Err (AssertFailed "Memory pool out of memory!").
Proof.
  destruct (demo_view (OEnqueue ∘ demo_heartbeat <$> [1; 2; 3; 4])) with
    (rs := [RUnit; RUnit; RUnit; RUnit])
    (a := mkAqueue [demo_heartbeat 1; demo_heartbeat 2; demo_heartbeat 3; demo_heartbeat 4] 4 false 4) as [q Hv];
    [cbn; demo_messages|done|done|].
  exists q. split; [exact Hv|].
  exact (enqueue_capacity q _ (demo_request 1) Hv (demo_request_wf 1 ltac:(lia)) ltac:(done)).
Defined.

Lemma shutdown_empty_dequeue_witness :
  exists q, view q [] (aq_new 4) /\
    (exists q', dequeue (notify_shutdown q) = Ok (Returns None, q') /\ view q' [] (mkAqueue [] 4 true 0)) /\
    try_dequeue (notify_shutdown q) = Err (UB "pop_heap on an empty range").
Proof.
  destruct (demo_view []) with (rs := @nil qret) (a := aq_new 4) as [q Hv]; [demo_messages|done|done|].
  exists q. split; [exact Hv|]. exact (shutdown_empty_dequeue q (aq_new 4) Hv eq_refl).
Defined.

Lemma fifo_wraparound_witness :
  let n := Z.to_nat (2 ^ 32 - 1) in
  exists (q q0 : MessageQueue) rs q', MessageQueue_new 4096 56 2 = Ok q /\
    exec_all q (rounds n (demo_heartbeat 0)) = Ok (rs, q0) /\
    exec_all q0 [OEnqueue (demo_request 1); OEnqueue (demo_request 2); ODequeue] =
      Ok ([RUnit; RUnit; RDequeue (Returns (Some (demo_request 2)))], q').
Proof.
  intros n.
  apply (fifo_wraparound 4096 56 2 n (demo_heartbeat 0) (demo_request 1) (demo_request 2));
    [done|done|done|done|apply demo_heartbeat_wf; lia|apply demo_request_wf; lia|apply demo_request_wf; lia
    |done|done|unfold n; lia].
Defined.

Lemma destructor_returns_all_witness :
  exists q, view q [] (mkAqueue [demo_heartbeat 1; demo_request 1] 4 false 2) /\
  exists q' free, MessageQueue_destroy q = Ok q' /\ queue q' = [] /\
    pool_rep (pool q') free /\ free ≡ₚ blocks (pool q).
Proof.
  destruct (demo_view [OEnqueue (demo_heartbeat 1); OEnqueue (demo_request 1)]) with
    (rs := [RUnit; RUnit]) (a := mkAqueue [demo_heartbeat 1; demo_request 1] 4 false 2) as [q Hv];
    [demo_messages|done|done|].
  exists q. split; [exact Hv|]. exact (destructor_returns_all q _ Hv).
Defined.
