(* ===== verification/QueueSort.v ===== *)
(** * QueueSort: draining a queue sorts its messages

    The queue is a binary heap over a sequence number. The reference
    definition is the plain one, an insertion sort that keeps equal elements
    in their order: enqueuing messages and taking them all out gives what this
    sort gives. *)

From S2P Require Import Prelude MemoryPool Heap Msg QueueSpec MessageQueue.
#[local] Open Scope Z_scope.

(** ** The reference: a stable insertion sort, greatest first *)

Section stable_sort.
Context {A : Type} (lt : A -> A -> bool).
Implicit Types l : list A.

(** [x] is older than all of [l]: it goes before its equals. *)
Fixpoint insert_before x l : list A :=
  match l with
  | [] => [x]
  | y :: l' => if lt x y then y :: insert_before x l' else x :: l
  end.

Definition stable_sort l : list A := foldr insert_before [] l.

Lemma insert_before_perm x l : insert_before x l ≡ₚ x :: l.
Proof. induction l as [|y l IH]; cbn; [done|]. destruct (lt x y); [|done]. rewrite IH. by constructor. Qed.

Lemma stable_sort_perm l : stable_sort l ≡ₚ l.
Proof. induction l as [|x l IH]; cbn; [done|]. by rewrite insert_before_perm, IH. Qed.

Context `{!StrictWeakOrder lt}.

(** No element is smaller than a later one. *)
Abbreviation descending := (StronglySorted (fun x y => lt x y = false)).

Lemma insert_before_sorted x l : descending l -> descending (insert_before x l).
Proof.
  induction 1 as [|y l Hs IH Hy]; cbn; [by repeat constructor|]. destruct (lt x y) eqn:Hxy.
  - constructor; [done|]. rewrite insert_before_perm. constructor; [by apply swo_asym|done].
  - constructor; [by constructor|]. constructor; [done|]. eapply Forall_impl; [exact Hy|].
    intros z Hz. cbn in Hz. by apply (swo_ntrans x y z).
Qed.

Lemma stable_sort_sorted l : descending (stable_sort l).
Proof. induction l as [|x l IH]; cbn; [constructor|]. by apply insert_before_sorted. Qed.

(** Elements a test cannot tell apart keep their order. *)
Lemma stable_sort_stable (P : A -> Prop) `{forall x, Decision (P x)} l :
  (forall x y, P x -> P y -> lt x y = false) -> base.filter P (stable_sort l) = base.filter P l.
Proof.
  intros HP. assert (Hins : forall x l, base.filter P (insert_before x l) = base.filter P (x :: l)).
  { intros x k. induction k as [|y k IH]; cbn [insert_before]; [done|]. destruct (lt x y) eqn:Hxy; [|done].
    destruct (decide (P y)) as [Hy|Hy].
    - assert (Hx : ~ P x) by (intros Hx; specialize (HP x y Hx Hy); congruence).
      rewrite filter_cons_True, IH, !filter_cons_False, filter_cons_True by done. done.
    - rewrite filter_cons_False, IH by done. destruct (decide (P x)) as [Hx|Hx].
      + by rewrite !filter_cons_True, filter_cons_False by done.
      + by rewrite !filter_cons_False by done. }
  induction l as [|x l IH]; [done|]. cbn [stable_sort foldr]. fold (stable_sort l). rewrite Hins.
  destruct (decide (P x)); [by rewrite !filter_cons_True, IH by done|by rewrite !filter_cons_False, IH by done].
Qed.

(** An element no later one exceeds stays in front. *)
Lemma insert_before_front x l : (forall y, y ∈ l -> lt x y = false) -> insert_before x l = x :: l.
Proof. destruct l as [|y l]; cbn; [done|]. intros Hl. rewrite Hl; [done|by left]. Qed.

(** The element [pop_best] takes out is the first of the sorted list. *)
Lemma stable_sort_pop l x r : pop_best lt l = Some (x, r) -> stable_sort l = x :: stable_sort r.
Proof.
  intros (l1 & l2 & -> & -> & Hb & Ha)%pop_best_Some; [|done]. induction l1 as [|z l1 IH]; cbn [app stable_sort foldr].
  - fold (stable_sort l2). apply insert_before_front. intros y. rewrite stable_sort_perm. apply Ha.
  - fold (stable_sort (l1 ++ x :: l2)) (stable_sort (l1 ++ l2)). rewrite IH by (intros y Hy; apply Hb; by right).
    cbn [insert_before]. rewrite Hb; [done|by left].
Qed.
End stable_sort.

(** ** Draining the abstract queue *)

Definition answers (ms : list Msg) : list qret := (fun m => RDequeue (Returns (Some m))) <$> ms.

Lemma aq_fill ms cap t l :
  (length l + length ms <= cap)%nat ->
  aq_exec_all (mkAqueue l cap false t) (OEnqueue <$> ms) =
    Ok (replicate (length ms) RUnit, mkAqueue (l ++ ms) cap false (t + Z.of_nat (length ms))).
Proof.
  revert l t. induction ms as [|m ms IH]; intros l t Hl.
  { cbn. by rewrite app_nil_r, Z.add_0_r. }
  cbn [length] in Hl. cbn [fmap list_fmap aq_exec_all aq_exec]. unfold aq_enqueue. cbn [aq_items aq_capacity].
  rewrite decide_True by lia. cbn [mbind result_bind aq_closed aq_ticks]. rewrite IH by (rewrite length_app; cbn; lia).
  cbn [mbind result_bind length replicate]. rewrite <- app_assoc. do 3 f_equal. lia.
Qed.

Lemma aq_drain n l cap t :
  length l = n -> l <> [] ->
  aq_exec_all (mkAqueue l cap false t) (replicate n ODequeue) =
    Ok (answers (stable_sort msg_lt l), mkAqueue [] cap false 0).
Proof.
  revert l t. induction n as [|n IH]; intros l t Hn Hne; [by destruct l|]. cbn [replicate aq_exec_all aq_exec].
  unfold aq_dequeue. cbn [aq_items aq_capacity aq_closed aq_ticks].
  destruct (pop_best msg_lt l) as [[m r]|] eqn:Hp; [|by apply pop_best_None in Hp].
  rewrite (stable_sort_pop _ _ _ _ Hp). cbn [fst snd mbind result_bind].
  apply pop_best_Some in Hp as (l1 & l2 & -> & -> & _); [|apply _].
  rewrite length_app in Hn. cbn in Hn. destruct (decide (l1 ++ l2 = [])) as [He|He].
  - rewrite He in *. assert (n = 0%nat) as -> by (apply (f_equal length) in He; rewrite length_app in He; cbn in He; lia). done.
  - rewrite IH; [|rewrite length_app; lia|done]. cbn. by destruct (l1 ++ l2).
Qed.

Lemma aq_exec_app a os1 os2 :
  aq_exec_all a (os1 ++ os2) =
    '(rs1, a1) ← aq_exec_all a os1; '(rs2, a2) ← aq_exec_all a1 os2; Ok (rs1 ++ rs2, a2).
Proof.
  revert a. induction os1 as [|o os1 IH]; intros a; cbn [app aq_exec_all mbind result_bind].
  { by destruct (aq_exec_all a os2) as [[]|]. }
  destruct (aq_exec a o) as [[r a']|]; cbn [mbind result_bind]; [|done]. rewrite IH.
  destruct (aq_exec_all a' os1) as [[rs1 a1]|]; cbn [mbind result_bind]; [|done].
  by destruct (aq_exec_all a1 os2) as [[rs2 a2]|].
Qed.

(** Enqueue all of [ms], then take as many out. *)
Definition sorting (ms : list Msg) : list qop := (OEnqueue <$> ms) ++ replicate (length ms) ODequeue.

Lemma aq_sorts ms cap :
  (length ms <= cap)%nat ->
  aq_exec_all (aq_new cap) (sorting ms) =
    Ok (replicate (length ms) RUnit ++ answers (stable_sort msg_lt ms), mkAqueue [] cap false 0).
Proof.
  intros Hl. unfold sorting, aq_new. rewrite aq_exec_app, aq_fill by (cbn; lia). cbn [mbind result_bind app].
  destruct ms as [|m ms]; [done|]. by rewrite aq_drain.
Qed.

Lemma sorting_wf ms : Forall msg_wf ms -> Forall qop_wf (sorting ms).
Proof.
  intros Hms. apply Forall_app. split; [by apply Forall_fmap|]. apply Forall_replicate. done.
Qed.

Lemma enqueues_sorting ms : enqueues (sorting ms) = Z.of_nat (length ms).
Proof.
  unfold enqueues, sorting. rewrite foldr_app.
  assert (Hd : foldr (fun o n => (if is_enqueue o then 1 else 0) + n) 0 (replicate (length ms) ODequeue) = 0)
    by (induction (length ms) as [|k IH]; cbn; lia).
  rewrite Hd. clear Hd. induction ms as [|m ms IH]; cbn -[Z.of_nat]; [done|]. rewrite IH. lia.
Qed.

(** ** Properties *)

Section properties.
Context `{NodeLayout} `{HeapAlgorithms}.

(** C21. The queue sorts: any messages that fit into a queue come out of it
    as the stable insertion sort arranges them, with greater priorities first
    and each priority's messages in the order they came; the queue is then as
    it was constructed. *)
Theorem queue_sorts base msg_size max_msgs ms :
  sizeof_Node <= msg_size -> 0 < max_msgs -> msg_size * max_msgs < 2 ^ 64 ->
  fresh_region base (msg_size * max_msgs) ->
  Forall msg_wf ms -> Z.of_nat (length ms) <= max_msgs -> Z.of_nat (length ms) < 2 ^ 32 ->
  let out := stable_sort msg_lt ms in
  (exists q q', MessageQueue_new base msg_size max_msgs = Ok q /\
     exec_all q (sorting ms) = Ok (replicate (length ms) RUnit ++ answers out, q') /\
     view q' [] (aq_new (Z.to_nat max_msgs))) /\
  out ≡ₚ ms /\
  StronglySorted (fun m m' => get_priority m' <= get_priority m) out /\
  (forall k, base.filter (fun m => get_priority m = k) out = base.filter (fun m => get_priority m = k) ms).
Proof.
  intros Hsize Hmax Hwrap Hreg Hwf Hfit Hticks out. split; [|split_and!].
  - destruct (view_new base msg_size max_msgs Hsize Hmax Hwrap Hreg) as (q & Hnew & Hview).
    pose proof (queue_exec_view q _ (sorting ms) Hview (sorting_wf ms Hwf)) as Hex.
    rewrite aq_sorts in Hex by lia. rewrite enqueues_sorting in Hex.
    destruct Hex as (q' & Hex & Hv'); [cbn [aq_new aq_ticks]; lia|]. by exists q, q'.
  - apply stable_sort_perm.
  - pose proof (stable_sort_sorted msg_lt ms) as Hs. fold out in Hs. induction Hs as [|m l _ IH Hm]; [constructor|].
    constructor; [done|]. eapply Forall_impl; [exact Hm|]. intros m'. unfold msg_lt, get_priority. lia.
  - intros k. apply stable_sort_stable. intros m m'. unfold msg_lt, get_priority. lia.
Qed.
End properties.

(** ** Witness *)

Lemma queue_sorts_witness :
  let ms := [demo_heartbeat 1; demo_request 1; demo_heartbeat 2; demo_request 2] in
  let out := [demo_request 1; demo_request 2; demo_heartbeat 1; demo_heartbeat 2] in
  stable_sort msg_lt ms = out /\
  exists q q' : MessageQueue, MessageQueue_new 4096 56 4 = Ok q /\
    exec_all q (sorting ms) = Ok (replicate 4 RUnit ++ answers out, q') /\ view q' [] (aq_new 4).
Proof.
  intros ms out. split; [reflexivity|].
  destruct (queue_sorts 4096 56 4 ms) as [Hq _]; [done|done|done|done| |done|done|exact Hq].
  unfold ms. repeat constructor; first [by apply demo_heartbeat_wf|by apply demo_request_wf].
Defined.
