(* ===== verification/QueueConcurrency.v ===== *)
(** * QueueConcurrency: producers and consumers inside one queue

    [enqueue] allocates a node before it locks [queue_mutex], and a consumer
    returns the node's block to the pool, which has a mutex of its own, while
    it holds [queue_mutex]. Here the operations are cut at these mutexes and
    the pieces of any number of producers and consumers interleave. The
    theorem is that every such history is one of the abstract queue, and that
    no piece ever goes wrong except an allocation that finds no block. *)

From S2P Require Import Prelude MemoryPool Heap Msg QueueSpec MessageQueue.
#[local] Open Scope Z_scope.

(** ** The shared queue and who is inside it *)

Section concurrency.
Context `{NodeLayout} `{HeapAlgorithms}.
Implicit Types q : MessageQueue.

(** [inserting]: producers between their allocation and their critical
    section. [popped]: the node of the consumer that holds [queue_mutex] and
    has not given the block back yet. *)
Record cqueue := mkCqueue {
  shared : MessageQueue;
  inserting : list (Z * Msg);
  popped : option Z
}.

(** What an outside observer sees: the end of an [enqueue]'s critical section
    and the message a dequeuing operation returns. *)
Inductive event := EIn (m : Msg) | EOut (m : Msg).

(** [dequeue]: [if (queue.empty()) sequence = 0]. *)
Definition reset_if_empty q : MessageQueue := if decide (queue q = []) then set_sequence 0 q else q.

Inductive cstep : cqueue -> list event -> cqueue -> Prop :=
  | c_allocate q l o m raw q' :
      msg_wf m -> enqueue_allocate q = Ok (raw, q') ->
      cstep (mkCqueue q l o) [] (mkCqueue q' ((raw, m) :: l) o)
  | c_insert q l1 raw m l2 q' :
      enqueue_insert q raw m = Ok q' ->
      cstep (mkCqueue q (l1 ++ (raw, m) :: l2) None) [EIn m] (mkCqueue q' (l1 ++ l2) None)
  | c_dequeue_pop q l node q' :
      queue q <> [] -> pop_top q = Ok (node, q') ->
      cstep (mkCqueue q l None) [] (mkCqueue (reset_if_empty q') l (Some node))
  | c_try_dequeue_pop q l node q' :
      queue q <> [] -> pop_top q = Ok (node, q') ->
      cstep (mkCqueue q l None) [] (mkCqueue q' l (Some node))
  | c_release q l node m q' :
      release q node = Ok (m, q') ->
      cstep (mkCqueue q l (Some node)) [EOut m] (mkCqueue q' l None)
  | c_dequeue_closed q l :
      queue q = [] -> shutdown q = true ->
      cstep (mkCqueue q l None) [] (mkCqueue (set_sequence 0 q) l None)
  | c_shutdown q l :
      cstep (mkCqueue q l None) [] (mkCqueue (notify_shutdown q) l None).

Inductive cexec (C0 : cqueue) : list event -> cqueue -> Prop :=
  | cexec_start : cexec C0 [] C0
  | cexec_step tr C ev C' : cexec C0 tr C -> cstep C ev C' -> cexec C0 (tr ++ ev) C'.

(** ** The sequential history *)

(** The events in their order, on the list of messages in order of arrival:
    what goes out is the oldest of the highest priority. *)
Fixpoint replay (items : list Msg) (tr : list event) : option (list Msg) :=
  match tr with
  | [] => Some items
  | EIn m :: tr' => replay (items ++ [m]) tr'
  | EOut m :: tr' =>
      match pop_best msg_lt items with
      | Some (m', items') => if decide (m' = m) then replay items' tr' else None
      | None => None
      end
  end.

Fixpoint inserted (tr : list event) : Z :=
  match tr with
  | [] => 0
  | EIn _ :: tr' => 1 + inserted tr'
  | EOut _ :: tr' => inserted tr'
  end.

Lemma replay_app items tr tr' : replay items (tr ++ tr') = replay items tr ≫= fun l => replay l tr'.
Proof.
  revert items. induction tr as [|[m|m] tr IH]; intros items; cbn [replay app]; [done|by rewrite IH|].
  destruct (pop_best msg_lt items) as [[m' l]|]; [|done]. destruct (decide (m' = m)); [by rewrite IH|done].
Qed.

Lemma inserted_app tr tr' : inserted (tr ++ tr') = inserted tr + inserted tr'.
Proof. induction tr as [|[m|m] tr IH]; cbn [inserted app]; lia. Qed.

Lemma inserted_nonneg tr : 0 <= inserted tr.
Proof. induction tr as [|[m|m] tr IH]; cbn [inserted]; lia. Qed.

(** ** The pieces on the abstract queue *)

Lemma queue_mem_perm q free held held' : held ≡ₚ held' -> queue_mem q free held -> queue_mem q free held'.
Proof. intros Hp []. constructor; try done. by rewrite <- Hp. Qed.

Lemma view_perm q held held' a : held ≡ₚ held' -> view q held a -> view q held' a.
Proof.
  intros Hp (free & items & Hq & Hrest). exists free, items. split; [|done]. by eapply queue_mem_perm.
Qed.

(** Allocation does not touch the bytes of the pool. *)
Lemma view_allocate q held a raw q' :
  view q held a -> enqueue_allocate q = Ok (raw, q') ->
  view q' (raw :: held) a /\ forall b, node_at (pool q') b = node_at (pool q) b.
Proof.
  intros (free & items & Hq & [] & Hit & Hcap & Hcl & Htk) Hal.
  destruct free as [|r free]; [by rewrite (enqueue_allocate_full q held Hq) in Hal|].
  destruct (enqueue_allocate_ok q r free held Hq) as (p' & Hal' & Hsh & Hq' & Hn).
  rewrite Hal' in Hal. injection Hal as <- <-. split.
  - exists free, items. split; [done|]. split; [constructor; by rewrite ?Hn|]. cbn.
    by rewrite (block_count_shape _ _ Hsh).
  - intros b. destruct (allocate_pop (pool q) r free) as (p2 & Hp2 & _ & Hsh2 & Hdata & _); [by eapply qm_pool|].
    assert (p' = p2) as ->.
    { unfold enqueue_allocate in Hal'. rewrite Hp2 in Hal'. cbn in Hal'.
      unfold assert_that in Hal'. case_decide; [|done]. cbn in Hal'. injection Hal'. intros Heq. symmetry. exact Heq. }
    cbn. unfold node_at, offset. rewrite Hdata. by destruct Hsh2 as (_ & _ & -> & _).
Qed.

Lemma view_allocate_iff q held a :
  view q held a ->
  if decide (length (aq_items a) + length held < aq_capacity a)%nat
  then exists raw q', enqueue_allocate q = Ok (raw, q') /\ raw ∉ held
  else enqueue_allocate q = Err queue_full.
Proof.
  intros Hv. pose proof Hv as (free & items & Hq & _). pose proof (view_count q held a free Hv Hq) as Hc.
  destruct free as [|raw free]; case_decide; cbn in Hc; try lia.
  - by eapply enqueue_allocate_full.
  - destruct (enqueue_allocate_ok q raw free held Hq) as (p' & Hal & _). exists raw, (set_pool p' q). split; [done|].
    pose proof (qm_nodup _ _ _ Hq) as (_ & Hdis & _)%NoDup_app. intros Hin.
    apply (Hdis raw); [apply list_elem_of_here|]. apply elem_of_app. by right.
Qed.

Lemma view_insert q held a raw m :
  view q (raw :: held) a -> msg_wf m ->
  exists q', enqueue_insert q raw m = Ok q' /\
    (aq_ticks a < 2 ^ 32 - 1 ->
     view q' held (mkAqueue (aq_items a ++ [m]) (aq_capacity a) (aq_closed a) (aq_ticks a + 1))).
Proof.
  intros (free & items & Hq & Hage & Hit & Hcap & Hcl & Htk) Hm.
  destruct (enqueue_insert_ok q raw free held m Hq Hm) as (q' & Hins & Hq' & Hn & Hsh & Hsd & Hsq).
  exists q'. split; [done|]. intros Hlt. pose proof (qm_sequence _ _ _ Hq). rewrite u32_small in Hsq by lia.
  exists free, (items ++ [mkNode m (sequence q)]). split; [done|]. split; [by apply (by_age_insert q)|]. cbn.
  by rewrite Hit, Hcap, Hcl, Hsd, Hsq, Htk, fmap_app, (block_count_shape _ _ Hsh).
Qed.

(** Taking the top node out, before its block goes back. *)
Lemma view_pop q held a :
  view q held a -> queue q <> [] ->
  exists node q' r, pop_top q = Ok (node, q') /\
    pop_best msg_lt (aq_items a) = Some (message (node_at (pool q) node), r) /\
    (forall p, node_at (pool q') p = node_at (pool q) p) /\
    view q' (node :: held) (mkAqueue r (aq_capacity a) (aq_closed a) (aq_ticks a)) /\
    exists t, 0 <= t <= aq_ticks a /\
      view (reset_if_empty q') (node :: held) (mkAqueue r (aq_capacity a) (aq_closed a) t).
Proof.
  intros (free & items & Hq & Hage & Hit & Hcap & Hcl & Htk) Hne.
  destruct (pop_top_ok q free held Hq Hne) as (node & vec & Hpop & Hq' & Hn & Hbest). cbn zeta in Hq', Hn.
  set (q' := mkMessageQueue (pool q) vec (shutdown q) (sequence q)) in *. pose proof (qm_sequence _ _ _ Hq) as Hseq.
  destruct (by_age_pop q q' items _ Hage Hn Hbest) as (rest & Hage' & Hrest & Hp); [by left|].
  exists node, q', (message <$> rest). rewrite Hit. split_and!; [done|done|done| |].
  - exists free, rest. by split_and!.
  - unfold reset_if_empty. destruct (decide (queue q' = [])) as [He|_].
    + exists 0. split; [lia|]. exists free, rest. split; [by apply qm_set_sequence|].
      assert (Hno : nodes q' = []) by by apply (queue_mem_nodes q' free (node :: held)).
      rewrite Hno in Hrest. apply Permutation_nil_r in Hrest as ->. split; [by apply by_age_nil|]. by split_and!.
    + exists (aq_ticks a). split; [lia|]. exists free, rest. by split_and!.
Qed.

Lemma view_release q held a node :
  view q (node :: held) a ->
  exists q', release q node = Ok (message (node_at (pool q) node), q') /\ view q' held a.
Proof.
  intros (free & items & Hq & [] & Hit & Hcap & Hcl & Htk).
  destruct (release_ok q node free held Hq) as (p' & Hrel & Hsh & Hq' & Hn). exists (set_pool p' q).
  split; [done|]. exists (node :: free), items. split; [done|]. split; [constructor; by rewrite ?Hn|]. cbn.
  by rewrite (block_count_shape _ _ Hsh).
Qed.

Lemma view_closed q held a :
  view q held a -> queue q = [] -> view (set_sequence 0 q) held (mkAqueue (aq_items a) (aq_capacity a) (aq_closed a) 0).
Proof.
  intros (free & items & Hq & Hage & Hit & Hcap & Hcl & Htk) He. exists free, items.
  split; [by apply qm_set_sequence|]. split; [|by split_and!].
  apply by_age_length in Hage. rewrite He in Hage. apply length_zero_iff_nil in Hage as ->.
  apply by_age_nil. unfold nodes. cbn. by rewrite He.
Qed.

(** ** The invariant *)

(** The blocks that are neither free nor in the heap. *)
Definition held_blocks (C : cqueue) : list Z := option_list (popped C) ++ (inserting C).*1.

(** [items]: what the history leaves in the abstract queue; a consumer between
    the two halves of its operation has already taken its message out. *)
Definition c_pending (C : cqueue) (items : list Msg) (a : aqueue) : Prop :=
  match popped C with
  | None => items = aq_items a
  | Some node => pop_best msg_lt items = Some (message (node_at (pool (shared C)) node), aq_items a)
  end.

Definition c_inv (capacity : nat) (tr : list event) (C : cqueue) : Prop :=
  exists items a, replay [] tr = Some items /\ view (shared C) (held_blocks C) a /\ c_pending C items a /\
    aq_capacity a = capacity /\ aq_ticks a <= inserted tr /\ Forall (fun x => msg_wf x.2) (inserting C).

Lemma c_inv_step capacity tr C ev C' :
  c_inv capacity tr C -> cstep C ev C' -> inserted (tr ++ ev) < 2 ^ 32 -> c_inv capacity (tr ++ ev) C'.
Proof.
  intros (items & a & Hrep & Hv & Hpend & Hcap & Htk & Hwf) Hstep Hlt. unfold c_inv.
  rewrite replay_app, Hrep, inserted_app in *. cbn [mbind option_bind].
  destruct Hstep as [q l o m raw q' Hm Hal|q l1 raw m l2 q' Hins|q l node q' Hne Hpop|q l node q' Hne Hpop
                    |q l node m q' Hrel|q l He Hsd|q l]; unfold c_pending, held_blocks in *;
    cbn [shared inserting popped option_list fmap list_fmap app fst snd replay inserted] in *.
  - destruct (view_allocate q _ a raw q' Hv Hal) as [Hv' Hat]. exists items, a.
    split_and!; [done| |by destruct o; [rewrite Hat|]|done|lia|by constructor].
    eapply view_perm; [|exact Hv']. by rewrite Permutation_middle.
  - rewrite fmap_app in Hv. cbn in Hv. apply (view_perm _ _ (raw :: (l1 ++ l2).*1)) in Hv;
      [|by rewrite fmap_app, Permutation_middle].
    apply Forall_app in Hwf as [Hwf1 [Hm Hwf2]%Forall_cons]. cbn in Hm.
    destruct (view_insert q _ a raw m Hv Hm) as (q2 & Hins2 & Hv2). rewrite Hins in Hins2. injection Hins2 as <-.
    eexists _, _. split_and!; [done|apply Hv2; lia|by rewrite Hpend|done|cbn; lia|by apply Forall_app].
  - destruct (view_pop q _ a Hv Hne) as (n2 & q2 & r & Hpop2 & Hp & Hat & _ & t & Ht & Hv2).
    rewrite Hpop in Hpop2. injection Hpop2 as <- <-.
    eexists _, _. split_and!; [done|exact Hv2| |done|cbn; lia|done]. rewrite Hpend.
    unfold reset_if_empty. destruct (decide _); cbn [set_sequence pool]; by rewrite Hat.
  - destruct (view_pop q _ a Hv Hne) as (n2 & q2 & r & Hpop2 & Hp & Hat & Hv2 & _).
    rewrite Hpop in Hpop2. injection Hpop2 as <- <-.
    eexists _, _. split_and!; [done|exact Hv2| |done|cbn; lia|done]. by rewrite Hpend, Hat.
  - destruct (view_release q _ a node Hv) as (q2 & Hrel2 & Hv2). rewrite Hrel in Hrel2. injection Hrel2 as -> <-.
    exists (aq_items a), a. rewrite Hpend. split_and!; [by rewrite decide_True|done..|lia|done].
  - eexists _, _. split_and!; [done|by apply view_closed|done|done|cbn; pose proof (inserted_nonneg tr); lia|done].
  - eexists _, _. split_and!; [done|by apply view_notify_shutdown|done|done|cbn; lia|done].
Qed.

Lemma c_inv_exec base msg_size max_msgs q tr C :
  sizeof_Node <= msg_size -> 0 < max_msgs -> msg_size * max_msgs < 2 ^ 64 ->
  fresh_region base (msg_size * max_msgs) -> MessageQueue_new base msg_size max_msgs = Ok q ->
  cexec (mkCqueue q [] None) tr C -> inserted tr < 2 ^ 32 -> c_inv (Z.to_nat max_msgs) tr C.
Proof.
  intros Hsize Hmax Hwrap Hreg Hnew. induction 1 as [|tr C ev C' _ IH Hstep]; intros Hlt.
  - destruct (view_new base msg_size max_msgs Hsize Hmax Hwrap Hreg) as (q' & Hnew' & Hv).
    rewrite Hnew in Hnew'. injection Hnew' as <-. by exists [], (aq_new (Z.to_nat max_msgs)).
  - eapply c_inv_step; [|done|done]. apply IH. rewrite inserted_app in Hlt. pose proof (inserted_nonneg ev). lia.
Qed.

(** ** Properties *)

(** C4. Producers and consumers interleaved between their allocation, their
    critical sections and their return of blocks: in every state reached with
    fewer than [2 ^ 32] insertions the messages that went in and came out are
    a history of the abstract queue (each message out once, the oldest of the
    highest priority at that point), what is queued is what the history
    leaves, no two parties hold one block, every piece that is due succeeds,
    and an allocation fails exactly when the messages queued, those about to
    be inserted and the one being taken out fill the capacity. *)
Theorem concurrent_queue_linearizable base msg_size max_msgs q tr C :
  sizeof_Node <= msg_size -> 0 < max_msgs -> msg_size * max_msgs < 2 ^ 64 ->
  fresh_region base (msg_size * max_msgs) -> MessageQueue_new base msg_size max_msgs = Ok q ->
  cexec (mkCqueue q [] None) tr C -> inserted tr < 2 ^ 32 ->
  exists items a, replay [] tr = Some items /\
    view (shared C) (option_list (popped C) ++ (inserting C).*1) a /\ (popped C = None -> items = aq_items a) /\
    NoDup (queue (shared C) ++ option_list (popped C) ++ (inserting C).*1) /\
    (forall raw m, (raw, m) ∈ inserting C -> popped C = None -> is_ok (enqueue_insert (shared C) raw m) = true) /\
    (queue (shared C) <> [] -> is_ok (pop_top (shared C)) = true) /\
    (forall node, popped C = Some node -> exists m q', release (shared C) node = Ok (m, q') /\
       pop_best msg_lt items = Some (m, aq_items a)) /\
    (if decide (length (queue (shared C)) + length (inserting C) + length (option_list (popped C)) < Z.to_nat max_msgs)%nat
     then exists raw q', enqueue_allocate (shared C) = Ok (raw, q') /\ raw ∉ (inserting C).*1
     else enqueue_allocate (shared C) = Err queue_full).
Proof.
  intros Hsize Hmax Hwrap Hreg Hnew Hex Hlt.
  destruct (c_inv_exec base msg_size max_msgs q tr C Hsize Hmax Hwrap Hreg Hnew Hex Hlt)
    as (items & a & Hrep & Hv & Hpend & Hcap & Htk & Hwf). unfold held_blocks in Hv.
  exists items, a. destruct C as [s l o]. unfold c_pending in Hpend. cbn [shared inserting popped] in *. split_and!; try done.
  - by intros ->.
  - destruct Hv as (free & its & Hq & _). by apply qm_nodup, NoDup_app in Hq as (_ & _ & Hq).
  - intros raw m Hin ->. cbn in Hv. apply list_elem_of_split in Hin as (l1 & l2 & ->). rewrite fmap_app in Hv.
    apply (view_perm _ _ (raw :: (l1 ++ l2).*1)) in Hv; [|by rewrite fmap_app; cbn; rewrite Permutation_middle].
    apply Forall_app in Hwf as [_ [Hm _]%Forall_cons]. by destruct (view_insert s _ a raw m Hv Hm) as (q' & -> & _).
  - intros Hne. by destruct (view_pop s _ a Hv Hne) as (n & q' & r & -> & _).
  - intros node ->. cbn in Hv. destruct (view_release s _ a node Hv) as (q' & Hrel & _). by eexists _, q'.
  - pose proof (view_allocate_iff s _ a Hv) as Hal. rewrite Hcap, length_app, length_fmap in Hal.
    assert (Hlen : length (aq_items a) = length (queue s)).
    { destruct Hv as (free & its & _ & Hage & -> & _). rewrite length_fmap. by apply by_age_length. }
    rewrite Hlen in Hal. destruct (decide (_ + (_ + _) < _)%nat) as [Hr|Hr]; case_decide; [|lia|lia|done].
    destruct Hal as (raw & q' & Hal & Hni). exists raw, q'. split; [done|]. intros Hin. apply Hni, elem_of_app. by right.
Qed.
End concurrency.

(** ** Witness: two producers and a consumer in each other's way *)

(** The successor queues of the pieces that succeed. *)
Definition allocated (q : MessageQueue) : Z * MessageQueue :=
  match enqueue_allocate q with Ok x => x | Err _ => (0, q) end.
Definition after_insert (q : MessageQueue) (raw : Z) (m : Msg) : MessageQueue :=
  match enqueue_insert q raw m with Ok q' => q' | Err _ => q end.
Definition after_pop (q : MessageQueue) : Z * MessageQueue := match pop_top q with Ok x => x | Err _ => (0, q) end.
Definition after_release (q : MessageQueue) (node : Z) : MessageQueue :=
  match release q node with Ok (_, q') => q' | Err _ => q end.

Definition mix0 : MessageQueue := Eval vm_compute in
  match MessageQueue_new 4096 56 4 with Ok q => q | Err _ => mkMessageQueue (mkMemoryPool 0 0 0 [] 0) [] false 0 end.
(** A heartbeat and a request are allocated in this order, the request is
    inserted first, popped while a third producer allocates, and released. *)
Definition mix1 := Eval vm_compute in allocated mix0.
Definition mix2 := Eval vm_compute in allocated mix1.2.
Definition mix3 := Eval vm_compute in after_insert mix2.2 mix2.1 (demo_request 1).
Definition mix4 := Eval vm_compute in after_pop mix3.
Definition mix5 := Eval vm_compute in allocated (reset_if_empty mix4.2).
Definition mix6 := Eval vm_compute in after_release mix5.2 mix4.1.
Definition mix7 := Eval vm_compute in after_insert mix6 mix1.1 (demo_heartbeat 1).
Definition mix_end : cqueue := mkCqueue mix7 [(mix5.1, demo_heartbeat 2)] None.

Lemma mix_run : cexec (mkCqueue mix0 [] None) [EIn (demo_request 1); EOut (demo_request 1); EIn (demo_heartbeat 1)] mix_end.
Proof.
  assert (Hm1 : msg_wf (demo_heartbeat 1)) by (apply demo_heartbeat_wf; lia).
  assert (Hm2 : msg_wf (demo_heartbeat 2)) by (apply demo_heartbeat_wf; lia).
  assert (Hr : msg_wf (demo_request 1)) by (apply demo_request_wf; lia).
  assert (E1 : enqueue_allocate mix0 = Ok (mix1.1, mix1.2)) by (vm_compute; reflexivity).
  assert (E2 : enqueue_allocate mix1.2 = Ok (mix2.1, mix2.2)) by (vm_compute; reflexivity).
  assert (E3 : enqueue_insert mix2.2 mix2.1 (demo_request 1) = Ok mix3) by (vm_compute; reflexivity).
  assert (Hne : queue mix3 <> []) by (vm_compute; discriminate).
  assert (E4 : pop_top mix3 = Ok (mix4.1, mix4.2)) by (vm_compute; reflexivity).
  assert (E5 : enqueue_allocate (reset_if_empty mix4.2) = Ok (mix5.1, mix5.2)) by (vm_compute; reflexivity).
  assert (E6 : release mix5.2 mix4.1 = Ok (demo_request 1, mix6)) by (vm_compute; reflexivity).
  assert (E7 : enqueue_insert mix6 mix1.1 (demo_heartbeat 1) = Ok mix7) by (vm_compute; reflexivity).
  pose proof (cexec_start (mkCqueue mix0 [] None)) as H0.
  pose proof (cexec_step _ _ _ _ _ H0 (c_allocate _ _ _ _ _ _ Hm1 E1)) as H1.
  pose proof (cexec_step _ _ _ _ _ H1 (c_allocate _ _ _ _ _ _ Hr E2)) as H2.
  pose proof (cexec_step _ _ _ _ _ H2 (c_insert _ [] _ _ _ _ E3)) as H3.
  pose proof (cexec_step _ _ _ _ _ H3 (c_dequeue_pop _ _ _ _ Hne E4)) as H4.
  pose proof (cexec_step _ _ _ _ _ H4 (c_allocate _ _ _ _ _ _ Hm2 E5)) as H5.
  pose proof (cexec_step _ _ _ _ _ H5 (c_release _ _ _ _ _ E6)) as H6.
  exact (cexec_step _ _ _ _ _ H6 (c_insert _ [(mix5.1, demo_heartbeat 2)] _ _ [] _ E7)).
Qed.

Lemma concurrent_queue_linearizable_witness :
  exists items a, replay [] [EIn (demo_request 1); EOut (demo_request 1); EIn (demo_heartbeat 1)] = Some items /\
    view mix7 [mix5.1] a /\ items = aq_items a /\ items = [demo_heartbeat 1].
Proof.
  destruct (concurrent_queue_linearizable 4096 56 4 mix0
    [EIn (demo_request 1); EOut (demo_request 1); EIn (demo_heartbeat 1)] mix_end)
    as (items & a & Hrep & Hv & Heq & _); [done..|by vm_compute|exact mix_run|done|].
  exists items, a. split_and!; [done|exact Hv|by apply Heq|].
  assert (H : replay [] [EIn (demo_request 1); EOut (demo_request 1); EIn (demo_heartbeat 1)] = Some [demo_heartbeat 1])
    by (vm_compute; reflexivity).
  rewrite H in Hrep. by injection Hrep.
Defined.
