(* ===== verification/QueueThreads.v ===== *)
(** * QueueThreads: the calls of a queue with their waits and notifications

    QueueConcurrency cuts the operations of a queue at its mutexes, and takes
    a consumer to come by when there is something for it. Here the consumers
    sleep on [queue_condition] and are woken by what [enqueue] and
    [notify_shutdown] signal: any number of threads, each with a list of calls
    of its own, run on one queue, and every turn of a thread is one piece of a
    call. The theorems are that nobody oversleeps and that every schedule of
    the turns comes to an end. *)

From S2P Require Import Prelude MemoryPool Heap Msg QueueSpec MessageQueue QueueConcurrency.
#[local] Open Scope Z_scope.

(** ** Threads *)

(** Where a thread is in the first of its [calls]: [Ready] before its first
    piece, or woken and about to lock and test the predicate of its wait
    again; [Allocated] before the critical section of [enqueue] and
    [Notifying] after it; [TimedOut] between the end of a [wait_for]'s timeout
    and its last test; [Releasing] with the mutex held and the node taken out. *)
Inductive call_place :=
  | Ready
  | Allocated (raw : Z)
  | Notifying
  | Sleeping
  | TimedOut
  | Releasing (node : Z).

#[export] Instance place_eq_dec : EqDecision call_place.
Proof. solve_decision. Defined.

Record calling_thread := mkThread {
  at_place : call_place;
  calls : list qop;
  returned : list qret
}.

Definition move_to (p : call_place) (t : calling_thread) : calling_thread := mkThread p (calls t) (returned t).

Definition return_with (r : qret) (t : calling_thread) : calling_thread := mkThread Ready (tail (calls t)) (returned t ++ [r]).

(** What a turn does to [queue_condition]. *)
Inductive signal := NoSignal | NotifyOne | NotifyAll.

(** A turn of a thread: it moves, it has to wait for the mutex, a signal or
    nothing at all, or the program goes wrong. *)
Inductive turn :=
  | Moves (q : MessageQueue) (t : calling_thread) (s : signal) (ev : list event)
  | Waits
  | GoesWrong (e : error).

Section threads.
Context `{NodeLayout} `{HeapAlgorithms}.
Implicit Types q : MessageQueue.

(** The predicate both waits share. *)
Definition predicate q : bool := negb (is_empty q) || shutdown q.

(** [pop_heap], [back], [pop_back] and, in [dequeue] alone, the reset of the
    numbering: the mutex stays locked. *)
Definition take_turn q (t : calling_thread) (resets : bool) : turn :=
  match pop_top q with
  | Ok (node, q') => Moves (if resets then reset_if_empty q' else q') (move_to (Releasing node) t) NoSignal []
  | Err e => GoesWrong e
  end.

(** The message copied out, the node given back, the mutex unlocked. *)
Definition release_turn q (node : Z) (t : calling_thread) (answer : Msg -> qret) : turn :=
  match release q node with
  | Ok (m, q') => Moves q' (return_with (answer m) t) NoSignal [EOut m]
  | Err e => GoesWrong e
  end.

Definition enqueue_turn q (msg : Msg) (locked : bool) (t : calling_thread) : turn :=
  match at_place t with
  | Ready =>
      match enqueue_allocate q with
      | Ok (raw, q') => Moves q' (move_to (Allocated raw) t) NoSignal []
      | Err e => GoesWrong e
      end
  | Allocated raw =>
      if locked then Waits else
      match enqueue_insert q raw msg with
      | Ok q' => Moves q' (move_to Notifying t) NoSignal [EIn msg]
      | Err e => GoesWrong e
      end
  | Notifying => Moves q (return_with RUnit t) NotifyOne []
  | _ => Waits
  end.

Definition dequeue_turn q (locked : bool) (t : calling_thread) : turn :=
  match at_place t with
  | Ready =>
      if locked then Waits
      else if negb (predicate q) then Moves q (move_to Sleeping t) NoSignal []
      else if shutdown q && is_empty q then
        Moves (set_sequence 0 q) (return_with (RDequeue (Returns None)) t) NoSignal []
      else take_turn q t true
  | Releasing node => release_turn q node t (fun m => RDequeue (Returns (Some m)))
  | _ => Waits
  end.

Definition try_dequeue_turn q (locked : bool) (t : calling_thread) : turn :=
  match at_place t with
  | Ready =>
      if locked then Waits
      else if negb (predicate q) then Moves q (move_to Sleeping t) NoSignal []
      else take_turn q t false
  | TimedOut =>
      if locked then Waits
      else if negb (predicate q) then Moves q (return_with (RTry None) t) NoSignal []
      else take_turn q t false
  | Releasing node => release_turn q node t (fun m => RTry (Some m))
  | _ => Waits
  end.

(** The next piece of the first call of [t]. *)
Definition thread_turn q (locked : bool) (t : calling_thread) : turn :=
  match calls t with
  | [] => Waits
  | OEnqueue m :: _ => enqueue_turn q m locked t
  | ODequeue :: _ => dequeue_turn q locked t
  | OTryDequeue :: _ => try_dequeue_turn q locked t
  | OIsEmpty :: _ =>
      if locked || negb (bool_decide (at_place t = Ready)) then Waits
      else Moves q (return_with (RBool (is_empty q)) t) NoSignal []
  | OShutdown :: _ =>
      if locked || negb (bool_decide (at_place t = Ready)) then Waits
      else Moves (notify_shutdown q) (return_with RUnit t) NotifyAll []
  end.

(** ** All threads *)

Record qthreads := mkQthreads { on : MessageQueue; ts : list calling_thread }.

(** [queue_mutex] is held between two turns by a consumer that is releasing. *)
Definition releasing (t : calling_thread) : list Z := match at_place t with Releasing node => [node] | _ => [] end.
Definition locked (l : list calling_thread) : bool := match l ≫= releasing with [] => false | _ => true end.

Definition asleep (t : calling_thread) : bool := match at_place t with Sleeping => true | _ => false end.
Definition wake (t : calling_thread) : calling_thread := if asleep t then move_to Ready t else t.

Inductive signalled : signal -> list calling_thread -> list calling_thread -> Prop :=
  | signalled_none l : signalled NoSignal l l
  | signalled_nobody l : Forall (fun t => asleep t = false) l -> signalled NotifyOne l l
  | signalled_one l i t : l !! i = Some t -> asleep t = true -> signalled NotifyOne l (<[i := wake t]> l)
  | signalled_all l : signalled NotifyAll l (map wake l).

(** What moves: a thread by itself, or the clock, or nothing that the program
    controls (a spurious wake-up). *)
Inductive mover := ByTurn | ByTimer | BySpurious.

Inductive qstep : mover -> qthreads -> list event -> qthreads -> Prop :=
  | q_turn q l i t q' t' s ev l' :
      l !! i = Some t -> thread_turn q (locked l) t = Moves q' t' s ev -> signalled s (<[i := t']> l) l' ->
      qstep ByTurn (mkQthreads q l) ev (mkQthreads q' l')
  | q_timer q l i t rest :
      l !! i = Some t -> asleep t = true -> calls t = OTryDequeue :: rest ->
      qstep ByTimer (mkQthreads q l) [] (mkQthreads q (<[i := move_to TimedOut t]> l))
  | q_spurious q l i t :
      l !! i = Some t -> asleep t = true ->
      qstep BySpurious (mkQthreads q l) [] (mkQthreads q (<[i := wake t]> l)).

Definition is_spurious (k : mover) : bool := match k with BySpurious => true | _ => false end.

(** An execution: the steps that are the program's or the clock's, the
    spurious wake-ups, and the events. *)
Inductive qrun (S0 : qthreads) : nat -> nat -> list event -> qthreads -> Prop :=
  | qrun_start : qrun S0 0 0 [] S0
  | qrun_step n k tr S c ev S' :
      qrun S0 n k tr S -> qstep c S ev S' ->
      qrun S0 (if is_spurious c then n else Datatypes.S n) (if is_spurious c then Datatypes.S k else k) (tr ++ ev) S'.

Definition start_threads (programs : list (list qop)) : list calling_thread := (fun os => mkThread Ready os []) <$> programs.

(** ** Schedules *)

(** A choice of what happens next; [wakes] is the sleeper a notification
    reaches. *)
Inductive choice := Turn (i : nat) (wakes : option nat) | Timer (i : nat) | Spurious (i : nat).

Definition deliver_signal (s : signal) (wakes : option nat) (l : list calling_thread) : option (list calling_thread) :=
  match s, wakes with
  | NoSignal, None => Some l
  | NotifyOne, None => if forallb (fun t => negb (asleep t)) l then Some l else None
  | NotifyOne, Some i => t ← l !! i; if asleep t then Some (<[i := wake t]> l) else None
  | NotifyAll, None => Some (map wake l)
  | _, _ => None
  end.

Definition choose (c : choice) (S : qthreads) : option (mover * list event * qthreads) :=
  match c with
  | Turn i wakes =>
      t ← ts S !! i;
      match thread_turn (on S) (locked (ts S)) t with
      | Moves q' t' s ev => l ← deliver_signal s wakes (<[i := t']> (ts S)); Some (ByTurn, ev, mkQthreads q' l)
      | _ => None
      end
  | Timer i =>
      t ← ts S !! i;
      match asleep t, calls t with
      | true, OTryDequeue :: _ => Some (ByTimer, [], mkQthreads (on S) (<[i := move_to TimedOut t]> (ts S)))
      | _, _ => None
      end
  | Spurious i =>
      t ← ts S !! i;
      if asleep t then Some (BySpurious, [], mkQthreads (on S) (<[i := wake t]> (ts S))) else None
  end.

Fixpoint play (cs : list choice) (n k : nat) (tr : list event) (S : qthreads) : option (nat * nat * list event * qthreads) :=
  match cs with
  | [] => Some (n, k, tr, S)
  | c :: cs' =>
      '(m, ev, S') ← choose c S;
      play cs' (if is_spurious m then n else Datatypes.S n) (if is_spurious m then Datatypes.S k else k) (tr ++ ev) S'
  end.

Lemma deliver_signal_ok s w l l' : deliver_signal s w l = Some l' -> signalled s l l'.
Proof.
  destruct s, w as [j|]; cbn; try done.
  - intros [= <-]. constructor.
  - destruct (l !! j) as [t|] eqn:Hj; cbn; [|done]. destruct (asleep t) eqn:Ha; [|done]. intros [= <-].
    by apply signalled_one.
  - destruct (forallb _ l) eqn:Hf; [|done]. intros [= <-]. constructor. apply Forall_forall. intros t Ht.
    rewrite forallb_forall in Hf. apply negb_true_iff, Hf. by apply list_elem_of_In.
  - intros [= <-]. constructor.
Qed.

Lemma choose_ok c S m ev S' : choose c S = Some (m, ev, S') -> qstep m S ev S'.
Proof.
  destruct S as [q l], c as [i w|i|i]; cbn [choose ts on]; destruct (l !! i) as [t|] eqn:Hi; cbn; try done.
  - destruct (thread_turn q (locked l) t) as [q' t' s e| |] eqn:Ht; [|done..].
    destruct (deliver_signal s w (<[i:=t']> l)) as [l'|] eqn:Hs; cbn; [|done]. intros [= <- <- <-].
    eapply q_turn; [done|done|by eapply deliver_signal_ok].
  - destruct (asleep t) eqn:Ha; [|done]. destruct (calls t) as [|[| | | |] r] eqn:Hc; try done. intros [= <- <- <-].
    by eapply q_timer.
  - destruct (asleep t) eqn:Ha; [|done]. intros [= <- <- <-]. by eapply q_spurious.
Qed.

Lemma play_ok S0 cs n k tr S n' k' tr' S' :
  qrun S0 n k tr S -> play cs n k tr S = Some (n', k', tr', S') -> qrun S0 n' k' tr' S'.
Proof.
  revert n k tr S. induction cs as [|c cs IH]; intros n k tr S Hrun; cbn [play]; [by intros [= <- <- <- <-]|].
  destruct (choose c S) as [[[m ev] S1]|] eqn:Hc; cbn; [|done]. apply IH. eapply qrun_step; [done|by apply (choose_ok c)].
Qed.

(** ** Lemmas: the turns as cases *)

Definition consumes (o : qop) : bool := match o with ODequeue | OTryDequeue => true | _ => false end.

Definition resets (o : qop) : bool := match o with ODequeue => true | _ => false end.

(** The turns that move a thread. *)
Inductive piece q (lk : bool) (t : calling_thread) : MessageQueue -> calling_thread -> signal -> list event -> Prop :=
  | p_allocate m r raw q' :
      at_place t = Ready -> calls t = OEnqueue m :: r -> enqueue_allocate q = Ok (raw, q') ->
      piece q lk t q' (move_to (Allocated raw) t) NoSignal []
  | p_insert m r raw q' :
      at_place t = Allocated raw -> calls t = OEnqueue m :: r -> lk = false -> enqueue_insert q raw m = Ok q' ->
      piece q lk t q' (move_to Notifying t) NoSignal [EIn m]
  | p_notify m r :
      at_place t = Notifying -> calls t = OEnqueue m :: r -> piece q lk t q (return_with RUnit t) NotifyOne []
  | p_sleep o r :
      at_place t = Ready -> calls t = o :: r -> consumes o = true -> lk = false -> queue q = [] -> shutdown q = false ->
      piece q lk t q (move_to Sleeping t) NoSignal []
  | p_closed r :
      at_place t = Ready -> calls t = ODequeue :: r -> lk = false -> queue q = [] -> shutdown q = true ->
      piece q lk t (set_sequence 0 q) (return_with (RDequeue (Returns None)) t) NoSignal []
  | p_give_up r :
      at_place t = TimedOut -> calls t = OTryDequeue :: r -> lk = false -> queue q = [] -> shutdown q = false ->
      piece q lk t q (return_with (RTry None) t) NoSignal []
  | p_take o r node q' :
      (at_place t = Ready \/ at_place t = TimedOut) -> calls t = o :: r -> consumes o = true -> lk = false ->
      queue q <> [] -> pop_top q = Ok (node, q') ->
      piece q lk t (if resets o then reset_if_empty q' else q') (move_to (Releasing node) t) NoSignal []
  | p_release o r node m q' a :
      at_place t = Releasing node -> calls t = o :: r -> consumes o = true -> release q node = Ok (m, q') ->
      a = (match o with ODequeue => RDequeue (Returns (Some m)) | _ => RTry (Some m) end) ->
      piece q lk t q' (return_with a t) NoSignal [EOut m]
  | p_is_empty r :
      at_place t = Ready -> calls t = OIsEmpty :: r -> lk = false ->
      piece q lk t q (return_with (RBool (is_empty q)) t) NoSignal []
  | p_shutdown r :
      at_place t = Ready -> calls t = OShutdown :: r -> lk = false ->
      piece q lk t (notify_shutdown q) (return_with RUnit t) NotifyAll [].

Lemma predicate_false q : predicate q = false -> queue q = [] /\ shutdown q = false.
Proof. unfold predicate, is_empty. destruct (queue q); cbn; [done|done]. Qed.

Lemma take_turn_piece q t b o r q' t' s ev :
  (at_place t = Ready \/ at_place t = TimedOut) -> calls t = o :: r -> consumes o = true -> b = resets o ->
  take_turn q t b = Moves q' t' s ev -> piece q false t q' t' s ev.
Proof.
  intros Hat Hc Ho -> Hm. unfold take_turn in Hm. destruct (pop_top q) as [[node q1]|e] eqn:Hp; [|done].
  injection Hm as <- <- <- <-. eapply p_take; try done. intros He. unfold pop_top in Hp.
  by rewrite require_defined_bind_false in Hp by (by intros Hn).
Qed.

Lemma release_turn_piece q lk t node o r answer q' t' s ev :
  at_place t = Releasing node -> calls t = o :: r -> consumes o = true ->
  answer = (fun m => match o with ODequeue => RDequeue (Returns (Some m)) | _ => RTry (Some m) end) ->
  release_turn q node t answer = Moves q' t' s ev -> piece q lk t q' t' s ev.
Proof.
  intros Hat Hc Ho -> Hm. unfold release_turn in Hm. destruct (release q node) as [[m q1]|e] eqn:Hp; [|done].
  injection Hm as <- <- <- <-. by eapply p_release.
Qed.

Lemma turn_piece q lk t q' t' s ev : thread_turn q lk t = Moves q' t' s ev -> piece q lk t q' t' s ev.
Proof.
  unfold thread_turn. destruct (calls t) as [|[m| | | |] r] eqn:Hc; [done| | | | |].
  - unfold enqueue_turn. destruct (at_place t) as [|raw| | | |node] eqn:Hat; try done.
    + destruct (enqueue_allocate q) as [[raw q1]|e] eqn:Ha; [|done]. intros [= <- <- <- <-]. by eapply p_allocate.
    + destruct lk; [done|]. destruct (enqueue_insert q raw m) as [q1|e] eqn:Hi; [|done]. intros [= <- <- <- <-].
      by eapply p_insert.
    + intros [= <- <- <- <-]. by eapply p_notify.
  - unfold dequeue_turn. destruct (at_place t) as [|raw| | | |node] eqn:Hat; try done.
    + destruct lk; [done|]. destruct (negb (predicate q)) eqn:Hp.
      * apply negb_true_iff, predicate_false in Hp as [Hq Hs]. intros [= <- <- <- <-]. by eapply p_sleep.
      * destruct (shutdown q && is_empty q) eqn:Hse.
        -- apply andb_true_iff in Hse as [Hs He]. intros [= <- <- <- <-]. eapply p_closed; try done.
           unfold is_empty in He. by destruct (queue q).
        -- intros Hm. eapply (take_turn_piece _ _ true ODequeue); [by left|done..].
    + intros Hm. by eapply release_turn_piece.
  - unfold try_dequeue_turn. destruct (at_place t) as [|raw| | | |node] eqn:Hat; try done.
    + destruct lk; [done|]. destruct (negb (predicate q)) eqn:Hp.
      * apply negb_true_iff, predicate_false in Hp as [Hq Hs]. intros [= <- <- <- <-]. by eapply p_sleep.
      * intros Hm. eapply (take_turn_piece _ _ false OTryDequeue); [by left|done..].
    + destruct lk; [done|]. destruct (negb (predicate q)) eqn:Hp.
      * apply negb_true_iff, predicate_false in Hp as [Hq Hs]. intros [= <- <- <- <-]. by eapply p_give_up.
      * intros Hm. eapply (take_turn_piece _ _ false OTryDequeue); [by right|done..].
    + intros Hm. by eapply release_turn_piece.
  - destruct lk; [done|]. case_bool_decide as Hat; [|done]. intros [= <- <- <- <-]. by eapply p_is_empty.
  - destruct lk; [done|]. case_bool_decide as Hat; [|done]. intros [= <- <- <- <-]. by eapply p_shutdown.
Qed.
(** ** Lemmas: signals *)

(** A reading of the threads that does not tell a sleeping thread from one
    that is about to test its predicate. *)
Definition wake_blind {A} (f : calling_thread -> A) : Prop := forall t, asleep t = true -> forall p, p = Ready \/ p = TimedOut ->
  f (move_to p t) = f t.

Lemma wake_blind_wake {A} (f : calling_thread -> A) t : wake_blind f -> f (wake t) = f t.
Proof. intros Hf. unfold wake. destruct (asleep t) eqn:Ha; [|done]. apply Hf; [done|by left]. Qed.

Lemma signalled_bind {B} (f : calling_thread -> list B) s l l' : wake_blind f -> signalled s l l' -> l' ≫= f = l ≫= f.
Proof.
  intros Hf Hs. destruct Hs as [l|l Hl|l i t Hi Ha|l]; [done|done| |].
  - apply (bind_update_same f l i t); [done|]. by apply wake_blind_wake.
  - apply bind_map. intros t. by apply wake_blind_wake.
Qed.

Lemma signalled_total (f : calling_thread -> nat) s l l' : wake_blind f -> signalled s l l' -> total f l' = total f l.
Proof.
  intros Hf Hs. destruct Hs as [l|l Hl|l i t Hi Ha|l]; [done|done| |].
  - pose proof (total_update f l i t (wake t) Hi). rewrite (wake_blind_wake f) in *; [lia|done].
  - apply total_map. intros t. by apply wake_blind_wake.
Qed.

Lemma signalled_Forall (P : calling_thread -> Prop) s l l' :
  (forall t, P t -> P (wake t)) -> signalled s l l' -> Forall P l -> Forall P l'.
Proof.
  intros HP Hs Hl. destruct Hs as [l|l Hn|l i t Hi Ha|l]; [done|done| |].
  - apply Forall_insert; [done|]. apply HP. by eapply Forall_lookup_1 in Hl.
  - apply Forall_map. by eapply Forall_impl.
Qed.

(** What a step does to one thread, apart from the signal. *)
Lemma qstep_inv c S ev S' :
  qstep c S ev S' -> exists i t t' s,
    ts S !! i = Some t /\ signalled s (<[i := t']> (ts S)) (ts S') /\
    ((c = ByTurn /\ piece (on S) (locked (ts S)) t (on S') t' s ev) \/
     (c <> ByTurn /\ on S' = on S /\ ev = [] /\ s = NoSignal /\ asleep t = true /\
      exists p, t' = move_to p t /\
        ((c = BySpurious /\ p = Ready) \/ (c = ByTimer /\ p = TimedOut /\ exists r, calls t = OTryDequeue :: r)))).
Proof.
  destruct 1 as [q l i t q' t' s ev l' Hi Ht Hs|q l i t r Hi Ha Hc|q l i t Hi Ha]; cbn.
  - exists i, t, t', s. split_and!; [done|done|left]. split; [done|by apply turn_piece].
  - exists i, t, (move_to TimedOut t), NoSignal. split_and!; [done|constructor|right]. split_and!; try done.
    exists TimedOut. split; [done|]. right. split_and!; [done|done|by exists r].
  - exists i, t, (wake t), NoSignal. split_and!; [done|constructor|right]. split_and!; try done.
    exists Ready. unfold wake. rewrite Ha. split; [done|by left].
Qed.

(** A reading in lists: what is added and what is gone. *)
Lemma qstep_bind {B} (f : calling_thread -> list B) l i t t' s l' :
  wake_blind f -> l !! i = Some t -> signalled s (<[i := t']> l) l' -> (l' ≫= f) ++ f t ≡ₚ (l ≫= f) ++ f t'.
Proof. intros Hf Hi Hs. rewrite (signalled_bind f _ _ _ Hf Hs). by apply bind_update. Qed.

Lemma qstep_total (f : calling_thread -> nat) l i t t' s l' :
  wake_blind f -> l !! i = Some t -> signalled s (<[i := t']> l) l' -> (total f l' + f t = total f l + f t')%nat.
Proof. intros Hf Hi Hs. rewrite (signalled_total f _ _ _ Hf Hs). by apply total_update. Qed.

(** ** The invariants *)

(** Every place belongs to a call that has it. *)
Definition well_placed (t : calling_thread) : Prop :=
  match at_place t, calls t with
  | Ready, _ => True
  | Allocated _, OEnqueue _ :: _ | Notifying, OEnqueue _ :: _ => True
  | Sleeping, o :: _ | Releasing _, o :: _ => consumes o = true
  | TimedOut, OTryDequeue :: _ => True
  | _, _ => False
  end.

(** The node a producer holds between its allocation and its insertion. *)
Definition inserting_of (t : calling_thread) : list (Z * Msg) :=
  match at_place t, calls t with
  | Allocated raw, OEnqueue m :: _ => [(raw, m)]
  | _, _ => []
  end.

Definition enqueued_by (o : qop) : list Msg := match o with OEnqueue m => [m] | _ => [] end.

(** The messages whose insertion is still to come, those being inserted not
    counted. *)
Definition unstarted (t : calling_thread) : list Msg :=
  (match at_place t with Allocated _ | Notifying => tail (calls t) | _ => calls t end) ≫= enqueued_by.

(** The messages a thread has been given. *)
Definition received_in (r : qret) : list Msg :=
  match r with RDequeue (Returns (Some m)) | RTry (Some m) => [m] | _ => [] end.
Definition received (t : calling_thread) : list Msg := returned t ≫= received_in.

Definition ins (tr : list event) : list Msg := tr ≫= fun e => match e with EIn m => [m] | EOut _ => [] end.
Definition outs (tr : list event) : list Msg := tr ≫= fun e => match e with EOut m => [m] | EIn _ => [] end.

(** The threads' queue is a state of the queue between its mutexes, reached
    with the same events. *)
Record data_inv (q0 : MessageQueue) (msgs : list Msg) (tr : list event) (S : qthreads) : Prop := {
  di_queue : exists C, cexec (mkCqueue q0 [] None) tr C /\ shared C = on S /\
    inserting C ≡ₚ (ts S ≫= inserting_of) /\ option_list (popped C) = (ts S ≫= releasing);
  di_placed : Forall well_placed (ts S);
  di_messages : ins tr ++ (ts S ≫= inserting_of).*2 ++ (ts S ≫= unstarted) ≡ₚ msgs;
  di_received : (ts S ≫= received) ≡ₚ outs tr
}.

Lemma asleep_place t : asleep t = true -> at_place t = Sleeping.
Proof. unfold asleep. by destruct (at_place t). Qed.

Ltac solve_blind := intros [p0 c0 r0] Ha%asleep_place p [-> | ->]; cbn in Ha; subst p0; reflexivity.

Lemma inserting_blind : wake_blind inserting_of.
Proof. solve_blind. Qed.
Lemma releasing_blind : wake_blind releasing.
Proof. solve_blind. Qed.
Lemma unstarted_blind : wake_blind unstarted.
Proof. solve_blind. Qed.
Lemma received_blind : wake_blind received.
Proof. solve_blind. Qed.

Lemma wake_placed t : well_placed t -> well_placed (wake t).
Proof. unfold wake. by destruct (asleep t). Qed.

Lemma piece_placed q lk t q' t' s ev : piece q lk t q' t' s ev -> well_placed t'.
Proof. destruct 1; unfold well_placed; cbn [at_place move_to calls return_with]; by rewrite ?H2. Qed.

Lemma placed_step c S ev S' : Forall well_placed (ts S) -> qstep c S ev S' -> Forall well_placed (ts S').
Proof.
  intros Hw (i & t & t' & s & Hi & Hs & Hcase)%qstep_inv. eapply signalled_Forall; [apply wake_placed|exact Hs|].
  apply Forall_insert; [done|]. destruct Hcase as [[_ Hp]|(_ & _ & _ & _ & _ & p & -> & Hp)]; [by eapply piece_placed|].
  destruct Hp as [[_ ->]|(_ & -> & r & Hr)]; [done|]. unfold well_placed. cbn. by rewrite Hr.
Qed.

(** Take a piece apart, with the place and the calls of its thread. *)
Ltac piece_cases t := destruct t as [pl cs rs]; let Hp := fresh "Hp" in intros Hp; destruct Hp; cbn in *; simplify_eq.

Lemma consumes_unstarted o : consumes o = true -> enqueued_by o = [].
Proof. by destruct o. Qed.

(** The events of the pieces, message by message. *)
Lemma piece_messages q lk t q' t' s ev :
  piece q lk t q' t' s ev ->
  ins ev ++ (inserting_of t').*2 ++ unstarted t' ≡ₚ (inserting_of t).*2 ++ unstarted t /\
  received t' = received t ++ outs ev.
Proof.
  piece_cases t; unfold inserting_of, unstarted, received; cbn; rewrite ?bind_app, ?consumes_unstarted by done; cbn;
    rewrite ?app_nil_r; try (by split).
  - destruct H1 as [-> | ->]; cbn; by rewrite ?consumes_unstarted.
  - destruct o; try done; cbn; by rewrite ?consumes_unstarted.
Qed.

(** A piece is a step of the queue between its mutexes, or none. *)
Lemma piece_cstep q l (i : nat) t q' t' s ev C tr C0 :
  piece q (locked l) t q' t' s ev -> l !! i = Some t ->
  (forall m, m ∈ unstarted t -> msg_wf m) ->
  cexec C0 tr C -> shared C = q -> inserting C ≡ₚ (l ≫= inserting_of) -> option_list (popped C) = (l ≫= releasing) ->
  exists C', cexec C0 (tr ++ ev) C' /\ shared C' = q' /\
    inserting C' ++ inserting_of t ≡ₚ inserting C ++ inserting_of t' /\
    option_list (popped C') ++ releasing t ≡ₚ option_list (popped C) ++ releasing t'.
Proof.
  intros Hp Hi Hwf Hex Hq Hins Hrel. destruct C as [sh ns po]. cbn [shared inserting popped] in *. subst sh.
  assert (Hstay : cexec C0 (tr ++ []) (mkCqueue q ns po)) by (by rewrite app_nil_r).
  assert (Hfree : locked l = false -> po = None).
  { unfold locked. rewrite <- Hrel. by destruct po. }
  revert Hi Hwf. revert Hp. piece_cases t; intros Hi Hwf; try (exists (mkCqueue q ns po); by split_and!).
  - exists (mkCqueue q' ((raw, m) :: ns) po). split_and!; [|done|by cbn; rewrite app_nil_r, Permutation_cons_append|done].
    eapply cexec_step; [done|]. apply c_allocate; [|done]. apply Hwf. cbn. apply list_elem_of_here.
  - rewrite Hfree in * by done. assert (Hin : (raw, m) ∈ ns).
    { rewrite Hins. eapply bind_lookup; [done|]. apply list_elem_of_here. }
    apply list_elem_of_split in Hin as (n1 & n2 & ->). exists (mkCqueue q' (n1 ++ n2) None).
    split_and!; [|done| |done]; [by eapply cexec_step; [|apply c_insert]|]. cbn.
    by rewrite app_nil_r, <- Permutation_cons_append, Permutation_middle.
  - rewrite Hfree in * by done. exists (mkCqueue (set_sequence 0 q) ns None). split_and!; try done.
    eapply cexec_step; [done|by apply c_dequeue_closed].
  - rewrite Hfree in * by done. exists (mkCqueue (if resets o then reset_if_empty q' else q') ns (Some node)).
    split_and!; [|done|by destruct H1 as [-> | ->]|by destruct H1 as [-> | ->]].
    eapply cexec_step; [done|]. by destruct (resets o); [apply c_dequeue_pop|apply c_try_dequeue_pop].
  - assert (Hin : node ∈ option_list po).
    { rewrite Hrel. eapply bind_lookup; [done|]. apply list_elem_of_here. }
    destruct po as [n|]; [|by apply elem_of_nil in Hin]. apply list_elem_of_singleton in Hin as ->.
    exists (mkCqueue q' ns None). split_and!; try done. eapply cexec_step; [done|by apply c_release].
  - rewrite Hfree in * by done. exists (mkCqueue (notify_shutdown q) ns None). split_and!; try done.
    eapply cexec_step; [done|by apply c_shutdown].
Qed.

Lemma ins_app tr tr' : ins (tr ++ tr') = ins tr ++ ins tr'.
Proof. apply bind_app. Qed.
Lemma outs_app tr tr' : outs (tr ++ tr') = outs tr ++ outs tr'.
Proof. apply bind_app. Qed.

Lemma option_list_perm {A} (o : option A) l : option_list o ≡ₚ l -> option_list o = l.
Proof.
  destruct o as [x|]; cbn; intros Hp; [by apply Permutation_singleton_l in Hp|by apply Permutation_nil_l in Hp].
Qed.

Lemma data_inv_step q0 msgs tr c S ev S' :
  Forall msg_wf msgs -> data_inv q0 msgs tr S -> qstep c S ev S' -> data_inv q0 msgs (tr ++ ev) S'.
Proof.
  intros Hwf [(C & Hex & Hq & Hins & Hrel) Hpl Hms Hrc] Hstep.
  pose proof (placed_step _ _ _ _ Hpl Hstep) as Hpl'. apply qstep_inv in Hstep as (i & t & t' & s & Hi & Hs & Hcase).
  pose proof (qstep_bind inserting_of _ _ _ _ _ _ inserting_blind Hi Hs) as Bi.
  pose proof (qstep_bind releasing _ _ _ _ _ _ releasing_blind Hi Hs) as Br.
  pose proof (qstep_bind unstarted _ _ _ _ _ _ unstarted_blind Hi Hs) as Bu.
  pose proof (qstep_bind received _ _ _ _ _ _ received_blind Hi Hs) as Bc.
  destruct Hcase as [[_ Hp]|(_ & Hon & -> & -> & Ha & p & -> & Hpp)].
  - destruct (piece_cstep (on S) (ts S) i t (on S') t' s ev C tr (mkCqueue q0 [] None)) as (C' & Hex' & Hq' & Hi' & Hr'); try done.
    { intros m Hm. rewrite Forall_forall in Hwf. apply Hwf. rewrite <- Hms. rewrite !elem_of_app. right. right.
      by eapply bind_lookup. }
    destruct (piece_messages _ _ _ _ _ _ _ Hp) as [Hmsg Hrec]. split; [|done| |].
    + exists C'. split_and!; [done|done| |].
      * apply (inj (.++ inserting_of t)). by rewrite Hi', Bi, Hins.
      * apply option_list_perm, (inj (.++ releasing t)). by rewrite Hr', Br, Hrel.
    + rewrite ins_app. eapply perm_balance; [|exact Bu|exact Hmsg|exact Hms]. by rewrite <- !fmap_app, Bi.
    + apply (inj (.++ received t)). rewrite Bc, Hrec, Hrc, outs_app, <- !app_assoc.
      apply Permutation_app_head, Permutation_app_comm.
  - assert (Hpok : p = Ready \/ p = TimedOut) by (destruct Hpp as [[_ ->]|(_ & -> & _)]; [by left|by right]).
    rewrite (inserting_blind _ Ha p Hpok) in Bi. rewrite (releasing_blind _ Ha p Hpok) in Br.
    rewrite (unstarted_blind _ Ha p Hpok) in Bu. rewrite (received_blind _ Ha p Hpok) in Bc.
    apply (inj (.++ _)) in Bi, Br, Bu, Bc. rewrite app_nil_r. split; [|done|by rewrite Bi, Bu|by rewrite Bc].
    exists C. split_and!; [done|by rewrite Hon|by rewrite Bi|]. apply option_list_perm. by rewrite Br, Hrel.
Qed.

(** ** Nobody oversleeps *)

(** Threads in a wait, and those that will still move because of one: about to
    test the predicate of their wait, or about to notify. *)
Definition sleeping (t : calling_thread) : nat := if asleep t then 1 else 0.
Definition in_wait (t : calling_thread) : nat :=
  match at_place t, calls t with
  | Ready, o :: _ | Sleeping, o :: _ | TimedOut, o :: _ => if consumes o then 1 else 0
  | Notifying, _ => 1
  | _, _ => 0
  end.

(** While somebody sleeps, the queue is open and holds no more messages than
    there are threads that are going to look at it or to wake somebody. *)
Definition sleep_inv (S : qthreads) : Prop :=
  total sleeping (ts S) = 0%nat \/
  (shutdown (on S) = false /\ (length (queue (on S)) + total sleeping (ts S) <= total in_wait (ts S))%nat).

Lemma waiting_blind : wake_blind in_wait.
Proof. intros [p0 c0 r0] Ha%asleep_place p [-> | ->]; cbn in Ha; by subst p0. Qed.

Lemma sleeping_waiting t : well_placed t -> (sleeping t <= in_wait t)%nat.
Proof.
  unfold sleeping. destruct (asleep t) eqn:Ha; [|lia]. apply asleep_place in Ha.
  unfold well_placed, in_wait. rewrite Ha. destruct (calls t); [done|]. by intros ->.
Qed.

Lemma sleeping_waiting_total l : Forall well_placed l -> (total sleeping l <= total in_wait l)%nat.
Proof. rewrite Forall_forall. intros Hl. apply total_le. intros t Ht. by apply sleeping_waiting, Hl. Qed.

Lemma sleeping_wake t : sleeping (wake t) = 0%nat.
Proof. unfold sleeping, wake. by destruct (asleep t) eqn:Ha; rewrite ?Ha. Qed.

(** The sleepers a signal leaves. *)
Lemma signalled_sleepers s l l' :
  signalled s l l' ->
  match s with
  | NoSignal => total sleeping l' = total sleeping l
  | NotifyOne => total sleeping l' = (total sleeping l - 1)%nat
  | NotifyAll => total sleeping l' = 0%nat
  end.
Proof.
  destruct 1 as [l|l Hl|l i t Hi Ha|l]; [done| | |].
  - assert (total sleeping l = 0%nat) as ->; [|done]. apply total_0. eapply Forall_impl; [done|].
    intros t Ha. unfold sleeping. by rewrite Ha.
  - pose proof (total_update sleeping l i t (wake t) Hi) as Hu. rewrite sleeping_wake in Hu.
    assert (sleeping t = 1%nat) by (unfold sleeping; by rewrite Ha). lia.
  - apply total_0, Forall_map, Forall_true. apply sleeping_wake.
Qed.

(** [shutdown] is changed by [notify_shutdown] alone. *)
Lemma enqueue_allocate_shutdown q raw q' : enqueue_allocate q = Ok (raw, q') -> shutdown q' = shutdown q.
Proof. unfold enqueue_allocate. intros Ha. inv_bind. destruct x. by inv_bind; simplify_eq. Qed.
Lemma enqueue_insert_shutdown q raw m q' : enqueue_insert q raw m = Ok q' -> shutdown q' = shutdown q.
Proof. unfold enqueue_insert. intros Ha. by inv_bind. Qed.
Lemma pop_top_shutdown q node q' : pop_top q = Ok (node, q') -> shutdown q' = shutdown q.
Proof. unfold pop_top. intros Ha. inv_bind. destruct (last _); by simplify_eq. Qed.
Lemma release_shutdown q node m q' : release q node = Ok (m, q') -> shutdown q' = shutdown q.
Proof. unfold release. intros Ha. by inv_bind; simplify_eq. Qed.
Lemma reset_if_empty_shutdown q : shutdown (reset_if_empty q) = shutdown q.
Proof. unfold reset_if_empty. by case_decide. Qed.

(** A turn keeps the balance: [n] and [n'] are the messages queued before and
    after it, [w] and [w'] the totals of [in_wait], [d] and [d'] those of
    [sleeping] before the turn and after it but before its signal. *)
Lemma piece_sleep q lk t q' t' s ev (n n' d d' w w' : nat) :
  piece q lk t q' t' s ev -> n = length (queue q) ->
  (n' + length (releasing t') + length (outs ev) = n + length (releasing t) + length (ins ev))%nat ->
  (d' + sleeping t = d + sleeping t')%nat -> (w' + in_wait t = w + in_wait t')%nat -> (d' <= w')%nat ->
  d = 0%nat \/ (shutdown q = false /\ (n + d <= w)%nat) ->
  match s with
  | NoSignal => d' = 0%nat \/ (shutdown q' = false /\ (n' + d' <= w')%nat)
  | NotifyOne => d' = 0%nat \/ (shutdown q' = false /\ (n' + (d' - 1) <= w')%nat)
  | NotifyAll => True
  end.
Proof.
  intros Hp Hn Hbal Hd Hw Hdw Hinv. revert Hp Hbal Hd Hw. piece_cases t; intros Hbal Hd Hw; unfold sleeping, in_wait, asleep in *; cbn in *.
  - apply enqueue_allocate_shutdown in H3 as ->. destruct Hinv as [|[? ?]]; [left; lia|right; split; [done|lia]].
  - apply enqueue_insert_shutdown in H4 as ->. destruct Hinv as [|[? ?]]; [left; lia|right; split; [done|lia]].
  - destruct Hinv as [|[? ?]]; [left; lia|]. destruct (decide (d' = 0%nat)); [by left|right; split; [done|lia]].
  - right. rewrite H3 in *. split; [done|]. rewrite H5 in *. cbn in *. lia.
  - destruct Hinv as [|[? ?]]; [left; lia|congruence].
  - right. split; [done|]. rewrite H4 in *. cbn in *. lia.
  - assert (shutdown (if resets o then reset_if_empty q' else q') = shutdown q) as ->.
    { apply pop_top_shutdown in H6 as <-. destruct (resets o); [apply reset_if_empty_shutdown|done]. }
    destruct H1 as [-> | ->]; cbn in *; rewrite H3 in *; destruct Hinv as [|[? ?]]; try (left; lia); (right; split; [done|lia]).
  - apply release_shutdown in H4 as ->. destruct Hinv as [|[? ?]]; [left; lia|right; split; [done|lia]].
  - destruct Hinv as [|[? ?]]; [left; lia|right; split; [done|lia]].
  - done.
Qed.

(** ** Every schedule ends *)

(** The turns a call can still take among [n] threads, where a wake-up that it
    may cause for another thread counts as a turn. *)
Definition call_cost (n : nat) (o : qop) : nat :=
  match o with OEnqueue _ | ODequeue | OTryDequeue => 4 | OIsEmpty => 1 | OShutdown => S n end.
Definition cost (n : nat) (os : list qop) : nat := total (call_cost n) os.

Definition weight (n : nat) (t : calling_thread) : nat :=
  match at_place t with
  | Ready => cost n (calls t)
  | Allocated _ | Sleeping => 3 + cost n (tail (calls t))
  | Notifying | TimedOut => 2 + cost n (tail (calls t))
  | Releasing _ => 1 + cost n (tail (calls t))
  end.

Definition signal_cost (n : nat) (s : signal) : nat := match s with NoSignal => 0 | NotifyOne => 1 | NotifyAll => n end.

Lemma cost_cons n o r : cost n (o :: r) = (call_cost n o + cost n r)%nat.
Proof. done. Qed.

Lemma consumes_cost n o : consumes o = true -> call_cost n o = 4%nat.
Proof. by destruct o. Qed.

Lemma weight_wake n t : well_placed t -> (weight n (wake t) <= weight n t + 1)%nat.
Proof.
  unfold wake. destruct (asleep t) eqn:Ha; [|lia]. apply asleep_place in Ha. unfold well_placed, weight.
  rewrite Ha. destruct t as [pl [|o r] rs]; [done|]. cbn [move_to at_place calls tail]. intros Ho.
  rewrite cost_cons, consumes_cost; [lia|done].
Qed.

Lemma signalled_weight n s l l' :
  Forall well_placed l -> signalled s l l' -> (total (weight n) l' <= total (weight n) l + signal_cost (length l) s)%nat.
Proof.
  intros Hl Hs. rewrite Forall_forall in Hl. destruct Hs as [l|l Hn|l i t Hi Ha|l]; cbn [signal_cost]; [lia|lia| |].
  - pose proof (total_update (weight n) l i t (wake t) Hi).
    pose proof (weight_wake n t (Hl t (list_elem_of_lookup_2 _ _ _ Hi))). lia.
  - induction l as [|t l IH]; [done|]. unfold total in *. cbn.
    pose proof (weight_wake n t (Hl t (list_elem_of_here _ _))). specialize (IH (fun u Hu => Hl u (list_elem_of_further _ _ _ Hu))). lia.
Qed.

Lemma piece_weight n q lk t q' t' s ev :
  piece q lk t q' t' s ev -> well_placed t -> (weight n t' + S (signal_cost n s) <= weight n t)%nat.
Proof.
  piece_cases t; unfold weight, well_placed; cbn [at_place calls move_to return_with tail]; intros Hw;
    rewrite ?cost_cons; cbn [call_cost signal_cost]; rewrite ?consumes_cost by done; unfold cost, total; try lia.
  match goal with Hat : _ \/ _ |- _ => destruct Hat as [-> | ->] end;
    cbn [tail]; unfold cost, total; cbn [sum_list_with]; rewrite ?consumes_cost by done; lia.
Qed.

Lemma signalled_length s l l' : signalled s l l' -> length l' = length l.
Proof. destruct 1; rewrite ?length_insert, ?length_map; done. Qed.

Lemma qstep_weight n c S ev S' :
  Forall well_placed (ts S) -> length (ts S) = n -> qstep c S ev S' ->
  length (ts S') = n /\ (total (weight n) (ts S') + (if is_spurious c then 0 else 1) <=
    total (weight n) (ts S) + (if is_spurious c then 1 else 0))%nat.
Proof.
  intros Hl Hn (i & t & t' & s & Hi & Hs & Hcase)%qstep_inv. pose proof (signalled_length _ _ _ Hs) as Hlen.
  rewrite length_insert in Hlen. split; [lia|]. pose proof (Hl) as Hw. rewrite Forall_lookup in Hw. specialize (Hw i t Hi).
  pose proof (total_update (weight n) _ _ _ t' Hi) as Hu.
  destruct Hcase as [[-> Hp]|(Hc & _ & _ & -> & Ha & p & -> & Hpp)].
  - pose proof (signalled_weight n _ _ _ (Forall_insert _ _ i t' Hl (piece_placed _ _ _ _ _ _ _ Hp)) Hs) as Hsw.
    rewrite length_insert, Hn in Hsw. pose proof (piece_weight n _ _ _ _ _ _ _ Hp Hw). cbn [is_spurious]. lia.
  - assert (ts S' = <[i:=move_to p t]> (ts S)) as -> by (by inversion Hs). apply asleep_place in Ha.
    assert (Hs3 : weight n t = (3 + cost n (tail (calls t)))%nat) by (unfold weight; by rewrite Ha).
    unfold well_placed in Hw. rewrite Ha in Hw.
    destruct Hpp as [[-> ->]|(-> & -> & r & Hr)]; cbn [is_spurious]; unfold weight in Hu at 4; cbn [move_to at_place calls] in Hu.
    + destruct (calls t) as [|o r]; [done|]. cbn [tail] in *. pose proof (cost_cons n o r). pose proof (consumes_cost n o Hw). lia.
    + lia.
Qed.

Lemma replay_perm items tr items' : replay items tr = Some items' -> items ++ ins tr ≡ₚ outs tr ++ items'.
Proof.
  revert items. induction tr as [|[m|m] tr IH]; intros items; cbn [replay].
  - intros [= ->]. by rewrite app_nil_r.
  - intros Hr%IH. rewrite <- Hr, <- app_assoc. done.
  - destruct (pop_best msg_lt items) as [[x r]|] eqn:Hp; [|done]. destruct (decide (x = m)) as [->|]; [|done].
    intros Hr%IH. destruct (pop_best_Some _ _ _ _ Hp) as (l1 & l2 & -> & -> & _). cbn.
    rewrite <- Hr, <- Permutation_middle. done.
Qed.

Lemma inserted_ins tr : inserted tr = Z.of_nat (length (ins tr)).
Proof. induction tr as [|[m|m] tr IH]; cbn [inserted]; [done| |by rewrite IH].
  rewrite IH. change (ins (EIn m :: tr)) with (m :: ins tr). cbn [length]. lia. Qed.

(** Threads that are about to test the predicate of their wait, or about to
    notify. *)
Definition alert (t : calling_thread) : nat :=
  match at_place t, calls t with
  | Ready, o :: _ | TimedOut, o :: _ => if consumes o then 1 else 0
  | Notifying, _ => 1
  | _, _ => 0
  end.

Lemma waiting_split l : Forall well_placed l -> total in_wait l = (total sleeping l + total alert l)%nat.
Proof.
  induction 1 as [|t l Ht _ IH]; [done|]. unfold total in *. cbn [sum_list_with]. rewrite IH.
  assert (in_wait t = (sleeping t + alert t)%nat); [|lia].
  destruct t as [pl cs rs]. unfold in_wait, sleeping, alert, asleep, well_placed in *. cbn [at_place calls] in *.
  destruct pl, cs as [|o r]; try done. by rewrite Ht.
Qed.

Lemma asleep_total i t l : l !! i = Some t -> asleep t = true -> total sleeping l <> 0%nat.
Proof. intros Hi Ha Ht. pose proof (total_lookup sleeping l i t Hi) as Hle. unfold sleeping in Hle at 1. rewrite Ha in Hle. lia. Qed.
End threads.
