(* ===== verification/QueueWait.v ===== *)
(** * QueueWait: what becomes of threads that share a queue

    The threads of QueueThreads on a queue just constructed: every reachable
    state has the data of a history of the abstract queue and lets nobody
    oversleep, every turn can be taken when it is due, and every schedule
    ends. *)

From S2P Require Import Prelude MemoryPool Heap Msg QueueSpec MessageQueue QueueConcurrency QueueThreads.
#[local] Open Scope Z_scope.

Section wait.
Context `{NodeLayout} `{HeapAlgorithms}.
Implicit Types q : MessageQueue.

(** ** Threads on a new queue *)

Section system.
Context (base msg_size max_msgs : Z) (q0 : MessageQueue) (programs : list (list qop)).
Context (Hsize : sizeof_Node <= msg_size) (Hmax : 0 < max_msgs) (Hwrap : msg_size * max_msgs < 2 ^ 64)
  (Hreg : fresh_region base (msg_size * max_msgs)) (Hnew : MessageQueue_new base msg_size max_msgs = Ok q0).

(** All messages the threads are going to enqueue. *)
Definition to_enqueue : list Msg := programs ≫= fun os => os ≫= enqueued_by.

Context (Hwf : Forall msg_wf to_enqueue) (Hcount : Z.of_nat (length to_enqueue) < 2 ^ 32).

Definition start_system : qthreads := mkQthreads q0 (start_threads programs).

Lemma data_inv_start : data_inv q0 to_enqueue [] start_system.
Proof.
  assert (Hnil : forall {B} (f : calling_thread -> list B), (forall os, f (mkThread Ready os []) = []) -> start_threads programs ≫= f = []).
  { intros B f Hf. unfold start_threads. induction programs as [|os l IH]; cbn; [done|]. by rewrite Hf, IH. }
  split; cbn.
  - exists (mkCqueue q0 [] None). cbn. rewrite !Hnil by done. split_and!; [constructor|done..].
  - apply Forall_fmap, Forall_true. done.
  - rewrite Hnil by done. cbn. unfold start_threads, to_enqueue. clear. induction programs as [|os l IH]; cbn; [done|].
    by rewrite IH.
  - by rewrite Hnil.
Qed.

(** What the data half gives about the queue of a reachable state. *)
Lemma data_inv_view tr S :
  data_inv q0 to_enqueue tr S ->
  exists C items a, shared C = on S /\ inserting C ≡ₚ (ts S ≫= inserting_of) /\ option_list (popped C) = (ts S ≫= releasing) /\
    replay [] tr = Some items /\ view (on S) ((ts S ≫= releasing) ++ (inserting C).*1) a /\
    c_pending C items a /\ aq_capacity a = Z.to_nat max_msgs /\ Forall (fun x => msg_wf x.2) (inserting C).
Proof.
  intros [(C & Hex & Hq & Hins & Hrel) _ Hms _].
  assert (Hlt : inserted tr < 2 ^ 32).
  { rewrite inserted_ins. apply Permutation_length in Hms. rewrite length_app in Hms. lia. }
  destruct (c_inv_exec base msg_size max_msgs q0 tr C Hsize Hmax Hwrap Hreg Hnew Hex Hlt)
    as (items & a & Hrep & Hv & Hpend & Hcap & _ & Hw).
  exists C, items, a. unfold held_blocks in Hv. rewrite Hq, Hrel in Hv. by split_and!.
Qed.

(** Every message that went in is out, queued or being taken out. *)
Lemma data_inv_length tr S :
  data_inv q0 to_enqueue tr S ->
  length (ins tr) = (length (outs tr) + length (ts S ≫= releasing) + length (queue (on S)))%nat.
Proof.
  intros Hd. destruct (data_inv_view tr S Hd) as (C & items & a & Hq & _ & Hrel & Hrep & Hv & Hpend & _).
  apply replay_perm, Permutation_length in Hrep. rewrite length_app in Hrep. cbn in Hrep. rewrite Hrep.
  assert (Hlen : length (aq_items a) = length (queue (on S))).
  { destruct Hv as (free & its & _ & Hage & -> & _). rewrite length_fmap. by apply by_age_length. }
  unfold c_pending in Hpend. rewrite <- Hrel. destruct (popped C) as [node|]; cbn.
  - destruct (pop_best_Some _ _ _ _ Hpend) as (l1 & l2 & Hi & Hr & _). rewrite <- Hlen, Hr, Hi, !length_app. cbn. lia.
  - rewrite length_app, Hpend, Hlen. lia.
Qed.

Lemma sleep_inv_step tr c S ev S' :
  data_inv q0 to_enqueue tr S -> sleep_inv S -> qstep c S ev S' -> sleep_inv S'.
Proof.
  intros Hd Hinv Hstep. pose proof (data_inv_step _ _ _ _ _ _ _ Hwf Hd Hstep) as Hd'.
  pose proof (data_inv_length _ _ Hd) as Hn. pose proof (data_inv_length _ _ Hd') as Hn'.
  rewrite ins_app, outs_app, !length_app in Hn'.
  apply qstep_inv in Hstep as (i & t & t' & s & Hi & Hs & Hcase).
  pose proof (Permutation_length (qstep_bind releasing _ _ _ _ _ _ releasing_blind Hi Hs)) as Br.
  pose proof (qstep_total in_wait _ _ _ _ _ _ waiting_blind Hi Hs) as Bw.
  pose proof (total_update sleeping _ _ _ t' Hi) as Bs. pose proof (signalled_sleepers _ _ _ Hs) as Hsl.
  rewrite !length_app in Br. unfold sleep_inv in *.
  destruct Hcase as [[_ Hp]|(_ & Hon & -> & -> & Ha & p & -> & Hpp)].
  - pose proof (piece_sleep _ _ _ _ _ _ _ (length (queue (on S))) (length (queue (on S')))
      (total sleeping (ts S)) (total sleeping (<[i := t']> (ts S))) (total in_wait (ts S)) (total in_wait (ts S')) Hp) as Hk.
    assert (Hdw : (total sleeping (<[i:=t']> (ts S)) <= total in_wait (ts S'))%nat).
    { rewrite (signalled_total _ _ _ _ waiting_blind Hs). apply sleeping_waiting_total.
      apply Forall_insert; [by eapply di_placed|by eapply piece_placed]. }
    assert (Hbal : (length (queue (on S')) + length (releasing t') + length (outs ev) =
      length (queue (on S)) + length (releasing t) + length (ins ev))%nat) by lia.
    specialize (Hk eq_refl Hbal Bs Bw Hdw Hinv). destruct s; rewrite Hsl; [done| |by left].
    destruct Hk as [->|Hk]; [by left|by right].
  - rewrite Hsl, Hon. assert (Hpok : p = Ready \/ p = TimedOut) by (destruct Hpp as [[_ ->]|(_ & -> & _)]; [by left|by right]).
    rewrite (waiting_blind _ Ha p Hpok) in Bw. assert (sleeping (move_to p t) = 0%nat) by (by destruct Hpok as [-> | ->]).
    destruct Hinv as [|[? ?]]; [left; lia|right; split; [done|lia]].
Qed.

Lemma sleep_inv_start : sleep_inv start_system.
Proof.
  left. apply total_0, Forall_fmap, Forall_true. done.
Qed.

Lemma run_inv n k tr S : qrun start_system n k tr S -> data_inv q0 to_enqueue tr S /\ sleep_inv S.
Proof.
  induction 1 as [|n k tr S c ev S' _ [IHd IHs] Hstep]; [by split; [apply data_inv_start|apply sleep_inv_start]|].
  split; [by eapply data_inv_step|by eapply sleep_inv_step].
Qed.

(** ** What a turn can come to *)

Lemma take_turn_live tr S t b :
  data_inv q0 to_enqueue tr S -> queue (on S) <> [] -> exists q' t' s ev, take_turn (on S) t b = Moves q' t' s ev.
Proof.
  intros Hd Hne. destruct (data_inv_view tr S Hd) as (C & items & a & _ & _ & _ & _ & Hv & _).
  destruct (view_pop (on S) _ a Hv Hne) as (node & q' & r & Hpop & _). unfold take_turn. rewrite Hpop. eauto.
Qed.

Lemma release_turn_live tr S i t node f :
  data_inv q0 to_enqueue tr S -> ts S !! i = Some t -> at_place t = Releasing node ->
  exists q' t' s ev, release_turn (on S) node t f = Moves q' t' s ev.
Proof.
  intros Hd Hi Hat. destruct (data_inv_view tr S Hd) as (C & items & a & _ & _ & _ & _ & Hv & _).
  assert (Hin : node ∈ (ts S ≫= releasing) ++ (inserting C).*1).
  { apply elem_of_app. left. eapply bind_lookup; [done|]. unfold releasing. rewrite Hat. apply list_elem_of_here. }
  apply elem_of_Permutation in Hin as [held Hh].
  destruct (view_release (on S) held a node) as (q' & Hrel & _); [by eapply view_perm|].
  unfold release_turn. rewrite Hrel. eauto.
Qed.

Lemma insert_turn_live tr S i t raw m r :
  data_inv q0 to_enqueue tr S -> ts S !! i = Some t -> at_place t = Allocated raw -> calls t = OEnqueue m :: r ->
  exists q', enqueue_insert (on S) raw m = Ok q'.
Proof.
  intros Hd Hi Hat Hc. destruct (data_inv_view tr S Hd) as (C & items & a & _ & Hins & _ & _ & Hv & _ & _ & Hw).
  assert (Hin : (raw, m) ∈ inserting C).
  { rewrite Hins. eapply bind_lookup; [done|]. unfold inserting_of. rewrite Hat, Hc. apply list_elem_of_here. }
  assert (Hm : msg_wf m) by (rewrite Forall_forall in Hw; by apply (Hw (raw, m))).
  assert (Hh : raw ∈ (ts S ≫= releasing) ++ (inserting C).*1).
  { apply elem_of_app. right. apply list_elem_of_fmap. by exists (raw, m). }
  apply elem_of_Permutation in Hh as [held Hh].
  destruct (view_insert (on S) held a raw m) as (q' & Hq & _); [by eapply view_perm|done|by exists q'].
Qed.

(** The first piece of [enqueue] finds a block, or the queue is full. *)
Lemma allocate_turn_live tr S :
  data_inv q0 to_enqueue tr S ->
  if decide (length (queue (on S)) + length (ts S ≫= releasing) + length (ts S ≫= inserting_of) < Z.to_nat max_msgs)%nat
  then exists raw q', enqueue_allocate (on S) = Ok (raw, q') else enqueue_allocate (on S) = Err queue_full.
Proof.
  intros Hd. destruct (data_inv_view tr S Hd) as (C & items & a & _ & Hins & _ & _ & Hv & _ & Hcap & _).
  pose proof (view_allocate_iff (on S) _ a Hv) as Hal.
  assert (Hlen : length (aq_items a) = length (queue (on S))).
  { destruct Hv as (free & its & _ & Hage & -> & _). rewrite length_fmap. by apply by_age_length. }
  rewrite Hcap, Hlen, length_app, length_fmap, (Permutation_length Hins) in Hal. clear Hcap Hlen.
  destruct (decide (_ + (_ + _) < _)%nat), (decide (_ + _ + _ < _)%nat); [|lia|lia|done].
  destruct Hal as (raw & q' & Hal & _). by exists raw, q'.
Qed.

(** [try_dequeue] after a test of its predicate. *)
Lemma try_take_outcome q t a (P : error -> Prop) (R : Prop) :
  (queue q <> [] -> exists q' t' s ev, take_turn q t false = Moves q' t' s ev) ->
  (forall e, queue q = [] /\ shutdown q = true -> P e) ->
  match (if negb (predicate q) then Moves q a NoSignal [] else take_turn q t false) with
  | Moves _ _ _ _ => True
  | Waits => R
  | GoesWrong e => P e
  end.
Proof.
  intros Htake HP. destruct (negb (predicate q)) eqn:Hp; [done|]. apply negb_false_iff in Hp.
  destruct (queue q) as [|x l] eqn:He; [|by destruct Htake as (? & ? & ? & ? & ->)].
  unfold predicate, is_empty in Hp. rewrite He in Hp. cbn in Hp. unfold take_turn.
  destruct (pop_top q) as [[node q']|e] eqn:Hpop; [done|]. by apply HP.
Qed.

(** A thread waits only without calls, asleep or for the mutex, and goes
    wrong only on a full queue or in [try_dequeue] on a closed, empty one. *)
Lemma turn_outcome tr S i t :
  data_inv q0 to_enqueue tr S -> ts S !! i = Some t ->
  match thread_turn (on S) (locked (ts S)) t with
  | Moves _ _ _ _ => True
  | Waits => calls t = [] \/ asleep t = true \/ (locked (ts S) = true /\ releasing t = [])
  | GoesWrong e =>
      (exists m r, at_place t = Ready /\ calls t = OEnqueue m :: r /\ enqueue_allocate (on S) = Err e) \/
      (exists r, calls t = OTryDequeue :: r /\ queue (on S) = [] /\ shutdown (on S) = true)
  end.
Proof.
  intros Hd Hi. pose proof (di_placed _ _ _ _ Hd) as Hpl. rewrite Forall_lookup in Hpl. specialize (Hpl i t Hi).
  pose proof (fun b => take_turn_live tr S t b Hd) as Htake.
  pose proof (fun node f Hat => release_turn_live tr S i t node f Hd Hi Hat) as Hrelease.
  pose proof (fun raw m r Hat Hc => insert_turn_live tr S i t raw m r Hd Hi Hat Hc) as Hinsert.
  pose proof (fun a P R => try_take_outcome (on S) t a P R (Htake false)) as Hgo.
  destruct t as [pl cs rs]. unfold thread_turn, well_placed, releasing, asleep in *. cbn [at_place calls] in *.
  destruct cs as [|[m| | | |] r]; [by left| | | | |]; destruct pl as [|raw| | | |node]; try done;
    unfold enqueue_turn, dequeue_turn, try_dequeue_turn; cbn [at_place];
    try (by right; left); try (by edestruct Hrelease as (? & ? & ? & ? & ->));
    try (destruct (locked (ts S)); [by right; right|]).
  - destruct (enqueue_allocate (on S)) as [[raw q']|e]; [done|]. left. eauto.
  - by destruct (Hinsert raw m r eq_refl eq_refl) as [q' ->].
  - destruct (negb (predicate (on S))) eqn:Hp; [done|]. destruct (shutdown (on S) && is_empty (on S)) eqn:Hse; [done|].
    destruct (Htake true) as (? & ? & ? & ? & ->); [|done]. intros He. apply negb_false_iff in Hp.
    unfold predicate, is_empty in *. rewrite He in *. cbn in *. by rewrite Hp in Hse.
  - apply Hgo. intros e [He Hs]. right. by exists r.
  - apply Hgo. intros e [He Hs]. right. by exists r.
  - done.
  - done.
Qed.

(** ** Runs *)

Lemma run_weight n k tr S :
  qrun start_system n k tr S ->
  length (ts S) = length programs /\
  (n + total (weight (length programs)) (ts S) <= total (cost (length programs)) programs + k)%nat.
Proof.
  induction 1 as [|n k tr S c ev S' Hrun [Hlen Hle] Hstep].
  - cbn. unfold start_threads. rewrite length_fmap. split; [done|].
    assert (Heq : forall N l, total (weight N) ((fun os => mkThread Ready os []) <$> l) = total (cost N) l); [|by rewrite Heq; lia].
    intros N l. clear. unfold total. induction l as [|os l IH]; cbn; [done|]. by rewrite IH.
  - destruct (run_inv _ _ _ _ Hrun) as [Hd _].
    destruct (qstep_weight _ _ _ _ _ (di_placed _ _ _ _ Hd) Hlen Hstep) as [Hlen' Hle']. split; [done|].
    destruct (is_spurious c); lia.
Qed.

(** The calls still to be made are some of those at the start. *)
Lemma run_calls (P : qop -> Prop) n k tr S :
  qrun start_system n k tr S -> Forall (Forall P) programs -> Forall (fun t => Forall P (calls t)) (ts S).
Proof.
  intros Hrun HP. induction Hrun as [|n k tr S c ev S' _ IH Hstep].
  - by apply Forall_fmap.
  - apply qstep_inv in Hstep as (i & t & t' & s & Hi & Hs & Hcase).
    eapply signalled_Forall; [|exact Hs|]; [intros u Hu; unfold wake; by destruct (asleep u)|].
    apply Forall_insert; [done|]. rewrite Forall_lookup in IH. specialize (IH i t Hi).
    destruct Hcase as [[_ Hp]|(_ & _ & _ & _ & _ & p & -> & _)]; [|done].
    destruct Hp; cbn [move_to return_with calls]; try done; by apply Forall_tail.
Qed.

Lemma run_open n k tr S :
  qrun start_system n k tr S -> Forall (Forall (fun o => o <> OShutdown)) programs -> shutdown (on S) = false.
Proof.
  intros Hrun HP. assert (Hrun' := Hrun). induction Hrun as [|n k tr S c ev S' Hrun IH Hstep].
  - cbn. clear -Hnew. unfold MessageQueue_new in Hnew. by inv_bind; simplify_eq.
  - specialize (IH Hrun). pose proof (run_calls _ _ _ _ _ Hrun HP) as Hcalls. rewrite Forall_lookup in Hcalls.
    apply qstep_inv in Hstep as (i & t & t' & s & Hi & _ & Hcase). specialize (Hcalls i t Hi).
    destruct Hcase as [[_ Hp]|(_ & -> & _)]; [|done]. rewrite <- IH.
    destruct Hp; try done; [by eapply enqueue_allocate_shutdown|by eapply enqueue_insert_shutdown| |by eapply release_shutdown|].
    + destruct (resets o); [rewrite reset_if_empty_shutdown|]; by eapply pop_top_shutdown.
    + rewrite H2 in Hcalls. by apply Forall_cons in Hcalls as [Hne _].
Qed.

(** With room for all messages, and [try_dequeue] not used together with
    [notify_shutdown], no turn goes wrong. *)
Lemma run_right n k tr S i t e :
  (length to_enqueue <= Z.to_nat max_msgs)%nat ->
  Forall (Forall (fun o => o <> OTryDequeue)) programs \/ Forall (Forall (fun o => o <> OShutdown)) programs ->
  qrun start_system n k tr S -> ts S !! i = Some t -> thread_turn (on S) (locked (ts S)) t <> GoesWrong e.
Proof.
  intros Hroom Huse Hrun Hi Hgw. destruct (run_inv _ _ _ _ Hrun) as [Hd _].
  pose proof (turn_outcome tr S i t Hd Hi) as Ho. rewrite Hgw in Ho.
  destruct Ho as [(m & r & Hat & Hc & Ha)|(r & Hc & Hq & Hs)].
  - pose proof (allocate_turn_live tr S Hd) as Hal. pose proof (data_inv_length tr S Hd) as Hlen.
    pose proof (Permutation_length (di_messages _ _ _ _ Hd)) as Hms. rewrite !length_app, length_fmap in Hms.
    assert (Hun : m ∈ ts S ≫= unstarted).
    { eapply bind_lookup; [done|]. unfold unstarted. rewrite Hat, Hc. cbn. apply list_elem_of_here. }
    assert (0 < length (ts S ≫= unstarted))%nat by (destruct (ts S ≫= unstarted); [by apply elem_of_nil in Hun|cbn; lia]).
    rewrite decide_True in Hal by lia. destruct Hal as (raw & q' & Hal). congruence.
  - destruct Huse as [Hno|Hno].
    + pose proof (run_calls _ _ _ _ _ Hrun Hno) as Hcalls. rewrite Forall_lookup in Hcalls. specialize (Hcalls i t Hi).
      rewrite Hc in Hcalls. by apply Forall_cons in Hcalls as [Hne _].
    + rewrite (run_open _ _ _ _ Hrun Hno) in Hs. done.
Qed.

(** A state in which no turn and no timer can move anything. *)
Definition at_rest (S : qthreads) : Prop := forall c ev S', qstep c S ev S' -> c = BySpurious.

Lemma turn_moves S i t q' t' s ev :
  ts S !! i = Some t -> thread_turn (on S) (locked (ts S)) t = Moves q' t' s ev -> ~ at_rest S.
Proof.
  intros Hi Ht Hrest. destruct S as [q l]. cbn [ts on] in *.
  assert (exists l', signalled s (<[i := t']> l) l') as [l' Hl'].
  { destruct s; [eexists; constructor| |eexists; constructor].
    destruct (decide (Forall (fun t => asleep t = false) (<[i := t']> l))) as [Hn|Hn]; [eexists; by apply signalled_nobody|].
    apply not_Forall_Exists in Hn; [|apply _]. apply Exists_exists in Hn as (u & Hu & Ha).
    apply list_elem_of_lookup in Hu as [j Hj]. apply not_false_is_true in Ha. eexists. by eapply signalled_one. }
  by specialize (Hrest _ _ _ (q_turn _ _ _ _ _ _ _ _ _ Hi Ht Hl')).
Qed.

Lemma rest_unlocked tr S : data_inv q0 to_enqueue tr S -> at_rest S -> locked (ts S) = false.
Proof.
  intros Hd Hrest. destruct (locked (ts S)) eqn:Hl; [|done]. exfalso.
  assert (Hin : exists node, node ∈ ts S ≫= releasing).
  { unfold locked in Hl. destruct (ts S ≫= releasing) as [|x l]; [done|]. exists x. apply list_elem_of_here. }
  destruct Hin as [node (t & Hn & Ht)%list_elem_of_bind]. apply list_elem_of_lookup in Ht as [i Hi].
  pose proof (turn_outcome tr S i t Hd Hi) as Ho. pose proof (di_placed _ _ _ _ Hd) as Hpl.
  rewrite Forall_lookup in Hpl. specialize (Hpl i t Hi).
  unfold releasing in Hn. destruct (at_place t) as [|raw| | | |nd] eqn:Hat; try by apply elem_of_nil in Hn.
  unfold well_placed in Hpl. rewrite Hat in Hpl. destruct (calls t) as [|o r] eqn:Hc; [done|].
  destruct (release_turn_live tr S i t nd (fun m => RDequeue (Returns (Some m))) Hd Hi Hat) as (? & ? & ? & ? & H1).
  destruct (release_turn_live tr S i t nd (fun m => RTry (Some m)) Hd Hi Hat) as (? & ? & ? & ? & H2).
  destruct o; try done;
    eapply turn_moves in Hi; try done; unfold thread_turn; rewrite Hc; unfold dequeue_turn, try_dequeue_turn; by rewrite Hat.
Qed.

(** At rest every thread has finished, or sleeps in [dequeue] on a queue that
    is empty and open. *)
Lemma rest_done n k tr S i t :
  qrun start_system n k tr S -> at_rest S -> ts S !! i = Some t ->
  (forall e, thread_turn (on S) (locked (ts S)) t <> GoesWrong e) ->
  calls t = [] \/ (asleep t = true /\ exists r, calls t = ODequeue :: r).
Proof.
  intros Hrun Hrest Hi Hright. destruct (run_inv _ _ _ _ Hrun) as [Hd _].
  pose proof (turn_outcome tr S i t Hd Hi) as Ho. pose proof (rest_unlocked tr S Hd Hrest) as Hlk.
  destruct (thread_turn (on S) (locked (ts S)) t) as [q' t' s ev| |e] eqn:Ht.
  - by eapply turn_moves in Hrest.
  - destruct Ho as [Hnil|[Ha|[Hl _]]]; [by left| |congruence]. right. split; [done|].
    pose proof (di_placed _ _ _ _ Hd) as Hpl. rewrite Forall_lookup in Hpl. specialize (Hpl i t Hi).
    unfold well_placed in Hpl. rewrite (asleep_place t Ha) in Hpl. destruct (calls t) as [|o r] eqn:Hc; [done|].
    destruct o; try done; [by exists r|]. destruct S as [q l]. by specialize (Hrest _ _ _ (q_timer _ _ _ _ _ Hi Ha Hc)).
  - by destruct (Hright e).
Qed.

Lemma rest_empty n k tr S i t :
  qrun start_system n k tr S -> at_rest S -> (forall j u e, ts S !! j = Some u -> thread_turn (on S) (locked (ts S)) u <> GoesWrong e) ->
  ts S !! i = Some t -> asleep t = true -> queue (on S) = [] /\ shutdown (on S) = false.
Proof.
  intros Hrun Hrest Hright Hi Ha. destruct (run_inv _ _ _ _ Hrun) as [Hd Hsl].
  destruct Hsl as [H0s|[Hop Hle]]; [by destruct (asleep_total i t _ Hi Ha)|]. split; [|done].
  rewrite (waiting_split _ (di_placed _ _ _ _ Hd)) in Hle.
  assert (Hal : total alert (ts S) = 0%nat).
  { apply total_0, Forall_lookup. intros j u Hj.
    destruct (rest_done n k tr S j u Hrun Hrest Hj) as [Hc|[Hu _]]; [by intros e; eapply Hright| |].
    - pose proof (di_placed _ _ _ _ Hd) as Hpl. rewrite Forall_lookup in Hpl. specialize (Hpl j u Hj).
      unfold well_placed, alert in *. rewrite Hc in *. by destruct (at_place u).
    - unfold alert. by rewrite (asleep_place u Hu). }
  destruct (queue (on S)); [done|]. cbn in Hle. lia.
Qed.
End system.

(** ** Properties *)

(** C18. Threads that call [enqueue], [dequeue], [try_dequeue], [is_empty] and
    [notify_shutdown] in any interleaving, with time-outs and spurious wake-ups:
    what the threads have been given, thread by thread, and what is queued or
    being taken out, is what was inserted, each message once, in an order the
    abstract queue allows; and nobody oversleeps: while a thread sleeps, the
    queue is open and every message in it has a thread of its own that is
    about to look at the queue or to wake a sleeper. *)
Theorem queue_threads_never_oversleep base msg_size max_msgs q0 programs n k tr S :
  sizeof_Node <= msg_size -> 0 < max_msgs -> msg_size * max_msgs < 2 ^ 64 ->
  fresh_region base (msg_size * max_msgs) -> MessageQueue_new base msg_size max_msgs = Ok q0 ->
  Forall msg_wf (to_enqueue programs) -> Z.of_nat (length (to_enqueue programs)) < 2 ^ 32 ->
  qrun (start_system q0 programs) n k tr S ->
  (exists items, replay [] tr = Some items /\ (ts S ≫= received) ++ items ≡ₚ ins tr /\
     length items = (length (queue (on S)) + length (ts S ≫= releasing))%nat) /\
  (forall i t, ts S !! i = Some t -> asleep t = true ->
     shutdown (on S) = false /\ (length (queue (on S)) <= total alert (ts S))%nat).
Proof.
  intros Hsize Hmax Hwrap Hreg Hnew Hwf Hcount Hrun.
  destruct (run_inv base msg_size max_msgs q0 programs Hsize Hmax Hwrap Hreg Hnew Hwf Hcount n k tr S Hrun) as [Hd Hsl].
  split.
  - destruct (data_inv_view base msg_size max_msgs q0 programs Hsize Hmax Hwrap Hreg Hnew Hcount tr S Hd)
      as (C & items & a & _ & _ & _ & Hrep & _). exists items. split; [done|].
    pose proof (replay_perm _ _ _ Hrep) as Hp. cbn in Hp. split; [by rewrite (di_received _ _ _ _ Hd)|].
    pose proof (data_inv_length base msg_size max_msgs q0 programs Hsize Hmax Hwrap Hreg Hnew Hcount tr S Hd) as Hlen.
    apply Permutation_length in Hp. rewrite length_app in Hp. lia.
  - intros i t Hi Ha. destruct Hsl as [H0s|[Hop Hle]]; [by destruct (asleep_total i t _ Hi Ha)|]. split; [done|].
    rewrite (waiting_split _ (di_placed _ _ _ _ Hd)) in Hle. lia.
Qed.

(** C17. The same threads always come to an end: on a queue with room for all
    their messages, and with [try_dequeue] not used together with
    [notify_shutdown], no turn goes wrong, a run has no more turns and
    time-outs than its calls can pay for, spurious wake-ups added, and when
    nothing can move any more every thread has made all its calls, or sleeps
    in [dequeue] on a queue that is empty and has not been shut down. *)
Theorem queue_threads_complete base msg_size max_msgs q0 programs n k tr S :
  sizeof_Node <= msg_size -> 0 < max_msgs -> msg_size * max_msgs < 2 ^ 64 ->
  fresh_region base (msg_size * max_msgs) -> MessageQueue_new base msg_size max_msgs = Ok q0 ->
  Forall msg_wf (to_enqueue programs) -> Z.of_nat (length (to_enqueue programs)) < 2 ^ 32 ->
  (length (to_enqueue programs) <= Z.to_nat max_msgs)%nat ->
  Forall (Forall (fun o => o <> OTryDequeue)) programs \/ Forall (Forall (fun o => o <> OShutdown)) programs ->
  qrun (start_system q0 programs) n k tr S ->
  (n <= total (cost (length programs)) programs + k)%nat /\
  (forall i t e, ts S !! i = Some t -> thread_turn (on S) (locked (ts S)) t <> GoesWrong e) /\
  (at_rest S -> forall i t, ts S !! i = Some t ->
     calls t = [] \/
     (asleep t = true /\ (exists r, calls t = ODequeue :: r) /\ queue (on S) = [] /\ shutdown (on S) = false)).
Proof.
  intros Hsize Hmax Hwrap Hreg Hnew Hwf Hcount Hroom Huse Hrun.
  pose proof (run_weight base msg_size max_msgs q0 programs Hsize Hmax Hwrap Hreg Hnew Hwf Hcount n k tr S Hrun) as [_ Hw].
  assert (Hright : forall i t e, ts S !! i = Some t -> thread_turn (on S) (locked (ts S)) t <> GoesWrong e).
  { intros i t e. by apply (run_right base msg_size max_msgs q0 programs) with n k tr. }
  split_and!; [lia|done|]. intros Hrest i t Hi.
  destruct (rest_done base msg_size max_msgs q0 programs Hsize Hmax Hwrap Hreg Hnew Hwf Hcount n k tr S i t Hrun Hrest Hi)
    as [Hc|[Ha Hc]]; [by intros e; eapply Hright|by left|right].
  split_and!; [done|done|..]; by eapply (rest_empty base msg_size max_msgs q0 programs) with (n := n) (k := k) (tr := tr).
Qed.

End wait.

(** ** Witnesses *)

(** One thread waits for two messages, the other enqueues them and shuts the
    queue down. *)
Definition wait_programs : list (list qop) :=
  [[ODequeue; ODequeue]; [OEnqueue (demo_heartbeat 1); OEnqueue (demo_request 1); OShutdown]].

(** The consumer falls asleep and wakes up without a reason when the first
    message is in, before the producer has notified. *)
Definition wait_schedule : list choice :=
  [Turn 0 None; Turn 1 None; Turn 1 None; Spurious 0; Turn 0 None; Turn 0 None; Turn 1 None; Turn 0 None;
   Turn 1 None; Turn 1 None; Turn 1 (Some 0%nat); Turn 1 None; Turn 0 None; Turn 0 None].

Definition wait_play (cs : list choice) : nat * nat * list event * qthreads :=
  match play cs 0 0 [] (start_system mix0 wait_programs) with
  | Some x => x
  | None => (0%nat, 0%nat, [], start_system mix0 [])
  end.

Definition wait_middle := Eval vm_compute in wait_play (take 10 wait_schedule).
Definition wait_end := Eval vm_compute in wait_play wait_schedule.

Lemma wait_messages_wf : Forall msg_wf (to_enqueue wait_programs).
Proof. repeat constructor; first [apply demo_heartbeat_wf|apply demo_request_wf]; lia. Qed.

Lemma queue_threads_never_oversleep_witness :
  let W := wait_middle.2 in
  (exists items, replay [] wait_middle.1.2 = Some items /\ (ts W ≫= received) ++ items ≡ₚ ins wait_middle.1.2 /\
     length items = (length (queue (on W)) + length (ts W ≫= releasing))%nat) /\
  (exists t, ts W !! 0%nat = Some t /\ asleep t = true) /\ (length (queue (on W)) <= total alert (ts W))%nat.
Proof.
  set (W := wait_middle.2). cbn zeta.
  destruct (queue_threads_never_oversleep 4096 56 4 mix0 wait_programs wait_middle.1.1.1 wait_middle.1.1.2 wait_middle.1.2 W)
    as [Hdata Hsleep]; [done..|by vm_compute| | | |].
  - apply wait_messages_wf.
  - done.
  - eapply (play_ok _ (take 10 wait_schedule)); [constructor|]. vm_compute. reflexivity.
  - split; [exact Hdata|]. split; [by eexists|]. by eapply (Hsleep 0%nat).
Defined.

(** After the whole schedule both threads have made all their calls. *)
Lemma queue_threads_complete_witness :
  let W := wait_end.2 in
  (wait_end.1.1.1 <= total (cost 2) wait_programs + wait_end.1.1.2)%nat /\
  returned <$> ts W = [[RDequeue (Returns (Some (demo_heartbeat 1))); RDequeue (Returns (Some (demo_request 1)))];
                       [RUnit; RUnit; RUnit]] /\
  forall i t e, ts W !! i = Some t -> thread_turn (on W) (locked (ts W)) t <> GoesWrong e.
Proof.
  set (W := wait_end.2). cbn zeta.
  destruct (queue_threads_complete 4096 56 4 mix0 wait_programs wait_end.1.1.1 wait_end.1.1.2 wait_end.1.2 W)
    as (Hle & Hright & _); [done..|by vm_compute| | | | | |].
  - apply wait_messages_wf.
  - done.
  - vm_compute. lia.
  - left. repeat constructor; done.
  - eapply (play_ok _ wait_schedule); [constructor|]. vm_compute. reflexivity.
  - split; [exact Hle|]. split; [reflexivity|exact Hright].
Defined.
