(* ===== verification/QueueAlone.v ===== *)
(** * QueueAlone: a whole program on a queue by one thread, turn by turn

    One thread makes the calls of a program, piece by piece, with the waits
    and the time-outs of QueueThreads and nobody to disturb it. Each call
    comes to what the abstract queue says, from the constructor on. *)

From S2P Require Import Prelude MemoryPool Heap Msg QueueSpec MessageQueue QueueConcurrency QueueThreads QueueWait.
#[local] Open Scope Z_scope.

Section lone.
Context `{NodeLayout} `{HeapAlgorithms}.
Implicit Types q : MessageQueue.

(** ** The call a thread is in *)

(** The thread has begun its next call on [q1], and its pieces so far have led
    to [q]. *)
Definition in_call q1 q (t : calling_thread) : Prop :=
  match at_place t, calls t with
  | Ready, _ => q = q1
  | Sleeping, o :: _ => consumes o = true /\ q = q1 /\ queue q1 = [] /\ shutdown q1 = false
  | TimedOut, OTryDequeue :: _ => q = q1
  | Allocated raw, OEnqueue m :: _ => enqueue_allocate q1 = Ok (raw, q)
  | Notifying, OEnqueue m :: _ => enqueue q1 m = Ok q
  | Releasing node, o :: _ => consumes o = true /\ queue q1 <> [] /\
      exists q2, pop_top q1 = Ok (node, q2) /\ q = if resets o then reset_if_empty q2 else q2
  | _, _ => False
  end.

(** The piece before last of a consumer's call, and the last. *)
Lemma consumer_exec q1 o node q2 m q' :
  consumes o = true -> queue q1 <> [] -> pop_top q1 = Ok (node, q2) ->
  release (if resets o then reset_if_empty q2 else q2) node = Ok (m, q') ->
  exec q1 o = Ok (match o with ODequeue => RDequeue (Returns (Some m)) | _ => RTry (Some m) end, q').
Proof.
  intros Ho Hne Hpop Hrel. destruct o; try done; cbn [resets] in Hrel;
    cbn [exec q_dequeue q_try_dequeue message_queue_impl]; unfold dequeue, try_dequeue;
    rewrite decide_False by (by intros []); [rewrite decide_False by (by intros [])|]; rewrite Hpop; cbn [mbind result_bind].
  - unfold reset_if_empty in Hrel. by rewrite Hrel.
  - by rewrite Hrel.
Qed.

Lemma closed_exec q : queue q = [] -> shutdown q = true -> exec q ODequeue = Ok (RDequeue (Returns None), set_sequence 0 q).
Proof.
  intros He Hs. cbn [exec q_dequeue message_queue_impl]. unfold dequeue.
  rewrite decide_False by (intros []; congruence). by rewrite decide_True.
Qed.

Lemma open_exec q :
  queue q = [] -> shutdown q = false ->
  exec q ODequeue = Ok (RDequeue Blocks, q) /\ exec q OTryDequeue = Ok (RTry None, q).
Proof.
  intros He Hs. cbn [exec q_dequeue q_try_dequeue message_queue_impl]. unfold dequeue, try_dequeue.
  by rewrite !decide_True.
Qed.

(** A piece goes on with the call, or ends it with the outcome of the whole. *)
Lemma piece_in_call q1 q lk t q' t' s ev :
  piece q lk t q' t' s ev -> in_call q1 q t ->
  (calls t' = calls t /\ returned t' = returned t /\ in_call q1 q' t') \/
  (exists o r x, calls t = o :: r /\ t' = return_with x t /\ exec q1 o = Ok (x, q')).
Proof.
  intros Hp. destruct Hp as [m r raw q' Hat Hc Ha|m r raw q' Hat Hc Hl Hi|m r Hat Hc|o r Hat Hc Ho Hl He Hs|r Hat Hc Hl He Hs
    |r Hat Hc Hl He Hs|o r node q' Hat Hc Ho Hl He Hp|o r node m q' a Hat Hc Ho Hr ->|r Hat Hc Hl|r Hat Hc Hl];
    unfold in_call; cbn [at_place move_to calls returned].
  - rewrite Hat, Hc. intros ->. by left.
  - rewrite Hat, Hc. intros Ha. left. split_and!; [done|done|]. unfold enqueue. by rewrite Ha.
  - rewrite Hat, Hc. intros Hq. right. exists (OEnqueue m), r, RUnit. split_and!; [done|done|].
    cbn [exec q_enqueue message_queue_impl]. by rewrite Hq.
  - rewrite Hat, Hc. intros ->. by left.
  - rewrite Hat, Hc. intros ->. right. do 3 eexists. split_and!; [done|done|]. by apply closed_exec.
  - rewrite Hat, Hc. intros ->. right. do 3 eexists. split_and!; [done|done|]. by apply (open_exec q1).
  - rewrite Hc. intros Hin. assert (q = q1) as ->.
    { destruct Hat as [Hat|Hat]; rewrite Hat in Hin; [done|]. by destruct o. }
    left. split_and!; [done|done|done|done|]. by exists q'.
  - rewrite Hat, Hc. intros (_ & Hne & q2 & Hpop & ->). right. do 3 eexists. split_and!; [done|done|].
    by apply (consumer_exec q1 o node q2).
  - rewrite Hat. intros ->. right. by do 3 eexists.
  - rewrite Hat. intros ->. right. by do 3 eexists.
Qed.

(** ** All calls of the thread *)

(** A call that ran on the queue ran on the abstract one. *)
Lemma exec_abstract q a o x q' :
  view q [] a -> qop_wf o -> aq_ticks a + (if is_enqueue o then 1 else 0) < 2 ^ 32 -> exec q o = Ok (x, q') ->
  exists a', aq_exec a o = Ok (x, a') /\ view q' [] a'.
Proof.
  intros Hv Hwf Ht Hex. assert (Ht' : is_enqueue o = true -> aq_ticks a < 2 ^ 32 - 1) by (intros Ho; rewrite Ho in Ht; lia).
  pose proof (exec_view (Q := MessageQueue) q a o Hv Hwf Ht') as Hsim.
  destruct (aq_exec a o) as [[r a']|e]; [|by rewrite Hsim in Hex]. destruct Hsim as (q2 & Hex2 & Hv2). rewrite Hex in Hex2. injection Hex2 as <- <-. by exists a'.
Qed.

Lemma aq_exec_all_snoc a os rs a1 o x a2 :
  aq_exec_all a os = Ok (rs, a1) -> aq_exec a1 o = Ok (x, a2) -> aq_exec_all a (os ++ [o]) = Ok (rs ++ [x], a2).
Proof.
  revert a rs. induction os as [|o1 os IH]; intros a rs; cbn [aq_exec_all app].
  - intros [= <- ->] Hx. by rewrite Hx.
  - intros ([r1 b] & H1' & ([rs1 b'] & H2' & [= <- ->])%result_bind_Ok)%result_bind_Ok Hx. rewrite H1'. cbn [mbind result_bind].
    by rewrite (IH _ _ H2' Hx).
Qed.

Lemma to_enqueue_one l : to_enqueue [l] = l ≫= enqueued_by.
Proof. unfold to_enqueue. cbn. apply app_nil_r. Qed.

Lemma to_enqueue_wf l : Forall qop_wf l -> Forall msg_wf (to_enqueue [l]).
Proof.
  rewrite to_enqueue_one. induction 1 as [|o l Ho Hl IH]; [constructor|]. cbn. apply Forall_app. split; [|done].
  destruct o; [by apply Forall_singleton|constructor..].
Qed.

Lemma enqueues_cons o r : enqueues (o :: r) = (if is_enqueue o then 1 else 0) + enqueues r.
Proof. done. Qed.

Lemma to_enqueue_count l : Z.of_nat (length (to_enqueue [l])) = enqueues l.
Proof.
  rewrite to_enqueue_one. induction l as [|o l IH]; [done|].
  rewrite enqueues_cons, <- IH. cbn [mbind list_bind]. rewrite length_app. destruct o; cbn [enqueued_by length is_enqueue]; lia.
Qed.

(** A call that fails on the queue fails on the abstract one. *)
Lemma exec_fails q a o e :
  view q [] a -> qop_wf o -> aq_ticks a + (if is_enqueue o then 1 else 0) < 2 ^ 32 -> exec q o = Err e -> aq_exec a o = Err e.
Proof.
  intros Hv Ho Ht Hex. assert (Ht' : is_enqueue o = true -> aq_ticks a < 2 ^ 32 - 1) by (intros Hb; rewrite Hb in Ht; lia).
  pose proof (exec_view (Q := MessageQueue) q a o Hv Ho Ht') as Hsim.
  destruct (aq_exec a o) as [[x a']|e']; [|congruence]. destruct Hsim as (q2 & Hex2 & _). congruence.
Qed.

Section system.
Context (base msg_size max_msgs : Z) (q0 : MessageQueue) (os : list qop).
Context (Hsize : sizeof_Node <= msg_size) (Hmax : 0 < max_msgs) (Hwrap : msg_size * max_msgs < 2 ^ 64)
  (Hreg : fresh_region base (msg_size * max_msgs)) (Hnew : MessageQueue_new base msg_size max_msgs = Ok q0)
  (Hwf : Forall qop_wf os) (Hcount : enqueues os < 2 ^ 32).

(** A thread that signals is not asleep itself. *)
Lemma signalled_alone s t l' : signalled s [t] l' -> s = NoSignal \/ asleep t = false -> l' = [t].
Proof.
  intros Hs Hc. destruct s; inversion Hs as [|l Hl|l i u Hi Ha|]; subst; try done; destruct Hc as [|Hc]; try done.
  - destruct i as [|i]; [|done]. cbn in Hi. injection Hi as <-. congruence.
  - cbn. unfold wake. by rewrite Hc.
Qed.

Lemma piece_signals q lk t q' t' s ev : piece q lk t q' t' s ev -> s = NoSignal \/ asleep t' = false.
Proof. destruct 1; first [by left|by right]. Qed.

(** The calls made so far had the outcomes of the abstract queue, and the
    thread is in the next one. *)
Definition lone_inv (S : qthreads) : Prop :=
  exists t q1 made a, ts S = [t] /\ os = made ++ calls t /\
    aq_exec_all (aq_new (Z.to_nat max_msgs)) made = Ok (returned t, a) /\
    view q1 [] a /\ aq_ticks a + enqueues (calls t) < 2 ^ 32 /\ in_call q1 (on S) t.

Lemma lone_inv_start : lone_inv (start_system q0 [os]).
Proof.
  destruct (view_new base msg_size max_msgs Hsize Hmax Hwrap Hreg) as (q & Hq & Hv). rewrite Hnew in Hq. injection Hq as <-.
  exists (mkThread Ready os []), q0, [], (aq_new (Z.to_nat max_msgs)). by split_and!.
Qed.

Lemma lone_inv_step c S ev S' : lone_inv S -> qstep c S ev S' -> lone_inv S'.
Proof.
  intros (t & q1 & made & a & Hts & Hos & Hmade & Hv & Ht & Hin) Hstep.
  apply qstep_inv in Hstep as (i & u & t' & s & Hi & Hs & Hcase). rewrite Hts in Hi, Hs.
  destruct i as [|i]; [|done]. injection Hi as <-. change (<[0%nat := t']> [t]) with [t'] in Hs.
  assert (Hts' : ts S' = [t']).
  { apply (signalled_alone s); [done|]. destruct Hcase as [[_ Hp]|(_ & _ & _ & -> & _)]; [|by left]. by eapply piece_signals. }
  destruct Hcase as [[_ Hp]|(_ & Hon & _ & _ & Ha & p & -> & Hp)].
  - destruct (piece_in_call q1 _ _ _ _ _ _ _ Hp Hin) as [(Hc & Hr & Hin')|(o & r & x & Hc & -> & Hex)].
    + exists t', q1, made, a. rewrite Hc, Hr. by split_and!.
    + rewrite Hc in *. rewrite enqueues_cons in Ht. pose proof (enqueues_nonneg r).
      assert (Hwfo : qop_wf o) by (rewrite Hos in Hwf; apply Forall_app in Hwf as [_ [? _]%Forall_cons]; done).
      destruct (exec_abstract q1 a o x (on S') Hv Hwfo) as (a' & Ha' & Hv'); [lia|done|].
      pose proof (aq_exec_ticks a o x a' Ha'). pose proof (proj2 (view_bound q1 a Hv)).
      exists (return_with x t), (on S'), (made ++ [o]), a'. cbn [return_with calls returned]. rewrite Hc. cbn [tail].
      split_and!; try done; [by rewrite <- app_assoc|by apply (aq_exec_all_snoc _ _ _ a)|lia].
  - exists (move_to p t), q1, made, a. split_and!; try done. rewrite Hon. apply asleep_place in Ha. unfold in_call in *.
    rewrite Ha in Hin. cbn [move_to at_place calls]. destruct (calls t) as [|o r] eqn:Hc; [done|].
    destruct Hin as (_ & -> & _). destruct Hp as [[_ ->]|(_ & -> & r' & Hr)]; [done|]. by injection Hr as -> ->.
Qed.

(** *** The end of a run *)

Lemma lone_run n k tr S :
  qrun (start_system q0 [os]) n k tr S ->
  lone_inv S /\ data_inv q0 (to_enqueue [os]) tr S /\ (n <= cost 1 os + k)%nat.
Proof.
  assert (Hc : Z.of_nat (length (to_enqueue [os])) < 2 ^ 32) by (by rewrite to_enqueue_count).
  intros Hrun. destruct (run_inv base msg_size max_msgs q0 [os] Hsize Hmax Hwrap Hreg Hnew (to_enqueue_wf os Hwf) Hc n k tr S Hrun) as [Hd _].
  destruct (run_weight base msg_size max_msgs q0 [os] Hsize Hmax Hwrap Hreg Hnew (to_enqueue_wf os Hwf) Hc n k tr S Hrun) as [_ Hw].
  split_and!; [|done|unfold total in Hw; cbn in Hw; lia].
  clear Hd Hw. induction Hrun as [|n k tr S c ev S' _ IH Hstep]; [apply lone_inv_start|by eapply lone_inv_step].
Qed.

(** Where a call that cannot go on is stuck. *)
Lemma stuck_call tr S t q1 o r e :
  data_inv q0 (to_enqueue [os]) tr S -> ts S = [t] -> calls t = o :: r -> in_call q1 (on S) t ->
  thread_turn (on S) (locked (ts S)) t = GoesWrong e -> on S = q1 /\ exec q1 o = Err e.
Proof.
  intros Hd Hts Hc Hin Hgw. assert (Hi : ts S !! 0%nat = Some t) by (by rewrite Hts).
  assert (Hn : Z.of_nat (length (to_enqueue [os])) < 2 ^ 32) by (by rewrite to_enqueue_count).
  pose proof (turn_outcome base msg_size max_msgs q0 [os] Hsize Hmax Hwrap Hreg Hnew Hn tr S 0 t Hd Hi) as Ho.
  rewrite Hgw in Ho. destruct Ho as [(m & r' & Hat & Hc' & Ha)|(r' & Hc' & He & Hs)]; rewrite Hc in Hc'; injection Hc' as -> ->.
  - unfold in_call in Hin. rewrite Hat in Hin. split; [done|]. rewrite <- Hin.
    cbn [exec q_enqueue message_queue_impl]. unfold enqueue. by rewrite Ha.
  - assert (Htake : (at_place t = Ready \/ at_place t = TimedOut) -> on S = q1 /\ exec q1 OTryDequeue = Err e).
    { intros Hat. assert (on S = q1) as <- by (unfold in_call in Hin; rewrite Hc in Hin; by destruct Hat as [Hat|Hat]; rewrite Hat in Hin).
      split; [done|]. unfold thread_turn, try_dequeue_turn, predicate, is_empty in Hgw. rewrite Hc, He, Hs in Hgw.
      assert (Hpop : pop_top (on S) = Err e).
      { destruct Hat as [Hat|Hat]; rewrite Hat in Hgw; cbn in Hgw; destruct (locked (ts S)); try done;
          unfold take_turn in Hgw; destruct (pop_top (on S)) as [[node q2]|e']; try done; by injection Hgw as ->. }
      cbn [exec q_try_dequeue message_queue_impl]. unfold try_dequeue. rewrite decide_False by (intros []; congruence).
      by rewrite Hpop. }
    destruct (at_place t) as [|raw| | | |node] eqn:Hat; try (by apply Htake; auto); unfold in_call in Hin; rewrite Hat, Hc in Hin;
      try done; [destruct Hin as (_ & <- & _ & Hop); congruence|].
    destruct (release_turn_live base msg_size max_msgs q0 [os] Hsize Hmax Hwrap Hreg Hnew Hn tr S 0 t node
      (fun m => RTry (Some m)) Hd Hi Hat) as (? & ? & ? & ? & Hrel).
    unfold thread_turn, try_dequeue_turn in Hgw. by rewrite Hc, Hat, Hrel in Hgw.
Qed.

(** What the next call comes to on the abstract queue, when the thread has
    come to rest. *)
Definition rest_outcome (S : qthreads) (t : calling_thread) (a : aqueue) : Prop :=
  match calls t with
  | [] => True
  | o :: _ =>
      match aq_exec a o with
      | Ok (RDequeue Blocks, _) => asleep t = true
      | Ok _ => False
      | Err e => thread_turn (on S) (locked (ts S)) t = GoesWrong e
      end
  end.

Lemma lone_rest tr S t q1 made a :
  data_inv q0 (to_enqueue [os]) tr S -> ts S = [t] -> os = made ++ calls t -> view q1 [] a ->
  aq_ticks a + enqueues (calls t) < 2 ^ 32 -> in_call q1 (on S) t -> at_rest S -> view (on S) [] a /\ rest_outcome S t a.
Proof.
  intros Hd Hts Hos Hv Ht Hin Hrest. assert (Hi : ts S !! 0%nat = Some t) by (by rewrite Hts).
  assert (Hn : Z.of_nat (length (to_enqueue [os])) < 2 ^ 32) by (by rewrite to_enqueue_count).
  pose proof (turn_outcome base msg_size max_msgs q0 [os] Hsize Hmax Hwrap Hreg Hnew Hn tr S 0 t Hd Hi) as Ho.
  unfold rest_outcome. destruct (thread_turn (on S) (locked (ts S)) t) as [q' t' s ev| |e] eqn:Hturn.
  - by destruct (turn_moves _ _ _ _ _ _ _ Hi Hturn Hrest).
  - destruct Ho as [Hc|[Ha|[Hl Hr]]].
    + unfold in_call in Hin. rewrite Hc in *. destruct (at_place t); try done. by rewrite Hin.
    + pose proof (asleep_place t Ha) as Hat. unfold in_call in Hin. rewrite Hat in Hin.
      destruct (calls t) as [|o r] eqn:Hc; [done|]. destruct Hin as (Hcon & -> & He & Hs). split; [done|].
      destruct o; try done.
      * rewrite enqueues_cons in Ht. pose proof (enqueues_nonneg r).
        destruct (exec_abstract q1 a ODequeue (RDequeue Blocks) q1 Hv) as (a' & -> & _); [done|cbn in *; lia|by apply open_exec|done].
      * exfalso. destruct S as [q l]. by specialize (Hrest _ _ _ (q_timer _ _ _ _ _ Hi Ha Hc)).
    + exfalso. rewrite Hts in Hl. unfold locked in Hl. cbn in Hl. by rewrite Hr in Hl.
  - destruct (calls t) as [|o r] eqn:Hc; [by unfold thread_turn in Hturn; rewrite Hc in Hturn|].
    destruct (stuck_call tr S t q1 o r e Hd Hts Hc Hin Hturn) as [<- Hex]. split; [done|].
    rewrite enqueues_cons in Ht. pose proof (enqueues_nonneg r).
    rewrite (exec_fails (on S) a o e Hv); [done| |lia|done].
    rewrite Hos in Hwf. by apply Forall_app in Hwf as [_ [? _]%Forall_cons].
Qed.
End system.

(** ** Property *)

(** C34. A program of calls made by one thread that nobody disturbs, piece by
    piece and with every time-out and spurious wake-up: from the constructor
    on, what the calls have returned is what the abstract queue returns for
    them; the turns are bounded, spurious wake-ups added; and when nothing can
    move any more the thread has made all its calls, or sleeps in the
    [dequeue] that the abstract queue makes wait, or the next piece goes wrong
    with the very error of the abstract queue, a full queue or [try_dequeue]
    on a closed and empty one. *)
Theorem lone_thread_refines base msg_size max_msgs q0 os n k tr S :
  sizeof_Node <= msg_size -> 0 < max_msgs -> msg_size * max_msgs < 2 ^ 64 ->
  fresh_region base (msg_size * max_msgs) -> MessageQueue_new base msg_size max_msgs = Ok q0 ->
  Forall qop_wf os -> enqueues os < 2 ^ 32 -> qrun (start_system q0 [os]) n k tr S ->
  exists t made a, ts S = [t] /\ os = made ++ calls t /\
    aq_exec_all (aq_new (Z.to_nat max_msgs)) made = Ok (returned t, a) /\
    (n <= cost 1 os + k)%nat /\ (at_rest S -> view (on S) [] a /\ rest_outcome S t a).
Proof.
  intros Hsize Hmax Hwrap Hreg Hnew Hwf Hcount Hrun.
  destruct (lone_run base msg_size max_msgs q0 os Hsize Hmax Hwrap Hreg Hnew Hwf Hcount n k tr S Hrun)
    as ((t & q1 & made & a & Hts & Hos & Hmade & Hv & Ht & Hin) & Hd & Hn).
  exists t, made, a. split_and!; [done..|]. intros Hrest.
  by apply (lone_rest base msg_size max_msgs q0 os Hsize Hmax Hwrap Hreg Hnew Hwf Hcount tr S t q1 made a).
Qed.
End lone.

(** ** Witness: a time-out on the empty queue, two messages by priority, and a
    [dequeue] that waits *)

Definition lone_program : list qop :=
  [OTryDequeue; OEnqueue (demo_heartbeat 1); OEnqueue (demo_request 1); ODequeue; OTryDequeue; OIsEmpty; ODequeue].

Definition lone_schedule : list choice :=
  [Turn 0 None; Timer 0; Turn 0 None] ++ replicate 6 (Turn 0 None) ++ replicate 6 (Turn 0 None).

Definition lone_play : nat * nat * list event * qthreads :=
  match play lone_schedule 0 0 [] (start_system mix0 [lone_program]) with
  | Some x => x
  | None => (0%nat, 0%nat, [], start_system mix0 [])
  end.
Definition lone_end := Eval vm_compute in lone_play.

Lemma lone_end_rest : at_rest lone_end.2.
Proof.
  intros c ev S' (i & t & t' & s & Hi & _ & Hcase)%qstep_inv. destruct i as [|i]; [|done].
  injection Hi as <-. destruct Hcase as [[_ Hp]|(_ & _ & _ & _ & _ & p & _ & Hpp)].
  - inversion Hp; simplify_eq; naive_solver.
  - destruct Hpp as [[-> _]|(_ & _ & r & [=])]. done.
Qed.

Lemma lone_thread_refines_witness :
  exists t a, ts lone_end.2 = [t] /\ returned t = [RTry None; RUnit; RUnit; RDequeue (Returns (Some (demo_request 1)));
                                                   RTry (Some (demo_heartbeat 1)); RBool true] /\
    aq_exec_all (aq_new 4) (take 6 lone_program) = Ok (returned t, a) /\ view (on lone_end.2) [] a /\ asleep t = true /\
    (15 <= cost 1 lone_program)%nat.
Proof.
  destruct (lone_thread_refines 4096 56 4 mix0 lone_program lone_end.1.1.1 lone_end.1.1.2 lone_end.1.2 lone_end.2)
    as (t & made & a & Hts & Hos & Hmade & Hn & Hend); [done..|by vm_compute| | | |].
  - repeat constructor; first [apply demo_heartbeat_wf|apply demo_request_wf]; lia.
  - done.
  - eapply (play_ok _ lone_schedule); [constructor|]. vm_compute. reflexivity.
  - destruct (Hend lone_end_rest) as [Hv Ho]. exists t, a. injection Hts as <-. cbn [calls] in Hos.
    assert (made = take 6 lone_program) as -> by exact (app_inv_tail [ODequeue] _ (take 6 lone_program) (eq_sym Hos)).
    split_and!; [done|reflexivity|exact Hmade|exact Hv|reflexivity|vm_compute; lia].
Defined.
