(* ===== verification/Logger.v ===== *)
(** * Logger: the asynchronous logger and its sinks (logger.h, logger.cpp)

    Callers append entries to a queue, one worker thread formats them and
    hands the lines to every sink. The model has the logger's state, one
    definition per member function, the two halves of the worker's loop body
    (taking an entry under the queue's mutex, writing it outside), and a
    transition system in which callers and the worker interleave.
    [add_sink] is not a step of that system: the vector of sinks is not
    guarded, so the sinks have to be there before the first entry. *)

From S2P Require Import Prelude Msg.
#[local] Open Scope Z_scope.
#[local] Open Scope string_scope.
#[local] Open Scope list_scope.

(** ** Data *)

Inductive LogLevel := DEBUG | INFO | WARN | LOG_ERROR | MSG_TRAFFIC.

(** The underlying values, which the threshold compares. *)
Definition level_value (l : LogLevel) : Z :=
  match l with
  | DEBUG => 0
  | INFO => 1
  | WARN => 2
  | LOG_ERROR => 3
  | MSG_TRAFFIC => 4
  end.

Record LogEntry := mkLogEntry {
  level : LogLevel;
  component : string;
  entry_message : string;
  timestampMs : Z; (* uint64_t *)
  threadId : Z * Z
}.

(** A sink is its class and the text that reached its stream. *)
Inductive SinkClass := FileSink | ConsoleSink | SocketSink.
Record Sink := mkSink { sink_class : SinkClass; stream : string }.

Record Logger := mkLogger {
  min_level : LogLevel;
  relative_ts : bool;
  log_queue : list LogEntry;
  sinks : list Sink;
  stopping : bool
}.

(** What the two clocks answer to one call, in nanoseconds. *)
Record clock_reading := mkClockReading {
  steady_ns : Z;  (* steady_clock::now(), since its epoch *)
  system_ns : Z;  (* system_clock::now(), since its epoch *)
  startup_ns : Z  (* STARTUP_TIME *)
}.

(** ** Sinks *)

Definition newline : string := String (Ascii.ascii_of_nat 10) "".

(** [FileSink::log] and [ConsoleSink::log] write the line; [SocketSink::log]
    is not implemented and does nothing. *)
Definition sink_log (formatted : string) (s : Sink) : Sink :=
  match sink_class s with
  | FileSink | ConsoleSink => mkSink (sink_class s) (stream s +:+ formatted +:+ newline)
  | SocketSink => s
  end.

(** ** Operations *)

(** [Logger::Logger]; [relative_ts] has no initialiser, and is false because
    the only instance is a static object. *)
Definition Logger_new : Logger := mkLogger MSG_TRAFFIC false [] [] false.

Definition add_sink (s : Sink) (L : Logger) : Logger :=
  mkLogger (min_level L) (relative_ts L) (log_queue L) (sinks L ++ [s]) (stopping L).
Definition set_level (l : LogLevel) (L : Logger) : Logger :=
  mkLogger l (relative_ts L) (log_queue L) (sinks L) (stopping L).
Definition use_relative_timestamps (enable : bool) (L : Logger) : Logger :=
  mkLogger (min_level L) enable (log_queue L) (sinks L) (stopping L).

Definition log_timestamp (relative : bool) (c : clock_reading) : Z :=
  u64 (if relative then duration_cast_ms (steady_ns c - startup_ns c)
       else duration_cast_ms (system_ns c)).

Definition log (l : LogLevel) (comp msg : string) (c : clock_reading) (thread : Z * Z)
    (L : Logger) : Logger :=
  if decide (level_value l < level_value (min_level L)) then L
  else
    let entry := mkLogEntry l comp msg (log_timestamp (relative_ts L) c) thread in
    mkLogger (min_level L) (relative_ts L) (log_queue L ++ [entry]) (sinks L) (stopping L).

Definition shutdown_logger (L : Logger) : Logger :=
  mkLogger (min_level L) (relative_ts L) (log_queue L) (sinks L) true.

Definition level_str (l : LogLevel) : string :=
  match l with
  | MSG_TRAFFIC => "TRAFFIC"
  | DEBUG => "DEBUG"
  | INFO => "INFO"
  | WARN => "WARN"
  | LOG_ERROR => "ERROR"
  end.

Definition format_entry (e : LogEntry) : string :=
  to_string (timestampMs e) +:+ " [" +:+ component e +:+ "] " +:+ level_str (level e) +:+ " - " +:+
  entry_message e.

(** The first half of the body of [worker_loop]: the wait and the block that
    holds [queue_mutex]. *)
Inductive worker_outcome := Waits | Exits | Takes (entry : LogEntry) (L : Logger).

Definition worker_take (L : Logger) : worker_outcome :=
  match log_queue L with
  | [] => if stopping L then Exits else Waits
  | entry :: rest =>
      Takes entry (mkLogger (min_level L) (relative_ts L) rest (sinks L) (stopping L))
  end.

(** The second half: format the entry and hand the line to every sink. *)
Definition worker_dispatch (entry : LogEntry) (L : Logger) : Logger :=
  mkLogger (min_level L) (relative_ts L) (log_queue L)
    (sink_log (format_entry entry) <$> sinks L) (stopping L).

(** The worker alone: [n] turns of the loop, or fewer if it waits or leaves. *)
Fixpoint worker_run (n : nat) (L : Logger) : Logger * worker_outcome :=
  match worker_take L, n with
  | Takes entry L', S n' => worker_run n' (worker_dispatch entry L')
  | o, _ => (L, o)
  end.

(** [Logger::instance]: the function's static object is constructed by the
    first call. *)
Definition Logger_instance (inst : option Logger) : Logger * option Logger :=
  match inst with
  | Some L => (L, inst)
  | None => (Logger_new, Some Logger_new)
  end.

(** [Logger::~Logger]: [shutdown], then the join of the worker, which is
    between two entries and gets up to [n] turns. *)
Definition Logger_destroy (n : nat) (L : Logger) : Logger * worker_outcome := worker_run n (shutdown_logger L).

(** ** Callers and worker interleaved *)

(** Where the worker is in its loop. *)
Inductive worker_at := AtWait | Holding (entry : LogEntry) | Left.

(** [ls_accepted] is a ghost: the entries accepted so far. *)
Record log_system := mkLogSystem {
  ls_logger : Logger;
  ls_worker : worker_at;
  ls_accepted : list LogEntry
}.

Definition accepts (l : LogLevel) (L : Logger) : bool :=
  bool_decide (level_value (min_level L) <= level_value l).

Inductive log_step : log_system -> log_system -> Prop :=
  | step_log l comp msg c th L w acc :
      log_step (mkLogSystem L w acc)
        (mkLogSystem (log l comp msg c th L) w
          (if accepts l L then acc ++ [mkLogEntry l comp msg (log_timestamp (relative_ts L) c) th] else acc))
  | step_level l L w acc :
      log_step (mkLogSystem L w acc) (mkLogSystem (set_level l L) w acc)
  | step_relative b L w acc :
      log_step (mkLogSystem L w acc) (mkLogSystem (use_relative_timestamps b L) w acc)
  | step_shutdown L w acc :
      log_step (mkLogSystem L w acc) (mkLogSystem (shutdown_logger L) w acc)
  | step_take L e L' acc :
      worker_take L = Takes e L' ->
      log_step (mkLogSystem L AtWait acc) (mkLogSystem L' (Holding e) acc)
  | step_dispatch L e acc :
      log_step (mkLogSystem L (Holding e) acc) (mkLogSystem (worker_dispatch e L) AtWait acc)
  | step_exit L acc :
      worker_take L = Exits ->
      log_step (mkLogSystem L AtWait acc) (mkLogSystem L Left acc).

(** ** Lemmas *)

(** The text of a list of entries, one line each. *)
Definition lines (es : list LogEntry) : string :=
  foldr (fun e s => format_entry e +:+ newline +:+ s) "" es.

Lemma string_app_assoc (a b c : string) : a +:+ (b +:+ c) = (a +:+ b) +:+ c.
Proof.
  induction a as [|x a IH]; [done|].
  change (String x (a +:+ (b +:+ c)) = String x ((a +:+ b) +:+ c)). by rewrite IH.
Qed.

Lemma string_app_nil_r (a : string) : a +:+ "" = a.
Proof. induction a as [|x a IH]; [done|]. change (String x (a +:+ "") = String x a). by rewrite IH. Qed.

Lemma lines_app es es' : lines (es ++ es') = lines es +:+ lines es'.
Proof.
  induction es as [|e es IH]; cbn [lines foldr app]; [done|].
  fold (lines (es ++ es')) (lines es). by rewrite IH, !string_app_assoc.
Qed.

(** What a sink holds after receiving some entries. *)
Definition receives (es : list LogEntry) (s : Sink) : Sink :=
  match sink_class s with
  | FileSink | ConsoleSink => mkSink (sink_class s) (stream s +:+ lines es)
  | SocketSink => s
  end.

Lemma receives_nil s : receives [] s = s.
Proof. destruct s as [[] x]; unfold receives; cbn; by rewrite ?string_app_nil_r. Qed.

Lemma receives_snoc es e s : sink_log (format_entry e) (receives es s) = receives (es ++ [e]) s.
Proof.
  destruct s as [[] x]; unfold receives, sink_log; cbn [sink_class stream]; [..|done];
    rewrite lines_app; cbn [lines foldr]; by rewrite string_app_nil_r, !string_app_assoc.
Qed.

Lemma receives_app es es' s : receives es' (receives es s) = receives (es ++ es') s.
Proof.
  destruct s as [[] x]; unfold receives; cbn [sink_class stream]; [..|done];
    by rewrite lines_app, string_app_assoc.
Qed.

Lemma fmap_receives_nil (ss : list Sink) : receives [] <$> ss = ss.
Proof. induction ss as [|s ss IH]; cbn; [done|]. by rewrite receives_nil, IH. Qed.

Lemma fmap_receives_snoc es e (ss : list Sink) :
  sink_log (format_entry e) <$> (receives es <$> ss) = receives (es ++ [e]) <$> ss.
Proof. induction ss as [|s ss IH]; cbn; [done|]. by rewrite receives_snoc, IH. Qed.

Lemma fmap_receives_app es es' (ss : list Sink) :
  receives es' <$> (receives es <$> ss) = receives (es ++ es') <$> ss.
Proof. induction ss as [|s ss IH]; cbn; [done|]. by rewrite receives_app, IH. Qed.

Lemma receives_one e s : sink_log (format_entry e) s = receives [e] s.
Proof. by rewrite <- (receives_nil s) at 1; rewrite receives_snoc. Qed.

Lemma worker_run_drains L :
  worker_run (length (log_queue L)) L =
    (mkLogger (min_level L) (relative_ts L) [] (receives (log_queue L) <$> sinks L) (stopping L),
     if stopping L then Exits else Waits).
Proof.
  destruct L as [ml rt q ss st]. cbn [log_queue]. revert ss.
  induction q as [|e q IH]; intros ss; cbn.
  - rewrite fmap_receives_nil. by destruct st.
  - unfold worker_dispatch. cbn. rewrite IH. cbn. do 2 f_equal. induction ss as [|s ss IHs]; cbn; [done|].
    by rewrite IHs, receives_one, receives_app.
Qed.

Lemma log_accepts l comp msg c th L :
  log_queue (log l comp msg c th L) =
    log_queue L ++ (if accepts l L then [mkLogEntry l comp msg (log_timestamp (relative_ts L) c) th] else []).
Proof.
  unfold log, accepts. case_decide; [rewrite bool_decide_false by lia|rewrite bool_decide_true by lia].
  - by rewrite app_nil_r.
  - done.
Qed.

Lemma log_keeps l comp msg c th L :
  sinks (log l comp msg c th L) = sinks L /\ stopping (log l comp msg c th L) = stopping L /\
  min_level (log l comp msg c th L) = min_level L.
Proof. unfold log. by case_decide. Qed.

(** The entries between acceptance and the sinks. *)
Definition in_flight (w : worker_at) : list LogEntry :=
  match w with Holding e => [e] | _ => [] end.

(** What every step of callers and worker keeps, for a system started with
    the sinks [ss]: what was accepted is what the sinks have, then what the
    worker holds, then what is queued. *)
Definition log_inv (ss : list Sink) (S : log_system) : Prop :=
  exists delivered,
    ls_accepted S = delivered ++ in_flight (ls_worker S) ++ log_queue (ls_logger S) /\
    sinks (ls_logger S) = receives delivered <$> ss.

Lemma log_step_inv ss S S' : log_inv ss S -> log_step S S' -> log_inv ss S'.
Proof.
  intros (del & Hacc & Hss) Hstep. destruct Hstep; cbn in *; try by exists del.
  - exists del. cbn. rewrite log_accepts. destruct (log_keeps l comp msg c th L) as (-> & _).
    split; [|done]. rewrite Hacc. destruct (accepts l L); cbn; by rewrite ?app_nil_r, ?app_assoc.
  - exists del. revert H. unfold worker_take. destruct (log_queue L) as [|x q] eqn:Hq.
    + by destruct (stopping L).
    + intros [= <- <-]. by cbn.
  - exists (del ++ [e]). cbn. rewrite Hacc, Hss, fmap_receives_snoc. by rewrite <- app_assoc.
Qed.

Lemma log_steps_inv ss S S' : log_inv ss S -> rtc log_step S S' -> log_inv ss S'.
Proof. intros HS Hsteps. induction Hsteps; eauto using log_step_inv. Qed.

(** A system before its first entry. *)
Definition log_start (L : Logger) : log_system := mkLogSystem L AtWait [].

Lemma log_start_inv L : log_queue L = [] -> log_inv (sinks L) (log_start L).
Proof. intros Hq. exists []. cbn. by rewrite Hq, fmap_receives_nil. Qed.

(** ** Properties *)

(** An entry below the threshold is dropped without a trace; any other is
    appended to the queue with the caller's level, name, text and thread and a
    64-bit millisecond stamp of the clock in force. The default threshold
    lets nothing but message traffic through. *)
Theorem log_level_filter l comp msg c th L :
  (level_value l < level_value (min_level L) -> log l comp msg c th L = L) /\
  (level_value (min_level L) <= level_value l ->
     exists e, log_queue (log l comp msg c th L) = log_queue L ++ [e] /\
       level e = l /\ component e = comp /\ entry_message e = msg /\ threadId e = th /\
       0 <= timestampMs e < 2 ^ 64 /\
       (0 <= steady_ns c - startup_ns c < 2 ^ 63 -> relative_ts L = true ->
          timestampMs e = (steady_ns c - startup_ns c) / 1000000) /\
       sinks (log l comp msg c th L) = sinks L) /\
  (log l comp msg c th Logger_new = Logger_new <-> l <> MSG_TRAFFIC).
Proof.
  split_and!.
  - intros Hl. unfold log. by rewrite decide_True.
  - intros Hl. eexists. rewrite log_accepts. unfold accepts. rewrite bool_decide_true by lia.
    split_and!; try done; [apply u64_range..| |].
    + cbn. intros Hd Hr. unfold log_timestamp. rewrite Hr. unfold duration_cast_ms.
      rewrite Z.quot_div_nonneg by lia. apply u64_small. split; [apply Z.div_pos; lia|].
      apply Z.div_lt_upper_bound; lia.
    + by destruct (log_keeps l comp msg c th L).
  - by destruct l.
Qed.

(** However calls of [log], [set_level], [use_relative_timestamps] and
    [shutdown] interleave with the worker: every file and console sink holds
    the lines of a prefix of the accepted entries, in the order they were
    accepted, each exactly once, and the rest is with the worker or queued;
    when the worker leaves its loop, nothing accepted is missing. *)
Theorem logger_delivery L S :
  log_queue L = [] -> rtc log_step (log_start L) S ->
  (exists delivered,
     ls_accepted S = delivered ++ in_flight (ls_worker S) ++ log_queue (ls_logger S) /\
     sinks (ls_logger S) = receives delivered <$> sinks L) /\
  (forall S', log_step S S' -> ls_worker S <> Left -> ls_worker S' = Left ->
     sinks (ls_logger S') = receives (ls_accepted S') <$> sinks L).
Proof.
  intros Hq Hsteps. pose proof (log_steps_inv _ _ _ (log_start_inv L Hq) Hsteps) as Hinv.
  split; [done|]. intros S' Hstep Hin Hout.
  destruct (log_step_inv _ _ _ Hinv Hstep) as (del & Hacc & Hss).
  destruct Hstep; cbn in *; try done. rewrite Hacc, Hss. revert H. unfold worker_take.
  destruct (log_queue L0); cbn; [by rewrite app_nil_r|done].
Qed.

(** Destroying the logger flushes it: after [shutdown] the worker, on its
    own, writes everything still queued to every sink in order and leaves its
    loop, so that the join comes back, after exactly as many turns as there
    were entries; without [shutdown] it waits instead. *)
Theorem shutdown_flushes L :
  Logger_destroy (length (log_queue L)) L =
    (mkLogger (min_level L) (relative_ts L) [] (receives (log_queue L) <$> sinks L) true, Exits) /\
  (forall n, (n < length (log_queue L))%nat -> exists L' e L'', Logger_destroy n L = (L', Takes e L'')) /\
  (stopping L = false -> (worker_run (length (log_queue L)) L).2 = Waits).
Proof.
  unfold Logger_destroy. split_and!.
  - change (log_queue L) with (log_queue (shutdown_logger L)) at 1.
    by rewrite worker_run_drains.
  - intros n. destruct L as [ml rt q ss st]. unfold shutdown_logger. cbn.
    revert q ss. induction n as [|n IH]; intros [|e q] ss Hn; cbn in *; try lia; [by eexists _, _, _|].
    apply (IH q). lia.
  - intros Hst. by rewrite worker_run_drains, Hst.
Qed.

(** ** Witnesses *)

Definition demo_clock : clock_reading := mkClockReading 5000000000 7000000000 2000000000.
Definition demo_logger : Logger :=
  set_level INFO (add_sink (mkSink ConsoleSink "") (add_sink (mkSink SocketSink "") Logger_new)).
Definition demo_entry : LogEntry := mkLogEntry WARN "Task" "ready" 7000 (1, 2).

Lemma logger_delivery_witness :
  let S := mkLogSystem (shutdown_logger demo_logger) (Holding demo_entry) [demo_entry] in
  (exists delivered,
     ls_accepted S = delivered ++ in_flight (ls_worker S) ++ log_queue (ls_logger S) /\
     sinks (ls_logger S) = receives delivered <$> sinks demo_logger) /\
  (forall S', log_step S S' -> ls_worker S <> Left -> ls_worker S' = Left ->
     sinks (ls_logger S') = receives (ls_accepted S') <$> sinks demo_logger).
Proof.
  apply (logger_delivery demo_logger); [done|].
  eapply rtc_l; [exact (step_log WARN "Task" "ready" demo_clock (1, 2) demo_logger AtWait [])|].
  eapply rtc_l; [by eapply step_take|].
  eapply rtc_l; [apply step_shutdown|]. apply rtc_refl.
Defined.

Lemma log_level_filter_witness :
  let L := demo_logger in
  (level_value DEBUG < level_value (min_level L) -> log DEBUG "T" "m" demo_clock (1, 2) L = L) /\
  log_queue (log WARN "Task" "ready" demo_clock (1, 2) L) = [demo_entry].
Proof. split; [apply log_level_filter|reflexivity]. Defined.
