(* ===== verification/LoggerThreads.v ===== *)
(** * LoggerThreads: callers of the logger, its worker, and their wake-ups

    Logger takes a call of [log] as one step and the worker to come by when
    there is an entry. Here a call is cut between the test of the level and
    the time stamp, the block that holds [queue_mutex], and the notification
    behind it, and the worker sleeps on [queue_cv] between two entries. *)

From S2P Require Import Prelude Logger.
#[local] Open Scope nat_scope.

(** ** Callers and worker *)

(** A call made by some thread; [c] is what the clocks will show it. *)
Inductive log_call :=
  | CLog (l : LogLevel) (comp msg : string) (c : clock_reading) (th : Z * Z)
  | CSetLevel (l : LogLevel)
  | CRelative (enable : bool)
  | CShutdown.

(** Before a call; with an entry that is stamped but not queued; between the
    end of the locked block and the notification. *)
Inductive caller_place := Calling | Stamped (e : LogEntry) | Signalling.

Record caller := mkCaller { cl_place : caller_place; cl_calls : list log_call }.

(** [Testing]: about to lock and to test the predicate of the wait. *)
Inductive worker_place := Testing | Sleeping | Writing (e : LogEntry) | Gone.

(** [pushed] is a ghost: the entries in the order of their insertion. *)
Record log_threads := mkLogThreads {
  lt_logger : Logger;
  lt_worker : worker_place;
  lt_callers : list caller;
  pushed : list LogEntry
}.

Definition push_entry (e : LogEntry) (L : Logger) : Logger :=
  mkLogger (min_level L) (relative_ts L) (log_queue L ++ [e]) (sinks L) (stopping L).

Definition next_call (c : caller) : caller := mkCaller Calling (tail (cl_calls c)).

(** The next piece of a caller: the logger and the caller after it, the entry
    that was queued, and whether the worker is notified. [log] and
    [shutdown] notify in the same way: there is one worker. *)
Definition caller_turn (L : Logger) (c : caller) : option (Logger * caller * list LogEntry * bool) :=
  match cl_place c, cl_calls c with
  | _, [] => None
  | Calling, CLog l comp msg clk th :: _ =>
      if decide (level_value l < level_value (min_level L))%Z then Some (L, next_call c, [], false)
      else
        let entry := mkLogEntry l comp msg (log_timestamp (relative_ts L) clk) th in
        Some (L, mkCaller (Stamped entry) (cl_calls c), [], false)
  | Stamped entry, _ :: _ => Some (push_entry entry L, mkCaller Signalling (cl_calls c), [entry], false)
  | Calling, CSetLevel l :: _ => Some (set_level l L, next_call c, [], false)
  | Calling, CRelative b :: _ => Some (use_relative_timestamps b L, next_call c, [], false)
  | Calling, CShutdown :: _ => Some (shutdown_logger L, mkCaller Signalling (cl_calls c), [], false)
  | Signalling, _ :: _ => Some (L, next_call c, [], true)
  end.

Definition worker_turn (L : Logger) (w : worker_place) : option (Logger * worker_place) :=
  match w with
  | Testing =>
      match worker_take L with
      | Waits => Some (L, Sleeping)
      | Exits => Some (L, Gone)
      | Takes e L' => Some (L', Writing e)
      end
  | Writing e => Some (worker_dispatch e L, Testing)
  | Sleeping | Gone => None
  end.

Definition wake_worker (w : worker_place) : worker_place := match w with Sleeping => Testing | _ => w end.

Inductive log_mover := ByCaller | ByWorker | BySpuriousWakeup.

Inductive lt_step : log_mover -> log_threads -> log_threads -> Prop :=
  | lt_caller L w cs acc i c L' c' new notifies :
      cs !! i = Some c -> caller_turn L c = Some (L', c', new, notifies) ->
      lt_step ByCaller (mkLogThreads L w cs acc)
        (mkLogThreads L' (if notifies then wake_worker w else w) (<[i := c']> cs) (acc ++ new))
  | lt_work L w cs acc L' w' :
      worker_turn L w = Some (L', w') -> lt_step ByWorker (mkLogThreads L w cs acc) (mkLogThreads L' w' cs acc)
  | lt_spurious L cs acc :
      lt_step BySpuriousWakeup (mkLogThreads L Sleeping cs acc) (mkLogThreads L Testing cs acc).

(** [n] turns and [k] spurious wake-ups. *)
Inductive lt_run (T0 : log_threads) : nat -> nat -> log_threads -> Prop :=
  | lt_run_start : lt_run T0 0 0 T0
  | lt_run_turn n k T m T' : lt_run T0 n k T -> m <> BySpuriousWakeup -> lt_step m T T' -> lt_run T0 (S n) k T'
  | lt_run_spurious n k T T' : lt_run T0 n k T -> lt_step BySpuriousWakeup T T' -> lt_run T0 n (S k) T'.

(** A logger with its worker at the start, and callers with their calls. *)
Definition log_start_threads (L : Logger) (programs : list (list log_call)) : log_threads :=
  mkLogThreads L Testing (mkCaller Calling <$> programs) [].

(** Neither a caller nor the worker can move. *)
Definition lt_rest (T : log_threads) : Prop := forall m T', lt_step m T T' -> m = BySpuriousWakeup.

(** ** The invariants *)

Definition writing (w : worker_place) : list LogEntry := match w with Writing e => [e] | _ => [] end.

Definition signalling (c : caller) : nat := match cl_place c with Signalling => 1 | _ => 0 end.

Record lt_inv (ss : list Sink) (T : log_threads) : Prop := {
  lt_data : exists delivered, pushed T = delivered ++ writing (lt_worker T) ++ log_queue (lt_logger T) /\
    sinks (lt_logger T) = receives delivered <$> ss;
  lt_awake : lt_worker T = Sleeping -> total signalling (lt_callers T) = 0 ->
    log_queue (lt_logger T) = [] /\ stopping (lt_logger T) = false;
  lt_gone : lt_worker T = Gone -> stopping (lt_logger T) = true;
  lt_placed : Forall (fun c => cl_place c = Calling \/ cl_calls c <> []) (lt_callers T)
}.

(** What a caller's turn does to the logger. *)
Lemma caller_turn_ok L c L' c' new b :
  caller_turn L c = Some (L', c', new, b) ->
  log_queue L' = log_queue L ++ new /\ sinks L' = sinks L /\ (stopping L = true -> stopping L' = true) /\
  (b = false -> signalling c = 0) /\ (b = true -> L' = L) /\
  (signalling c' = 0 -> b = false -> new = [] /\ stopping L' = stopping L) /\
  (cl_place c' = Calling \/ cl_calls c' <> []).
Proof.
  destruct c as [[|e|] [|call r]]; try done; unfold caller_turn; cbn [cl_place cl_calls].
  - destruct call as [l comp msg clk th|l|b0|]; [case_decide|..]; intros [= <- <- <- <-]; cbn; rewrite ?app_nil_r; split_and!; try done;
      first [by left|by right].
  - intros [= <- <- <- <-]. cbn. split_and!; try done. by right.
  - intros [= <- <- <- <-]. cbn. rewrite app_nil_r. split_and!; try done. by left.
Qed.

Lemma lt_inv_step ss m T T' : lt_inv ss T -> lt_step m T T' -> lt_inv ss T'.
Proof.
  intros [(del & Hpu & Hss) Haw Hgone Hpl] Hstep.
  destruct Hstep as [L w cs acc i c L' c' new b Hi Ht|L w cs acc L' w' Ht|L cs acc]; cbn in *.
  - destruct (caller_turn_ok _ _ _ _ _ _ Ht) as (Hq & Hs & Hst & Hnb & HL & Hquiet & Hc').
    pose proof (total_update signalling cs i c c' Hi) as Hu.
    assert (Hww : writing (if b then wake_worker w else w) = writing w) by (by destruct b, w).
    split; cbn.
    + exists del. rewrite Hww, Hq, Hs, Hpu, <- !app_assoc. done.
    + intros Hw Hsg. destruct b; [by destruct w|]. specialize (Hnb eq_refl). assert (signalling c' = 0) as Hc0 by lia.
      destruct (Hquiet Hc0 eq_refl) as [-> ->]. rewrite Hq, app_nil_r. apply Haw; [done|lia].
    + intros Hw. apply Hst, Hgone. by destruct b, w.
    + by apply Forall_insert.
  - destruct w as [| |e|]; try done; cbn in Ht.
    + unfold worker_take in Ht. destruct (log_queue L) as [|e q] eqn:Hq.
      * destruct (stopping L) eqn:Hst; injection Ht as <- <-; (split; cbn; [exists del; by rewrite Hq|done|done|done]).
      * injection Ht as <- <-. split; cbn; [by exists del|done|done|done].
    + injection Ht as <- <-. split; cbn; [|done|done|done]. exists (del ++ [e]).
      by rewrite Hpu, Hss, fmap_receives_snoc, <- app_assoc.
  - split; cbn; [by exists del|done|done|done].
Qed.

Lemma lt_inv_start L programs : log_queue L = [] -> lt_inv (sinks L) (log_start_threads L programs).
Proof.
  intros Hq. split; cbn; [|done|done|].
  - exists []. by rewrite Hq, fmap_receives_nil.
  - apply Forall_fmap, Forall_true. intros cs. by left.
Qed.

Lemma lt_inv_run L programs n k T :
  log_queue L = [] -> lt_run (log_start_threads L programs) n k T -> lt_inv (sinks L) T.
Proof. intros Hq. induction 1; [by apply lt_inv_start|by eapply lt_inv_step..]. Qed.

(** ** Every schedule ends *)

(** The turns a call can still cause, those of the worker included: an entry
    is taken, written and may wake the worker. *)
Definition log_call_cost (c : log_call) : nat :=
  match c with CLog _ _ _ _ _ => 6 | CSetLevel _ | CRelative _ => 1 | CShutdown => 3 end.

Definition caller_weight (c : caller) : nat :=
  match cl_place c with
  | Calling => total log_call_cost (cl_calls c)
  | Stamped _ => 5 + total log_call_cost (tail (cl_calls c))
  | Signalling => 2 + total log_call_cost (tail (cl_calls c))
  end.

Definition worker_weight (w : worker_place) : nat := match w with Testing => 1 | Writing _ => 2 | _ => 0 end.

Definition lt_weight (T : log_threads) : nat :=
  total caller_weight (lt_callers T) + worker_weight (lt_worker T) + 2 * length (log_queue (lt_logger T)).

Lemma caller_turn_weight L c L' c' new b :
  caller_turn L c = Some (L', c', new, b) ->
  caller_weight c' + 2 * length (log_queue L') + (if b then 2 else 1) <= caller_weight c + 2 * length (log_queue L).
Proof.
  destruct c as [[|e|] [|call r]]; try done; unfold caller_turn, caller_weight; cbn [cl_place cl_calls].
  - destruct call as [l comp msg clk th|l|b0|]; [case_decide|..]; intros [= <- <- <- <-]; unfold total; cbn; lia.
  - intros [= <- <- <- <-]. cbn [cl_place cl_calls push_entry log_queue tail]. rewrite length_app. cbn. lia.
  - intros [= <- <- <- <-]. cbn. lia.
Qed.

Lemma lt_step_weight m T T' :
  lt_step m T T' -> lt_weight T' + (match m with BySpuriousWakeup => 0 | _ => 1 end) <=
    lt_weight T + (match m with BySpuriousWakeup => 1 | _ => 0 end).
Proof.
  destruct 1 as [L w cs acc i c L' c' new b Hi Ht|L w cs acc L' w' Ht|L cs acc]; unfold lt_weight; cbn [lt_logger lt_worker lt_callers].
  - pose proof (caller_turn_weight _ _ _ _ _ _ Ht). pose proof (total_update caller_weight cs i c c' Hi).
    assert (worker_weight (if b then wake_worker w else w) <= worker_weight w + (if b then 1 else 0)) by (destruct b, w; cbn; lia).
    destruct b; lia.
  - destruct w as [| |e|]; try done; cbn in Ht.
    + unfold worker_take in Ht. destruct (log_queue L) as [|e q] eqn:Hq; [destruct (stopping L)|]; injection Ht as <- <-; rewrite ?Hq; cbn; lia.
    + injection Ht as <- <-. cbn. lia.
  - cbn. lia.
Qed.

Lemma lt_run_weight T0 n k T : lt_run T0 n k T -> n + lt_weight T <= lt_weight T0 + k.
Proof.
  induction 1 as [|n k T m T' Hrun IH Hm Hstep|n k T T' Hrun IH Hstep]; [lia|..]; apply lt_step_weight in Hstep; [destruct m; try done; lia|lia].
Qed.

Lemma start_weight programs : total caller_weight (mkCaller Calling <$> programs) = total (total log_call_cost) programs.
Proof. induction programs as [|p l IH]; [done|]. cbn [fmap list_fmap]. by rewrite !total_cons, IH. Qed.

(** A caller that has a call can move. *)
Lemma caller_moves L c : (cl_place c = Calling \/ cl_calls c <> []) -> cl_calls c <> [] -> is_Some (caller_turn L c).
Proof.
  intros _ Hne. destruct c as [[|e|] [|call r]]; try done; unfold caller_turn; cbn; try by eexists.
  destruct call; try by eexists. case_decide; by eexists.
Qed.

Lemma rest_callers T i c : lt_rest T -> lt_callers T !! i = Some c -> cl_calls c = [].
Proof.
  intros Hrest Hi. destruct (decide (length (cl_calls c) = 0)) as [Hz|Hz]; [by apply length_zero_iff_nil|].
  assert (Hne : cl_calls c <> []) by (intros He; by rewrite He in Hz). exfalso.
  destruct (caller_moves (lt_logger T) c (or_intror Hne) Hne) as [[[[L' c'] new] b] Ht]. destruct T as [L w cs acc].
  by specialize (Hrest _ _ (lt_caller _ w _ acc _ _ _ _ _ _ Hi Ht)).
Qed.

Lemma rest_worker T : lt_rest T -> lt_worker T = Sleeping \/ lt_worker T = Gone.
Proof.
  intros Hrest. destruct T as [L [| |e|] cs acc]; cbn; [exfalso|by left|exfalso|by right].
  - destruct (worker_turn L Testing) as [[L' w']|] eqn:Ht; [by specialize (Hrest _ _ (lt_work _ _ cs acc _ _ Ht))|].
    cbn in Ht. by destruct (worker_take L).
  - by specialize (Hrest _ _ (lt_work L (Writing e) cs acc _ _ eq_refl)).
Qed.

(** The worker leaves with nothing queued. *)
Lemma worker_leaves T T' : lt_step ByWorker T T' -> lt_worker T' = Gone -> log_queue (lt_logger T') = [].
Proof.
  intros Hstep Hw. inversion Hstep as [|L w cs acc L' w' Ht|]; subst; cbn in *. subst w'.
  destruct w as [| |e|]; try done; cbn in Ht. unfold worker_take in Ht.
  destruct (log_queue L) eqn:Hq; [destruct (stopping L)|]; by injection Ht as <-.
Qed.

(** ** Properties *)

(** C19. Any callers with any calls, and the worker, in any interleaving: a run
    has no more turns than the calls can pay for, spurious wake-ups added; the
    sinks hold a prefix of the queued entries, the worker and the queue the
    rest; and when nothing can move any more all calls have returned, and
    either the worker sleeps, nobody has called [shutdown] and every entry is
    in the sinks, or it has left its loop after a [shutdown]; and when it
    leaves, every entry queued by then is in the sinks. *)
Theorem logger_threads_complete L programs n k T :
  log_queue L = [] -> stopping L = false -> lt_run (log_start_threads L programs) n k T ->
  n <= total (total log_call_cost) programs + 1 + k /\
  (exists delivered, pushed T = delivered ++ writing (lt_worker T) ++ log_queue (lt_logger T) /\
     sinks (lt_logger T) = receives delivered <$> sinks L) /\
  (lt_rest T -> (forall i c, lt_callers T !! i = Some c -> cl_calls c = []) /\
     ((lt_worker T = Sleeping /\ stopping (lt_logger T) = false /\ log_queue (lt_logger T) = [] /\
       sinks (lt_logger T) = receives (pushed T) <$> sinks L) \/
      (lt_worker T = Gone /\ stopping (lt_logger T) = true))) /\
  (forall T', lt_step ByWorker T T' -> lt_worker T' = Gone -> sinks (lt_logger T') = receives (pushed T') <$> sinks L).
Proof.
  intros Hq Hst Hrun. pose proof (lt_inv_run L programs n k T Hq Hrun) as Hinv. split_and!.
  - apply lt_run_weight in Hrun. assert (lt_weight (log_start_threads L programs) = total (total log_call_cost) programs + 1); [|lia].
    unfold lt_weight. cbn. rewrite Hq. cbn.
    rewrite start_weight. lia.
  - apply (lt_data _ _ Hinv).
  - intros Hrest. assert (Hcs : forall i c, lt_callers T !! i = Some c -> cl_calls c = []) by (intros i c; by apply rest_callers).
    split; [done|]. assert (Hsg : total signalling (lt_callers T) = 0).
    { apply total_0, Forall_lookup. intros i c Hi. pose proof (lt_placed _ _ Hinv) as Hpl. rewrite Forall_lookup in Hpl.
      destruct (Hpl i c Hi) as [Hc|Hc]; [unfold signalling; by rewrite Hc|by destruct Hc; eapply Hcs]. }
    destruct (rest_worker T Hrest) as [Hw|Hw]; [left|right; split; [done|by apply (lt_gone _ _ Hinv)]].
    destruct (lt_awake _ _ Hinv Hw Hsg) as [He Hs]. destruct (lt_data _ _ Hinv) as (del & Hpu & Hss).
    rewrite Hw, He in Hpu. cbn in Hpu. rewrite app_nil_r in Hpu. subst del. done.
  - intros T' Hstep Hw. destruct (lt_data _ _ (lt_inv_step _ _ _ _ Hinv Hstep)) as (del & Hpu & Hss).
    rewrite Hw, (worker_leaves T T' Hstep Hw) in Hpu. cbn in Hpu. rewrite app_nil_r in Hpu. by subst del.
Qed.

(** ** Witness: an entry is queued while the worker falls asleep *)

(** A schedule without spurious wake-ups: the caller that moves, or the worker. *)
Fixpoint lt_play (who : list (option nat)) (T : log_threads) : option log_threads :=
  match who with
  | [] => Some T
  | Some i :: who' =>
      c ← lt_callers T !! i;
      '(L', c', new, b) ← caller_turn (lt_logger T) c;
      lt_play who' (mkLogThreads L' (if b : bool then wake_worker (lt_worker T) else lt_worker T)
                      (<[i := c']> (lt_callers T)) (pushed T ++ new))
  | None :: who' =>
      '(L', w') ← worker_turn (lt_logger T) (lt_worker T);
      lt_play who' (mkLogThreads L' w' (lt_callers T) (pushed T))
  end.

Lemma lt_play_run T0 who n T T' : lt_run T0 n 0 T -> lt_play who T = Some T' -> lt_run T0 (length who + n) 0 T'.
Proof.
  revert n T. induction who as [|[i|] who IH]; intros n T Hrun; cbn [lt_play length]; [by intros [= <-]| |].
  - destruct (lt_callers T !! i) as [c|] eqn:Hi; cbn; [|done].
    destruct (caller_turn (lt_logger T) c) as [[[[L' c'] new] b]|] eqn:Ht; cbn; [|done].
    intros Hp. rewrite <- Nat.add_succ_r. eapply IH; [|exact Hp]. destruct T as [L w cs acc].
    eapply (lt_run_turn _ _ _ _ ByCaller); [exact Hrun|done|by eapply lt_caller].
  - destruct (worker_turn (lt_logger T) (lt_worker T)) as [[L' w']|] eqn:Ht; cbn; [|done].
    intros Hp. rewrite <- Nat.add_succ_r. eapply IH; [|exact Hp]. destruct T as [L w cs acc].
    eapply (lt_run_turn _ _ _ _ ByWorker); [exact Hrun|done|by eapply lt_work].
Qed.

Definition lt_programs : list (list log_call) :=
  [[CLog WARN "Task" "ready" demo_clock (1, 2)%Z; CShutdown]; [CSetLevel INFO]].
Definition lt_schedule : list (option nat) :=
  [Some 0; None; Some 0; Some 1; Some 0; None; None; None; Some 0; Some 0; None].
Definition lt_end : log_threads := Eval vm_compute in
  match lt_play lt_schedule (log_start_threads demo_logger lt_programs) with Some T => T | None => log_start_threads demo_logger [] end.

Lemma logger_threads_complete_witness :
  11 <= total (total log_call_cost) lt_programs + 1 + 0 /\ lt_worker lt_end = Gone /\ pushed lt_end = [demo_entry] /\
  exists delivered, pushed lt_end = delivered ++ writing (lt_worker lt_end) ++ log_queue (lt_logger lt_end) /\
    sinks (lt_logger lt_end) = receives delivered <$> sinks demo_logger.
Proof.
  destruct (logger_threads_complete demo_logger lt_programs 11 0 lt_end) as (Hn & Hdel & _ & _); [done|done| |].
  - apply (lt_play_run _ lt_schedule 0 (log_start_threads demo_logger lt_programs)); [constructor|]. vm_compute. reflexivity.
  - split_and!; [exact Hn|reflexivity|reflexivity|exact Hdel].
Defined.
