(* ===== verification/Sinks.v ===== *)
(** * Sinks: where the logger's lines end up (logger.cpp, logger.h)

    Logger.v sees a sink as the text that reached it. Here are the three
    classes behind [ILogSink] with the files and streams they write to: how a
    [FileSink] opens its file, what its stream does when a write fails, the
    console, and the socket that is not implemented. The operating system
    decides which attempts to open a file and which writes succeed: these
    answers are the parameters [granted] and [written], one for each attempt. *)

From S2P Require Import Prelude Msg Logger.
#[local] Open Scope Z_scope.
#[local] Open Scope string_scope.
#[local] Open Scope list_scope.

(** ** The host: files, output streams, and how often it was asked *)

Record Host := mkHost {
  files : gmap string string;    (* by path *)
  outputs : gmap string string;  (* std::ostream objects, by name *)
  opens : nat;
  writes : nat
}.

(** The open modes the source uses: [out | app], and [out] alone, which empties
    the file. *)
Inductive open_mode := OutApp | OutOnly.

(** ** The classes *)

(** A [std::ofstream] that is open, and [good] until an operation fails. *)
Record ofstream := mkOfstream { path : string; good : bool }.

Record SocketSink_members := mkSocketSink { sockfd : Z; connected : bool }.

Inductive Device :=
  | DFile (ofs : ofstream)
  | DConsole (std_out : string)
  | DSocket (s : SocketSink_members).

(** *** [FileSink] *)

Section opening.
Context (granted : nat -> bool).
Implicit Types (h : Host).

(** [std::ofstream(path, mode)]: whether it opened, and the file afterwards. *)
Definition open_stream (mode : open_mode) (p : string) h : bool * Host :=
  let h' fs := mkHost fs (outputs h) (S (opens h)) (writes h) in
  if granted (opens h) then
    (true, h' (<[p := match mode with OutApp => default "" (files h !! p) | OutOnly => "" end]> (files h)))
  else (false, h' (files h)).

(** [FileSink::FileSink]; the host keeps what happened when it throws. *)
Definition FileSink_new (p : string) h : result Device * Host :=
  let '(ok, h) := open_stream OutApp p h in
  if ok then (Ok (DFile (mkOfstream p true)), h)
  else
    let '(created, h) := open_stream OutOnly p h in
    if created then
      let '(ok, h) := open_stream OutApp p h in
      if ok then (Ok (DFile (mkOfstream p true)), h)
      else (Err (Thrown ("FileSink: Unable to open log file after creation: " +:+ p)), h)
    else (Err (Thrown ("FileSink: Unable to create log file: " +:+ p)), h).

End opening.

Section devices.
Context (written : nat -> bool).
Implicit Types (h : Host) (d : Device).

(** [FileSink::log]: a stream that has failed ignores what is written. *)
Definition FileSink_log (formatted : string) (ofs : ofstream) h : ofstream * Host :=
  if good ofs then
    let h' fs := mkHost fs (outputs h) (opens h) (S (writes h)) in
    if written (writes h) then
      (ofs, h' (<[path ofs := default "" (files h !! path ofs) +:+ formatted +:+ newline]> (files h)))
    else (mkOfstream (path ofs) false, h' (files h))
  else (ofs, h).

(** *** [ConsoleSink] *)

Definition ConsoleSink_new (out : string) : Device := DConsole out.

Definition ConsoleSink_log (formatted : string) (out : string) h : Host :=
  mkHost (files h) (<[out := default "" (outputs h !! out) +:+ formatted +:+ newline]> (outputs h)) (opens h) (writes h).

(** *** [SocketSink] *)

Definition SocketSink_new (host : string) (port : Z) : Device := DSocket (mkSocketSink (-1) false).

Definition connectWithRetry (host : string) (port retryCount retryDelay_ms : Z) : bool := false.

(** The system calls the destructor makes on a descriptor. *)
Inductive syscall := SysShutdown (fd : Z) | SysClose (fd : Z).

Definition SocketSink_destroy (s : SocketSink_members) : list syscall :=
  if decide (0 <= sockfd s) then [SysShutdown (sockfd s); SysClose (sockfd s)] else [].

Definition SocketSink_log (formatted : string) (s : SocketSink_members) : SocketSink_members := s.

(** *** The virtual call [ILogSink::log], and the loop over all sinks *)

Definition device_log (formatted : string) d h : Device * Host :=
  match d with
  | DFile ofs => let '(ofs', h') := FileSink_log formatted ofs h in (DFile ofs', h')
  | DConsole out => (d, ConsoleSink_log formatted out h)
  | DSocket s => (DSocket (SocketSink_log formatted s), h)
  end.

Fixpoint devices_log (formatted : string) (ds : list Device) h : list Device * Host :=
  match ds with
  | [] => ([], h)
  | d :: ds' =>
      let '(d', h1) := device_log formatted d h in
      let '(ds'', h2) := devices_log formatted ds' h1 in
      (d' :: ds'', h2)
  end.

(** The lines of a list of entries, handed out one after the other. *)
Fixpoint devices_entries (es : list LogEntry) (ds : list Device) h : list Device * Host :=
  match es with
  | [] => (ds, h)
  | e :: es' => let '(ds', h') := devices_log (format_entry e) ds h in devices_entries es' ds' h'
  end.

(** ** What Logger.v sees of a device *)

(** Where a device writes to. *)
Definition place d : option (bool * string) :=
  match d with DFile ofs => Some (true, path ofs) | DConsole out => Some (false, out) | DSocket _ => None end.

Definition text_at (pl : bool * string) h : string := default "" ((if pl.1 then files h else outputs h) !! pl.2).

Definition seen h d : Sink :=
  match d with
  | DFile ofs => mkSink FileSink (text_at (true, path ofs) h)
  | DConsole out => mkSink ConsoleSink (text_at (false, out) h)
  | DSocket _ => mkSink SocketSink ""
  end.

(** No stream has failed. *)
Definition in_order d : Prop := match d with DFile ofs => good ofs = true | _ => True end.

(** Every sink has a place of its own. *)
Definition places (ds : list Device) : list (bool * string) := omap place ds.

Lemma device_log_place line d h : place (device_log line d h).1 = place d.
Proof. destruct d as [ofs|out|s]; cbn; [|done..]. unfold FileSink_log. repeat case_match; by simplify_eq/=. Qed.

Lemma device_log_frame line d h pl :
  place d <> Some pl -> text_at pl (device_log line d h).2 = text_at pl h.
Proof.
  destruct pl as [[] x], d as [ofs|out|s]; cbn; intros Hne; try done; unfold FileSink_log, text_at.
  - destruct (good ofs), (written (writes h)); cbn; try done. rewrite lookup_insert_ne; congruence.
  - by destruct (good ofs), (written (writes h)).
  - cbn. rewrite lookup_insert_ne; congruence.
Qed.

Lemma seen_text h h' d : (forall pl, place d = Some pl -> text_at pl h' = text_at pl h) -> seen h' d = seen h d.
Proof. destruct d as [ofs|out|s]; cbn; intros Hpl; [by rewrite (Hpl _ eq_refl)..|done]. Qed.

(** With every write granted, one device receives the line as Logger.v says. *)
Lemma device_log_seen line d h :
  (forall n, (writes h <= n)%nat -> written n = true) -> in_order d ->
  exists h', device_log line d h = (d, h') /\ seen h' d = sink_log line (seen h d) /\ (writes h <= writes h')%nat.
Proof.
  intros Hw Hd. destruct d as [ofs|out|s]; cbn in *.
  - unfold FileSink_log. rewrite Hd, (Hw (writes h)) by lia. eexists. split; [done|]. unfold sink_log, seen, text_at. cbn.
    rewrite lookup_insert_eq. cbn. split; [done|lia].
  - eexists. split; [done|]. unfold sink_log, seen, text_at, ConsoleSink_log. cbn. rewrite lookup_insert_eq. cbn. split; [done|lia].
  - by exists h.
Qed.

Lemma devices_log_frame line ds h pl :
  pl ∉ places ds -> text_at pl (devices_log line ds h).2 = text_at pl h.
Proof.
  revert h. induction ds as [|d ds IH]; intros h Hpl; [done|]. cbn [devices_log].
  pose proof (device_log_frame line d h pl) as Hf. destruct (device_log line d h) as [d' h1].
  assert (Hds : (pl ∉ places ds) /\ place d <> Some pl).
  { unfold places in Hpl. cbn [omap list_omap] in Hpl. destruct (place d) as [x|]; [|by split].
    apply not_elem_of_cons in Hpl as [Hne Hpl]. split; [exact Hpl|congruence]. }
  destruct Hds as [Hds Hd]. specialize (IH h1 Hds). specialize (Hf Hd).
  destruct (devices_log line ds h1) as [ds'' h2]. cbn [snd] in *. congruence.
Qed.

Lemma devices_log_seen line ds h :
  (forall n, (writes h <= n)%nat -> written n = true) -> Forall in_order ds -> NoDup (places ds) ->
  exists h', devices_log line ds h = (ds, h') /\ seen h' <$> ds = sink_log line <$> (seen h <$> ds) /\ (writes h <= writes h')%nat.
Proof.
  revert h. induction ds as [|d ds IH]; intros h Hw Hok Hnd; [by exists h|].
  apply Forall_cons in Hok as [Hd Hok]. destruct (device_log_seen line d h Hw Hd) as (h1 & Hrun & Hseen & Hn1).
  assert (Hpl : NoDup (places ds) /\ forall pl, place d = Some pl -> (pl ∉ places ds)).
  { unfold places in Hnd. cbn [omap list_omap] in Hnd. destruct (place d) as [x|]; [|by split].
    apply NoDup_cons in Hnd as [Hx Hnd]. split; [exact Hnd|]. by intros pl [= <-]. }
  destruct Hpl as [Hnd' Hd']. destruct (IH h1) as (h2 & Hrun2 & Hseen2 & Hn2); [intros n Hn; apply Hw; lia|done|done|].
  exists h2. cbn [devices_log]. rewrite Hrun, Hrun2. split; [done|]. split; [|lia]. cbn [fmap list_fmap].
  assert (Hs2 : seen h2 d = seen h1 d).
  { apply seen_text. intros pl Hp. pose proof (devices_log_frame line ds h1 pl (Hd' pl Hp)) as Hf. by rewrite Hrun2 in Hf. }
  rewrite Hs2, Hseen. f_equal. change (list_fmap _ _ (seen h2) ds) with (seen h2 <$> ds). rewrite Hseen2.
  change (sink_log line <$> (seen h1 <$> ds) = sink_log line <$> (seen h <$> ds)). f_equal.
  apply list_fmap_ext. intros i y Hy%list_elem_of_lookup_2. apply seen_text. intros pl Hp.
  pose proof (device_log_frame line d h pl) as Hf. rewrite Hrun in Hf. apply Hf. intros Hpd. apply (Hd' pl Hpd).
  apply list_elem_of_omap. by exists y.
Qed.
Lemma devices_entries_seen es ds h :
  (forall n, (writes h <= n)%nat -> written n = true) -> Forall in_order ds -> NoDup (places ds) ->
  exists h', devices_entries es ds h = (ds, h') /\ seen h' <$> ds = receives es <$> (seen h <$> ds).
Proof.
  revert h. induction es as [|e es IH]; intros h Hw Hok Hnd; [exists h; by rewrite fmap_receives_nil|].
  destruct (devices_log_seen (format_entry e) ds h Hw Hok Hnd) as (h1 & Hrun & Hseen & Hn).
  destruct (IH h1) as (h2 & Hrun2 & Hseen2); [intros n Hn'; apply Hw; lia|done|done|].
  exists h2. cbn [devices_entries]. rewrite Hrun. split; [exact Hrun2|]. rewrite Hseen2, Hseen.
  rewrite (list_fmap_ext _ (receives [e]) (seen h <$> ds)) by (intros; apply receives_one). by rewrite fmap_receives_app.
Qed.

Lemma devices_log_places line ds h : places (devices_log line ds h).1 = places ds.
Proof.
  revert h. induction ds as [|d ds IH]; intros h; [done|]. cbn [devices_log].
  pose proof (device_log_place line d h) as Hd. destruct (device_log line d h) as [d' h1].
  specialize (IH h1). destruct (devices_log line ds h1) as [ds'' h2]. unfold places in *.
  cbn [fst omap list_omap] in *. by rewrite Hd, IH.
Qed.

Lemma devices_entries_frame es ds h pl : pl ∉ places ds -> text_at pl (devices_entries es ds h).2 = text_at pl h.
Proof.
  revert ds h. induction es as [|e es IH]; intros ds h Hpl; [done|]. cbn [devices_entries].
  pose proof (devices_log_frame (format_entry e) ds h pl Hpl) as Hf. pose proof (devices_log_places (format_entry e) ds h) as Hp.
  destruct (devices_log (format_entry e) ds h) as [ds1 h1]. cbn [fst snd] in *. rewrite IH; [done|]. by rewrite Hp.
Qed.

Lemma devices_log_one line ofs h :
  devices_log line [DFile ofs] h =
    ([DFile (FileSink_log line ofs h).1], (FileSink_log line ofs h).2).
Proof. cbn. by destruct (FileSink_log line ofs h). Qed.

Lemma failed_stream es ofs h : good ofs = false -> devices_entries es [DFile ofs] h = ([DFile ofs], h).
Proof.
  intros Hg. induction es as [|e es IH]; [done|]. cbn [devices_entries].
  rewrite devices_log_one. unfold FileSink_log. rewrite Hg. exact IH.
Qed.

(** ** Properties *)

(** C23. Destroying the logger leaves every queued line in its file or output:
    if the sinks have different destinations, no stream has failed and every
    write is granted, then each file and each output stream ends with its old
    text followed by the lines of all queued entries in order, which is what
    the worker of the logger does to its sinks before it is joined. *)
Theorem logger_reaches_devices L ds h :
  sinks L = seen h <$> ds -> (forall n, (writes h <= n)%nat -> written n = true) -> Forall in_order ds -> NoDup (places ds) ->
  exists h' L', devices_entries (log_queue L) ds h = (ds, h') /\
    Logger_destroy (length (log_queue L)) L = (L', Exits) /\ sinks L' = seen h' <$> ds /\
    (forall pl, pl ∈ places ds -> text_at pl h' = text_at pl h +:+ lines (log_queue L)) /\
    (forall pl, pl ∉ places ds -> text_at pl h' = text_at pl h).
Proof.
  intros Hs Hw Hok Hnd. destruct (devices_entries_seen (log_queue L) ds h Hw Hok Hnd) as (h' & Hrun & Hseen).
  assert (Hj : Logger_destroy (length (log_queue L)) L =
    (mkLogger (min_level L) (relative_ts L) [] (receives (log_queue L) <$> sinks L) true, Exits)).
  { unfold Logger_destroy. change (log_queue L) with (log_queue (shutdown_logger L)) at 1. by rewrite worker_run_drains. }
  exists h'. eexists. split; [done|]. split; [exact Hj|]. split; [cbn; by rewrite Hs|]. split.
  - intros pl (d & Hd & Hpl)%list_elem_of_omap. apply list_elem_of_lookup in Hd as [i Hi].
    assert (Hd : seen h' d = receives (log_queue L) (seen h d)).
    { apply (f_equal (fun l : list Sink => l !! i)) in Hseen. rewrite !list_lookup_fmap, Hi in Hseen. cbn in Hseen. congruence. }
    destruct d as [ofs|out|s]; cbn in Hpl, Hd; unfold receives in Hd; cbn in Hd; [injection Hpl as <-; congruence..|done].
  - intros pl Hpl. pose proof (devices_entries_frame (log_queue L) ds h pl Hpl) as Hf. by rewrite Hrun in Hf.
Qed.

(** A file sink never reports a failed write: however the system answers,
    logging returns, and the file holds its old text followed by the lines of
    a prefix of the entries. Either the prefix is everything, or the write
    after it was refused, the stream has failed, and all later lines are
    dropped. *)
Theorem file_sink_prefix es ofs h :
  good ofs = true ->
  exists k ofs' h', devices_entries es [DFile ofs] h = ([DFile ofs'], h') /\ (k <= length es)%nat /\
    text_at (true, path ofs) h' = text_at (true, path ofs) h +:+ lines (take k es) /\
    (good ofs' = true -> k = length es) /\
    (good ofs' = false -> written (writes h + k) = false /\
       forall es', devices_entries es' [DFile ofs'] h' = ([DFile ofs'], h')).
Proof.
  revert ofs h. induction es as [|e es IH]; intros ofs h Hg.
  { exists 0%nat, ofs, h. cbn [devices_entries take lines foldr]. rewrite string_app_nil_r, Hg. by split_and!. }
  cbn [devices_entries]. rewrite devices_log_one. unfold FileSink_log. rewrite Hg.
  destruct (written (writes h)) eqn:Hw; cbn [fst snd].
  - set (h1 := mkHost _ _ _ _). destruct (IH ofs h1 Hg) as (k & ofs' & h' & Hrun & Hk & Ht & Hgood & Hbad).
    exists (S k), ofs', h'. cbn [take]. split; [done|]. split; [cbn; lia|]. split; [|split; [intros; cbn; f_equal; auto|]].
    + rewrite Ht. unfold text_at, h1 at 1. cbn [fst snd files]. rewrite lookup_insert_eq. cbn [default from_option id].
      change (lines (e :: take k es)) with (format_entry e +:+ newline +:+ lines (take k es)). by rewrite !string_app_assoc.
    + intros Hb. destruct (Hbad Hb) as [Hr Hrest]. split; [|done]. cbn in Hr. by rewrite <- plus_n_Sm.
  - exists 0%nat, (mkOfstream (path ofs) false). eexists. split; [by apply failed_stream|]. split; [lia|].
    split; [cbn [take lines foldr]; by rewrite string_app_nil_r|]. split; [done|]. intros _. rewrite Nat.add_0_r.
    split; [done|]. intros es'. by apply failed_stream.
Qed.

(** The socket sink does nothing: it never has a descriptor, swallows its
    lines, and closes nothing. *)
Lemma socket_sink_inert host port retries delay line h :
  exists s, SocketSink_new host port = DSocket s /\ device_log line (DSocket s) h = (DSocket s, h) /\
    SocketSink_destroy s = [] /\ connectWithRetry host port retries delay = false.
Proof. by eexists. Qed.
End devices.

Section construction.
Context (granted : nat -> bool).
Implicit Types (h : Host).

(** What constructing a [FileSink] comes to, by what the system answers:
    a first attempt that is granted leaves the file as it was and the sink
    appends to it; if it is refused, the fallback creates the file by opening
    it without [app], which empties a file that was there, and tries again;
    the constructor throws exactly when the fallback is refused, or the second
    attempt, in the latter case with the file emptied. No other file is
    touched. *)
Theorem file_sink_construction p h :
  let '(r, h') := FileSink_new granted p h in
  let old := default "" (files h !! p) in
  (granted (opens h) = true -> r = Ok (DFile (mkOfstream p true)) /\ files h' !! p = Some old) /\
  (granted (opens h) = false -> granted (S (opens h)) = false ->
     r = Err (Thrown ("FileSink: Unable to create log file: " +:+ p)) /\ files h' = files h) /\
  (granted (opens h) = false -> granted (S (opens h)) = true -> files h' !! p = Some "" /\
     r = if granted (S (S (opens h))) then Ok (DFile (mkOfstream p true))
         else Err (Thrown ("FileSink: Unable to open log file after creation: " +:+ p))) /\
  (forall q, q <> p -> files h' !! q = files h !! q) /\ outputs h' = outputs h.
Proof.
  unfold FileSink_new, open_stream. destruct (granted (opens h)) eqn:H1; cbn.
  { split_and!; try done; [intros _; by rewrite lookup_insert_eq|intros q Hq; by rewrite lookup_insert_ne]. }
  destruct (granted (S (opens h))) eqn:H2; cbn; [|by split_and!].
  destruct (granted (S (S (opens h)))) eqn:H3; cbn; split_and!; try done.
  - intros _ _. rewrite lookup_insert_eq. by rewrite lookup_insert_eq.
  - intros q Hq. by rewrite !lookup_insert_ne.
  - intros _ _. by rewrite lookup_insert_eq.
  - intros q Hq. by rewrite lookup_insert_ne.
Qed.
End construction.

(** ** Witnesses *)

Definition demo_host : Host := mkHost {[ "app.log" := "old" +:+ newline ]} ∅ 0 0.
Definition demo_devices : list Device :=
  [DFile (mkOfstream "app.log" true); ConsoleSink_new "std::cout"; SocketSink_new "127.0.0.1" 9000].
Definition demo_pending : Logger :=
  mkLogger INFO false [demo_entry; demo_entry] (seen demo_host <$> demo_devices) false.

Lemma logger_reaches_devices_witness :
  exists h' L', devices_entries (fun _ => true) [demo_entry; demo_entry] demo_devices demo_host = (demo_devices, h') /\
    Logger_destroy 2 demo_pending = (L', Exits) /\
    text_at (true, "app.log") h' = ("old" +:+ newline) +:+ lines [demo_entry; demo_entry].
Proof.
  destruct (logger_reaches_devices (fun _ => true) demo_pending demo_devices demo_host) as (h' & L' & Hrun & Hj & _ & Hin & _).
  - reflexivity.
  - done.
  - by repeat constructor.
  - cbn. repeat constructor; [by intros [=]%list_elem_of_singleton|apply not_elem_of_nil].
  - exists h', L'. split_and!; [exact Hrun|exact Hj|]. apply (Hin (true, "app.log")). apply list_elem_of_here.
Defined.

Lemma file_sink_prefix_witness :
  let written n := bool_decide (n < 1)%nat in
  exists k ofs' h', devices_entries written [demo_entry; demo_entry] [DFile (mkOfstream "app.log" true)] demo_host =
    ([DFile ofs'], h') /\ text_at (true, "app.log") h' = ("old" +:+ newline) +:+ lines (take k [demo_entry; demo_entry]).
Proof.
  intros written. destruct (file_sink_prefix written [demo_entry; demo_entry] (mkOfstream "app.log" true) demo_host eq_refl)
    as (k & ofs' & h' & Hrun & _ & Ht & _). exists k, ofs', h'. split; [exact Hrun|exact Ht].
Defined.
