(* ===== verification/World.v ===== *)
(** * World: the objects of a running system and the operations' monad

    A [World] holds what the member functions of the bus share: the live task
    objects with their fields (task.h, state_manager.h, heart_beat.h), the
    broker's static members (broker.h), the logger, and the clocks. The
    operations of Broker.v, TaskBase.v, StateManager.v and HeartBeat.v are
    functions of the state-and-error monad [M]. *)

From S2P Require Import Prelude Msg Heap QueueSpec Logger.
#[local] Open Scope Z_scope.

(** ** Data *)

(** A task object is named by its address; 0 is the null pointer. A live
    object is one that some [shared_ptr] owns: what a [weak_ptr] to it locks.
    Addresses are not used again for another object. *)
Abbreviation addr := Z (only parsing).
Definition nullptr : addr := 0.

(** Where a [std::thread] stands in [Task::run] or [Task::run_periodic];
    [Unjoinable] is a thread object without a thread. *)
Inductive thread := Unjoinable | LoopHead | InDequeue | Sleeping (until_ns : Z) | Finished.

Definition joinable (th : thread) : bool := match th with Unjoinable => false | _ => true end.

(** [std::map<std::shared_ptr<Task>, V>], in iteration order: by address. *)
Abbreviation ptr_map V := (list (addr * V)) (only parsing).

(** The members [StateManager] adds to [Task]. [sm_current_state] shadows
    [Task::current_state]; neither it nor [target_state] is initialised. *)
Record StateManager := mkStateManager {
  task_states : ptr_map TaskState;
  sm_current_state : option TaskState;
  target_state : option TaskState;
  task_registration_observer : addr
}.

(** [HeartBeatTask::TaskStatus]; time points are in nanoseconds, 0 by default. *)
Record TaskStatus := mkTaskStatus {
  awaiting_response : bool;
  last_heartbeat_id : Z; (* uint32_t *)
  last_heartbeat_time : Z;
  last_response_time : Z
}.

(** The members [HeartBeatTask] adds. *)
Record HeartBeat := mkHeartBeat {
  monitored_tasks : ptr_map TaskStatus;
  state_manager : addr;
  response_timeout_ms : Z;
  next_heartbeat_id : Z; (* uint32_t *)
  unresponsive_action : TaskState
}.

(** The dynamic type of a task, with the members of the derived class. *)
Inductive Derived :=
  | IsStateManager (s : StateManager)
  | IsHeartBeat (h : HeartBeat)
  | IsUserTask.

Record Task (Q : Type) := mkTask {
  name : string;
  current_state : TaskState;
  running : bool;
  queue_thread : thread;
  periodic_thread : thread;
  periodic_task_interval_ms : Z;
  message_queue : Q;
  derived : Derived
}.
Arguments mkTask {Q} _ _ _ _ _ _ _ _.
Arguments name {Q} _.
Arguments current_state {Q} _.
Arguments running {Q} _.
Arguments queue_thread {Q} _.
Arguments periodic_thread {Q} _.
Arguments periodic_task_interval_ms {Q} _.
Arguments message_queue {Q} _.
Arguments derived {Q} _.

(** The static members of [Broker]; a subscriber is a [weak_ptr]. *)
Record Broker := mkBroker {
  initialized : bool;
  subscriber_lists : list (list addr)
}.

(** [clock n] is what the clocks show at the [n]-th time somebody asks. *)
Record World (Q : Type) := mkWorld {
  tasks : gmap addr (Task Q);
  broker : Broker;
  logger : Logger;
  clock : nat -> clock_reading;
  ticks : nat;
  this_thread : Z * Z
}.
Arguments mkWorld {Q} _ _ _ _ _ _.
Arguments tasks {Q} _.
Arguments broker {Q} _.
Arguments logger {Q} _.
Arguments clock {Q} _.
Arguments ticks {Q} _.
Arguments this_thread {Q} _.

(** ** Member updates *)

Section updates.
Context {Q : Type}.
Implicit Types (t : Task Q) (w : World Q).

Definition set_current_state s t := mkTask (name t) s (running t) (queue_thread t)
  (periodic_thread t) (periodic_task_interval_ms t) (message_queue t) (derived t).
Definition set_running b t := mkTask (name t) (current_state t) b (queue_thread t)
  (periodic_thread t) (periodic_task_interval_ms t) (message_queue t) (derived t).
Definition set_queue_thread th t := mkTask (name t) (current_state t) (running t) th
  (periodic_thread t) (periodic_task_interval_ms t) (message_queue t) (derived t).
Definition set_periodic_thread th t := mkTask (name t) (current_state t) (running t)
  (queue_thread t) th (periodic_task_interval_ms t) (message_queue t) (derived t).
Definition set_periodic_interval ms t := mkTask (name t) (current_state t) (running t)
  (queue_thread t) (periodic_thread t) ms (message_queue t) (derived t).
Definition set_message_queue (q : Q) t := mkTask (name t) (current_state t) (running t)
  (queue_thread t) (periodic_thread t) (periodic_task_interval_ms t) q (derived t).
Definition set_derived d t := mkTask (name t) (current_state t) (running t)
  (queue_thread t) (periodic_thread t) (periodic_task_interval_ms t) (message_queue t) d.

Definition set_tasks (ts : gmap addr (Task Q)) w := mkWorld ts (broker w) (logger w) (clock w) (ticks w) (this_thread w).
Definition set_broker b w := mkWorld (tasks w) b (logger w) (clock w) (ticks w) (this_thread w).
Definition set_logger l w := mkWorld (tasks w) (broker w) l (clock w) (ticks w) (this_thread w).
Definition tick w := mkWorld (tasks w) (broker w) (logger w) (clock w) (S (ticks w)) (this_thread w).
End updates.

(** ** The monad *)

Definition M (Q A : Type) : Type := World Q -> result (A * World Q).

#[export] Instance M_ret {Q} : MRet (M Q) := fun A a w => Ok (a, w).
#[export] Instance M_bind {Q} : MBind (M Q) := fun A B f m w =>
  match m w with
  | Ok (a, w') => f a w'
  | Err e => Err e
  end.

Section operations.
Context {Q : Type}.
Implicit Types (t : Task Q) (w : World Q).

Definition gets {A} (f : World Q -> A) : M Q A := fun w => Ok (f w, w).
Definition modify (f : World Q -> World Q) : M Q unit := fun w => Ok (tt, f w).
Definition throw {A} (e : error) : M Q A := fun _ => Err e.
Definition lift {A} (r : result A) : M Q A := fun w => a ← r; Ok (a, w).

(** A member access through a pointer: the object has to be there. *)
Definition dangling : error := UB "member access through a pointer to no object".

Definition get_task (p : addr) : M Q (Task Q) := fun w =>
  match tasks w !! p with
  | Some t => Ok (t, w)
  | None => Err dangling
  end.
Definition put_task (p : addr) t : M Q unit := modify (fun w => set_tasks (<[p := t]> (tasks w)) w).
Definition modify_task (p : addr) (f : Task Q -> Task Q) : M Q unit :=
  t ← get_task p; put_task p (f t).

(** One call of a clock's [now]. *)
Definition now : M Q clock_reading := fun w => Ok (clock w (ticks w), tick w).

(** [Logger::instance().log(level, component, message)]. *)
Definition log_entry (l : LogLevel) (comp msg : string) : M Q unit :=
  c ← now; modify (fun w => set_logger (log l comp msg c (this_thread w) (logger w)) w).

(** [get_name] and [get_current_state]. *)
Definition get_name (p : addr) : M Q string := t ← get_task p; mret (name t).
Definition get_current_state (p : addr) : M Q TaskState := t ← get_task p; mret (current_state t).
Definition is_running (p : addr) : M Q bool := t ← get_task p; mret (running t).

(** A function that may not throw: an exception that reaches it terminates. *)
Definition noexcept {A} (m : M Q A) : M Q A := fun w =>
  match m w with
  | Err (Thrown e) => Err (Terminated e)
  | r => r
  end.

(** [std::weak_ptr::expired]. *)
Definition expired (p : addr) : M Q bool := gets (fun w => negb (bool_decide (is_Some (tasks w !! p)))).

(** [shared_from_this]: throws unless some [shared_ptr] owns the object. *)
Definition shared_from_this (p : addr) : M Q addr :=
  e ← expired p;
  if (e : bool) then throw (Thrown "std::bad_weak_ptr") else mret p.
End operations.

(** ** [std::map] keyed by shared pointers *)

Section ptr_map.
Context {V : Type}.
Implicit Types (m : list (addr * V)).

Fixpoint pm_find (p : addr) m : option V :=
  match m with
  | [] => None
  | (k, v) :: m' => if decide (k = p) then Some v else pm_find p m'
  end.

(** [map[p] = v]. *)
Fixpoint pm_assign (p : addr) (v : V) m : list (addr * V) :=
  match m with
  | [] => [(p, v)]
  | (k, u) :: m' =>
      if decide (p < k) then (p, v) :: (k, u) :: m'
      else if decide (k = p) then (k, v) :: m'
      else (k, u) :: pm_assign p v m'
  end.

(** The invariant of the tree: keys in increasing order. *)
Definition pm_sorted m : Prop := StronglySorted Z.lt m.*1.

Lemma pm_find_elem p v m : pm_sorted m -> pm_find p m = Some v <-> (p, v) ∈ m.
Proof.
  unfold pm_sorted. induction m as [|[k u] m IH]; cbn; intros Hs; [by rewrite elem_of_nil|].
  apply StronglySorted_inv in Hs as [Hs Hlt]. rewrite elem_of_cons. case_decide as Hk.
  - subst. split; [intros [= ->]; by left|]. intros [[= ->]|Hin]; [done|].
    rewrite Forall_forall in Hlt. assert (p < p); [|lia].
    apply Hlt, list_elem_of_fmap. by exists (p, v).
  - rewrite IH by done. split; [by right|]. by intros [[= <- <-]|].
Qed.

Lemma pm_assign_find p p' v m :
  pm_sorted m -> pm_find p' (pm_assign p v m) = if decide (p = p') then Some v else pm_find p' m.
Proof.
  unfold pm_sorted. induction m as [|[k u] m IH]; cbn; intros Hs; [done|].
  apply StronglySorted_inv in Hs as [Hs Hlt].
  destruct (decide (p < k)); cbn; [done|]. destruct (decide (k = p)) as [->|]; cbn.
  - by destruct (decide (p = p')).
  - destruct (decide (k = p')) as [->|]; [|by apply IH]. by rewrite decide_False.
Qed.

Lemma pm_assign_keys p v m k : k ∈ (pm_assign p v m).*1 <-> k = p \/ k ∈ m.*1.
Proof.
  induction m as [|[k' u] m IH]; cbn; [by rewrite elem_of_cons|].
  case_decide; cbn; [by rewrite !elem_of_cons|].
  case_decide; cbn; rewrite !elem_of_cons; [subst; tauto|]. rewrite IH. tauto.
Qed.

Lemma pm_assign_sorted p v m : pm_sorted m -> pm_sorted (pm_assign p v m).
Proof.
  unfold pm_sorted. induction m as [|[k u] m IH]; cbn; intros Hs; [by repeat constructor|].
  apply StronglySorted_inv in Hs as [Hs Hlt]. rewrite Forall_forall in Hlt.
  case_decide as H1; cbn.
  - constructor; [by constructor; [|apply Forall_forall]|]. apply Forall_forall.
    intros x [->|Hx]%elem_of_cons; [done|]. specialize (Hlt x Hx). lia.
  - case_decide as H2; cbn; constructor; try done; [by apply Forall_forall|by apply IH|].
    apply Forall_forall. intros x [->|Hx]%pm_assign_keys; [lia|auto].
Qed.

Lemma pm_find_None p m : pm_find p m = None <-> (p ∉ m.*1).
Proof.
  induction m as [|[k u] m IH]; cbn; [split; [intros _; apply not_elem_of_nil|done]|].
  rewrite not_elem_of_cons. case_decide; [subst; split; [done|by intros []]|].
  rewrite IH. split; [by split|by intros []].
Qed.

Lemma pm_assign_app p v m1 u m2 :
  pm_sorted (m1 ++ (p, u) :: m2) -> pm_assign p v (m1 ++ (p, u) :: m2) = m1 ++ (p, v) :: m2.
Proof.
  unfold pm_sorted. induction m1 as [|[k x] m1 IH]; cbn; intros Hs.
  - rewrite decide_False by lia. by rewrite decide_True.
  - apply StronglySorted_inv in Hs as [Hs Hlt].
    assert (k < p).
    { rewrite Forall_forall in Hlt. apply Hlt. rewrite fmap_app. apply elem_of_app. right.
      apply list_elem_of_here. }
    rewrite !decide_False by lia. by rewrite IH.
Qed.
End ptr_map.

(** ** Running a computation of the monad *)

Section run.
Context {Q : Type}.
Implicit Types (t : Task Q) (w : World Q).

Lemma M_bind_Ok {A B} (m : M Q A) (f : A -> M Q B) w a w' :
  m w = Ok (a, w') -> (m ≫= f) w = f a w'.
Proof. unfold mbind, M_bind. by intros ->. Qed.

Lemma M_bind_Err {A B} (m : M Q A) (f : A -> M Q B) w e :
  m w = Err e -> (m ≫= f) w = Err e.
Proof. unfold mbind, M_bind. by intros ->. Qed.

(** The world after a call of the logger. *)
Definition logged (l : LogLevel) (comp msg : string) w : World Q :=
  set_logger (log l comp msg (clock w (ticks w)) (this_thread w) (logger w)) (tick w).

Lemma log_entry_run l comp msg w : log_entry l comp msg w = Ok (tt, logged l comp msg w).
Proof. done. Qed.

Lemma get_task_run p t w : tasks w !! p = Some t -> get_task p w = Ok (t, w).
Proof. unfold get_task. by intros ->. Qed.

Lemma get_task_dangling p w : tasks w !! p = None -> get_task p w = Err dangling.
Proof. unfold get_task. by intros ->. Qed.

Lemma get_name_run p t w : tasks w !! p = Some t -> get_name p w = Ok (name t, w).
Proof. intros Ht. unfold get_name. by rewrite (M_bind_Ok _ _ _ _ _ (get_task_run p t w Ht)). Qed.

Lemma modify_task_run p f t w :
  tasks w !! p = Some t -> modify_task p f w = Ok (tt, set_tasks (<[p := f t]> (tasks w)) w).
Proof. intros Ht. unfold modify_task. by rewrite (M_bind_Ok _ _ _ _ _ (get_task_run p t w Ht)). Qed.

Lemma expired_live p t w : tasks w !! p = Some t -> expired p w = Ok (false, w).
Proof. intros Ht. unfold expired, gets. by rewrite Ht. Qed.

Lemma expired_dead p w : tasks w !! p = None -> expired p w = Ok (true, w).
Proof. intros Ht. unfold expired, gets. by rewrite Ht. Qed.

Lemma shared_from_this_run p t w : tasks w !! p = Some t -> shared_from_this p w = Ok (p, w).
Proof.
  intros Ht. unfold shared_from_this. by rewrite (M_bind_Ok _ _ _ _ _ (expired_live p t w Ht)).
Qed.

Lemma shared_from_this_expired p w :
  tasks w !! p = None -> shared_from_this p w = Err (Thrown "std::bad_weak_ptr").
Proof.
  intros Ht. unfold shared_from_this. by rewrite (M_bind_Ok _ _ _ _ _ (expired_dead p w Ht)).
Qed.
End run.

(** ** Mailboxes: the tasks' queues as abstract queues *)

Section mailboxes.
Context {Q : Type} `{QueueImpl Q}.
Implicit Types (t : Task Q) (w : World Q) (mb : gmap addr aqueue).

(** [mb] holds, for every live task, the abstract queue its queue stands for. *)
Definition mailboxes w mb : Prop :=
  forall p, option_Forall2 (fun t a => q_view (message_queue t) a) (tasks w !! p) (mb !! p).

(** [w'] differs from [w] in the contents of message queues at most, as far
    as the tasks are concerned. *)
Definition only_mail w w' : Prop :=
  forall p, option_Forall2 (fun t t' => t' = set_message_queue (message_queue t') t)
              (tasks w !! p) (tasks w' !! p).

Lemma mailboxes_task w mb p a :
  mailboxes w mb -> mb !! p = Some a -> exists t, tasks w !! p = Some t /\ q_view (message_queue t) a.
Proof. intros Hmb Ha. specialize (Hmb p). rewrite Ha in Hmb. inversion Hmb; subst. eauto. Qed.

Lemma mailboxes_live w mb p : mailboxes w mb -> is_Some (mb !! p) <-> is_Some (tasks w !! p).
Proof.
  intros Hmb. specialize (Hmb p). inversion Hmb as [t a Hv Ht Ha|Ht Ha]; split; intros [? [=]]; eauto.
Qed.

Lemma mailboxes_update w mb p t q a :
  mailboxes w mb -> q_view q a ->
  mailboxes (set_tasks (<[p := set_message_queue q t]> (tasks w)) w) (<[p := a]> mb).
Proof.
  intros Hmb Hq p'. cbn. destruct (decide (p = p')) as [<-|Hne].
  - rewrite !lookup_insert_eq. by constructor.
  - rewrite !lookup_insert_ne by done. apply Hmb.
Qed.

Lemma mailboxes_tasks w w' mb : tasks w' = tasks w -> mailboxes w mb -> mailboxes w' mb.
Proof. unfold mailboxes. by intros ->. Qed.

(** Changing fields of a task other than its queue. *)
Lemma mailboxes_fields w mb p t t' :
  tasks w !! p = Some t -> message_queue t' = message_queue t ->
  mailboxes w mb -> mailboxes (set_tasks (<[p := t']> (tasks w)) w) mb.
Proof.
  intros Ht Hq Hmb p'. specialize (Hmb p'). cbn. destruct (decide (p = p')) as [<-|Hne].
  - rewrite lookup_insert_eq. rewrite Ht in Hmb. inversion Hmb; subst. constructor. by rewrite Hq.
  - by rewrite lookup_insert_ne.
Qed.

Lemma only_mail_refl w w' : tasks w' = tasks w -> only_mail w w'.
Proof. intros Ht p. rewrite Ht. destruct (tasks w !! p) as [[]|]; by constructor. Qed.

Lemma only_mail_trans w1 w2 w3 : only_mail w1 w2 -> only_mail w2 w3 -> only_mail w1 w3.
Proof.
  intros H12 H23 p. specialize (H12 p). specialize (H23 p).
  inversion H12 as [t1 t2 Ht Ht1 Ht2|Ht1 Ht2]; rewrite <- Ht2 in H23; inversion H23 as [t t3 Ht' Hz Hw|]; subst;
    constructor. rewrite Ht', Ht. done.
Qed.

Lemma only_mail_update w p t q :
  tasks w !! p = Some t -> only_mail w (set_tasks (<[p := set_message_queue q t]> (tasks w)) w).
Proof.
  intros Ht p'. cbn. destruct (decide (p = p')) as [<-|Hne].
  - rewrite lookup_insert_eq, Ht. by constructor.
  - rewrite lookup_insert_ne by done. destruct (tasks w !! p') as [[]|]; by constructor.
Qed.

Lemma only_mail_lookup w w' p t :
  only_mail w w' -> tasks w !! p = Some t -> exists q, tasks w' !! p = Some (set_message_queue q t).
Proof.
  intros Hm Ht. specialize (Hm p). rewrite Ht in Hm. inversion Hm as [? t' Heq|]; subst.
  exists (message_queue t'). congruence.
Qed.
(** Queues apart, only the tasks of [l] have changed. *)
Definition mail_except (l : list addr) w w' : Prop :=
  forall p, p ∉ l -> option_Forall2 (fun t t' => t' = set_message_queue (message_queue t') t)
                       (tasks w !! p) (tasks w' !! p).

Lemma mail_except_refl l w w' : (forall p, p ∉ l -> tasks w' !! p = tasks w !! p) -> mail_except l w w'.
Proof. intros Hl p Hp. rewrite (Hl p Hp). destruct (tasks w !! p) as [[]|]; by constructor. Qed.

Lemma mail_except_mail l w w' : only_mail w w' -> mail_except l w w'.
Proof. intros Hm p _. apply Hm. Qed.

Lemma mail_except_trans l w1 w2 w3 : mail_except l w1 w2 -> mail_except l w2 w3 -> mail_except l w1 w3.
Proof.
  intros H12 H23 p Hp. specialize (H12 p Hp). specialize (H23 p Hp).
  inversion H12 as [t1 t2 Ht Ht1 Ht2|Ht1 Ht2]; rewrite <- Ht2 in H23; inversion H23 as [t t3 Ht' Hz Hw|]; subst;
    constructor. rewrite Ht', Ht. done.
Qed.

Lemma mail_except_lookup l w w' p t :
  mail_except l w w' -> (p ∉ l) -> tasks w !! p = Some t -> exists q, tasks w' !! p = Some (set_message_queue q t).
Proof.
  intros Hm Hp Ht. specialize (Hm p Hp). rewrite Ht in Hm. inversion Hm as [? t' Heq|]; subst.
  exists (message_queue t'). congruence.
Qed.

End mailboxes.
#[export] Hint Resolve mailboxes_update only_mail_refl only_mail_update : bus.
