(* ===== verification/Broker.v ===== *)
(** * Broker: subscriptions and delivery (broker.h)

    [initialize], [publish], [subscribe] and [deliver_message] over the
    subscriber lists of a [World]. The abstract bus keeps the same lists and
    the abstract queue of every live task; the theorems are proved for any
    implementation of the queue interface. *)

From S2P Require Import Prelude Msg Heap QueueSpec Logger World.
#[local] Open Scope Z_scope.

(** ** Operations *)

Section operations.
Context {Q : Type} `{QueueImpl Q}.
Implicit Types (t : Task Q) (w : World Q).

(** [Broker::MESSAGE_TYPE_COUNT]. *)
Definition MESSAGE_TYPE_COUNT : Z := variant_size.

(** The static members before [main]. *)
Definition Broker_static : Broker := mkBroker false (replicate (Z.to_nat MESSAGE_TYPE_COUNT) []).

(** The default argument of [initialize]. *)
Definition DEFAULT_MAX_SUBSCRIBERS : Z := 16.

(** [reserve] changes capacities only. *)
Definition initialize (max_subscribers : Z) : M Q unit :=
  modify (fun w => set_broker (mkBroker true (subscriber_lists (broker w))) w).

Definition deliver_message (target : addr) (m : Msg) : M Q unit :=
  sender_name ← (if decide (get_sender m = nullptr) then mret "UnknownSender"%string
                 else get_name (get_sender m));
  _ ← log_entry MSG_TRAFFIC sender_name (Msg_str m);
  t ← get_task target;
  q ← lift (q_enqueue (message_queue t) m);
  put_task target (set_message_queue q t).

(** The checks [publish] and [subscribe] start with; the result is the index. *)
Definition type_index (ty : MsgType) : M Q nat :=
  b ← gets broker;
  _ ← lift (assert_that (initialized b = true) "Broker not initialized!");
  let index := u64 ty in
  _ ← lift (assert_that (index < MESSAGE_TYPE_COUNT) "Invalid message type!");
  mret (Z.to_nat index).

(** The loop of [publish] over the list from the iterator on; the result is
    what is left of it. *)
Fixpoint publish_loop (subscribers : list addr) (m : Msg) : M Q (list addr) :=
  match subscribers with
  | [] => mret []
  | p :: rest =>
      e ← expired p;
      if (e : bool) then publish_loop rest m
      else
        _ ← deliver_message p m;
        kept ← publish_loop rest m;
        mret (p :: kept)
  end.

Definition subscribers_of (i : nat) : M Q (list addr) :=
  gets (fun w => default [] (subscriber_lists (broker w) !! i)).
Definition set_subscribers (i : nat) (l : list addr) : M Q unit :=
  modify (fun w => set_broker
    (mkBroker (initialized (broker w)) (<[i := l]> (subscriber_lists (broker w)))) w).

Definition publish (m : Msg) : M Q unit :=
  i ← type_index (get_type m);
  subscribers ← subscribers_of i;
  kept ← publish_loop subscribers m;
  set_subscribers i kept.

(** The predicate of [std::find_if] in [subscribe]. *)
Definition subscribed_as (task : addr) (wp : addr) : M Q bool :=
  e ← expired wp;
  mret (negb e && bool_decide (wp = task)).

Fixpoint find_if (task : addr) (subscribers : list addr) : M Q bool :=
  match subscribers with
  | [] => mret false
  | wp :: rest =>
      b ← subscribed_as task wp;
      if (b : bool) then mret true else find_if task rest
  end.

Definition subscribe (task : addr) (ty : MsgType) : M Q unit :=
  i ← type_index ty;
  subscribers ← subscribers_of i;
  found ← find_if task subscribers;
  if (found : bool) then mret tt else set_subscribers i (subscribers ++ [task]).
End operations.

(** ** The abstract bus *)

Record bus := mkBus {
  bus_on : bool;
  bus_subs : list (list addr);
  bus_mail : gmap addr aqueue
}.

Definition known_sender (mb : gmap addr aqueue) (m : Msg) : Prop :=
  get_sender m = nullptr \/ is_Some (mb !! get_sender m).

#[export] Instance known_sender_dec mb m : Decision (known_sender mb m).
Proof. unfold known_sender. apply _. Defined.

(** Enqueue in the mailbox of [p]; the name of the sender is asked first. *)
Definition bus_deliver (p : addr) (m : Msg) (mb : gmap addr aqueue) : result (gmap addr aqueue) :=
  if decide (known_sender mb m) then
    match mb !! p with
    | None => Err dangling
    | Some a => a' ← aq_enqueue a m; Ok (<[p := a']> mb)
    end
  else Err dangling.

(** Deliver to the live addresses of [l], in order. *)
Fixpoint bus_post (l : list addr) (m : Msg) (mb : gmap addr aqueue) : result (gmap addr aqueue) :=
  match l with
  | [] => Ok mb
  | p :: rest =>
      if decide (is_Some (mb !! p)) then mb' ← bus_deliver p m mb; bus_post rest m mb'
      else bus_post rest m mb
  end.

Definition live_in (mb : gmap addr aqueue) (l : list addr) : list addr :=
  base.filter (fun p => is_Some (mb !! p)) l.

Definition bus_index (b : bus) (ty : MsgType) : result nat :=
  _ ← assert_that (bus_on b = true) "Broker not initialized!";
  _ ← assert_that (u64 ty < MESSAGE_TYPE_COUNT) "Invalid message type!";
  Ok (Z.to_nat (u64 ty)).

Definition bus_publish (b : bus) (m : Msg) : result bus :=
  i ← bus_index b (get_type m);
  let l := default [] (bus_subs b !! i) in
  mb ← bus_post l m (bus_mail b);
  Ok (mkBus (bus_on b) (<[i := live_in (bus_mail b) l]> (bus_subs b)) mb).

Definition bus_subscribe (b : bus) (p : addr) (ty : MsgType) : result bus :=
  i ← bus_index b ty;
  let l := default [] (bus_subs b !! i) in
  if decide (p ∈ live_in (bus_mail b) l) then Ok b
  else Ok (mkBus (bus_on b) (<[i := l ++ [p]]> (bus_subs b)) (bus_mail b)).

(** ** Facts about the abstract bus *)

Lemma live_in_insert mb p a l : is_Some (mb !! p) -> live_in (<[p := a]> mb) l = live_in mb l.
Proof.
  intros Hp. unfold live_in. apply list_filter_iff. intros x.
  destruct (decide (p = x)) as [<-|]; [by rewrite lookup_insert_eq|by rewrite lookup_insert_ne].
Qed.

Lemma live_in_cons_dead mb p l : mb !! p = None -> live_in mb (p :: l) = live_in mb l.
Proof. intros Hp. unfold live_in. apply filter_cons_False. rewrite Hp. by intros []. Qed.

Lemma live_in_cons_live mb p a l : mb !! p = Some a -> live_in mb (p :: l) = p :: live_in mb l.
Proof. intros Hp. unfold live_in. apply filter_cons_True. rewrite Hp. by eexists. Qed.

Lemma elem_of_live_in mb p l : p ∈ live_in mb l <-> (p ∈ l) /\ is_Some (mb !! p).
Proof. unfold live_in. rewrite list_elem_of_filter. tauto. Qed.

(** The mailbox after one more message. *)
Definition received (m : Msg) (a : aqueue) : aqueue :=
  mkAqueue (aq_items a ++ [m]) (aq_capacity a) (aq_closed a) (aq_ticks a + 1).

Definition has_room (a : aqueue) : Prop := (length (aq_items a) < aq_capacity a)%nat.

#[export] Instance has_room_dec a : Decision (has_room a).
Proof. unfold has_room. apply _. Defined.

Lemma aq_enqueue_room a m : has_room a -> aq_enqueue a m = Ok (received m a).
Proof. intros Hr. unfold aq_enqueue. by rewrite decide_True. Qed.

Lemma aq_enqueue_no_room a m : ~ has_room a -> aq_enqueue a m = Err queue_full.
Proof. intros Hr. unfold aq_enqueue. by rewrite decide_False. Qed.

Lemma bus_deliver_room p m mb a :
  known_sender mb m -> mb !! p = Some a -> has_room a ->
  bus_deliver p m mb = Ok (<[p := received m a]> mb).
Proof.
  intros Hs Ha Hr. unfold bus_deliver. rewrite decide_True by done. rewrite Ha.
  by rewrite aq_enqueue_room.
Qed.

Lemma bus_deliver_Ok p m mb mb' :
  bus_deliver p m mb = Ok mb' ->
  exists a, known_sender mb m /\ mb !! p = Some a /\ has_room a /\ mb' = <[p := received m a]> mb.
Proof.
  unfold bus_deliver. case_decide; [|done]. destruct (mb !! p) as [a|]; [|done].
  unfold aq_enqueue. case_decide; [|done]. intros [= <-]. by exists a.
Qed.

Lemma known_sender_insert mb m p a : known_sender mb m -> known_sender (<[p := a]> mb) m.
Proof.
  intros [Hn|[b Hb]]; [by left|right]. destruct (decide (p = get_sender m)) as [->|].
  - rewrite lookup_insert_eq. by eexists.
  - rewrite lookup_insert_ne by done. by eexists.
Qed.

Lemma decide_cons {A} (x p : addr) l (u v : A) :
  p <> x -> (if decide (p ∈ l) then u else v) = (if decide (p ∈ x :: l) then u else v).
Proof.
  intros Hne. destruct (decide (p ∈ l)) as [Hl|Hl].
  - by rewrite decide_True by (by apply list_elem_of_further).
  - rewrite decide_False; [done|]. by intros [|]%elem_of_cons.
Qed.

(** A post to different addresses with room reaches each live one once. *)
Lemma bus_post_room l m mb :
  NoDup l -> known_sender mb m -> (forall p a, p ∈ l -> mb !! p = Some a -> has_room a) ->
  exists mb', bus_post l m mb = Ok mb'.
Proof.
  revert mb. induction l as [|x l IH]; intros mb Hnd Hs Hroom; cbn; [by exists mb|].
  apply NoDup_cons in Hnd as [Hx Hnd]. case_decide as Hl.
  - destruct Hl as [a Ha]. assert (Hr : has_room a) by (apply (Hroom x); [apply list_elem_of_here|done]).
    rewrite (bus_deliver_room _ _ _ _ Hs Ha Hr). cbn. apply IH; [done|by apply known_sender_insert|].
    intros p a' Hp. rewrite lookup_insert_ne by (by intros ->). apply Hroom. by apply list_elem_of_further.
  - apply IH; [done..|]. intros p a' Hp. apply Hroom. by apply list_elem_of_further.
Qed.

Lemma bus_post_Ok l m mb mb' :
  NoDup l -> bus_post l m mb = Ok mb' ->
  forall p, mb' !! p = if decide (p ∈ l) then received m <$> mb !! p else mb !! p.
Proof.
  revert mb. induction l as [|x l IH]; intros mb Hnd Hp; cbn in Hp; intros p.
  { injection Hp as <-. by rewrite decide_False by apply not_elem_of_nil. }
  apply NoDup_cons in Hnd as [Hx Hnd]. case_decide as Hl.
  - inv_bind. destruct (bus_deliver_Ok _ _ _ _ ltac:(eassumption)) as (a & _ & Ha & _ & ->).
    rewrite (IH _ Hnd ltac:(eassumption)). destruct (decide (p = x)) as [->|Hne].
    + rewrite decide_False by done. rewrite decide_True by apply list_elem_of_here.
      by rewrite lookup_insert_eq, Ha.
    + rewrite lookup_insert_ne by done. apply decide_cons. done.
  - rewrite (IH _ Hnd Hp). destruct (decide (p = x)) as [->|Hne].
    + rewrite decide_False by done. rewrite decide_True by apply list_elem_of_here.
      by destruct (mb !! x); [destruct Hl|].
    + apply decide_cons. done.
Qed.

(** A full mailbox among them aborts the post. *)
Lemma bus_post_full l m mb p a :
  known_sender mb m -> p ∈ l -> mb !! p = Some a -> ~ has_room a -> bus_post l m mb = Err queue_full.
Proof.
  revert mb a. induction l as [|x l IH]; intros mb a Hs Hp Ha Hfull; [by apply elem_of_nil in Hp|].
  cbn. destruct (decide (x = p)) as [->|Hne].
  - rewrite decide_True by (rewrite Ha; by eexists). unfold bus_deliver.
    rewrite decide_True, Ha by done. by rewrite (aq_enqueue_no_room a m Hfull).
  - apply elem_of_cons in Hp as [->|Hp]; [done|]. case_decide as Hl; [|by eapply IH].
    destruct Hl as [b Hb]. destruct (decide (has_room b)) as [Hr|Hr].
    + rewrite (bus_deliver_room _ _ _ _ Hs Hb Hr). cbn.
      apply (IH _ a); [by apply known_sender_insert|done| |done]. by rewrite lookup_insert_ne.
    + unfold bus_deliver. rewrite decide_True, Hb by done. by rewrite (aq_enqueue_no_room b m Hr).
Qed.

Section refinement.
Context {Q : Type} `{QueueImpl Q}.
Implicit Types (t : Task Q) (w : World Q).

(** The name [deliver_message] logs. *)
Definition sender_name w (m : Msg) : string :=
  if decide (get_sender m = nullptr) then "UnknownSender"
  else match tasks w !! get_sender m with Some t => name t | None => "" end.

(** The world after the message has been put into the queue of [p]. *)
Definition delivered (p : addr) (q : Q) t (m : Msg) w : World Q :=
  set_tasks (<[p := set_message_queue q t]> (tasks w)) (logged MSG_TRAFFIC (sender_name w m) (Msg_str m) w).

Lemma dead_task w mb p : mailboxes w mb -> mb !! p = None -> tasks w !! p = None.
Proof. intros Hmb Hp. specialize (Hmb p). rewrite Hp in Hmb. by inversion Hmb. Qed.

Lemma deliver_prefix target m w mb :
  mailboxes w mb -> known_sender mb m ->
  deliver_message target m w =
    (t ← get_task target; q ← lift (q_enqueue (message_queue t) m); put_task target (set_message_queue q t))
      (logged MSG_TRAFFIC (sender_name w m) (Msg_str m) w).
Proof.
  intros Hmb Hs. unfold deliver_message, sender_name.
  rewrite (M_bind_Ok _ _ _ (sender_name w m) w).
  - by rewrite (M_bind_Ok _ _ _ _ _ (log_entry_run _ _ _ _)).
  - unfold sender_name. case_decide as Hn; [done|].
    destruct Hs as [|[s Hs]]; [done|]. destruct (mailboxes_task w mb _ s Hmb Hs) as (t & Ht & _).
    rewrite Ht. by apply get_name_run.
Qed.

(** [deliver_message] does what [bus_deliver] says, errors included. *)
Lemma deliver_message_view target m w mb :
  mailboxes w mb -> msg_wf m ->
  (forall a, mb !! target = Some a -> aq_ticks a < 2 ^ 32 - 1) ->
  match bus_deliver target m mb with
  | Ok mb' => exists q t, tasks w !! target = Some t /\ q_enqueue (message_queue t) m = Ok q /\
      deliver_message target m w = Ok (tt, delivered target q t m w) /\
      mailboxes (delivered target q t m w) mb'
  | Err e => deliver_message target m w = Err e
  end.
Proof.
  intros Hmb Hwf Ht. unfold bus_deliver. destruct (decide (known_sender mb m)) as [Hs|Hs].
  - rewrite (deliver_prefix target m w mb Hmb Hs). set (w1 := logged _ _ _ w).
    destruct (mb !! target) as [a|] eqn:Ha.
    + destruct (mailboxes_task w mb target a Hmb Ha) as (t & Htask & Hv).
      rewrite (M_bind_Ok _ _ w1 t w1 (get_task_run target t w1 Htask)). unfold lift.
      destruct (aq_enqueue a m) as [a'|e] eqn:He; cbn.
      * destruct (q_enqueue_ok _ _ _ _ Hv Hwf (Ht a eq_refl) He) as (q & Hq & Hv').
        exists q, t. split_and!; [done|done| |by apply (mailboxes_update w1)].
        by rewrite (M_bind_Ok _ _ _ q w1) by (by rewrite Hq).
      * by rewrite (M_bind_Err _ _ _ e) by (by rewrite (q_enqueue_full _ _ _ _ Hv He)).
    + apply (M_bind_Err _ _ w1), get_task_dangling. by eapply dead_task.
  - unfold known_sender in Hs. unfold deliver_message. apply M_bind_Err.
    rewrite decide_False by (intros Hn; apply Hs; by left).
    unfold get_name. apply M_bind_Err, get_task_dangling, (dead_task w mb); [done|].
    destruct (mb !! get_sender m) eqn:Hl; [|done]. destruct Hs. right. by eexists.
Qed.

Lemma bus_deliver_lookup p m mb mb' p' :
  bus_deliver p m mb = Ok mb' -> p' <> p -> mb' !! p' = mb !! p'.
Proof. intros (a & _ & _ & _ & ->)%bus_deliver_Ok Hne. by rewrite lookup_insert_ne. Qed.

Lemma bus_deliver_live_in p m mb mb' l : bus_deliver p m mb = Ok mb' -> live_in mb' l = live_in mb l.
Proof. intros (a & _ & Ha & _ & ->)%bus_deliver_Ok. apply live_in_insert. by rewrite Ha. Qed.

Lemma publish_loop_view l m w mb :
  mailboxes w mb -> msg_wf m -> NoDup l ->
  (forall p a, p ∈ l -> mb !! p = Some a -> aq_ticks a < 2 ^ 32 - 1) ->
  match bus_post l m mb with
  | Ok mb' => exists w', publish_loop l m w = Ok (live_in mb l, w') /\ mailboxes w' mb' /\
      only_mail w w' /\ broker w' = broker w
  | Err e => publish_loop l m w = Err e
  end.
Proof.
  revert w mb. induction l as [|p l IH]; intros w mb Hmb Hwf Hnd Ht; cbn [bus_post publish_loop].
  { exists w. split_and!; try done. by apply only_mail_refl. }
  apply NoDup_cons in Hnd as [Hp Hnd].
  assert (Ht' : forall p' a, p' ∈ l -> mb !! p' = Some a -> aq_ticks a < 2 ^ 32 - 1)
    by (intros p' a Hp'; apply Ht; by apply list_elem_of_further).
  destruct (decide (is_Some (mb !! p))) as [[a Ha]|Hdead].
  - destruct (mailboxes_task w mb p a Hmb Ha) as (t0 & Ht0 & _).
    rewrite (M_bind_Ok _ _ _ _ _ (expired_live p t0 w Ht0)).
    pose proof (deliver_message_view p m w mb Hmb Hwf (fun b => Ht p b (list_elem_of_here _ _))) as Hdel.
    destruct (bus_deliver p m mb) as [mb1|e] eqn:Hd; cbn [mbind result_bind];
      [|by rewrite (M_bind_Err _ _ _ _ Hdel)].
    destruct Hdel as (q & t & Htask & _ & Hrun & Hmb1). rewrite (M_bind_Ok _ _ _ _ _ Hrun).
    set (w1 := delivered p q t m w) in *.
    assert (Hom : only_mail w w1) by (by apply (only_mail_update (logged _ _ _ w))).
    assert (Ht1 : forall p' b, p' ∈ l -> mb1 !! p' = Some b -> aq_ticks b < 2 ^ 32 - 1).
    { intros p' b Hp'. rewrite (bus_deliver_lookup _ _ _ _ p' Hd) by (by intros ->). by apply Ht'. }
    specialize (IH w1 mb1 Hmb1 Hwf Hnd Ht1).
    destruct (bus_post l m mb1) as [mb'|e]; [|by rewrite (M_bind_Err _ _ _ _ IH)].
    destruct IH as (w' & Hl & Hm' & Hom' & Hbr). exists w'.
    rewrite (M_bind_Ok _ _ _ _ _ Hl), (live_in_cons_live mb p a l Ha), (bus_deliver_live_in p m mb mb1 l Hd).
    split_and!; [done|done| |by rewrite Hbr]. by eapply only_mail_trans.
  - apply eq_None_not_Some in Hdead.
    rewrite (M_bind_Ok _ _ _ _ _ (expired_dead p w (dead_task w mb p Hmb Hdead))).
    specialize (IH w mb Hmb Hwf Hnd Ht'). by rewrite (live_in_cons_dead mb p l Hdead).
Qed.

Definition bus_view w (b : bus) : Prop :=
  bus_on b = initialized (broker w) /\ bus_subs b = subscriber_lists (broker w) /\
  mailboxes w (bus_mail b).

Lemma type_index_view w b ty :
  bus_view w b ->
  match bus_index b ty with
  | Ok i => type_index ty w = Ok (i, w)
  | Err e => type_index ty w = Err e
  end.
Proof.
  intros (Hon & _ & _). unfold bus_index, type_index, lift, gets, assert_that.
  rewrite Hon. unfold mbind, M_bind, result_bind. destruct (initialized (broker w)); [|done].
  rewrite decide_True by done. by destruct (decide (u64 ty < MESSAGE_TYPE_COUNT)).
Qed.

Lemma subscribers_of_view w b i :
  bus_view w b -> subscribers_of i w = Ok (default [] (bus_subs b !! i), w).
Proof. intros (_ & -> & _). done. Qed.

Lemma find_if_view task l w mb :
  mailboxes w mb -> find_if task l w = Ok (bool_decide (task ∈ live_in mb l), w).
Proof.
  intros Hmb. induction l as [|p l IH]; cbn [find_if].
  { rewrite bool_decide_false; [done|]. apply not_elem_of_nil. }
  unfold subscribed_as. destruct (mb !! p) as [a|] eqn:Ha.
  - destruct (mailboxes_task w mb p a Hmb Ha) as (t & Ht & _).
    rewrite (M_bind_Ok _ _ _ (bool_decide (p = task)) w)
      by (by rewrite (M_bind_Ok _ _ _ _ _ (expired_live p t w Ht))).
    rewrite (live_in_cons_live mb p a l Ha). destruct (decide (p = task)) as [Hp|Hp].
    + rewrite (bool_decide_true (p = task)) by done.
      rewrite bool_decide_true; [done|]. subst. apply list_elem_of_here.
    + rewrite (bool_decide_false (p = task)) by done.
      rewrite IH. do 2 f_equal. apply bool_decide_ext. rewrite elem_of_cons. split; [by right|]. by intros [->|].
  - rewrite (M_bind_Ok _ _ _ false w)
      by (by rewrite (M_bind_Ok _ _ _ _ _ (expired_dead p w (dead_task w mb p Hmb Ha)))).
    by rewrite (live_in_cons_dead mb p l Ha).
Qed.

Lemma initialize_view n w b :
  bus_view w b -> exists w', initialize n w = Ok (tt, w') /\
    bus_view w' (mkBus true (bus_subs b) (bus_mail b)) /\ tasks w' = tasks w.
Proof. intros (Hon & Hs & Hm). by eexists. Qed.

Lemma subscribe_view p ty w b :
  bus_view w b ->
  match bus_subscribe b p ty with
  | Ok b' => exists w', subscribe p ty w = Ok (tt, w') /\ bus_view w' b' /\ tasks w' = tasks w
  | Err e => subscribe p ty w = Err e
  end.
Proof.
  intros Hv. pose proof (type_index_view w b ty Hv) as Hi. unfold bus_subscribe, subscribe.
  destruct (bus_index b ty) as [i|e]; cbn [mbind result_bind]; [|by apply M_bind_Err].
  rewrite (M_bind_Ok _ _ _ _ _ Hi), (M_bind_Ok _ _ _ _ _ (subscribers_of_view w b i Hv)).
  set (l := default [] (bus_subs b !! i)). pose proof Hv as (Hon & Hs & Hm).
  rewrite (M_bind_Ok _ _ _ _ _ (find_if_view p l w (bus_mail b) Hm)).
  case_decide as Hin; [rewrite bool_decide_true by done|rewrite bool_decide_false by done].
  - by exists w.
  - eexists. split; [done|]. split; [|done]. split_and!; cbn; [done|by rewrite Hs|].
    by apply (mailboxes_tasks w).
Qed.

Lemma publish_view m w b :
  bus_view w b -> msg_wf m -> Forall NoDup (bus_subs b) ->
  (forall p a, bus_mail b !! p = Some a -> aq_ticks a < 2 ^ 32 - 1) ->
  match bus_publish b m with
  | Ok b' => exists w', publish m w = Ok (tt, w') /\ bus_view w' b' /\ only_mail w w'
  | Err e => publish m w = Err e
  end.
Proof.
  intros Hv Hwf Hnd Ht. pose proof (type_index_view w b (get_type m) Hv) as Hi.
  unfold bus_publish, publish.
  destruct (bus_index b (get_type m)) as [i|e]; cbn [mbind result_bind]; [|by apply M_bind_Err].
  rewrite (M_bind_Ok _ _ _ _ _ Hi), (M_bind_Ok _ _ _ _ _ (subscribers_of_view w b i Hv)).
  set (l := default [] (bus_subs b !! i)). pose proof Hv as (Hon & Hs & Hm).
  assert (Hl : NoDup l).
  { unfold l. destruct (bus_subs b !! i) eqn:Hl; [|constructor]. by eapply Forall_lookup_1 in Hnd. }
  pose proof (publish_loop_view l m w (bus_mail b) Hm Hwf Hl (fun p a _ => Ht p a)) as Hloop.
  destruct (bus_post l m (bus_mail b)) as [mb'|e]; cbn [mbind result_bind]; [|by apply M_bind_Err].
  destruct Hloop as (w' & Hrun & Hm' & Hom & Hbr). rewrite (M_bind_Ok _ _ _ _ _ Hrun).
  eexists. split; [done|]. split; [|by eapply only_mail_trans; [|apply only_mail_refl]].
  split_and!; cbn; rewrite ?Hbr; [done|by rewrite Hs|]. by apply (mailboxes_tasks w').
Qed.
End refinement.

(** ** Well-formed buses *)

(** One list per message type, no task in a list twice. *)
Definition bus_wf (b : bus) : Prop :=
  length (bus_subs b) = Z.to_nat MESSAGE_TYPE_COUNT /\ Forall NoDup (bus_subs b).

Lemma bus_index_Ok b ty i :
  bus_index b ty = Ok i -> bus_on b = true /\ i = Z.to_nat (u64 ty) /\ (i < Z.to_nat MESSAGE_TYPE_COUNT)%nat.
Proof.
  unfold bus_index. intros Hi. inv_bind. split_and!; [done..|].
  pose proof (u64_range ty). lia.
Qed.

Lemma bus_list_NoDup b i : bus_wf b -> NoDup (default [] (bus_subs b !! i)).
Proof. intros [_ Hnd]. destruct (bus_subs b !! i) eqn:Hl; [by eapply Forall_lookup_1 in Hnd|constructor]. Qed.

Lemma bus_publish_Ok b m b' :
  bus_publish b m = Ok b' ->
  exists i mb, bus_index b (get_type m) = Ok i /\
    bus_post (default [] (bus_subs b !! i)) m (bus_mail b) = Ok mb /\
    b' = mkBus (bus_on b) (<[i := live_in (bus_mail b) (default [] (bus_subs b !! i))]> (bus_subs b)) mb.
Proof.
  unfold bus_publish. intros Hp. inv_bind. eexists _, _. by split_and!.
Qed.

Lemma bus_publish_wf b m b' : bus_wf b -> bus_publish b m = Ok b' -> bus_wf b'.
Proof.
  intros Hwf (i & mb & Hi & _ & ->)%bus_publish_Ok. split; cbn; [by rewrite length_insert; apply Hwf|].
  apply Forall_insert; [apply Hwf|]. by apply NoDup_filter, bus_list_NoDup.
Qed.

Lemma bus_subscribe_Ok b p ty b' :
  bus_subscribe b p ty = Ok b' ->
  exists i, bus_index b ty = Ok i /\
    b' = if decide (p ∈ live_in (bus_mail b) (default [] (bus_subs b !! i))) then b
         else mkBus (bus_on b) (<[i := default [] (bus_subs b !! i) ++ [p]]> (bus_subs b)) (bus_mail b).
Proof. unfold bus_subscribe. intros Hs. inv_bind. eexists. split; [done|]. by case_decide; simplify_eq. Qed.

Lemma bus_subscribe_wf b p ty b' :
  is_Some (bus_mail b !! p) -> bus_wf b -> bus_subscribe b p ty = Ok b' -> bus_wf b'.
Proof.
  intros Hp Hwf (i & Hi & ->)%bus_subscribe_Ok. case_decide as Hin; [done|].
  split; cbn; [by rewrite length_insert; apply Hwf|]. apply Forall_insert; [apply Hwf|].
  apply NoDup_app. split_and!; [by apply bus_list_NoDup| |apply NoDup_singleton].
  intros x Hx ->%list_elem_of_singleton. by apply Hin, elem_of_live_in.
Qed.

(** No mailbox has handed out [2 ^ 32 - k] numbers. *)
Definition fresh (b : bus) (k : Z) : Prop := forall p a, bus_mail b !! p = Some a -> aq_ticks a + k < 2 ^ 32.

Lemma fresh_one b : fresh b 1 -> forall p a, bus_mail b !! p = Some a -> aq_ticks a < 2 ^ 32 - 1.
Proof. intros Hf p a Ha. specialize (Hf p a Ha). lia. Qed.

Lemma fresh_le b k k' : k' <= k -> fresh b k -> fresh b k'.
Proof. intros Hk Hf q z Hz. specialize (Hf q z Hz). lia. Qed.

Lemma bus_publish_fresh b m b' k : bus_wf b -> fresh b (k + 1) -> bus_publish b m = Ok b' -> fresh b' k.
Proof.
  intros Hwf Hk (i & mb & Hi & Hp & ->)%bus_publish_Ok p a. cbn.
  rewrite (bus_post_Ok _ _ _ _ (bus_list_NoDup b i Hwf) Hp). case_decide.
  - destruct (bus_mail b !! p) as [a0|] eqn:Ha; cbn; [|done]. intros [= <-]. specialize (Hk p a0 Ha). cbn. lia.
  - intros Ha. specialize (Hk p a Ha). lia.
Qed.

(** The bus with another queue at [p]. *)
Definition set_mail (p : addr) (a : aqueue) (b : bus) : bus := mkBus (bus_on b) (bus_subs b) (<[p := a]> (bus_mail b)).

Lemma set_mail_lookup p a b q : bus_mail (set_mail p a b) !! q = if decide (q = p) then Some a else bus_mail b !! q.
Proof.
  unfold set_mail. cbn. case_decide as Hq; [subst; by rewrite lookup_insert_eq|by rewrite lookup_insert_ne by (by apply not_eq_sym)].
Qed.

Lemma set_mail_fresh p a b k : aq_ticks a + k < 2 ^ 32 -> fresh b k -> fresh (set_mail p a b) k.
Proof. intros Ha Hf q z. rewrite set_mail_lookup. case_decide; [by intros [= <-]|apply Hf]. Qed.

(** Every queue has room for [k] messages, one after the other. *)
Definition bus_room (k : nat) (b : bus) : Prop :=
  fresh b (Z.of_nat k) /\
  forall p a, bus_mail b !! p = Some a -> k = 0%nat \/ (length (aq_items a) + k <= aq_capacity a)%nat.

Lemma set_mail_room k p a a' b :
  bus_room k b -> bus_mail b !! p = Some a -> aq_ticks a' <= aq_ticks a ->
  (length (aq_items a') <= length (aq_items a))%nat -> aq_capacity a' = aq_capacity a -> bus_room k (set_mail p a' b).
Proof.
  intros [Hf Hr] Ha Ht Hl Hc. split.
  - apply set_mail_fresh; [|done]. specialize (Hf p a Ha). lia.
  - intros q z. rewrite set_mail_lookup. case_decide; [|apply Hr]. intros [= <-]. specialize (Hr p a Ha). lia.
Qed.

(** The index of a type in the range of the enumeration. *)
Lemma bus_index_type b ty i :
  - 2 ^ 31 <= ty < 2 ^ 31 -> bus_index b ty = Ok i -> 0 <= ty < MESSAGE_TYPE_COUNT /\ i = Z.to_nat ty.
Proof.
  intros Hty Hi. destruct (bus_index_Ok b ty i Hi) as (_ & -> & Hlt). change MESSAGE_TYPE_COUNT with 4 in *. unfold u64 in *.
  destruct (decide (0 <= ty)).
  - rewrite Z.mod_small in * by lia. lia.
  - rewrite <- (Z.mod_unique ty (2 ^ 64) (-1) (ty + 2 ^ 64)) in Hlt; lia.
Qed.

Lemma bus_index_valid b ty :
  bus_on b = true -> 0 <= ty < MESSAGE_TYPE_COUNT -> bus_index b ty = Ok (Z.to_nat ty).
Proof.
  intros Hon Hty. assert (Hu : u64 ty = ty) by (change MESSAGE_TYPE_COUNT with 4 in Hty; apply u64_small; lia).
  unfold bus_index. rewrite assert_that_bind by done. rewrite Hu. by rewrite assert_that_bind by lia.
Qed.

Lemma msg_wf_type_valid m : msg_wf m -> 0 <= get_type m < MESSAGE_TYPE_COUNT.
Proof.
  intros [_ _ _ Ht]. unfold get_type. change MESSAGE_TYPE_COUNT with 4. rewrite Ht.
  destruct (msg_data m); cbn; lia.
Qed.

Lemma msg_wf_type_range m : msg_wf m -> - 2 ^ 31 <= get_type m < 2 ^ 31.
Proof. intros Ht%msg_wf_type_valid. change MESSAGE_TYPE_COUNT with 4 in Ht. lia. Qed.

Lemma default_insert (l : list (list addr)) i j x :
  (i < length l)%nat -> default [] (<[i := x]> l !! j) = if decide (i = j) then x else default [] (l !! j).
Proof.
  intros Hi. case_decide as Hij; [subst; by rewrite list_lookup_insert_eq|by rewrite list_lookup_insert_ne].
Qed.

(** The mailboxes of the live subscribers of the type of [m] have room. *)
Definition subscribers_room (b : bus) (m : Msg) : Prop :=
  forall p a, p ∈ default [] (bus_subs b !! Z.to_nat (get_type m)) -> bus_mail b !! p = Some a -> has_room a.

(** The mailbox [a] of [p] after [m] has been published. *)
Definition posted (b : bus) (m : Msg) (p : addr) : option aqueue :=
  if decide (p ∈ default [] (bus_subs b !! Z.to_nat (get_type m)))
  then received m <$> bus_mail b !! p else bus_mail b !! p.

Lemma bus_publish_room b m :
  bus_wf b -> msg_wf m -> bus_on b = true -> known_sender (bus_mail b) m -> subscribers_room b m ->
  exists mb, bus_publish b m = Ok (mkBus true (<[Z.to_nat (get_type m) :=
      live_in (bus_mail b) (default [] (bus_subs b !! Z.to_nat (get_type m)))]> (bus_subs b)) mb) /\
    forall p, mb !! p = posted b m p.
Proof.
  intros Hwf Hm Hon Hs Hroom. unfold bus_publish.
  rewrite (bus_index_valid b _ Hon (msg_wf_type_valid m Hm)). cbn [mbind result_bind].
  destruct (bus_post_room _ m (bus_mail b) (bus_list_NoDup b (Z.to_nat (get_type m)) Hwf) Hs Hroom) as [mb Hpost].
  rewrite Hpost, Hon. exists mb. split; [done|]. by apply bus_post_Ok; [apply bus_list_NoDup|].
Qed.

(** A valid subscription of a live task succeeds. *)
Lemma bus_subscribe_valid b p ty :
  bus_wf b -> bus_on b = true -> 0 <= ty < MESSAGE_TYPE_COUNT -> is_Some (bus_mail b !! p) ->
  exists b' l, bus_subscribe b p ty = Ok b' /\ bus_subs b' !! Z.to_nat ty = Some l /\ p ∈ l /\
    (forall p', p' <> p -> p' ∈ l <-> p' ∈ default [] (bus_subs b !! Z.to_nat ty)) /\
    (forall i, i <> Z.to_nat ty -> bus_subs b' !! i = bus_subs b !! i) /\
    bus_mail b' = bus_mail b /\ bus_on b' = true.
Proof.
  intros Hwf Hon Hty Hp. pose proof (bus_index_valid b ty Hon Hty) as Hi.
  assert (Hlt : (Z.to_nat ty < length (bus_subs b))%nat).
  { rewrite (proj1 Hwf). by apply bus_index_Ok in Hi as (_ & _ & ?). }
  destruct (lookup_lt_is_Some_2 _ _ Hlt) as [l0 Hl0].
  unfold bus_subscribe. rewrite Hi. cbn [mbind result_bind].
  replace (default [] (bus_subs b !! Z.to_nat ty)) with l0 by (by rewrite Hl0). case_decide as Hin.
  - exists b, l0. apply elem_of_live_in in Hin as [Hin _]. by split_and!.
  - eexists _, (l0 ++ [p]). split; [done|]. cbn. split_and!; try done.
    + by rewrite list_lookup_insert_eq.
    + apply elem_of_app. right. apply list_elem_of_here.
    + intros p' Hne. rewrite elem_of_app, list_elem_of_singleton. tauto.
    + intros i Hne. by rewrite list_lookup_insert_ne.
Qed.

(** ** Properties *)

Section properties.
Context {Q : Type} `{QueueImpl Q}.
Implicit Types (t : Task Q) (w : World Q).

(** C40. One [publish] puts one copy of the message into the queue of every
    live subscriber of its type and leaves all other queues and all other
    fields of the tasks alone; it drops the expired subscribers of that type,
    keeps the others in order, and does not touch the lists of other types. *)
Theorem publish_delivers_once m w b :
  bus_view w b -> bus_wf b -> fresh b 1 -> msg_wf m -> bus_on b = true -> known_sender (bus_mail b) m ->
  subscribers_room b m ->
  let l := default [] (bus_subs b !! Z.to_nat (get_type m)) in
  exists w' mb', publish m w = Ok (tt, w') /\ mailboxes w' mb' /\ only_mail w w' /\
    (forall p, mb' !! p = if decide (p ∈ l) then received m <$> bus_mail b !! p else bus_mail b !! p) /\
    (forall i, default [] (subscriber_lists (broker w') !! i) =
       if decide (i = Z.to_nat (get_type m)) then live_in (bus_mail b) l
       else default [] (subscriber_lists (broker w) !! i)).
Proof.
  intros Hv Hwf Hf Hm Hon Hs Hroom l.
  pose proof (publish_view m w b Hv Hm (proj2 Hwf) (fresh_one b Hf)) as Hpub.
  destruct (bus_publish_room b m Hwf Hm Hon Hs Hroom) as (mb & Hb & Hmb).
  rewrite Hb in Hpub. destruct Hpub as (w' & Hrun & (_ & Hsubs & Hmb') & Hom). exists w', mb.
  split_and!; [done|done|done|done|]. cbn in Hsubs. intros i.
  destruct Hv as (_ & <- & _). rewrite <- Hsubs, default_insert.
  - by destruct (decide (i = Z.to_nat (get_type m))) as [->|Hne]; [rewrite decide_True|rewrite decide_False].
  - rewrite (proj1 Hwf). by apply (bus_index_Ok b (get_type m)), bus_index_valid, msg_wf_type_valid.
Qed.

(** [publish] and [subscribe] abort before [Broker::initialize] whatever
    their arguments, and [publish] aborts when the queue of a live subscriber
    is full, even if other subscribers have room. *)
Theorem broker_aborts w b :
  bus_view w b ->
  (bus_on b = false -> forall p ty m,
     subscribe p ty w = Err (AssertFailed "Broker not initialized!") /\
     publish m w = Err (AssertFailed "Broker not initialized!")) /\
  (bus_on b = true -> bus_wf b -> fresh b 1 -> forall m p a,
     msg_wf m -> known_sender (bus_mail b) m ->
     p ∈ default [] (bus_subs b !! Z.to_nat (get_type m)) -> bus_mail b !! p = Some a ->
     ~ has_room a -> publish m w = Err queue_full).
Proof.
  intros Hv. split.
  - intros Hoff p ty m.
    assert (Hi : forall ty, bus_index b ty = Err (AssertFailed "Broker not initialized!"))
      by (intros ty'; unfold bus_index; by rewrite Hoff).
    pose proof (type_index_view w b ty Hv) as Hty. rewrite (Hi ty) in Hty.
    pose proof (type_index_view w b (get_type m) Hv) as Htm. rewrite (Hi (get_type m)) in Htm.
    split; by apply M_bind_Err.
  - intros Hon Hwf Hf m p a Hm Hs Hp Ha Hfull.
    pose proof (publish_view m w b Hv Hm (proj2 Hwf) (fresh_one b Hf)) as Hpub. unfold bus_publish in Hpub.
    rewrite (bus_index_valid b _ Hon (msg_wf_type_valid m Hm)) in Hpub. cbn [mbind result_bind] in Hpub.
    by rewrite (bus_post_full _ m _ p a Hs Hp Ha Hfull) in Hpub.
Qed.

(** Subscribing a live task to a valid type succeeds; it is then in the
    list of that type exactly once, the other lists and subscribers are as
    before, and subscribing again changes nothing. *)
Theorem subscribe_idempotent p ty w b :
  bus_view w b -> bus_wf b -> bus_on b = true -> 0 <= ty < MESSAGE_TYPE_COUNT -> is_Some (bus_mail b !! p) ->
  exists w' l, subscribe p ty w = Ok (tt, w') /\
    subscriber_lists (broker w') !! Z.to_nat ty = Some l /\ (p ∈ l) /\ NoDup l /\
    (forall p', p' <> p -> p' ∈ l <-> p' ∈ default [] (subscriber_lists (broker w) !! Z.to_nat ty)) /\
    (forall i, i <> Z.to_nat ty -> subscriber_lists (broker w') !! i = subscriber_lists (broker w) !! i) /\
    tasks w' = tasks w /\ subscribe p ty w' = Ok (tt, w').
Proof.
  intros Hv Hwf Hon Hty Hp. pose proof (subscribe_view p ty w b Hv) as Hsub.
  destruct (bus_subscribe_valid b p ty Hwf Hon Hty Hp) as (b' & l & Hb & Hl & Hpl & Hothers & Hlists & Hmail & Hon').
  rewrite Hb in Hsub. destruct Hsub as (w' & Hrun & Hv' & Htasks). exists w', l.
  pose proof (bus_subscribe_wf b p ty b' Hp Hwf Hb) as [_ Hnd'].
  pose proof Hv as (_ & Hs & _). pose proof Hv' as (_ & Hs' & Hm'). rewrite <- Hs, <- Hs'.
  split_and!; try done; [by eapply Forall_lookup_1 in Hl|].
  pose proof (type_index_view w' b' ty Hv') as Hti. rewrite (bus_index_valid b' ty Hon' Hty) in Hti.
  unfold subscribe. rewrite (M_bind_Ok _ _ _ _ _ Hti), (M_bind_Ok _ _ _ _ _ (subscribers_of_view w' b' _ Hv')), Hl.
  rewrite (M_bind_Ok _ _ _ _ _ (find_if_view p _ w' _ Hm')). cbn.
  rewrite bool_decide_true; [done|]. apply elem_of_live_in. by rewrite Hmail.
Qed.
End properties.

(** ** Witnesses: two tasks on reference queues *)

Definition demo_task (nm : string) (capacity : nat) : Task aqueue :=
  mkTask nm NOT_STARTED false Unjoinable Unjoinable 0 (aq_new capacity) IsUserTask.
Definition demo_tasks : gmap addr (Task aqueue) := {[ 16 := demo_task "A" 2; 32 := demo_task "B" 0 ]}.
Definition demo_world (on : bool) (subs : list (list addr)) : World aqueue :=
  mkWorld demo_tasks (mkBroker on subs) Logger_new (fun n => mkClockReading (Z.of_nat n) 0 0) 0 (1, 1).
Definition demo_bus (on : bool) (subs : list (list addr)) : bus :=
  mkBus on subs (message_queue <$> demo_tasks).
Definition demo_msg : Msg := pack 32 (VHeartbeatMsg (mkHeartbeatMsg 7 8)).
Lemma demo_mail_cases (P : addr -> aqueue -> Prop) :
  P 16 (aq_new 2) -> P 32 (aq_new 0) -> forall p a, (message_queue <$> demo_tasks) !! p = Some a -> P p a.
Proof.
  intros HA HB p a. unfold demo_tasks. rewrite lookup_fmap.
  intros (t & Ht & ->)%fmap_Some. revert Ht.
  rewrite lookup_insert_Some. intros [[<- <-]|[_ [<- <-]%lookup_singleton_Some]]; done.
Qed.

Lemma demo_bus_view on subs : bus_view (demo_world on subs) (demo_bus on subs).
Proof.
  split_and!; [done..|]. intros p. cbn. rewrite lookup_fmap. unfold demo_tasks.
  destruct ({[16 := demo_task "A" 2; 32 := demo_task "B" 0]} !! p) as [t|] eqn:Ht; cbn; constructor.
  apply lookup_insert_Some in Ht as [[_ <-]|[_ [_ <-]%lookup_singleton_Some]]; cbn; (split; [done|]); lia.
Qed.

Lemma demo_fresh on subs k : k < 2 ^ 32 -> fresh (demo_bus on subs) k.
Proof. intros Hk. unfold fresh. cbn [demo_bus bus_mail]. apply demo_mail_cases; cbn; lia. Qed.

Lemma demo_wf on : bus_wf (demo_bus on [[]; []; [16; 64]; []]).
Proof. split; [done|]. by apply (bool_decide_eq_true_1 (Forall NoDup _)). Qed.

Lemma demo_start_wf : bus_wf (demo_bus false [[]; []; []; []]).
Proof. split; [done|]. repeat constructor. Qed.

Lemma demo_msg_wf : msg_wf demo_msg.
Proof. apply pack_wf; cbn; lia. Qed.

Lemma publish_delivers_once_witness :
  exists w' (mb' : gmap addr aqueue), publish demo_msg (demo_world true [[]; []; [16; 64]; []]) = Ok (tt, w') /\
    mb' !! 16 = Some (received demo_msg (aq_new 2)) /\ mb' !! 32 = Some (aq_new 0) /\
    default [] (subscriber_lists (broker w') !! 2%nat) = [16].
Proof.
  destruct (publish_delivers_once demo_msg _ _ (demo_bus_view true [[]; []; [16; 64]; []]) (demo_wf true))
    as (w' & mb' & Hrun & _ & _ & Hmb & Hs).
  - by apply demo_fresh.
  - apply demo_msg_wf.
  - done.
  - right. by eexists.
  - intros p a Hp Ha. apply list_elem_of_In in Hp. cbn in Hp. destruct Hp as [<-|[<-|[]]]; [|done].
    vm_compute in Ha. injection Ha as <-. unfold has_room; cbn; lia.
  - exists w', mb'. rewrite !Hmb, Hs. by split_and!.
Defined.

Lemma broker_aborts_witness :
  publish demo_msg (demo_world false [[]; []; []; []]) = Err (AssertFailed "Broker not initialized!").
Proof. by apply (broker_aborts _ _ (demo_bus_view false [[]; []; []; []])) with (p := 16) (ty := 2). Defined.

Lemma subscribe_idempotent_witness :
  exists w' l, subscribe 32 2 (demo_world true [[]; []; [16; 64]; []]) = Ok (tt, w') /\
    subscriber_lists (broker w') !! 2%nat = Some l /\ (32 ∈ l) /\ NoDup l /\ subscribe 32 2 w' = Ok (tt, w').
Proof.
  destruct (subscribe_idempotent 32 2 _ _ (demo_bus_view true [[]; []; [16; 64]; []]) (demo_wf true))
    as (w' & l & H1 & H2 & H3 & H4 & _ & _ & _ & H8); [done|done|by eexists|]. by exists w', l.
Defined.
