(* ===== verification/TaskBase.v ===== *)
(** * TaskBase: the base class of all tasks (task.h, task.cpp)

    The member functions of [Task], its two threads as step functions, and
    the destructor. The virtual functions a derived class overrides are the
    interface [Virtual]; System.v gives the instance that dispatches on the
    dynamic type. *)

From S2P Require Import Prelude Msg Heap QueueSpec Logger World Broker.
#[local] Open Scope Z_scope.

(** ** The virtual functions *)

Class Virtual (Q : Type) := {
  process_message : addr -> Msg -> M Q unit;
  periodic_task_process : addr -> M Q unit;
  transition_to_state : addr -> TaskState -> M Q unit
}.

(** ** Operations *)

(** [Task::Task], over the queue its member initialiser constructs. *)
Definition Task_new {Q} (task_name : string) (q : Q) (d : Derived) : Task Q :=
  mkTask task_name NOT_STARTED false Unjoinable Unjoinable 0 q d.

Section operations.
Context {Q : Type} `{QueueImpl Q}.
Implicit Types (t : Task Q) (w : World Q).

(** [std::shared_ptr<T>(new T(...))]. *)
Definition make_shared (this : addr) t : M Q addr :=
  _ ← put_task this t; mret this.

Definition safe_subscribe (this : addr) (type : MsgType) : M Q unit :=
  self ← shared_from_this this;
  _ ← lift (assert_that (self <> nullptr) "Task must be created using Task::create() to use safe_subscribe.");
  subscribe self type.

Definition safe_publish (this : addr) (m : Msg) : M Q unit :=
  self ← shared_from_this this;
  _ ← lift (assert_that (self <> nullptr) "Task must be created using Task::create() to use safe_publish.");
  publish m.

(** What [Task::transition_to_state] does after storing the state, for the
    object [t] at [this]. *)
Definition announce_state (this : addr) t : M Q unit :=
  _ ← log_entry INFO (name t) ("transitioning to " +:+ task_state_to_string (current_state t));
  m ← lift (Msg_new this (VStateAckMsg (mkStateAckMsg (state_to_byte (current_state t)))));
  safe_publish this m.

(** [Task::transition_to_state], the version of the base class. *)
Definition Task_transition_to_state (this : addr) (new_state : TaskState) : M Q unit :=
  _ ← modify_task this (set_current_state new_state);
  t ← get_task this;
  announce_state this t.

Definition handle_heartbeat (this : addr) (heartbeat_msg : HeartbeatMsg) : M Q unit :=
  c ← now;
  m ← lift (Msg_new this (VHeartbeatAckMsg (mkHeartbeatAckMsg (unique_id heartbeat_msg)
              (timestamp heartbeat_msg) (u64 (duration_cast_ms (steady_ns c))))));
  safe_publish this m.

(** Assigning a new thread to a [std::thread] that has not been joined
    calls [std::terminate]. *)
Definition spawn (th : thread) : result thread :=
  if joinable th then Err (Terminated "assignment to a joinable std::thread") else Ok LoopHead.

Definition start (this : addr) : M Q unit :=
  r ← is_running this;
  if (r : bool) then mret tt
  else
    _ ← modify_task this (set_running true);
    t ← get_task this;
    th ← lift (spawn (queue_thread t));
    _ ← modify_task this (set_queue_thread th);
    if decide (periodic_task_interval_ms t > 0) then
      th ← lift (spawn (periodic_thread t));
      modify_task this (set_periodic_thread th)
    else mret tt.

Context `{Virtual Q}.

(** [Task::stop] up to the joins; the result is whether it had to stop. *)
Definition stop_request (this : addr) : M Q bool :=
  r ← is_running this;
  if (r : bool) then
    _ ← modify_task this (set_running false);
    _ ← transition_to_state this STOPPED;
    t ← get_task this;
    _ ← put_task this (set_message_queue (q_notify_shutdown (message_queue t)) t);
    mret true
  else mret false.

(** What a turn of a thread comes to. *)
Inductive turn := Progress | Waiting | Over.

(** One turn of [Task::run]: the test of the loop, or the body. *)
Definition run_step (this : addr) : M Q turn :=
  t ← get_task this;
  match queue_thread t with
  | LoopHead =>
      _ ← modify_task this (set_queue_thread (if running t then InDequeue else Finished));
      mret Progress
  | InDequeue =>
      '(opt, q) ← lift (q_dequeue (message_queue t));
      match opt with
      | Blocks => mret Waiting
      | Returns opt =>
          _ ← put_task this (set_message_queue q t);
          _ ← match opt with Some m => process_message this m | None => mret tt end;
          _ ← modify_task this (set_queue_thread LoopHead);
          mret Progress
      end
  | _ => mret Over
  end.

(** One turn of [Task::run_periodic]: the loop's body up to the sleep, or a
    look at the clock while sleeping. *)
Definition run_periodic_step (this : addr) : M Q turn :=
  t ← get_task this;
  match periodic_thread t with
  | LoopHead =>
      if running t then
        _ ← periodic_task_process this;
        c ← now;
        t ← get_task this;
        _ ← modify_task this (set_periodic_thread
              (Sleeping (steady_ns c + periodic_task_interval_ms t * 1000000)));
        mret Progress
      else
        _ ← modify_task this (set_periodic_thread Finished); mret Progress
  | Sleeping until_ns =>
      c ← now;
      if decide (steady_ns c < until_ns) then mret Waiting
      else _ ← modify_task this (set_periodic_thread LoopHead); mret Progress
  | _ => mret Over
  end.

(** [thread.join()] under a schedule that lets the joined thread take up to
    [fuel] turns; false if it has not finished by then. *)
Fixpoint join_queue_thread (fuel : nat) (this : addr) : M Q bool :=
  t ← get_task this;
  match queue_thread t, fuel with
  | Unjoinable, _ => mret true
  | Finished, _ => _ ← modify_task this (set_queue_thread Unjoinable); mret true
  | _, O => mret false
  | _, S fuel' => _ ← run_step this; join_queue_thread fuel' this
  end.

Fixpoint join_periodic_thread (fuel : nat) (this : addr) : M Q bool :=
  t ← get_task this;
  match periodic_thread t, fuel with
  | Unjoinable, _ => mret true
  | Finished, _ => _ ← modify_task this (set_periodic_thread Unjoinable); mret true
  | _, O => mret false
  | _, S fuel' => _ ← run_periodic_step this; join_periodic_thread fuel' this
  end.

Definition stop (fuel : nat) (this : addr) : M Q bool :=
  r ← stop_request this;
  if (r : bool) then
    j ← join_queue_thread fuel this;
    if (j : bool) then join_periodic_thread fuel this else mret false
  else mret true.

(** The end of an object's life: no [shared_ptr] owns it any more when
    [Task::~Task] runs, and a virtual call in the destructor is the base
    class's. [stop]'s notification and joins are not reached, because
    [shared_from_this] has thrown by then ([destroy_running] below). *)
Definition Task_destroy (this : addr) : M Q unit :=
  t ← get_task this;
  _ ← modify (fun w => set_tasks (delete this (tasks w)) w);
  _ ← noexcept (if running t then announce_state this (set_current_state STOPPED (set_running false t))
                else mret tt);
  if joinable (queue_thread t) || joinable (periodic_thread t)
  then throw (Terminated "destruction of a joinable std::thread") else mret tt.
End operations.

(** ** Lemmas *)

Section lemmas.
Context {Q : Type} `{QueueImpl Q}.
Implicit Types (t : Task Q) (w : World Q).

Lemma safe_publish_live this m w t :
  tasks w !! this = Some t -> this <> nullptr -> safe_publish this m w = publish m w.
Proof.
  intros Ht Hn. unfold safe_publish. rewrite (M_bind_Ok _ _ _ _ _ (shared_from_this_run this t w Ht)).
  unfold lift. by rewrite assert_that_true.
Qed.

Lemma safe_publish_expired this m w :
  tasks w !! this = None -> safe_publish this m w = Err (Thrown "std::bad_weak_ptr").
Proof. intros Ht. by apply M_bind_Err, shared_from_this_expired. Qed.

Lemma safe_subscribe_live this ty w t :
  tasks w !! this = Some t -> this <> nullptr -> safe_subscribe this ty w = subscribe this ty w.
Proof.
  intros Ht Hn. unfold safe_subscribe. rewrite (M_bind_Ok _ _ _ _ _ (shared_from_this_run this t w Ht)).
  unfold lift. by rewrite assert_that_true.
Qed.

Lemma lift_Msg_new sender d w : lift (Q := Q) (Msg_new sender d) w = Ok (pack sender d, w).
Proof. unfold lift. by rewrite Msg_new_pack. Qed.

(** The acknowledgement a task sends for the state [s]. *)
Definition state_ack (this : addr) (s : TaskState) : Msg :=
  pack this (VStateAckMsg (mkStateAckMsg (state_to_byte s))).

Lemma state_ack_wf this s : 0 <= this < 2 ^ 64 -> msg_wf (state_ack this s).
Proof. intros. apply pack_wf; [done|]. apply Z.mod_pos_bound. lia. Qed.

Lemma announce_state_live this t0 t w :
  tasks w !! this = Some t0 -> this <> nullptr ->
  announce_state this t w =
    publish (state_ack this (current_state t))
      (logged INFO (name t) ("transitioning to " +:+ task_state_to_string (current_state t)) w).
Proof.
  intros Ht Hn. unfold announce_state. rewrite (M_bind_Ok _ _ _ _ _ (log_entry_run _ _ _ _)).
  rewrite (M_bind_Ok _ _ _ _ _ (lift_Msg_new _ _ _)). by eapply safe_publish_live.
Qed.

Lemma announce_state_expired this t w :
  tasks w !! this = None -> announce_state this t w = Err (Thrown "std::bad_weak_ptr").
Proof.
  intros Ht. unfold announce_state. rewrite (M_bind_Ok _ _ _ _ _ (log_entry_run _ _ _ _)).
  rewrite (M_bind_Ok _ _ _ _ _ (lift_Msg_new _ _ _)). by apply safe_publish_expired.
Qed.

Lemma bus_view_logged w b l c s : bus_view w b -> bus_view (logged l c s w) b.
Proof. done. Qed.

(** The world with the fields of one task changed. *)
Definition with_task (this : addr) t w : World Q := set_tasks (<[this := t]> (tasks w)) w.

Lemma with_task_lookup this t w : tasks (with_task this t w) !! this = Some t.
Proof. apply lookup_insert_eq. Qed.

Lemma bus_view_fields w b this t t' :
  tasks w !! this = Some t -> message_queue t' = message_queue t ->
  bus_view w b -> bus_view (with_task this t' w) b.
Proof. intros Ht Hq (? & ? & Hm). split_and!; [done..|]. by eapply mailboxes_fields. Qed.

Lemma modify_task_with this f t w :
  tasks w !! this = Some t -> modify_task this f w = Ok (tt, with_task this (f t) w).
Proof. apply modify_task_run. Qed.

(** [Task::transition_to_state] stores the state, then publishes one
    acknowledgement. *)
Lemma transition_view this s w b t :
  bus_view w b -> bus_wf b -> fresh b 1 -> tasks w !! this = Some t -> 0 < this < 2 ^ 64 ->
  match bus_publish b (state_ack this s) with
  | Ok b' => exists w', Task_transition_to_state this s w = Ok (tt, w') /\ bus_view w' b' /\
      only_mail (with_task this (set_current_state s t) w) w'
  | Err e => Task_transition_to_state this s w = Err e
  end.
Proof.
  intros Hv Hwf Hf Ht Hthis. unfold Task_transition_to_state.
  rewrite (M_bind_Ok _ _ _ _ _ (modify_task_with this _ t w Ht)). set (w1 := with_task _ _ w).
  rewrite (M_bind_Ok _ _ _ _ _ (get_task_run this _ w1 (with_task_lookup _ _ _))).
  rewrite (announce_state_live this _ _ w1 (with_task_lookup _ _ _)) by (unfold nullptr; lia).
  set (w2 := logged _ _ _ w1).
  assert (Hv2 : bus_view w2 b) by (by apply (bus_view_logged w1), (bus_view_fields w b this t)).
  apply (publish_view (state_ack this s) w2 b Hv2); [apply state_ack_wf; lia|apply Hwf|by apply fresh_one].
Qed.

Lemma only_mail_name w w' this t :
  only_mail w w' -> tasks w !! this = Some t ->
  exists t', tasks w' !! this = Some t' /\ name t' = name t /\ current_state t' = current_state t /\
    running t' = running t /\ queue_thread t' = queue_thread t /\ periodic_thread t' = periodic_thread t /\
    periodic_task_interval_ms t' = periodic_task_interval_ms t /\ derived t' = derived t.
Proof.
  intros Hm Ht. destruct (only_mail_lookup w w' this t Hm Ht) as [q Hq]. eexists. by split_and!.
Qed.

Context `{HV : Virtual Q}.

(** A turn at the head of the loop. *)
Lemma run_step_head this t w :
  tasks w !! this = Some t -> queue_thread t = LoopHead ->
  run_step this w = Ok (Progress, with_task this (set_queue_thread (if running t then InDequeue else Finished) t) w).
Proof.
  intros Ht Hth. unfold run_step. rewrite (M_bind_Ok _ _ _ _ _ (get_task_run this t w Ht)), Hth.
  by rewrite (M_bind_Ok _ _ _ _ _ (modify_task_with this _ t w Ht)).
Qed.

(** A turn inside [dequeue], by what the abstract queue answers. *)
Lemma run_step_dequeue this t w a :
  tasks w !! this = Some t -> queue_thread t = InDequeue -> q_view (message_queue t) a ->
  exists q, q_view q (aq_dequeue a).2 /\
    run_step this w =
      match (aq_dequeue a).1 with
      | Blocks => Ok (Waiting, w)
      | Returns opt =>
          (_ ← match opt with Some m => process_message this m | None => mret tt end;
           _ ← modify_task this (set_queue_thread LoopHead); mret Progress)
            (with_task this (set_message_queue q t) w)
      end.
Proof.
  intros Ht Hth Hv. destruct (q_dequeue_ok _ _ Hv) as (q & Hq & Hv'). exists q. split; [done|].
  unfold run_step. rewrite (M_bind_Ok _ _ _ _ _ (get_task_run this t w Ht)), Hth.
  rewrite (M_bind_Ok _ _ w ((aq_dequeue a).1, q) w) by (unfold lift; by rewrite Hq).
  by destruct (aq_dequeue a).1.
Qed.

Lemma aq_dequeue_closed a : aq_closed a = true -> exists opt, (aq_dequeue a).1 = Returns opt.
Proof. intros Hc. unfold aq_dequeue. destruct (pop_best msg_lt (aq_items a)) as [[m r]|]; [by eexists|]. rewrite Hc. by eexists. Qed.

Lemma aq_dequeue_open_empty a : aq_closed a = false -> aq_items a = [] -> aq_dequeue a = (Blocks, a).
Proof. intros Hc He. unfold aq_dequeue. by rewrite He, Hc. Qed.

(** ** Joining the queue thread *)

(** What the join of the message thread may rely on for the message [m]:
    on a task of the dynamic type [d], where every queue has room for [k] more
    messages, which [process_message] may send, it returns, and it leaves the
    flag and the threads of the task alone. *)
Definition handler_returns (k : nat) (this : addr) (d : Derived) (m : Msg) : Prop :=
  forall w b t, bus_view w b -> bus_wf b -> bus_on b = true -> bus_room k b ->
  tasks w !! this = Some t -> derived t = d ->
  exists w' t', process_message this m w = Ok (tt, w') /\ tasks w' !! this = Some t' /\
    running t' = running t /\ queue_thread t' = queue_thread t /\ periodic_thread t' = periodic_thread t.

(** Once [stop] has announced STOPPED on [b], the queues have room for [k] more
    messages, and with that much room the handler of every message that is
    pending for [this] returns. *)
Definition pending_return (k : nat) (this : addr) (d : Derived) (b : bus) : Prop :=
  exists b' a, bus_publish b (state_ack this STOPPED) = Ok b' /\ bus_mail b' !! this = Some a /\
    bus_room k b' /\ Forall (handler_returns k this d) (aq_items a).

Lemma join_queue_step fuel this t w :
  tasks w !! this = Some t -> queue_thread t = LoopHead \/ queue_thread t = InDequeue ->
  join_queue_thread (S fuel) this w = (_ ← run_step this; join_queue_thread fuel this) w.
Proof.
  intros Ht Hth. cbn [join_queue_thread]. rewrite (M_bind_Ok _ _ _ _ _ (get_task_run this t w Ht)).
  by destruct Hth as [-> | ->].
Qed.

Lemma join_queue_finished fuel this t w :
  tasks w !! this = Some t -> queue_thread t = Finished ->
  join_queue_thread fuel this w = Ok (true, with_task this (set_queue_thread Unjoinable t) w).
Proof.
  intros Ht Hth. destruct fuel; cbn [join_queue_thread];
    rewrite (M_bind_Ok _ _ _ _ _ (get_task_run this t w Ht)), Hth;
    by rewrite (M_bind_Ok _ _ _ _ _ (modify_task_with this _ t w Ht)).
Qed.

Lemma join_queue_head fuel this t w :
  tasks w !! this = Some t -> running t = false -> queue_thread t = LoopHead ->
  exists w' t', join_queue_thread (S fuel) this w = Ok (true, w') /\ tasks w' !! this = Some t' /\
    running t' = false /\ queue_thread t' = Unjoinable /\ periodic_thread t' = periodic_thread t.
Proof.
  intros Ht Hr Hth. rewrite (join_queue_step fuel this t w Ht) by (by left).
  rewrite (M_bind_Ok _ _ _ _ _ (run_step_head this t w Ht Hth)), Hr.
  rewrite (join_queue_finished fuel this (set_queue_thread Finished t) _ (with_task_lookup _ _ _) eq_refl).
  eexists _, _. split; [done|]. rewrite with_task_lookup. by split_and!.
Qed.

(** What [dequeue] leaves of a mailbox. *)
Lemma aq_dequeue_less a opt a' :
  0 <= aq_ticks a -> aq_dequeue a = (opt, a') ->
  aq_ticks a' <= aq_ticks a /\ (length (aq_items a') <= length (aq_items a))%nat /\ aq_capacity a' = aq_capacity a /\
  forall m, opt = Returns (Some m) -> m ∈ aq_items a.
Proof.
  intros Ht. unfold aq_dequeue. destruct (pop_best msg_lt (aq_items a)) as [[m r]|] eqn:Hp.
  - destruct (pop_best_Some _ _ _ _ Hp) as (l1 & l2 & Hi & Hr & _). intros [= <- <-]. cbn. split_and!.
    + destruct r; lia.
    + rewrite Hi, Hr, !length_app. cbn. lia.
    + done.
    + intros m' [= <-]. rewrite Hi, elem_of_app, elem_of_cons. tauto.
  - destruct (aq_closed a); intros [= <- <-]; cbn; split_and!; try done; lia.
Qed.

Lemma join_queue_dequeue fuel k this t w b a :
  bus_view w b -> bus_wf b -> bus_on b = true -> bus_room k b ->
  tasks w !! this = Some t -> running t = false -> queue_thread t = InDequeue ->
  bus_mail b !! this = Some a -> aq_closed a = true -> Forall (handler_returns k this (derived t)) (aq_items a) ->
  exists w' t', join_queue_thread (S (S fuel)) this w = Ok (true, w') /\ tasks w' !! this = Some t' /\
    running t' = false /\ queue_thread t' = Unjoinable /\ periodic_thread t' = periodic_thread t.
Proof.
  intros (Hon & Hs & Hm) Hwf Hbon Hroom Ht Hr Hth Ha Hc Hret. rewrite (join_queue_step _ this t w Ht) by (by right).
  destruct (mailboxes_task w _ this a Hm Ha) as (t0 & Ht0 & Hv). rewrite Ht in Ht0. injection Ht0 as <-.
  destruct (run_step_dequeue this t w a Ht Hth Hv) as (q & Hq & Hrun). destruct (aq_dequeue_closed a Hc) as [opt Hopt].
  destruct (aq_dequeue a) as [o a'] eqn:Hd. cbn [fst snd] in *. subst o.
  destruct (aq_dequeue_less a _ a' (proj1 (proj2 (q_view_bound _ _ Hv))) Hd) as (Hl1 & Hl2 & Hl3 & Hin).
  set (w1 := with_task this (set_message_queue q t) w) in *.
  assert (Hw2 : exists w2 t2, (match opt with Some m => process_message this m | None => mret tt end) w1 = Ok (tt, w2) /\
            tasks w2 !! this = Some t2 /\ running t2 = false /\ periodic_thread t2 = periodic_thread t).
  { destruct opt as [m|].
    - rewrite Forall_forall in Hret.
      destruct (Hret m (Hin m eq_refl) w1 (set_mail this a' b) (set_message_queue q t)) as (w2 & t2 & ? & ? & Hr2 & _ & ?);
        [|done|done|by apply (set_mail_room k this a)|apply with_task_lookup|done|exists w2, t2; split_and!; try done; by rewrite Hr2].
      split_and!; [done|done|]. by apply (mailboxes_update w).
    - exists w1. eexists. split; [done|]. unfold w1. rewrite with_task_lookup. by split_and!. }
  destruct Hw2 as (w2 & t2 & Hproc & Ht2 & Hr2 & Hp2).
  assert (Hstep : run_step this w = Ok (Progress, with_task this (set_queue_thread LoopHead t2) w2)).
  { rewrite Hrun, (M_bind_Ok _ _ _ _ _ Hproc). by rewrite (M_bind_Ok _ _ _ _ _ (modify_task_with this _ t2 w2 Ht2)). }
  rewrite (M_bind_Ok _ _ _ _ _ Hstep).
  destruct (join_queue_head fuel this _ _ (with_task_lookup this (set_queue_thread LoopHead t2) w2) Hr2 eq_refl)
    as (w' & t' & ? & ? & ? & ? & Hp'). exists w', t'. split_and!; try done. rewrite Hp'. done.
Qed.
End lemmas.

Section stopping.
Context {Q : Type} `{QueueImpl Q} `{HV : Virtual Q}.
Implicit Types (t : Task Q) (w : World Q).

(** Up to the joins, [stop] leaves the flag cleared, the state STOPPED and the
    queue shut down, after publishing one acknowledgement. *)
Lemma stop_request_ok this t w b b' :
  let w0 := with_task this (set_running false t) w in
  transition_to_state this STOPPED w0 = Task_transition_to_state this STOPPED w0 ->
  bus_view w b -> bus_wf b -> fresh b 1 -> 0 < this < 2 ^ 64 -> tasks w !! this = Some t ->
  running t = true -> bus_publish b (state_ack this STOPPED) = Ok b' ->
  exists w' t' a, stop_request this w = Ok (true, w') /\ tasks w' !! this = Some t' /\
    running t' = false /\ current_state t' = STOPPED /\ queue_thread t' = queue_thread t /\
    periodic_thread t' = periodic_thread t /\ derived t' = derived t /\ bus_mail b' !! this = Some a /\
    bus_view w' (set_mail this (aq_close a) b').
Proof.
  intros w0 Htr Hv Hwf Hf Hthis Ht Hr Hpub. unfold stop_request, is_running.
  rewrite (M_bind_Ok _ _ w true w) by (by rewrite (M_bind_Ok _ _ _ _ _ (get_task_run this t w Ht)), <- Hr).
  rewrite (M_bind_Ok _ _ _ _ _ (modify_task_with this _ t w Ht)). set (w1 := with_task _ _ w). fold w1 in w0. subst w0.
  assert (Hv1 : bus_view w1 b) by (by apply (bus_view_fields w b this t)).
  pose proof (transition_view this STOPPED w1 b _ Hv1 Hwf Hf (with_task_lookup _ _ _) Hthis) as Htrans.
  rewrite Hpub in Htrans. destruct Htrans as (w2 & Hrun2 & (Hon2 & Hs2' & Hm2) & Hom).
  rewrite <- Htr in Hrun2. rewrite (M_bind_Ok _ _ _ _ _ Hrun2).
  destruct (only_mail_name _ _ this _ Hom (with_task_lookup _ _ _)) as (t2 & Ht2 & _ & Hs2 & Hr2 & Hq2 & Hp2 & _ & Hd2).
  rewrite (M_bind_Ok _ _ _ _ _ (get_task_run this t2 w2 Ht2)).
  pose proof (Hm2 this) as Hmail. rewrite Ht2 in Hmail. inversion Hmail as [? a Hva Hx Ha|]; subst.
  eexists _, _, a. split; [done|]. split; [apply (with_task_lookup this _ w2)|].
  split_and!; try done. split_and!; [done|done|]. apply (mailboxes_update w2); try done. by apply q_notify_shutdown_ok.
Qed.

(** With handlers that return, the message thread can then be joined. *)
Lemma stop_request_pending k fuel this t w b :
  let w0 := with_task this (set_running false t) w in
  transition_to_state this STOPPED w0 = Task_transition_to_state this STOPPED w0 ->
  bus_view w b -> bus_wf b -> fresh b 1 -> 0 < this < 2 ^ 64 -> tasks w !! this = Some t ->
  running t = true -> queue_thread t = LoopHead \/ queue_thread t = InDequeue -> pending_return k this (derived t) b ->
  exists w1 w' t', stop_request this w = Ok (true, w1) /\ join_queue_thread (S (S fuel)) this w1 = Ok (true, w') /\
    tasks w' !! this = Some t' /\ running t' = false /\ queue_thread t' = Unjoinable /\
    periodic_thread t' = periodic_thread t.
Proof.
  intros w0 Htr Hv Hwf Hf Hthis Ht Hr Hth (b' & a' & Hb & Ha' & Hroom & Hret).
  destruct (stop_request_ok this t w b b' Htr Hv Hwf Hf Hthis Ht Hr Hb)
    as (w1 & t1 & a & Hreq & Ht1 & Hr1 & _ & Hq1 & Hp1 & Hd1 & Ha & Hv1).
  rewrite Ha in Ha'. injection Ha' as <-. exists w1. rewrite <- Hd1 in Hret.
  assert (Hj : exists w' t', join_queue_thread (S (S fuel)) this w1 = Ok (true, w') /\ tasks w' !! this = Some t' /\
            running t' = false /\ queue_thread t' = Unjoinable /\ periodic_thread t' = periodic_thread t1).
  { destruct Hth as [Hth|Hth]; [by apply (join_queue_head (S fuel)); [..|rewrite Hq1]|].
    apply (join_queue_dequeue fuel k this t1 w1 (set_mail this (aq_close a) b') (aq_close a)); try done.
    - exact (bus_publish_wf b _ b' Hwf Hb).
    - apply bus_publish_Ok in Hb as (i & mb & (Hon & _)%bus_index_Ok & _ & ->). exact Hon.
    - by apply (set_mail_room k this a).
    - by rewrite Hq1.
    - by rewrite set_mail_lookup, decide_True. }
  destruct Hj as (w' & t' & ? & ? & ? & ? & ?). exists w', t'. split_and!; congruence || done.
Qed.

(** ** Joining the periodic thread *)

Lemma join_periodic_head fuel this t w :
  tasks w !! this = Some t -> running t = false -> periodic_thread t = LoopHead ->
  exists w', join_periodic_thread (S fuel) this w = Ok (true, w') /\
    tasks w' = <[this := set_periodic_thread Unjoinable t]> (tasks w) /\ broker w' = broker w /\ clock w' = clock w.
Proof.
  intros Ht Hr Hth. cbn [join_periodic_thread]. rewrite (M_bind_Ok _ _ _ _ _ (get_task_run this t w Ht)), Hth.
  assert (Hstep : run_periodic_step this w = Ok (Progress, with_task this (set_periodic_thread Finished t) w)).
  { unfold run_periodic_step. rewrite (M_bind_Ok _ _ _ _ _ (get_task_run this t w Ht)), Hth, Hr.
    by rewrite (M_bind_Ok _ _ _ _ _ (modify_task_with this _ t w Ht)). }
  rewrite (M_bind_Ok _ _ _ _ _ Hstep). set (w1 := with_task _ _ w).
  assert (Ht1 : tasks w1 !! this = Some (set_periodic_thread Finished t)) by apply with_task_lookup.
  eexists. split.
  - destruct fuel; cbn [join_periodic_thread]; rewrite (M_bind_Ok _ _ _ _ _ (get_task_run this _ w1 Ht1));
      cbn [periodic_thread set_periodic_thread]; by rewrite (M_bind_Ok _ _ _ _ _ (modify_task_with this _ _ w1 Ht1)).
  - cbn. by rewrite insert_insert_eq.
Qed.

(** A sleeping thread is joined as soon as the clock has passed its deadline:
    each look at the clock takes one reading. *)
Lemma join_periodic_sleeping k fuel this t w until_ns :
  tasks w !! this = Some t -> running t = false -> periodic_thread t = Sleeping until_ns ->
  until_ns <= steady_ns (clock w (ticks w + k)) ->
  exists w', join_periodic_thread (k + S (S fuel)) this w = Ok (true, w') /\
    tasks w' = <[this := set_periodic_thread Unjoinable t]> (tasks w) /\ broker w' = broker w /\ clock w' = clock w.
Proof.
  revert w. induction k as [|k IH]; intros w Ht Hr Hth Hk.
  all: rewrite ?Nat.add_0_l, ?Nat.add_succ_l; cbn [join_periodic_thread];
       rewrite (M_bind_Ok _ _ _ _ _ (get_task_run this t w Ht)), Hth.
  all: destruct (decide (steady_ns (clock w (ticks w)) < until_ns)) as [Hlt|Hge];
       [assert (Hstep : run_periodic_step this w = Ok (Waiting, tick w))
         by (unfold run_periodic_step; rewrite (M_bind_Ok _ _ _ _ _ (get_task_run this t w Ht)), Hth;
             rewrite (M_bind_Ok _ _ w _ (tick w) eq_refl); by rewrite decide_True)
       |assert (Hstep : run_periodic_step this w = Ok (Progress, with_task this (set_periodic_thread LoopHead t) (tick w)))
         by (unfold run_periodic_step; rewrite (M_bind_Ok _ _ _ _ _ (get_task_run this t w Ht)), Hth;
             rewrite (M_bind_Ok _ _ w _ (tick w) eq_refl); rewrite decide_False by done;
             by rewrite (M_bind_Ok _ _ _ _ _ (modify_task_with this _ t (tick w) Ht)))];
       rewrite (M_bind_Ok _ _ _ _ _ Hstep).
  - rewrite Nat.add_0_r in Hk. lia.
  - destruct (join_periodic_head fuel this _ _ (with_task_lookup this (set_periodic_thread LoopHead t) (tick w)) Hr eq_refl)
      as (w' & Hj & Ht' & Hb & Hc). exists w'. split; [done|]. split; [|done]. rewrite Ht'. cbn. by rewrite insert_insert_eq.
  - apply (IH (tick w)); try done. cbn. by rewrite <- plus_n_Sm in Hk.
  - rewrite Nat.add_succ_r.
    destruct (join_periodic_head (k + S fuel) this _ _ (with_task_lookup this (set_periodic_thread LoopHead t) (tick w)) Hr eq_refl)
      as (w' & Hj & Ht' & Hb & Hc). exists w'. split; [done|]. split; [|done]. rewrite Ht'. cbn. by rewrite insert_insert_eq.
Qed.

(** ** Running again after a stop *)

(** At the head of the loop of a running task, its queue shut down and empty. *)
Definition spinning (this : addr) w : Prop :=
  exists t a, tasks w !! this = Some t /\ running t = true /\ queue_thread t = LoopHead /\
    q_view (message_queue t) a /\ aq_closed a = true /\ aq_items a = [].

Fixpoint run_turns (n : nat) (this : addr) : M Q (list turn) :=
  match n with
  | O => mret []
  | S n' => r ← run_step this; rs ← run_turns n' this; mret (r :: rs)
  end.

Lemma spinning_turns this w :
  spinning this w -> exists w1 w2, run_step this w = Ok (Progress, w1) /\ run_step this w1 = Ok (Progress, w2) /\
    spinning this w2.
Proof.
  intros (t & a & Ht & Hr & Hth & Hv & Hc & He).
  eexists. set (t1 := set_queue_thread InDequeue t).
  assert (Ht1 : tasks (with_task this t1 w) !! this = Some t1) by apply with_task_lookup.
  destruct (run_step_dequeue this t1 (with_task this t1 w) a Ht1 eq_refl Hv) as (q & Hq & Hrun).
  unfold aq_dequeue in Hq, Hrun. rewrite He, Hc in Hq, Hrun. cbn in Hq, Hrun.
  eexists. split; [by rewrite (run_step_head this t w Ht Hth), Hr|]. split.
  - fold t1. rewrite Hrun. set (w2 := with_task this (set_message_queue q t1) _).
    rewrite (M_bind_Ok _ _ w2 tt w2 eq_refl).
    by rewrite (M_bind_Ok _ _ w2 _ _ (modify_task_with this _ (set_message_queue q t1) w2 (with_task_lookup _ _ _))).
  - exists (set_queue_thread LoopHead (set_message_queue q t1)), (mkAqueue [] (aq_capacity a) true 0).
    split_and!; try done. apply with_task_lookup.
Qed.

Lemma run_turns_spin n this w :
  spinning this w -> exists w', run_turns (n + n) this w = Ok (replicate (n + n) Progress, w') /\ spinning this w'.
Proof.
  revert w. induction n as [|n IH]; intros w Hs; [by exists w|].
  destruct (spinning_turns this w Hs) as (w1 & w2 & H1 & H2 & Hs2). destruct (IH w2 Hs2) as (w' & Hrun & Hs').
  exists w'. split; [|done]. replace (S n + S n)%nat with (S (S (n + n))) by lia. cbn [run_turns].
  rewrite (M_bind_Ok _ _ _ _ _ H1), (M_bind_Ok _ _ w1 (Progress :: replicate (n + n) Progress) w'); [done|].
  by rewrite (M_bind_Ok _ _ _ _ _ H2), (M_bind_Ok _ _ _ _ _ Hrun).
Qed.

Lemma start_stopped this t w :
  tasks w !! this = Some t -> running t = false -> queue_thread t = Unjoinable ->
  periodic_thread t = Unjoinable ->
  start this w = Ok (tt, with_task this
    (mkTask (name t) (current_state t) true LoopHead
       (if decide (periodic_task_interval_ms t > 0) then LoopHead else Unjoinable)
       (periodic_task_interval_ms t) (message_queue t) (derived t)) w).
Proof.
  intros Ht Hr Hq Hp. unfold start, is_running.
  rewrite (M_bind_Ok _ _ w false w) by (by rewrite (M_bind_Ok _ _ _ _ _ (get_task_run this t w Ht)), <- Hr).
  rewrite (M_bind_Ok _ _ _ _ _ (modify_task_with this _ t w Ht)).
  set (t1 := set_running true t). set (w1 := with_task this t1 w).
  assert (Ht1 : tasks w1 !! this = Some t1) by apply with_task_lookup.
  rewrite (M_bind_Ok _ _ _ _ _ (get_task_run this t1 w1 Ht1)).
  rewrite (M_bind_Ok _ _ w1 LoopHead w1) by (unfold lift, t1; cbn; by rewrite Hq).
  rewrite (M_bind_Ok _ _ _ _ _ (modify_task_with this _ t1 w1 Ht1)).
  set (w2 := with_task this _ w1). cbn [periodic_task_interval_ms t1 set_running].
  assert (Hw : forall t', with_task this t' w1 = with_task this t' w)
    by (intros t'; unfold w1, with_task, set_tasks; cbn; by rewrite insert_insert_eq).
  destruct (decide (periodic_task_interval_ms t > 0)) as [Hi|Hi].
  - rewrite (M_bind_Ok _ _ w2 LoopHead w2) by (unfold lift, t1; cbn; by rewrite Hp).
    rewrite (modify_task_with this _ _ w2 (with_task_lookup _ _ _)). unfold w2. rewrite Hw.
    unfold with_task, set_tasks; cbn. by rewrite insert_insert_eq.
  - unfold w2. rewrite Hw. unfold t1, set_queue_thread, set_running; cbn. by rewrite Hp.
Qed.
End stopping.

(** ** Properties *)

Section properties.
Context {Q : Type} `{QueueImpl Q} `{HV : Virtual Q}.
Implicit Types (t : Task Q) (w : World Q).

Lemma mailbox_room_publish this m w b :
  bus_view w b -> bus_wf b -> fresh b 1 -> bus_on b = true -> msg_wf m -> get_sender m = this ->
  is_Some (tasks w !! this) -> subscribers_room b m ->
  exists mb, bus_publish b m = Ok (mkBus true (<[Z.to_nat (get_type m) :=
      live_in (bus_mail b) (default [] (bus_subs b !! Z.to_nat (get_type m)))]> (bus_subs b)) mb) /\
    forall p, mb !! p = posted b m p.
Proof.
  intros Hv Hwf Hf Hon Hm Hs Hlive Hroom. apply bus_publish_room; try done.
  right. rewrite Hs. destruct Hv as (_ & _ & Hmb). by apply (mailboxes_live w).
Qed.

(** [Task::transition_to_state] stores the new state and nothing else of
    the task, and one acknowledgement that names the task and carries the
    state as a byte is put into the queue of every live subscriber of
    StateAckMsg; all other queues and tasks stay as they were. *)
Theorem state_change_announced this s w b t :
  bus_view w b -> bus_wf b -> fresh b 1 -> bus_on b = true -> 0 < this < 2 ^ 64 -> tasks w !! this = Some t ->
  subscribers_room b (state_ack this s) ->
  exists w' mb, Task_transition_to_state this s w = Ok (tt, w') /\ mailboxes w' mb /\
    (forall p, mb !! p = posted b (state_ack this s) p) /\
    only_mail (with_task this (set_current_state s t) w) w' /\
    (exists t', tasks w' !! this = Some t' /\ current_state t' = s /\ name t' = name t /\ running t' = running t) /\
    (s ∈ task_states_named -> get_data_as AStateAckMsg (state_ack this s) = Some (mkStateAckMsg s)).
Proof.
  intros Hv Hwf Hf Hon Hthis Ht Hroom.
  destruct (mailbox_room_publish this (state_ack this s) w b Hv Hwf Hf Hon) as (mb & Hb & Hmb);
    [apply state_ack_wf; lia|done|by eexists|done|].
  pose proof (transition_view this s w b t Hv Hwf Hf Ht Hthis) as Htr. rewrite Hb in Htr.
  destruct Htr as (w' & Hrun & (_ & _ & Hm') & Hom). exists w', mb. split_and!; try done.
  - destruct (only_mail_name _ _ this _ Hom (with_task_lookup _ _ _)) as (t' & ? & ? & ? & ? & _). by exists t'.
  - intros Hs. unfold task_states_named in Hs. rewrite !elem_of_cons, elem_of_nil in Hs.
    cbn. do 2 f_equal. unfold state_to_byte. apply u8_small.
    unfold NOT_STARTED, IDLE, RUNNING, STOPPED, ERROR in Hs. lia.
Qed.

(** [handle_heartbeat] answers a heartbeat with one HeartbeatAckMsg that
    repeats its id and timestamp and carries the answering task's clock in
    milliseconds, delivered to the live subscribers of that type only. *)
Theorem heartbeat_echo this hb w b :
  bus_view w b -> bus_wf b -> fresh b 1 -> bus_on b = true -> 0 < this < 2 ^ 64 -> is_Some (tasks w !! this) ->
  0 <= unique_id hb < 2 ^ 32 -> 0 <= timestamp hb < 2 ^ 64 ->
  let m := pack this (VHeartbeatAckMsg (mkHeartbeatAckMsg (unique_id hb) (timestamp hb)
             (u64 (duration_cast_ms (steady_ns (clock w (ticks w))))))) in
  subscribers_room b m ->
  exists w' mb, handle_heartbeat this hb w = Ok (tt, w') /\ mailboxes w' mb /\ only_mail w w' /\
    forall p, mb !! p = posted b m p.
Proof.
  intros Hv Hwf Hf Hon Hthis [t Ht] Hid Hts m Hroom.
  assert (Hm : msg_wf m) by (apply pack_wf; [lia|]; cbn; split_and!; try lia; apply Z.mod_pos_bound; lia).
  destruct (mailbox_room_publish this m w b Hv Hwf Hf Hon Hm eq_refl) as (mb & Hb & Hmb); [by eexists|done|].
  pose proof (publish_view m (tick w) b Hv Hm (proj2 Hwf) (fresh_one b Hf)) as Hpub. rewrite Hb in Hpub.
  destruct Hpub as (w' & Hrun & (_ & _ & Hm') & Hom). exists w', mb. split_and!; try done.
  unfold handle_heartbeat. rewrite (M_bind_Ok _ _ w _ (tick w) eq_refl).
  rewrite (M_bind_Ok _ _ _ _ _ (lift_Msg_new _ _ _)).
  by rewrite (safe_publish_live this _ (tick w) t) by (done || (unfold nullptr; lia)).
Qed.

(** [start] does nothing on a running task. On one that is not running
    and has no threads it sets the flag and starts the message thread, and the
    periodic thread exactly when an interval is set. A task that is not
    running but whose thread was not joined makes it terminate the process. *)
Theorem start_cases this t w :
  tasks w !! this = Some t ->
  (running t = true -> start this w = Ok (tt, w)) /\
  (running t = false -> queue_thread t = Unjoinable -> periodic_thread t = Unjoinable ->
     exists t', start this w = Ok (tt, with_task this t' w) /\ running t' = true /\ queue_thread t' = LoopHead /\
       (periodic_thread t' = LoopHead <-> periodic_task_interval_ms t > 0) /\
       joinable (periodic_thread t') = bool_decide (periodic_task_interval_ms t > 0) /\
       name t' = name t /\ current_state t' = current_state t /\ message_queue t' = message_queue t) /\
  (running t = false -> joinable (queue_thread t) = true -> exists why, start this w = Err (Terminated why)).
Proof.
  intros Ht.
  assert (Hr : is_running this w = Ok (running t, w))
    by (unfold is_running; by rewrite (M_bind_Ok _ _ _ _ _ (get_task_run this t w Ht))).
  split_and!.
  - intros Hrun. rewrite Hrun in Hr. unfold start. by rewrite (M_bind_Ok _ _ _ _ _ Hr).
  - intros Hrun Hq Hp. eexists. split; [by apply start_stopped|]. cbn.
    destruct (decide (periodic_task_interval_ms t > 0)); [rewrite bool_decide_true by done|rewrite bool_decide_false by done];
      by split_and!.
  - intros Hrun Hq. rewrite Hrun in Hr. unfold start. rewrite (M_bind_Ok _ _ _ _ _ Hr).
    rewrite (M_bind_Ok _ _ _ _ _ (modify_task_with this _ t w Ht)).
    rewrite (M_bind_Ok _ _ _ _ _ (get_task_run this _ _ (with_task_lookup _ _ _))).
    eexists. apply M_bind_Err. unfold lift, spawn. cbn. by rewrite Hq.
Qed.

(** What one turn of the message loop does: it leaves the loop as soon as
    the flag is cleared; in [dequeue] it waits exactly when the queue is empty
    and not shut down; otherwise it takes out the oldest message of the
    highest priority and hands it to [process_message] once, or, on an empty
    queue that was shut down, goes back to the loop's test. *)
Theorem message_loop_turn this t w a :
  tasks w !! this = Some t -> q_view (message_queue t) a ->
  (queue_thread t = LoopHead ->
     run_step this w = Ok (Progress, with_task this (set_queue_thread (if running t then InDequeue else Finished) t) w)) /\
  (queue_thread t = InDequeue ->
     (run_step this w = Ok (Waiting, w) <-> aq_items a = [] /\ aq_closed a = false) /\
     (aq_items a = [] -> aq_closed a = true ->
        exists t', run_step this w = Ok (Progress, with_task this t' w) /\ queue_thread t' = LoopHead /\
          running t' = running t) /\
     (forall m r, pop_best msg_lt (aq_items a) = Some (m, r) ->
        exists q a', q_view q a' /\ aq_items a' = r /\
          run_step this w =
            (_ ← process_message this m; _ ← modify_task this (set_queue_thread LoopHead); mret Progress)
              (with_task this (set_message_queue q t) w))).
Proof.
  intros Ht Hv. split; [by apply run_step_head|]. intros Hth.
  destruct (run_step_dequeue this t w a Ht Hth Hv) as (q & Hq & Hrun).
  destruct (pop_best msg_lt (aq_items a)) as [[m r]|] eqn:Hp.
  - assert (Hne : aq_items a <> []) by (intros He; by rewrite He in Hp).
    unfold aq_dequeue in *. rewrite Hp in *. cbn in Hq, Hrun. split_and!.
    + split; [|by intros []]. rewrite Hrun. intros Hw. exfalso. revert Hw.
      unfold mbind, M_bind. destruct (process_message this m _) as [[u w1]|e]; [|done].
      by destruct (modify_task this _ w1) as [[u' w2]|].
    + by intros ?.
    + intros m' r' [= <- <-]. eexists q, _. by split_and!.
  - apply pop_best_None in Hp. destruct (aq_closed a) eqn:Hc.
    + unfold aq_dequeue in *. rewrite Hp, Hc in *. cbn in Hq, Hrun.
      set (w1 := with_task this (set_message_queue q t) w) in *.
      rewrite (M_bind_Ok _ _ w1 tt w1 eq_refl) in Hrun.
      rewrite (M_bind_Ok _ _ w1 _ _ (modify_task_with this _ _ w1 (with_task_lookup _ _ _))) in Hrun.
      split_and!; [|intros _ _|done].
      * split; [|by intros []]. by rewrite Hrun.
      * eexists. rewrite Hrun. unfold w1, with_task, set_tasks; cbn. rewrite insert_insert_eq. by split_and!.
    + rewrite (aq_dequeue_open_empty a Hc Hp) in Hrun. cbn in Hrun. split_and!; [|by intros ? ?|by intros ? ?].
      by split.
Qed.

(** Joining the periodic thread of a task that is not running comes back
    once the clock has passed the deadline of its sleep, without another call
    of [periodic_task_process]; nothing but the thread object changes. *)
Theorem periodic_join_terminates this t w k until_ns :
  tasks w !! this = Some t -> running t = false -> periodic_thread t = Sleeping until_ns ->
  until_ns <= steady_ns (clock w (ticks w + k)) ->
  exists w', join_periodic_thread (k + 2) this w = Ok (true, w') /\
    tasks w' = <[this := set_periodic_thread Unjoinable t]> (tasks w) /\ broker w' = broker w.
Proof.
  intros Ht Hr Hth Hk. destruct (join_periodic_sleeping k 0 this t w until_ns Ht Hr Hth Hk) as (w' & ? & ? & ? & _). by exists w'.
Qed.

(** C37. A task that was stopped with an empty queue and is started again never
    waits: its queue is still shut down, so its message loop takes turn after
    turn without a message and without blocking. *)
Theorem restart_spins this t w a n :
  tasks w !! this = Some t -> running t = false -> queue_thread t = Unjoinable ->
  periodic_thread t = Unjoinable -> q_view (message_queue t) a -> aq_closed a = true -> aq_items a = [] ->
  exists w1 w2, start this w = Ok (tt, w1) /\
    run_turns (n + n) this w1 = Ok (replicate (n + n) Progress, w2) /\ spinning this w2.
Proof.
  intros Ht Hr Hq Hp Hv Hc He. rewrite (start_stopped this t w Ht Hr Hq Hp). set (t1 := mkTask _ _ _ _ _ _ _ _).
  assert (Hs : spinning this (with_task this t1 w)).
  { exists t1, a. split_and!; try done. apply with_task_lookup. }
  destruct (run_turns_spin n this _ Hs) as (w2 & Hrun & Hs2). by exists (with_task this t1 w), w2.
Qed.

(** C38. Letting go of the last owner of a running task terminates the
    process: the destructor's [stop] publishes through [shared_from_this],
    which throws once nobody owns the object, and a destructor may not throw.
    A task that is not running and has been joined is destroyed quietly, and
    one with an unjoined thread terminates the process as well. *)
Theorem destroy_running this t w :
  tasks w !! this = Some t ->
  (running t = true -> Task_destroy this w = Err (Terminated "std::bad_weak_ptr")) /\
  (running t = false -> joinable (queue_thread t) = false -> joinable (periodic_thread t) = false ->
     exists w', Task_destroy this w = Ok (tt, w') /\ tasks w' = delete this (tasks w)) /\
  (running t = false -> joinable (queue_thread t) || joinable (periodic_thread t) = true ->
     exists why, Task_destroy this w = Err (Terminated why)).
Proof.
  intros Ht. unfold Task_destroy. rewrite (M_bind_Ok _ _ _ _ _ (get_task_run this t w Ht)).
  set (w1 := set_tasks (delete this (tasks w)) w).
  assert (Hdead : tasks w1 !! this = None) by apply lookup_delete_eq.
  rewrite (M_bind_Ok (modify (fun w => set_tasks (delete this (tasks w)) w)) _ w tt w1 eq_refl). split_and!.
  - intros Hr. rewrite Hr. apply M_bind_Err. unfold noexcept. by rewrite announce_state_expired.
  - intros Hr Hq Hp. exists w1. rewrite Hr, Hq, Hp. done.
  - intros Hr Hj. eexists. rewrite Hr, Hj. done.
Qed.
End properties.

(** ** Witnesses *)

#[local] Instance quiet : Virtual aqueue := {
  process_message _ _ := mret tt;
  periodic_task_process _ := mret tt;
  transition_to_state := Task_transition_to_state
}.

Definition quiet_task (r : bool) (qt pt : thread) (closed : bool) : Task aqueue :=
  mkTask "A" NOT_STARTED r qt pt 10 (mkAqueue [] 4 closed 0) IsUserTask.
Definition quiet_world t : World aqueue :=
  mkWorld {[16 := t]} (mkBroker true [[]; [16]; []; [16]]) Logger_new
    (fun n => mkClockReading (Z.of_nat n * 1000000) 0 0) 0 (1, 1).
Definition quiet_bus t : bus := mkBus true [[]; [16]; []; [16]] {[16 := message_queue t]}.

Lemma quiet_view r qt pt c : bus_view (quiet_world (quiet_task r qt pt c)) (quiet_bus (quiet_task r qt pt c)).
Proof.
  split_and!; [done..|]. intros p. cbn. destruct (decide (p = 16)) as [->|Hne].
  - rewrite !lookup_singleton_eq. constructor. cbn. split; [done|lia].
  - rewrite !lookup_singleton_ne by done. constructor.
Qed.

Lemma quiet_wf t : bus_wf (quiet_bus t).
Proof. split; [done|]. by apply (bool_decide_eq_true_1 (Forall NoDup _)). Qed.

Lemma quiet_fresh r qt pt c : fresh (quiet_bus (quiet_task r qt pt c)) 1.
Proof. intros p a. cbn. by intros [<- <-]%lookup_singleton_Some. Qed.

Lemma quiet_room r qt pt c m : subscribers_room (quiet_bus (quiet_task r qt pt c)) m.
Proof. intros p a _. cbn. intros [<- <-]%lookup_singleton_Some. unfold has_room. cbn. lia. Qed.

Lemma state_change_announced_witness :
  exists w' mb, Task_transition_to_state 16 RUNNING (quiet_world (quiet_task true LoopHead Unjoinable false)) = Ok (tt, w') /\
    mailboxes w' mb /\ mb !! 16 = Some (mkAqueue [state_ack 16 RUNNING] 4 false 1).
Proof.
  destruct (state_change_announced 16 RUNNING _ _ (quiet_task true LoopHead Unjoinable false)
    (quiet_view true LoopHead Unjoinable false) (quiet_wf _) (quiet_fresh _ _ _ _))
    as (w' & mb & Hrun & Hm & Hmb & _); [done|done|done|apply quiet_room|].
  exists w', mb. by rewrite Hmb.
Defined.

Lemma heartbeat_echo_witness :
  exists w' (mb : gmap addr aqueue),
    handle_heartbeat 16 (mkHeartbeatMsg 5 6) (quiet_world (quiet_task true LoopHead Unjoinable false)) = Ok (tt, w') /\
    mb !! 16 = Some (mkAqueue [pack 16 (VHeartbeatAckMsg (mkHeartbeatAckMsg 5 6 0))] 4 false 1).
Proof.
  destruct (heartbeat_echo 16 (mkHeartbeatMsg 5 6) _ _ (quiet_view true LoopHead Unjoinable false)
    (quiet_wf _) (quiet_fresh _ _ _ _)) as (w' & mb & Hrun & _ & _ & Hmb);
    [done|done|by eexists|done|done|apply quiet_room|].
  exists w', mb. by rewrite Hmb.
Defined.

Lemma start_cases_witness :
  exists t', start 16 (quiet_world (quiet_task false Unjoinable Unjoinable false)) =
      Ok (tt, with_task 16 t' (quiet_world (quiet_task false Unjoinable Unjoinable false))) /\
    periodic_thread t' = LoopHead.
Proof.
  destruct (start_cases 16 (quiet_task false Unjoinable Unjoinable false)
    (quiet_world (quiet_task false Unjoinable Unjoinable false)) eq_refl) as (_ & Hst & _).
  destruct (Hst eq_refl eq_refl eq_refl) as (t' & Hrun & _ & _ & Hp & _). exists t'. split; [done|]. by apply Hp.
Defined.

Lemma message_loop_turn_witness :
  let w := quiet_world (quiet_task true InDequeue Unjoinable false) in run_step 16 w = Ok (Waiting, w).
Proof.
  destruct (message_loop_turn 16 (quiet_task true InDequeue Unjoinable false)
    (quiet_world (quiet_task true InDequeue Unjoinable false)) (mkAqueue [] 4 false 0) eq_refl) as [_ Hd].
  { cbn. split; [done|lia]. }
  destruct (Hd eq_refl) as [[_ Hw] _]. by apply Hw.
Defined.

Lemma periodic_join_terminates_witness :
  exists w', join_periodic_thread 7 16 (quiet_world (quiet_task false Unjoinable (Sleeping 5000000) false)) = Ok (true, w').
Proof.
  destruct (periodic_join_terminates 16 (quiet_task false Unjoinable (Sleeping 5000000) false)
    (quiet_world (quiet_task false Unjoinable (Sleeping 5000000) false)) 5 5000000) as (w' & ? & _); try done.
  by exists w'.
Defined.

Lemma restart_spins_witness :
  exists w1 w2, start 16 (quiet_world (quiet_task false Unjoinable Unjoinable true)) = Ok (tt, w1) /\
    run_turns 6 16 w1 = Ok (replicate 6 Progress, w2).
Proof.
  destruct (restart_spins 16 (quiet_task false Unjoinable Unjoinable true)
    (quiet_world (quiet_task false Unjoinable Unjoinable true)) (mkAqueue [] 4 true 0) 3)
    as (w1 & w2 & ? & ? & _); try done. { cbn. split; [done|lia]. } by exists w1, w2.
Defined.

Lemma destroy_running_witness :
  Task_destroy 16 (quiet_world (quiet_task true InDequeue Unjoinable false)) = Err (Terminated "std::bad_weak_ptr").
Proof. by apply (destroy_running 16 (quiet_task true InDequeue Unjoinable false)). Defined.
