(* ===== verification/BusPrograms.v ===== *)
(** * BusPrograms: programs over the bus (broker.h, ~Task)

    Sequences of calls of the broker's interface and of ends of task lives,
    run on a [World] with the real destructor, and on the abstract bus, where
    a drop looks up what the end of the task comes to. *)

From S2P Require Import Prelude Msg Heap QueueSpec Logger World Broker TaskBase.
#[local] Open Scope Z_scope.

(** ** Programs over the bus *)

(** A call of the interface by the owner of a live task, or the end of a
    task's life ([BDrop]: the last [shared_ptr] to it goes away). *)
Inductive bop := BInit (n : Z) | BSubscribe (p : addr) (ty : MsgType) | BPublish (m : Msg) | BDrop (p : addr).

Section programs.
Context {Q : Type} `{QueueImpl Q}.

(** A subscription needs a [shared_ptr] to the task. *)
Definition bop_run (o : bop) : M Q unit :=
  match o with
  | BInit n => initialize n
  | BSubscribe p ty => t ← get_task p; subscribe p ty
  | BPublish m => publish m
  | BDrop p => Task_destroy p
  end.

Fixpoint bops_run (os : list bop) : M Q unit :=
  match os with
  | [] => mret tt
  | o :: os' => _ ← bop_run o; bops_run os'
  end.
End programs.

(** What the end of the life of [t] comes to: the destructor of a running
    task throws, that of an unjoined thread terminates the process; the end
    of any other task is quiet. *)
Definition ending {Q} (t : Task Q) : option error :=
  if running t then Some (Terminated "std::bad_weak_ptr")
  else if joinable (queue_thread t) || joinable (periodic_thread t)
  then Some (Terminated "destruction of a joinable std::thread") else None.

(** The ends of the tasks of a world; the calls of a program start and stop
    nobody, so they stay the same ([same_endings] below). *)
Definition endings {Q} (w : World Q) (p : addr) : option error := t ← tasks w !! p; ending t.

(** One step on the bus, where the lives of the tasks end as [fate] says. *)
Definition bus_step (fate : addr -> option error) (b : bus) (o : bop) : result bus :=
  match o with
  | BInit _ => Ok (mkBus true (bus_subs b) (bus_mail b))
  | BSubscribe p ty => if decide (is_Some (bus_mail b !! p)) then bus_subscribe b p ty else Err dangling
  | BPublish m => bus_publish b m
  | BDrop p =>
      if decide (is_Some (bus_mail b !! p)) then
        match fate p with
        | Some e => Err e
        | None => Ok (mkBus (bus_on b) (bus_subs b) (delete p (bus_mail b)))
        end
      else Err dangling
  end.

Fixpoint bus_steps (fate : addr -> option error) (b : bus) (os : list bop) : result bus :=
  match os with
  | [] => Ok b
  | o :: os' => b' ← bus_step fate b o; bus_steps fate b' os'
  end.

Definition bop_wf (o : bop) : Prop :=
  match o with
  | BPublish m => msg_wf m
  | BSubscribe _ ty => - 2 ^ 31 <= ty < 2 ^ 31 (* the enumeration's int *)
  | _ => True
  end.

Lemma bus_drop_Ok fate b p b' :
  bus_step fate b (BDrop p) = Ok b' -> b' = mkBus (bus_on b) (bus_subs b) (delete p (bus_mail b)).
Proof. cbn [bus_step]. case_decide; [|done]. destruct (fate p); [done|]. by intros [= <-]. Qed.

Lemma bus_step_wf fate b o b' : bus_wf b -> bus_step fate b o = Ok b' -> bus_wf b'.
Proof.
  intros Hwf. destruct o as [n|p ty|m|p]; [| | |by intros ->%bus_drop_Ok]; cbn [bus_step].
  - by intros [= <-].
  - case_decide; [|done]. by apply bus_subscribe_wf.
  - by apply bus_publish_wf.
Qed.

Lemma bus_step_fresh fate b o b' k : bus_wf b -> fresh b (k + 1) -> bus_step fate b o = Ok b' -> fresh b' k.
Proof.
  intros Hwf Hk. destruct o as [n|p ty|m|p].
  - intros [= <-] p a Ha. specialize (Hk p a Ha). lia.
  - cbn [bus_step]. case_decide; [|done].
    intros (i & Hi & ->)%bus_subscribe_Ok p' a. case_decide; intros Ha; specialize (Hk p' a Ha); lia.
  - by apply bus_publish_fresh.
  - intros ->%bus_drop_Ok p' a. cbn. intros [_ Ha]%lookup_delete_Some. specialize (Hk p' a Ha). lia.
Qed.

Section program_refinement.
Context {Q : Type} `{QueueImpl Q}.
Implicit Types (t : Task Q) (w : World Q).

(** The calls keep what decides how the lives of the tasks end. *)
Definition same_endings w w' : Prop := forall p, is_Some (tasks w' !! p) -> endings w' p = endings w p.

Lemma same_endings_refl w w' : tasks w' = tasks w -> same_endings w w'.
Proof. intros Ht p _. unfold endings. by rewrite Ht. Qed.

Lemma same_endings_mail w w' : only_mail w w' -> same_endings w w'.
Proof.
  intros Hm p _. unfold endings. specialize (Hm p).
  inversion Hm as [t t' Heq Ht Ht'|Ht Ht']; [|done]. rewrite Heq. by destruct t.
Qed.

(** The destructor of [p] does what its [ending] says. *)
Lemma Task_destroy_view p w b :
  bus_view w b ->
  match bus_step (endings w) b (BDrop p) with
  | Ok b' => exists w', Task_destroy p w = Ok (tt, w') /\ bus_view w' b' /\ same_endings w w'
  | Err e => Task_destroy p w = Err e
  end.
Proof.
  intros Hv. pose proof Hv as (Hon & Hs & Hm). cbn [bus_step]. case_decide as Hl.
  - destruct Hl as [a Ha]. destruct (mailboxes_task w _ p a Hm Ha) as (t & Ht & _).
    unfold Task_destroy. rewrite (M_bind_Ok _ _ _ _ _ (get_task_run p t w Ht)).
    set (w1 := set_tasks (delete p (tasks w)) w).
    rewrite (M_bind_Ok (modify (fun w => set_tasks (delete p (tasks w)) w)) _ w tt w1 eq_refl).
    unfold endings. rewrite Ht. cbn [mbind option_bind]. unfold ending. destruct (running t).
    + apply M_bind_Err. unfold noexcept. rewrite announce_state_expired; [done|]. apply lookup_delete_eq.
    + destruct (joinable (queue_thread t) || joinable (periodic_thread t)); [done|].
      exists w1. split_and!; [done|split_and!; [done..|]|].
      * intros p'. cbn. destruct (decide (p = p')) as [<-|Hne]; [rewrite !lookup_delete_eq; constructor|].
        rewrite !lookup_delete_ne by done. apply Hm.
      * intros p' [t' Ht']. unfold endings. cbn in *. apply lookup_delete_Some in Ht' as [Hne _].
        by rewrite lookup_delete_ne.
  - apply eq_None_not_Some in Hl. by apply M_bind_Err, get_task_dangling, (dead_task w (bus_mail b)).
Qed.

Lemma bop_run_view o w b :
  bus_view w b -> bus_wf b -> bop_wf o -> fresh b 1 ->
  match bus_step (endings w) b o with
  | Ok b' => exists w', bop_run o w = Ok (tt, w') /\ bus_view w' b' /\ same_endings w w'
  | Err e => bop_run o w = Err e
  end.
Proof.
  intros Hv Hwf Ho Hf. destruct o as [n|p ty|m|p]; [..|by apply Task_destroy_view]; cbn [bus_step bop_run].
  - destruct (initialize_view n w b Hv) as (w' & ? & ? & ?). exists w'. by auto using same_endings_refl.
  - pose proof Hv as (_ & _ & Hm). case_decide as Hl.
    + destruct Hl as [a Ha]. destruct (mailboxes_task w _ p a Hm Ha) as (t & Ht & _).
      rewrite (M_bind_Ok _ _ _ _ _ (get_task_run p t w Ht)).
      pose proof (subscribe_view p ty w b Hv) as Hsub. destruct (bus_subscribe b p ty); [|done].
      destruct Hsub as (w' & ? & ? & ?). exists w'. by auto using same_endings_refl.
    + apply eq_None_not_Some in Hl. by apply M_bind_Err, get_task_dangling, (dead_task w (bus_mail b)).
  - pose proof (publish_view m w b Hv Ho (proj2 Hwf) (fresh_one b Hf)) as Hp. destruct (bus_publish b m); [|done].
    destruct Hp as (w' & ? & ? & ?). exists w'. by auto using same_endings_mail.
Qed.

(** The bus looks at the fates of live tasks only. *)
Lemma bus_step_fate fate fate' b o :
  (forall p, is_Some (bus_mail b !! p) -> fate' p = fate p) -> bus_step fate' b o = bus_step fate b o.
Proof. intros Hf. destruct o as [| | |p]; try done. cbn [bus_step]. case_decide as Hl; [|done]. by rewrite (Hf p Hl). Qed.

(** No step brings a mailbox into being. *)
Lemma bus_step_live fate b o b' p :
  bus_wf b -> bus_step fate b o = Ok b' -> is_Some (bus_mail b' !! p) -> is_Some (bus_mail b !! p).
Proof.
  intros Hwf. destruct o as [n|p' ty|m|p'].
  - by intros [= <-].
  - cbn [bus_step]. case_decide; [|done]. intros (i & _ & ->)%bus_subscribe_Ok. by case_decide.
  - intros (i & mb & _ & Hp & ->)%bus_publish_Ok. cbn. rewrite (bus_post_Ok _ _ _ _ (bus_list_NoDup b i Hwf) Hp).
    case_decide; [|done]. by rewrite fmap_is_Some.
  - intros ->%bus_drop_Ok. cbn. intros [a [_ Ha]%lookup_delete_Some]. by exists a.
Qed.

Lemma bus_steps_fate os fate fate' b :
  bus_wf b -> (forall p, is_Some (bus_mail b !! p) -> fate' p = fate p) -> bus_steps fate' b os = bus_steps fate b os.
Proof.
  revert b. induction os as [|o os IH]; intros b Hwf Hf; cbn [bus_steps]; [done|].
  rewrite (bus_step_fate fate fate' b o Hf). destruct (bus_step fate b o) as [b1|] eqn:Hb; [|done].
  cbn [mbind result_bind]. apply IH; [by eapply bus_step_wf|]. intros p Hp. by eapply Hf, bus_step_live.
Qed.

Lemma bops_run_view os w b :
  bus_view w b -> bus_wf b -> Forall bop_wf os -> fresh b (Z.of_nat (length os)) ->
  match bus_steps (endings w) b os with
  | Ok b' => exists w', bops_run os w = Ok (tt, w') /\ bus_view w' b' /\ bus_wf b'
  | Err e => bops_run os w = Err e
  end.
Proof.
  revert w b. induction os as [|o os IH]; intros w b Hv Hwf Ho Hf; cbn [bus_steps bops_run]; [by exists w|].
  apply Forall_cons in Ho as [Ho Hos].
  assert (Hf1 : fresh b 1) by (intros p a Ha; specialize (Hf p a Ha); cbn [length] in Hf; lia).
  pose proof (bop_run_view o w b Hv Hwf Ho Hf1) as Hstep.
  destruct (bus_step (endings w) b o) as [b1|e] eqn:Hb; cbn [mbind result_bind]; [|by apply M_bind_Err].
  destruct Hstep as (w1 & Hrun & Hv1 & Hsame). rewrite (M_bind_Ok _ _ _ _ _ Hrun).
  assert (Hwf1 : bus_wf b1) by exact (bus_step_wf _ _ _ _ Hwf Hb).
  rewrite <- (bus_steps_fate os (endings w) (endings w1) b1 Hwf1).
  - apply IH; [done..|]. apply (bus_step_fresh (endings w) b o b1); [done| |done].
    intros p a Ha. specialize (Hf p a Ha). cbn [length] in Hf. lia.
  - intros p Hp. apply Hsame. by apply (mailboxes_live w1 (bus_mail b1) p (proj2 (proj2 Hv1))).
Qed.
End program_refinement.

(** What the task [p] receives from a program, being subscribed to the types
    [S] at its start. *)
Fixpoint inbox (p : addr) (S : gset Z) (os : list bop) : list Msg :=
  match os with
  | [] => []
  | BSubscribe p' ty :: os' => inbox p (if decide (p' = p) then {[ty]} ∪ S else S) os'
  | BPublish m :: os' => if decide (get_type m ∈ S) then m :: inbox p S os' else inbox p S os'
  | _ :: os' => inbox p S os'
  end.

(** The types [p] is subscribed to. *)
Definition subscriptions (b : bus) (p : addr) : gset Z :=
  list_to_set (base.filter (fun ty => p ∈ default [] (bus_subs b !! Z.to_nat ty))
                 (seqZ 0 MESSAGE_TYPE_COUNT)).

Definition subscribed (b : bus) (p : addr) (S : gset Z) : Prop :=
  forall ty, 0 <= ty < MESSAGE_TYPE_COUNT -> ty ∈ S <-> p ∈ default [] (bus_subs b !! Z.to_nat ty).

Lemma subscriptions_subscribed b p : subscribed b p (subscriptions b p).
Proof.
  intros ty Hty. unfold subscriptions. rewrite elem_of_list_to_set, list_elem_of_filter, elem_of_seqZ.
  split; [by intros []|]. intros Hp. split; [done|lia].
Qed.

Lemma subscribe_subscribed b p ty b' p' S :
  bus_wf b -> - 2 ^ 31 <= ty < 2 ^ 31 -> bus_subscribe b p ty = Ok b' -> subscribed b p' S ->
  subscribed b' p' (if decide (p = p') then {[ty]} ∪ S else S).
Proof.
  intros [Hlen _] Hty (i & Hi & ->)%bus_subscribe_Ok HS.
  destruct (bus_index_type b ty i Hty Hi) as [Hr ->]. intros ty' Hr'. specialize (HS ty' Hr').
  set (l := default [] (bus_subs b !! Z.to_nat ty)) in *.
  assert (Hset : ty' ∈ (if decide (p = p') then {[ty]} ∪ S else S) <-> (p = p' /\ ty' = ty) \/ ty' ∈ S).
  { destruct (decide (p = p')); [rewrite elem_of_union, elem_of_singleton|]; tauto. }
  rewrite Hset, HS. destruct (decide (p ∈ live_in (bus_mail b) l)) as [Hin|Hin].
  - apply elem_of_live_in in Hin as [Hin _]. split; [|by right]. by intros [(<- & ->) | H0].
  - cbn [bus_subs]. rewrite default_insert by (rewrite Hlen; lia).
    destruct (decide (Z.to_nat ty = Z.to_nat ty')) as [Hty'|Hty'].
    + assert (ty = ty') as <- by lia. rewrite elem_of_app, list_elem_of_singleton. fold l.
      split; [intros [(<- & _) | H0]; auto|]. intros [| ->]; auto.
    + split; [|by right]. by intros [(<- & ->) | H0].
Qed.

Lemma publish_subscribed b m b' p S :
  bus_wf b -> msg_wf m -> bus_publish b m = Ok b' -> is_Some (bus_mail b !! p) ->
  subscribed b p S -> subscribed b' p S.
Proof.
  intros [Hlen _] Hm (i & mb & Hi & _ & ->)%bus_publish_Ok Hp HS ty Hr. specialize (HS ty Hr).
  destruct (bus_index_type b _ i (msg_wf_type_range m Hm) Hi) as [Hri ->]. cbn.
  rewrite default_insert by (rewrite Hlen; lia). case_decide as Heq; [|done].
  rewrite elem_of_live_in, HS, Heq. tauto.
Qed.

(** One step of a program, seen from the mailbox of [p]. *)
Lemma bus_step_inbox fate b o b' p a' S :
  bus_wf b -> bop_wf o -> bus_step fate b o = Ok b' -> subscribed b p S -> bus_mail b' !! p = Some a' ->
  exists a S', bus_mail b !! p = Some a /\ aq_items a' = aq_items a ++ inbox p S [o] /\
    subscribed b' p S' /\ forall os, inbox p S (o :: os) = inbox p S [o] ++ inbox p S' os.
Proof.
  intros Hwf Ho. destruct o as [n|p' ty|m|p'].
  - intros [= <-] HS Ha. exists a', S. by rewrite app_nil_r.
  - cbn [bus_step]. destruct (decide (is_Some (bus_mail b !! p'))) as [Hl|Hl]; [|done]. intros Hsub HS Ha.
    pose proof (subscribe_subscribed _ _ _ _ p S Hwf Ho Hsub HS).
    exists a'. eexists. cbn. rewrite app_nil_r. split_and!; [|done|done|done].
    apply bus_subscribe_Ok in Hsub as (i & _ & ->). by case_decide.
  - intros Hpub HS Ha. destruct (bus_publish_Ok b m b' Hpub) as (i & mb & Hi & Hpost & ->). cbn in Ha.
    rewrite (bus_post_Ok _ _ _ _ (bus_list_NoDup b i Hwf) Hpost) in Ha.
    destruct (bus_index_type b _ i (msg_wf_type_range m Ho) Hi) as [Hr ->].
    destruct (bus_mail b !! p) as [a|] eqn:Hp; [|by case_decide].
    exists a, S. cbn. split_and!; [done| | |].
    + case_decide as Hin; [|rewrite decide_False, app_nil_r by (by rewrite (HS _ Hr)); congruence].
      rewrite decide_True by (by rewrite (HS _ Hr)). cbn in Ha. by injection Ha as <-.
    + eapply publish_subscribed; [done|done|done|by rewrite Hp|done].
    + intros os. cbn; by destruct (decide (get_type m ∈ S)).
  - intros ->%bus_drop_Ok HS. cbn. intros [_ Ha]%lookup_delete_Some. exists a', S. by rewrite app_nil_r.
Qed.

Lemma bus_steps_inbox os fate b b' p a' S :
  bus_wf b -> Forall bop_wf os -> bus_steps fate b os = Ok b' -> subscribed b p S -> bus_mail b' !! p = Some a' ->
  exists a, bus_mail b !! p = Some a /\ aq_items a' = aq_items a ++ inbox p S os.
Proof.
  revert b S. induction os as [|o os IH]; intros b S Hwf Hos Hsteps HS Ha; cbn [bus_steps] in Hsteps.
  { injection Hsteps as <-. exists a'. by rewrite app_nil_r. }
  apply Forall_cons in Hos as [Ho Hos]. apply result_bind_Ok in Hsteps as (b1 & Hb1 & Hsteps).
  (* the subscriptions after the step do not depend on the mailbox *)
  assert (HS1 : forall a1, bus_mail b1 !! p = Some a1 -> exists a, bus_mail b !! p = Some a /\
            aq_items a' = aq_items a ++ inbox p S (o :: os)).
  { intros a1 Ha1. destruct (bus_step_inbox fate b o b1 p a1 S Hwf Ho Hb1 HS Ha1) as (a & S' & Hp & Hi & HS' & Hall).
    destruct (IH b1 S' ltac:(by eapply bus_step_wf) Hos Hsteps HS' Ha) as (a2 & Ha2 & Hi2).
    exists a. split; [done|]. rewrite Hall, Hi2. simplify_eq. by rewrite Hi, <- app_assoc. }
  assert (Hlive : is_Some (bus_mail b1 !! p)).
  { destruct (IH b1 (subscriptions b1 p) ltac:(by eapply bus_step_wf) Hos Hsteps
      (subscriptions_subscribed b1 p) Ha) as (a & Hp & _). by exists a. }
  destruct Hlive as [a1 Ha1]. by apply (HS1 a1).
Qed.

(** ** Properties *)

Section properties.
Context {Q : Type} `{QueueImpl Q}.
Implicit Types (t : Task Q) (w : World Q).

(** C5. Every program of initialisations, subscriptions, publications and
    task lifetimes has on the broker exactly the outcome it has on the
    abstract bus, and keeps the subscriber lists well formed: one per message
    type, without duplicates. The errors are included: failed assertions,
    accesses to dead senders, and the ends of tasks that are running or have
    a thread nobody joined, which terminate the process. *)
Theorem broker_refines os w b :
  bus_view w b -> bus_wf b -> Forall bop_wf os -> fresh b (Z.of_nat (length os)) ->
  match bus_steps (endings w) b os with
  | Ok b' => exists w', bops_run os w = Ok (tt, w') /\ bus_view w' b' /\ bus_wf b'
  | Err e => bops_run os w = Err e
  end.
Proof. apply bops_run_view. Qed.

(** C6. After any such program that runs through, a task that is still alive
    has received, in order, exactly the messages that were published while it
    was subscribed to their type, each once, and nothing else. *)
Theorem subscribers_receive os w b w' :
  bus_view w b -> bus_wf b -> Forall bop_wf os -> fresh b (Z.of_nat (length os)) ->
  bops_run os w = Ok (tt, w') ->
  forall p t', tasks w' !! p = Some t' ->
    exists t a a', tasks w !! p = Some t /\ q_view (message_queue t) a /\ q_view (message_queue t') a' /\
      aq_items a' = aq_items a ++ inbox p (subscriptions b p) os.
Proof.
  intros Hv Hwf Hos Hf Hrun p t' Ht'. pose proof (bops_run_view os w b Hv Hwf Hos Hf) as Href.
  destruct (bus_steps (endings w) b os) as [b'|e] eqn:Hsteps; [|by rewrite Href in Hrun].
  destruct Href as (w1 & Hrun1 & (_ & _ & Hm') & _). rewrite Hrun1 in Hrun. injection Hrun as ->.
  pose proof (Hm' p) as Hp. rewrite Ht' in Hp. inversion Hp as [? a' Hva' Hx Ha'|]; subst.
  destruct (bus_steps_inbox os _ b b' p a' _ Hwf Hos Hsteps (subscriptions_subscribed b p) (eq_sym Ha'))
    as (a & Ha & Hitems).
  pose proof Hv as (_ & _ & Hm). destruct (mailboxes_task w _ p a Hm Ha) as (t & Ht & Hva).
  by exists t, a, a'.
Qed.
End properties.

(** ** Witnesses: two tasks on reference queues, and one that runs *)

Definition demo_program : list bop := [BInit 16; BSubscribe 16 2; BPublish demo_msg; BSubscribe 16 2; BDrop 32].

Lemma demo_program_wf : Forall bop_wf demo_program.
Proof. repeat constructor; cbn; try lia; apply demo_msg_wf. Qed.

Lemma broker_refines_witness :
  (exists w', bops_run demo_program (demo_world false [[]; []; []; []]) = Ok (tt, w') /\
    bus_view w' (mkBus true [[]; []; [16]; []] {[16 := received demo_msg (aq_new 2)]})) /\
  bops_run [BInit 16; BDrop 16] (quiet_world (quiet_task true InDequeue Unjoinable false)) =
    Err (Terminated "std::bad_weak_ptr").
Proof.
  split.
  - destruct (broker_refines demo_program _ _ (demo_bus_view false [[]; []; []; []]) demo_start_wf demo_program_wf
      ltac:(apply demo_fresh; done)) as (w' & ? & ? & _). by exists w'.
  - apply (broker_refines [BInit 16; BDrop 16] _ _ (quiet_view true InDequeue Unjoinable false) (quiet_wf _)).
    + by repeat constructor.
    + intros p a. cbn. by intros [<- <-]%lookup_singleton_Some.
Defined.

Lemma subscribers_receive_witness :
  exists w', bops_run demo_program (demo_world false [[]; []; []; []]) = Ok (tt, w') /\
    exists t' a', tasks w' !! 16 = Some t' /\ q_view (message_queue t') a' /\ aq_items a' = [demo_msg].
Proof.
  destruct (bops_run_view demo_program _ _ (demo_bus_view false [[]; []; []; []]) demo_start_wf demo_program_wf
    ltac:(apply demo_fresh; done)) as (w' & Hrun & (_ & _ & Hm) & _). exists w'. split; [done|].
  destruct (mailboxes_task w' _ 16 (received demo_msg (aq_new 2)) Hm eq_refl) as (t' & Ht' & _).
  destruct (subscribers_receive demo_program _ _ w' (demo_bus_view false _) demo_start_wf demo_program_wf
    ltac:(apply demo_fresh; done) Hrun 16 t' Ht') as (t & a & a' & Ht & Ha & Ha' & Hitems).
  exists t', a'. split_and!; [done|done|]. injection Ht as <-. destruct Ha as [<- _]. exact Hitems.
Defined.

