(* ===== verification/PeriodicRate.v ===== *)
(** * PeriodicRate: how often the periodic work of a task runs

    [Task::run_periodic] works, reads the clock, and sleeps until the interval
    has gone by since that reading. Here the turns of the periodic thread
    interleave with whatever else happens in the program, and the times at
    which the work begins are recorded. *)

From S2P Require Import Prelude Msg Heap QueueSpec Logger World Broker TaskBase.
#[local] Open Scope Z_scope.

Section rate.
Context {Q : Type} `{QueueImpl Q} `{HV : Virtual Q}.
Context (this : addr) (interval_ms : Z).
Implicit Types (t : Task Q) (w : World Q).

(** Steps of the rest of the program, and the work itself: time goes on, the
    periodic thread is where it was and its interval is not changed. *)
Definition elsewhere w w' : Prop :=
  clock w' = clock w /\ (ticks w <= ticks w')%nat /\
  forall t, tasks w !! this = Some t -> exists t', tasks w' !! this = Some t' /\
    periodic_thread t' = periodic_thread t /\ periodic_task_interval_ms t' = periodic_task_interval_ms t.

Definition works w : bool :=
  match tasks w !! this with
  | Some t => match periodic_thread t with LoopHead => running t | _ => false end
  | None => false
  end.

(** A stretch of the program, with the numbers of the clock readings at which
    a turn of the periodic thread called [periodic_task_process]. *)
Inductive stretch (w0 : World Q) : list nat -> World Q -> Prop :=
  | stretch_start : stretch w0 [] w0
  | stretch_elsewhere l w w' : stretch w0 l w -> elsewhere w w' -> stretch w0 l w'
  | stretch_turn l w r w' :
      stretch w0 l w -> run_periodic_step this w = Ok (r, w') -> stretch w0 (if works w then l ++ [ticks w] else l) w'.

(** What [steady_clock] showed at a reading. *)
Definition steady_at w (n : nat) : Z := steady_ns (clock w n).

Definition monotone w : Prop := forall n k, (n <= k)%nat -> steady_at w n <= steady_at w k.

Definition interval_ns : Z := interval_ms * 1000000.

(** [b] is a reading late enough after the reading [a] for [n] intervals. *)
Definition apart w (n : nat) (a b : nat) : Prop := (a <= b)%nat /\ steady_at w a + Z.of_nat n * interval_ns <= steady_at w b.

Context (Hwork : forall w w' t, tasks w !! this = Some t -> periodic_task_process this w = Ok (tt, w') -> elsewhere w w').

(** Where the thread is, given when it last began to work: asleep until the
    interval is over, or past a reading that said so. *)
Definition paced w (a : nat) : Prop :=
  exists t, tasks w !! this = Some t /\ periodic_task_interval_ms t = interval_ms /\ (a < ticks w)%nat /\
    match periodic_thread t with
    | Sleeping until_ns => steady_at w a + interval_ns <= until_ns
    | LoopHead => apart w 1 a (pred (ticks w))
    | _ => True
    end.

Lemma apart_clock w w' n a b : clock w' = clock w -> apart w n a b -> apart w' n a b.
Proof. unfold apart, steady_at. by intros ->. Qed.

Lemma monotone_clock w w' : clock w' = clock w -> monotone w -> monotone w'.
Proof. unfold monotone, steady_at. by intros ->. Qed.

(** Two stretches of intervals with a reading in between. *)
Lemma apart_trans w n k a b c d :
  monotone w -> apart w n a b -> (b <= c)%nat -> apart w k c d -> apart w (n + k) a d.
Proof.
  intros Hm [Hab Hn] Hbc [Hcd Hk]. split; [lia|]. specialize (Hm b c Hbc). rewrite Nat2Z.inj_add, Z.mul_add_distr_r. lia.
Qed.

Lemma paced_elsewhere w w' a : monotone w -> elsewhere w w' -> paced w a -> paced w' a.
Proof.
  intros Hm (Hc & Htk & Hth) (t & Ht & Hi & Ha & Hp). destruct (Hth t Ht) as (t' & Ht' & Hpt & Hit).
  exists t'. split_and!; [done|by rewrite Hit|lia|]. rewrite Hpt. destruct (periodic_thread t); try done.
  - apply (apart_clock w); [done|]. destruct Hp as [Hle Hst]. split; [lia|]. pose proof (Hm (pred (ticks w)) (pred (ticks w'))). lia.
  - unfold steady_at in *. by rewrite Hc.
Qed.

(** The turn that works: it reads the clock at some later time. *)
Lemma working_turn w r w' :
  monotone w -> works w = true -> run_periodic_step this w = Ok (r, w') ->
  (forall t, tasks w !! this = Some t -> periodic_task_interval_ms t = interval_ms) ->
  clock w' = clock w /\ (ticks w < ticks w')%nat /\ paced w' (ticks w).
Proof.
  intros Hm Hwk Hrun Hint. unfold works in Hwk. destruct (tasks w !! this) as [t|] eqn:Ht; [|done].
  destruct (periodic_thread t) eqn:Hp; try done. revert Hrun. unfold run_periodic_step.
  rewrite (M_bind_Ok _ _ _ _ _ (get_task_run this t w Ht)), Hp, Hwk.
  destruct (periodic_task_process this w) as [[[] w1]|e] eqn:Hpp; [|by rewrite (M_bind_Err _ _ _ _ Hpp)].
  rewrite (M_bind_Ok _ _ _ _ _ Hpp). destruct (Hwork w w1 t Ht Hpp) as (Hc & Htk & Hth).
  destruct (Hth t Ht) as (t1 & Ht1 & _ & Hi1).
  rewrite (M_bind_Ok _ _ w1 (clock w1 (ticks w1)) (tick w1)) by done.
  rewrite (M_bind_Ok _ _ _ _ _ (get_task_run this t1 (tick w1) Ht1)).
  rewrite (M_bind_Ok _ _ _ _ _ (modify_task_with this _ t1 (tick w1) Ht1)). intros [= <- <-].
  unfold with_task. cbn. split_and!; [done|lia|]. eexists. split; [cbn; apply lookup_insert_eq|]. cbn.
  split_and!; [by rewrite Hi1, (Hint t eq_refl)|lia|]. rewrite Hi1, (Hint t eq_refl). unfold steady_at. cbn. rewrite Hc.
  pose proof (Hm (ticks w) (ticks w1) Htk) as Hle. unfold steady_at, interval_ns in *. lia.
Qed.

(** Any other turn leaves the pace as it is. *)
Lemma idle_turn w r w' a :
  monotone w -> works w = false -> run_periodic_step this w = Ok (r, w') -> paced w a ->
  clock w' = clock w /\ (ticks w <= ticks w')%nat /\ paced w' a.
Proof.
  intros Hm Hwk Hrun (t & Ht & Hi & Ha & Hp). unfold works in Hwk. rewrite Ht in Hwk. revert Hrun. unfold run_periodic_step.
  rewrite (M_bind_Ok _ _ _ _ _ (get_task_run this t w Ht)).
  destruct (periodic_thread t) as [| | |until_ns|] eqn:Hth; try (intros [= <- <-]; split_and!; [done|lia|]; exists t; rewrite Hth; by split_and!).
  - rewrite Hwk, (M_bind_Ok _ _ _ _ _ (modify_task_with this _ t w Ht)). intros [= <- <-]. split_and!; [done|cbn; lia|].
    eexists. split; [apply with_task_lookup|]. by split_and!.
  - rewrite (M_bind_Ok _ _ w (clock w (ticks w)) (tick w)) by done. destruct (decide _) as [Hlt|Hge].
    + intros [= <- <-]. split_and!; [done|cbn; lia|]. exists t. rewrite Hth. cbn. by split_and!; [..|lia|].
    + rewrite (M_bind_Ok _ _ _ _ _ (modify_task_with this _ t (tick w) Ht)). intros [= <- <-]. split_and!; [done|cbn; lia|].
      eexists. split; [apply (with_task_lookup this)|]. cbn. split_and!; [done|lia|]. split; [lia|].
      unfold steady_at in *. cbn. lia.
Qed.

(** What every stretch keeps. *)
Record rate_inv (w0 : World Q) (l : list nat) w : Prop := {
  ri_clock : clock w = clock w0;
  ri_interval : exists t, tasks w !! this = Some t /\ periodic_task_interval_ms t = interval_ms;
  ri_last : forall a, last l = Some a -> paced w a;
  ri_pairs : forall i j a b, (i < j)%nat -> l !! i = Some a -> l !! j = Some b -> (a < b)%nat /\ apart w0 (j - i) a (pred b)
}.

Lemma rate_inv_interval w0 l w w' :
  rate_inv w0 l w -> elsewhere w w' -> exists t, tasks w' !! this = Some t /\ periodic_task_interval_ms t = interval_ms.
Proof.
  intros Hinv (_ & _ & Hth). destruct (ri_interval _ _ _ Hinv) as (t & Ht & Hi).
  destruct (Hth t Ht) as (t' & ? & _ & Hi'). exists t'. by rewrite Hi'.
Qed.

(** A turn leaves the interval and the clock as they are. *)
Lemma turn_interval w r w' t :
  tasks w !! this = Some t -> run_periodic_step this w = Ok (r, w') ->
  clock w' = clock w /\ exists t', tasks w' !! this = Some t' /\ periodic_task_interval_ms t' = periodic_task_interval_ms t.
Proof.
  intros Ht. unfold run_periodic_step. rewrite (M_bind_Ok _ _ _ _ _ (get_task_run this t w Ht)).
  destruct (periodic_thread t) as [| | |until_ns|] eqn:Hth; try (intros [= <- <-]; split; [done|by exists t]).
  - destruct (running t).
    + destruct (periodic_task_process this w) as [[[] w1]|e] eqn:Hpp; [|by rewrite (M_bind_Err _ _ _ _ Hpp)].
      rewrite (M_bind_Ok _ _ _ _ _ Hpp). destruct (Hwork w w1 t Ht Hpp) as (Hc & _ & Hk). destruct (Hk t Ht) as (t1 & Ht1 & _ & Hi1).
      rewrite (M_bind_Ok _ _ w1 (clock w1 (ticks w1)) (tick w1)) by done.
      rewrite (M_bind_Ok _ _ _ _ _ (get_task_run this t1 (tick w1) Ht1)).
      rewrite (M_bind_Ok _ _ _ _ _ (modify_task_with this _ t1 (tick w1) Ht1)). intros [= <- <-].
      split; [done|]. eexists. by split; [apply (with_task_lookup this)|].
    + rewrite (M_bind_Ok _ _ _ _ _ (modify_task_with this _ t w Ht)). intros [= <- <-]. split; [done|].
      eexists. by split; [apply (with_task_lookup this)|].
  - rewrite (M_bind_Ok _ _ w (clock w (ticks w)) (tick w)) by done. destruct (decide _); [intros [= <- <-]; split; [done|by exists t]|].
    rewrite (M_bind_Ok _ _ _ _ _ (modify_task_with this _ t (tick w) Ht)). intros [= <- <-]. split; [done|].
      eexists. by split; [apply (with_task_lookup this)|].
Qed.

(** The new start against the last one, and through it against all others. *)
Lemma pairs_snoc w0 w l :
  monotone w0 -> rate_inv w0 l w -> works w = true ->
  forall i j a b, (i < j)%nat -> (l ++ [ticks w]) !! i = Some a -> (l ++ [ticks w]) !! j = Some b ->
    (a < b)%nat /\ apart w0 (j - i) a (pred b).
Proof.
  intros Hm [Hc _ Hlast Hpairs] Hwk i j a b Hij Ha Hb.
  destruct (decide (j < length l)%nat) as [Hj|Hj].
  { rewrite lookup_app_l in Hb by done. rewrite lookup_app_l in Ha by lia. by apply (Hpairs i j). }
  assert (j = length l) as ->. { apply lookup_lt_Some in Hb. rewrite length_app in Hb. cbn in Hb. lia. }
  rewrite lookup_app_l in Ha by done. rewrite lookup_app_r, Nat.sub_diag in Hb by done. injection Hb as <-.
  destruct (last l) as [c|] eqn:Hl; [|apply last_None in Hl; subst; by cbn in Hij].
  destruct (Hlast c eq_refl) as (t & Ht & _ & Hct & Hp). unfold works in Hwk. rewrite Ht in Hwk.
  destruct (periodic_thread t); try done. apply (apart_clock _ w0) in Hp; [|done].
  rewrite last_lookup in Hl. destruct (decide (i = pred (length l))) as [->|Hne].
  - assert (a = c) as -> by congruence. split; [done|]. by replace (length l - pred (length l))%nat with 1%nat by lia.
  - destruct (Hpairs i (pred (length l)) a c) as [Hac Hap]; [lia|done|done|]. split; [lia|].
    replace (length l - i)%nat with (pred (length l) - i + 1)%nat by lia. apply (apart_trans w0 _ _ a (pred c) c _); [done|done|lia|done].
Qed.

Lemma rate_inv_stretch w0 l w t0 :
  monotone w0 -> tasks w0 !! this = Some t0 -> periodic_task_interval_ms t0 = interval_ms -> stretch w0 l w -> rate_inv w0 l w.
Proof.
  intros Hm Ht0 Hi0. induction 1 as [|l w w' _ IH He|l w r w' _ IH Hrun]; [split; [done|by exists t0|done|done]|..].
  - pose proof (rate_inv_interval _ _ _ _ IH He) as Hint. pose proof He as (Hc & _ & _). destruct IH as [Hcw _ Hlast Hpairs].
    split; [by rewrite Hc|done| |done]. intros a Ha. apply (paced_elsewhere w); [by apply (monotone_clock w0)|done|by apply Hlast].
  - destruct (ri_interval _ _ _ IH) as (t & Ht & Hi). destruct (turn_interval w r w' t Ht Hrun) as (Hc & t' & Ht' & Hi').
    assert (Hint' : exists t, tasks w' !! this = Some t /\ periodic_task_interval_ms t = interval_ms) by (exists t'; by rewrite Hi').
    assert (Hmw : monotone w) by (by apply (monotone_clock w0); [apply ri_clock in IH|]).
    destruct (works w) eqn:Hwk.
    + destruct (working_turn w r w' Hmw Hwk Hrun) as (_ & Htk & Hp); [intros t1 Ht1; congruence|].
      split; [rewrite Hc; apply (ri_clock _ _ _ IH)|done| |by apply pairs_snoc]. intros a. rewrite last_snoc. by intros [= <-].
    + destruct IH as [Hcw _ Hlast Hpairs]. split; [by rewrite Hc|done| |done].
      intros a Ha. by destruct (idle_turn w r w' a Hmw Hwk Hrun (Hlast a Ha)) as (_ & _ & Hp).
Qed.
End rate.

(** ** Property *)

(** C32. While nobody changes the interval or the thread, and the steady clock
    does not go back, the periodic work begins at most once per interval: of
    any two starts, with [n] others at most between them, the clock showed at
    the turn before the later one at least [n + 1] intervals more than at the
    first reading of the earlier. *)
Theorem periodic_rate `{QueueImpl Q} `{HV : Virtual Q} this interval_ms (w0 w : World Q) t0 starts i j a b :
  (forall w w' t, tasks w !! this = Some t -> periodic_task_process this w = Ok (tt, w') -> elsewhere this w w') ->
  monotone w0 -> tasks w0 !! this = Some t0 -> periodic_task_interval_ms t0 = interval_ms -> stretch this w0 starts w ->
  (i < j)%nat -> starts !! i = Some a -> starts !! j = Some b ->
  (a < b)%nat /\ steady_at w0 a + Z.of_nat (j - i) * (interval_ms * 1000000) <= steady_at w0 (pred b).
Proof.
  intros Hwork Hm Ht0 Hi0 Hstr Hij Ha Hb.
  destruct (ri_pairs _ _ _ _ _ (rate_inv_stretch this interval_ms Hwork w0 starts w t0 Hm Ht0 Hi0 Hstr) i j a b Hij Ha Hb)
    as [Hab [_ Hap]]. done.
Qed.

(** ** Witness: a task with an interval of ten milliseconds *)

Definition rate_world : World aqueue := quiet_world (quiet_task true InDequeue LoopHead false).

(** Turns of the periodic thread alone, with the starts they add. *)
Fixpoint rate_turns (n : nat) (starts : list nat) (w : World aqueue) : option (list nat * World aqueue) :=
  match n with
  | O => Some (starts, w)
  | S n' =>
      match run_periodic_step (H0 := quiet) 16 w with
      | Ok (_, w') => rate_turns n' (if works 16 w then starts ++ [ticks w] else starts) w'
      | Err _ => None
      end
  end.

Lemma rate_turns_stretch n l w0 w l' w' :
  stretch (HV := quiet) 16 w0 l w -> rate_turns n l w = Some (l', w') -> stretch (HV := quiet) 16 w0 l' w'.
Proof.
  revert l w. induction n as [|n IH]; intros l w Hs; cbn [rate_turns]; [by intros [= <- <-]|].
  destruct (run_periodic_step 16 w) as [[r w1]|e] eqn:Hr; [|done]. apply IH. by eapply stretch_turn.
Qed.

Lemma rate_work (w1 w2 : World aqueue) t :
  tasks w1 !! 16 = Some t -> periodic_task_process (Virtual := quiet) 16 w1 = Ok (tt, w2) -> elsewhere 16 w1 w2.
Proof.
  intros Ht Hok. assert (w1 = w2) as <- by (by injection Hok).
  split; [done|]. split; [lia|]. intros t1 Ht1. by exists t1.
Qed.

Lemma rate_monotone : monotone rate_world.
Proof. intros n k Hnk. unfold steady_at. cbn. lia. Qed.

Definition rate_end : World aqueue := Eval vm_compute in
  match rate_turns 26 [] rate_world with Some (_, w) => w | None => rate_world end.

Lemma rate_stretch : stretch (HV := quiet) 16 rate_world [0; 11; 22]%nat rate_end.
Proof. apply (rate_turns_stretch 26 [] _ rate_world); [constructor|]. vm_compute. reflexivity. Qed.

Lemma periodic_rate_witness :
  steady_at rate_world 0 + Z.of_nat (2 - 0) * (10 * 1000000) <= steady_at rate_world (pred 22).
Proof.
  exact (proj2 (periodic_rate (HV := quiet) 16 10 rate_world rate_end (quiet_task true InDequeue LoopHead false) [0; 11; 22]%nat
    0 2 0 22 rate_work rate_monotone eq_refl eq_refl rate_stretch (le_S _ _ (le_n 1)) eq_refl eq_refl)).
Defined.
