(* ===== verification/OwnThread.v ===== *)
(** * OwnThread: a task that stops itself

    [Task::stop] joins the two threads of the task. TaskBase has the joins as
    another thread makes them; here [stop] is called on one of the task's own
    threads, by a handler: [std::thread::join] on the calling thread throws
    [std::system_error] with [resource_deadlock_would_occur], and an exception
    that leaves the function of a thread calls [std::terminate]. *)

From S2P Require Import Prelude Msg Heap QueueSpec Logger World Broker TaskBase.
#[local] Open Scope Z_scope.

Section own_thread.
Context {Q : Type} `{QueueImpl Q} `{HV : Virtual Q}.
Implicit Types (t : Task Q) (w : World Q).

(** The thread of [this] on which the call is made. *)
Inductive own := MessageThread | PeriodicThread.

Definition self_join : error := Thrown "std::system_error: resource_deadlock_would_occur".

(** [if (thread.joinable()) thread.join()] on that thread itself. *)
Definition join_self (th : thread) : M Q bool := if joinable th then throw self_join else mret true.

Definition stop_within (o : own) (fuel : nat) (this : addr) : M Q bool :=
  r ← stop_request this;
  if (r : bool) then
    j ← match o with
        | MessageThread => t ← get_task this; join_self (queue_thread t)
        | PeriodicThread => join_queue_thread fuel this
        end;
    if (j : bool) then
      match o with
      | MessageThread => join_periodic_thread fuel this
      | PeriodicThread => t ← get_task this; join_self (periodic_thread t)
      end
    else mret false
  else mret true.

(** What may be running while a thread of the task executes the handler that
    stops it: that thread is in its loop's body. *)
Definition on_thread (o : own) t : Prop :=
  match o with
  | MessageThread => queue_thread t = InDequeue
  | PeriodicThread => (queue_thread t = LoopHead \/ queue_thread t = InDequeue) /\ periodic_thread t = LoopHead
  end.

(** ** Property *)

(** C33. Under the conditions under which [stop] called by another thread comes
    back, [stop] called by a handler on a thread of the task itself throws,
    after it has cleared the flag, published STOPPED, shut the queue down and,
    on the periodic thread, joined the message thread; nothing on that thread
    catches the exception, so the turn in which the handler does so ends the
    process. *)
Theorem self_stop_terminates this t w b o :
  transition_to_state this STOPPED = Task_transition_to_state this STOPPED ->
  (exists k, pending_return k this (derived t) b) \/ o = MessageThread ->
  bus_view w b -> bus_wf b -> fresh b 1 -> bus_on b = true -> 0 < this < 2 ^ 64 -> tasks w !! this = Some t ->
  running t = true -> on_thread o t -> subscribers_room b (state_ack this STOPPED) ->
  stop_within o 2 this w = Err self_join /\
  (forall w0 t0 m q, o = MessageThread -> process_message this m = (_ ← stop_within o 2 this; mret tt) ->
     tasks w0 !! this = Some t0 -> queue_thread t0 = InDequeue ->
     q_dequeue (message_queue t0) = Ok (Returns (Some m), q) -> w = with_task this (set_message_queue q t0) w0 ->
     noexcept (run_step this) w0 = Err (Terminated "std::system_error: resource_deadlock_would_occur")) /\
  (o = PeriodicThread -> periodic_task_process this = (_ ← stop_within o 2 this; mret tt) ->
     noexcept (run_periodic_step this) w = Err (Terminated "std::system_error: resource_deadlock_would_occur")).
Proof.
  intros Htr Hret Hv Hwf Hf Hon Hthis Ht Hr Hth Hroom.
  pose proof (f_equal (fun f => f (with_task this (set_running false t) w)) Htr) as Htr'. cbn beta in Htr'.
  assert (Hstop : stop_within o 2 this w = Err self_join).
  { unfold stop_within. destruct o; cbn [on_thread] in Hth.
    - destruct (mailbox_room_publish this (state_ack this STOPPED) w b Hv Hwf Hf Hon) as (mb & Hb & _);
        [apply state_ack_wf; lia|done|by eexists|done|].
      destruct (stop_request_ok this t w b _ Htr' Hv Hwf Hf Hthis Ht Hr Hb) as (w1 & t1 & a & Hreq & Ht1 & _ & _ & Hq1 & _).
      rewrite (M_bind_Ok _ _ _ _ _ Hreq). apply M_bind_Err.
      rewrite (M_bind_Ok _ _ _ _ _ (get_task_run this t1 w1 Ht1)). by rewrite Hq1, Hth.
    - destruct Hret as [(k & Hret)|]; [|done]. destruct Hth as [Hq Hp].
      destruct (stop_request_pending k 0 this t w b Htr' Hv Hwf Hf Hthis Ht Hr Hq Hret)
        as (w1 & w' & t' & Hreq & Hj & Ht' & _ & _ & Hp').
      rewrite (M_bind_Ok _ _ _ _ _ Hreq), (M_bind_Ok _ _ _ _ _ Hj). cbn.
      rewrite (M_bind_Ok _ _ _ _ _ (get_task_run this t' w' Ht')). by rewrite Hp', Hp. }
  split_and!; [done| |].
  - intros w0 t0 m q -> Hpm Ht0 Hth0 Hdq ->. unfold noexcept.
    assert (Hrun : run_step this w0 = Err self_join); [|by rewrite Hrun].
    unfold run_step. rewrite (M_bind_Ok _ _ _ _ _ (get_task_run this t0 w0 Ht0)), Hth0.
    rewrite (M_bind_Ok _ _ w0 (Returns (Some m), q) w0) by (unfold lift; by rewrite Hdq).
    cbn. rewrite (M_bind_Ok _ _ w0 tt (with_task this (set_message_queue q t0) w0) eq_refl). apply M_bind_Err.
    rewrite Hpm. by apply M_bind_Err.
  - intros -> Hpp. unfold noexcept. assert (Hrun : run_periodic_step this w = Err self_join); [|by rewrite Hrun].
    destruct Hth as [_ Hp]. unfold run_periodic_step. rewrite (M_bind_Ok _ _ _ _ _ (get_task_run this t w Ht)), Hp, Hr.
    apply M_bind_Err. rewrite Hpp. by apply M_bind_Err.
Qed.
End own_thread.

(** ** Witness: a task that stops itself when it gets a message *)

#[local] Instance stopper : Virtual aqueue := {
  process_message this m := _ ← stop_within (HV := quiet) MessageThread 2 this; mret tt;
  periodic_task_process this := mret tt;
  transition_to_state := Task_transition_to_state
}.

Definition asked_task : Task aqueue :=
  set_message_queue (mkAqueue [state_ack 16 IDLE] 4 false 1) (quiet_task true InDequeue Unjoinable false).

Lemma self_stop_terminates_witness :
  noexcept (run_step (H0 := stopper) 16) (quiet_world asked_task) =
    Err (Terminated "std::system_error: resource_deadlock_would_occur").
Proof.
  destruct (self_stop_terminates (HV := stopper) 16 (quiet_task true InDequeue Unjoinable false) _ _ MessageThread eq_refl
    (or_intror eq_refl) (quiet_view true InDequeue Unjoinable false) (quiet_wf _) (quiet_fresh _ _ _ _))
    as (_ & Hrun & _); [done|done|done|done|done|apply quiet_room|].
  by apply (Hrun (quiet_world asked_task) asked_task (state_ack 16 IDLE) (mkAqueue [] 4 false 0)).
Defined.
