(* ===== verification/StateManager.v ===== *)
(** * StateManager: coordinated state transitions (state_manager.h, .cpp)

    The registry of tasks and their acknowledged states, the broadcast of a
    new state, the wait for the acknowledgements, and the handling of one
    acknowledgement. The observer of registrations is another task; what the
    state manager calls on it is the interface [RegistrationObserver], which
    HeartBeat.v implements. *)

From S2P Require Import Prelude Msg Heap QueueSpec Logger World Broker TaskBase.
#[local] Open Scope Z_scope.

(** ** Members *)

Definition StateManager_new : StateManager := mkStateManager [] None None nullptr.

Definition set_task_states (m : ptr_map TaskState) (s : StateManager) : StateManager :=
  mkStateManager m (sm_current_state s) (target_state s) (task_registration_observer s).
Definition set_sm_current_state (x : TaskState) (s : StateManager) : StateManager :=
  mkStateManager (task_states s) (Some x) (target_state s) (task_registration_observer s).
Definition set_target_state (x : TaskState) (s : StateManager) : StateManager :=
  mkStateManager (task_states s) (sm_current_state s) (Some x) (task_registration_observer s).
Definition set_observer (p : addr) (s : StateManager) : StateManager :=
  mkStateManager (task_states s) (sm_current_state s) (target_state s) p.

(** [HeartBeatTask::notify_task_registered], called on the observer. *)
Class RegistrationObserver (Q : Type) := {
  notify_task_registered : addr -> addr -> M Q unit
}.

(** [pair.second == state] for every pair of the map. *)
Definition all_in_state (state : TaskState) (m : ptr_map TaskState) : bool :=
  forallb (fun kv => bool_decide (kv.2 = state)) m.

Section operations.
Context {Q : Type} `{QueueImpl Q}.
Implicit Types (t : Task Q) (w : World Q).

(** The members of the derived class of the object at [this]. *)
Definition get_sm (this : addr) : M Q StateManager :=
  t ← get_task this;
  match derived t with
  | IsStateManager s => mret s
  | _ => throw (UB "not a StateManager")
  end.
Definition modify_sm (this : addr) (f : StateManager -> StateManager) : M Q unit :=
  s ← get_sm this; modify_task this (set_derived (IsStateManager (f s))).

(** A log line of the task at [this]. *)
Definition log_as (this : addr) (l : LogLevel) (msg : string) : M Q unit :=
  nm ← get_name this; log_entry l nm msg.

(** [StateManager::on_initialize] and [create]. *)
Definition StateManager_on_initialize (this : addr) : M Q unit := safe_subscribe this Type_StateAckMsg.
Definition StateManager_create (this : addr) (q : Q) : M Q addr :=
  instance ← make_shared this (Task_new "StateManager" q (IsStateManager StateManager_new));
  _ ← StateManager_on_initialize instance;
  mret instance.

Definition set_task_registration_observer (this observer : addr) : M Q unit :=
  modify_sm this (set_observer observer).

Definition register_task `{RegistrationObserver Q} (this task : addr) : M Q unit :=
  _ ← modify_sm this (fun s => set_task_states (pm_assign task NOT_STARTED (task_states s)) s);
  s ← get_sm this;
  if decide (task_registration_observer s = nullptr) then mret tt
  else
    o ← get_task (task_registration_observer s);
    match derived o with
    | IsHeartBeat _ => notify_task_registered (task_registration_observer s) task
    | _ => mret tt
    end.

(** [StateManager::transition_to_state]. *)
Definition StateManager_transition_to_state (this : addr) (new_state : TaskState) : M Q unit :=
  _ ← log_as this INFO ("transitioning to " +:+ task_state_to_string new_state);
  _ ← modify_sm this (set_sm_current_state new_state);
  m ← lift (Msg_new this (VStateMsg (mkStateMsg (state_to_byte new_state))));
  safe_publish this m.

Definition request_state_transition (this : addr) (new_state : TaskState) : M Q unit :=
  StateManager_transition_to_state this new_state.

Definition all_tasks_in_state (this : addr) (state : TaskState) : M Q bool :=
  s ← get_sm this; mret (all_in_state state (task_states s)).

(** The loop that names the tasks still in another state. *)
Fixpoint log_laggards (this : addr) (new_state : TaskState) (pairs : ptr_map TaskState) : M Q unit :=
  match pairs with
  | [] => mret tt
  | (p, x) :: pairs' =>
      _ ← (if decide (x <> new_state) then
             nm ← get_name p;
             log_as this LOG_ERROR
               (String (Ascii.ascii_of_nat 9) "Task " +:+ nm +:+ " still in state " +:+ task_state_to_string x)
           else mret tt);
      log_laggards this new_state pairs'
  end.

(** [demand_state_transition], from the start to the wait and from the end of
    the wait on. *)
Definition demand_begin (this : addr) (new_state : TaskState) : M Q unit :=
  _ ← log_as this INFO ("demanding transition to " +:+ task_state_to_string new_state);
  _ ← modify_sm this (set_target_state new_state);
  StateManager_transition_to_state this new_state.

Definition demand_end (this : addr) (new_state : TaskState) : M Q bool :=
  success ← all_tasks_in_state this new_state;
  _ ← (if (success : bool) then mret tt
       else
         _ ← log_as this LOG_ERROR
               ("Timeout waiting for tasks to state transition to " +:+ task_state_to_string new_state);
         s ← get_sm this;
         log_laggards this new_state (task_states s));
  mret success.

(** [wait_for] returns at once if its predicate holds; else the other threads
    do what they do, until it holds or the time is over. [others] is what
    they do, and [wait_for] answers with the predicate as it is then. *)
Definition demand_state_transition (this : addr) (new_state : TaskState) (others : M Q unit) : M Q bool :=
  _ ← demand_begin this new_state;
  ready ← all_tasks_in_state this new_state;
  _ ← (if (ready : bool) then mret tt else others);
  demand_end this new_state.

(** [for (const auto& pair : task_states) pair.first->f()]. *)
Fixpoint for_each_task (f : addr -> M Q unit) (pairs : ptr_map TaskState) : M Q unit :=
  match pairs with
  | [] => mret tt
  | (p, _) :: pairs' => _ ← f p; for_each_task f pairs'
  end.

Definition StateManager_initialize (this : addr) (others : M Q unit) : M Q unit :=
  _ ← log_as this INFO "initializing tasks...";
  _ ← start this;
  s ← get_sm this;
  _ ← for_each_task start (task_states s);
  ok ← demand_state_transition this IDLE others;
  if (ok : bool) then mret tt
  else log_as this LOG_ERROR "Timeout while waiting for tasks to transition to IDLE during initialization".

(** The joins of [stop], one task after the other; false if one of them has
    not come back within [fuel] turns of the joined thread. *)
Fixpoint stop_each `{Virtual Q} (fuel : nat) (pairs : ptr_map TaskState) : M Q bool :=
  match pairs with
  | [] => mret true
  | (p, _) :: pairs' =>
      j ← stop fuel p;
      if (j : bool) then stop_each fuel pairs' else mret false
  end.

Definition shutdown `{Virtual Q} (fuel : nat) (this : addr) (others : M Q unit) : M Q bool :=
  _ ← log_as this INFO "shutting down tasks...";
  ok ← demand_state_transition this STOPPED others;
  _ ← (if (ok : bool) then mret tt
       else log_as this LOG_ERROR "Timeout while waiting for tasks to stop during shutdown");
  s ← get_sm this;
  j ← stop_each fuel (task_states s);
  if (j : bool) then stop fuel this else mret false.

(** The lookup of a raw pointer among the registered tasks. *)
Definition find_raw (raw : addr) (pairs : ptr_map TaskState) : option addr :=
  (fun kv => kv.1) <$> List.find (fun kv => bool_decide (kv.1 = raw)) pairs.

(** The result is whether [state_transition_cv] was notified. *)
Definition handle_acknowledgment (this : addr) (m : Msg) : M Q bool :=
  let sender_raw := get_sender m in
  if decide (sender_raw = nullptr) then
    _ ← log_as this LOG_ERROR "State ACK from unknown sender"; mret false
  else
    s ← get_sm this;
    match find_raw sender_raw (task_states s) with
    | None => _ ← log_as this LOG_ERROR "State ACK from unknown sender"; mret false
    | Some sender =>
        match get_data_as AStateAckMsg m with
        | None => _ ← log_as this LOG_ERROR "Received StateAckMsg with no data"; mret false
        | Some ack =>
            let acknowledged_state := state_of_byte (sa_state ack) in
            _ ← modify_sm this (fun s => set_task_states (pm_assign sender acknowledged_state (task_states s)) s);
            nm ← get_name sender;
            _ ← log_as this INFO
                  ("Task " +:+ nm +:+ " acknowledged transition to state " +:+ task_state_to_string acknowledged_state);
            s ← get_sm this;
            match target_state s with
            | None => throw (UB "read of the uninitialised target_state")
            | Some target => mret (all_in_state target (task_states s))
            end
        end
    end.

Definition StateManager_process_message (this : addr) (m : Msg) : M Q unit :=
  if decide (get_type m = Type_StateAckMsg) then _ ← handle_acknowledgment this m; mret tt
  else log_as this LOG_ERROR ("Unhandled message type: " +:+ msg_type_to_string (get_type m)).

Definition mark_task_as_unresponsive (this task : addr) : M Q unit :=
  nm ← get_name task;
  _ ← log_as this LOG_ERROR
        ("Task " +:+ nm +:+ " marked as unresponsive, setting to " +:+ task_state_to_string ERROR);
  m ← lift (Msg_new this (VStateMsg (mkStateMsg (state_to_byte ERROR))));
  _ ← deliver_message task m;
  modify_sm this (fun s => set_task_states (pm_assign task ERROR (task_states s)) s).
End operations.

(** ** The registry as a map *)

(** What an acknowledgement says, if it is one of a registered task. *)
Definition ack_effect (m : Msg) (pairs : ptr_map TaskState) : option (addr * TaskState) :=
  if decide (get_sender m = nullptr) then None
  else
    sender ← find_raw (get_sender m) pairs;
    ack ← get_data_as AStateAckMsg m;
    Some (sender, state_of_byte (sa_state ack)).

Definition apply_ack (pairs : ptr_map TaskState) (m : Msg) : ptr_map TaskState :=
  match ack_effect m pairs with
  | Some (p, x) => pm_assign p x pairs
  | None => pairs
  end.

(** The last state [p] acknowledged in a sequence of messages. *)
Fixpoint last_ack (p : addr) (ms : list Msg) : option TaskState :=
  match ms with
  | [] => None
  | m :: ms' =>
      match last_ack p ms' with
      | Some x => Some x
      | None => if decide (get_sender m = p)
                then (fun a => state_of_byte (sa_state a)) <$> get_data_as AStateAckMsg m else None
      end
  end.

Lemma find_raw_spec raw pairs : find_raw raw pairs = if decide (raw ∈ pairs.*1) then Some raw else None.
Proof.
  unfold find_raw. induction pairs as [|[k x] pairs IH]; cbn.
  { by rewrite decide_False by apply not_elem_of_nil. }
  destruct (decide (k = raw)) as [->|Hne].
  - rewrite bool_decide_true by done. cbn. by rewrite decide_True by apply list_elem_of_here.
  - rewrite bool_decide_false by done. rewrite IH. by apply decide_cons, not_eq_sym.
Qed.

Lemma ack_effect_Some m pairs p x :
  ack_effect m pairs = Some (p, x) <->
  p = get_sender m /\ p <> nullptr /\ (p ∈ pairs.*1) /\ msg_data m = VStateAckMsg (mkStateAckMsg x).
Proof.
  unfold ack_effect. rewrite find_raw_spec. case_decide as Hn.
  { split; [done|]. by intros (-> & ? & _). }
  case_decide as Hin; cbn [mbind option_bind]; [|split; [done|by intros (-> & _ & ? & _)]].
  destruct (get_data_as AStateAckMsg m) as [[y]|] eqn:Hd; cbn [mbind option_bind].
  - apply get_data_as_Some in Hd. cbn in Hd. rewrite Hd. unfold state_of_byte.
    split; [intros [= <- <-]; by split_and!|]. by intros (-> & _ & _ & [= <-]).
  - split; [done|]. intros (-> & _ & _ & Hm). exfalso.
    assert (get_data_as AStateAckMsg m = Some (mkStateAckMsg x)) by (by apply get_data_as_Some). congruence.
Qed.

Lemma apply_ack_keys pairs m k : k ∈ (apply_ack pairs m).*1 <-> k ∈ pairs.*1.
Proof.
  unfold apply_ack. destruct (ack_effect m pairs) as [[p x]|] eqn:He; [|done].
  apply ack_effect_Some in He as (_ & _ & Hp & _). rewrite pm_assign_keys. split; [by intros [->|]|by right].
Qed.

Lemma apply_ack_sorted pairs m : pm_sorted pairs -> pm_sorted (apply_ack pairs m).
Proof. unfold apply_ack. destruct (ack_effect m pairs) as [[p x]|]; [apply pm_assign_sorted|done]. Qed.

(** What the registry says of [p] after a sequence of acknowledgements: the
    last one of [p] decides. *)
Lemma apply_ack_find pairs m p :
  pm_sorted pairs -> p ∈ pairs.*1 -> p <> nullptr ->
  pm_find p (apply_ack pairs m) = match last_ack p [m] with Some x => Some x | None => pm_find p pairs end.
Proof.
  intros Hs Hp Hn. unfold apply_ack. cbn [last_ack]. destruct (ack_effect m pairs) as [[q x]|] eqn:He.
  - apply ack_effect_Some in He as (-> & Hq & Hin & Hd). rewrite pm_assign_find by done.
    destruct (decide (get_sender m = p)); [|done].
    assert (Hg : get_data_as AStateAckMsg m = Some (mkStateAckMsg x)) by (by apply get_data_as_Some).
    by rewrite Hg.
  - destruct (decide (get_sender m = p)) as [Hp'|Hp']; [|done].
    destruct (get_data_as AStateAckMsg m) as [[y]|] eqn:Hd; [|done]. exfalso.
    assert (ack_effect m pairs = Some (p, y)); [|congruence]. apply ack_effect_Some.
    apply get_data_as_Some in Hd. by split_and!.
Qed.

Lemma apply_acks_find ms pairs p :
  pm_sorted pairs -> p ∈ pairs.*1 -> p <> nullptr ->
  pm_find p (foldl apply_ack pairs ms) = match last_ack p ms with Some x => Some x | None => pm_find p pairs end.
Proof.
  revert pairs. induction ms as [|m ms IH]; intros pairs Hs Hp Hn; [done|]. cbn [foldl].
  rewrite IH; [|by apply apply_ack_sorted|by apply apply_ack_keys|done]. cbn [last_ack].
  destruct (last_ack p ms); [done|]. by apply apply_ack_find.
Qed.

Lemma apply_acks_sorted ms pairs : pm_sorted pairs -> pm_sorted (foldl apply_ack pairs ms).
Proof. revert pairs. induction ms as [|m ms IH]; intros pairs Hs; [done|]. by apply IH, apply_ack_sorted. Qed.

Lemma apply_acks_keys ms pairs k : k ∈ (foldl apply_ack pairs ms).*1 <-> k ∈ pairs.*1.
Proof. revert pairs. induction ms as [|m ms IH]; intros pairs; [done|]. cbn. by rewrite IH, apply_ack_keys. Qed.

Lemma all_in_state_spec s pairs :
  pm_sorted pairs -> all_in_state s pairs = true <-> forall p, p ∈ pairs.*1 -> pm_find p pairs = Some s.
Proof.
  intros Hs. unfold all_in_state. rewrite forallb_forall. split.
  - intros Hall p Hp. apply list_elem_of_fmap in Hp as ([k x] & -> & Hin). cbn.
    rewrite pm_find_elem by done. assert (Hx : (k, x).2 = s) by (by apply (bool_decide_eq_true_1 _), Hall, list_elem_of_In).
    cbn in Hx. by subst.
  - intros Hall [k x] Hin%list_elem_of_In. apply bool_decide_eq_true. cbn.
    assert (Hk : pm_find k pairs = Some x) by (by apply pm_find_elem).
    rewrite Hall in Hk; [congruence|]. apply list_elem_of_fmap. by exists (k, x).
Qed.

(** ** Lemmas *)

Section lemmas.
Context {Q : Type} `{QueueImpl Q}.
Implicit Types (t : Task Q) (w : World Q) (s : StateManager).

Lemma get_sm_run this t s w :
  tasks w !! this = Some t -> derived t = IsStateManager s -> get_sm this w = Ok (s, w).
Proof. intros Ht Hd. unfold get_sm. by rewrite (M_bind_Ok _ _ _ _ _ (get_task_run this t w Ht)), Hd. Qed.

Lemma log_as_run this t l msg w :
  tasks w !! this = Some t -> log_as this l msg w = Ok (tt, logged l (name t) msg w).
Proof. intros Ht. unfold log_as. by rewrite (M_bind_Ok _ _ _ _ _ (get_name_run this t w Ht)). Qed.

(** The object at [this] with other members of the derived class. *)
Definition with_sm s t : Task Q := set_derived (IsStateManager s) t.

Lemma modify_sm_run this f t s w :
  tasks w !! this = Some t -> derived t = IsStateManager s ->
  modify_sm this f w = Ok (tt, with_task this (with_sm (f s) t) w).
Proof.
  intros Ht Hd. unfold modify_sm. rewrite (M_bind_Ok _ _ _ _ _ (get_sm_run this t s w Ht Hd)).
  by apply modify_task_with.
Qed.

Lemma with_sm_same s t : derived t = IsStateManager s -> with_sm s t = t.
Proof. intros Hd. unfold with_sm, set_derived. destruct t; cbn in *. by rewrite Hd. Qed.

Lemma set_task_states_same s : set_task_states (task_states s) s = s.
Proof. by destruct s. Qed.

Lemma insert_same (this : addr) t w :
  tasks w !! this = Some t -> <[this := t]> (tasks w) = tasks w.
Proof. apply insert_id. Qed.

(** The registered tasks are alive: the map owns them. *)
Definition registered_live w s : Prop := forall p, p ∈ (task_states s).*1 -> is_Some (tasks w !! p).

Lemma handle_acknowledgment_run this m w t s target :
  tasks w !! this = Some t -> derived t = IsStateManager s -> registered_live w s ->
  target_state s = Some target ->
  exists b w', handle_acknowledgment this m w = Ok (b, w') /\ broker w' = broker w /\
    tasks w' = <[this := with_sm (set_task_states (apply_ack (task_states s) m) s) t]> (tasks w) /\
    (b = true <-> is_Some (ack_effect m (task_states s)) /\ all_in_state target (apply_ack (task_states s) m) = true).
Proof.
  intros Ht Hd Hlive Htg. unfold handle_acknowledgment, apply_ack, ack_effect.
  assert (Hign : forall l c, exists b w',
     (_ ← log_as this l c; mret false) w = Ok (b, w') /\ broker w' = broker w /\
     tasks w' = <[this := with_sm (set_task_states (task_states s) s) t]> (tasks w) /\
     (b = true <-> is_Some (None (A := addr * TaskState)) /\ all_in_state target (task_states s) = true)).
  { intros l c. exists false, (logged l (name t) c w). rewrite (M_bind_Ok _ _ _ _ _ (log_as_run this t l c w Ht)).
    split_and!; [done|done| |split; [done|by intros [[]]]].
    rewrite set_task_states_same, with_sm_same by done. symmetry. by apply (insert_same this t w). }
  case_decide as Hn; [apply Hign|].
  rewrite (M_bind_Ok _ _ _ _ _ (get_sm_run this t s w Ht Hd)), find_raw_spec.
  case_decide as Hin; cbn [mbind option_bind]; [|apply Hign].
  destruct (get_data_as AStateAckMsg m) as [ack|]; cbn [mbind option_bind]; [|apply Hign].
  set (x := state_of_byte (sa_state ack)).
  rewrite (M_bind_Ok _ _ _ _ _ (modify_sm_run this _ t s w Ht Hd)). set (t1 := with_sm _ t). set (w1 := with_task this t1 w).
  assert (Ht1 : tasks w1 !! this = Some t1) by apply with_task_lookup.
  assert (Hs1 : exists u, tasks w1 !! get_sender m = Some u).
  { destruct (decide (this = get_sender m)) as [<-|Hne]; [by exists t1|].
    destruct (Hlive _ Hin) as [u Hu]. exists u. unfold w1, with_task. cbn. by rewrite lookup_insert_ne. }
  destruct Hs1 as [u Hu]. rewrite (M_bind_Ok _ _ _ _ _ (get_name_run _ u w1 Hu)).
  rewrite (M_bind_Ok _ _ _ _ _ (log_as_run this t1 _ _ w1 Ht1)). set (w2 := logged _ _ _ w1).
  rewrite (M_bind_Ok _ _ w2 _ w2 (get_sm_run this t1 _ w2 Ht1 eq_refl)). cbn [target_state set_task_states]. rewrite Htg.
  eexists _, w2. split; [done|]. split_and!; [done|done|]. cbn [task_states set_task_states].
  split; [intros ->; by split; [eexists|]|by intros []].
Qed.

(** The state manager's thread taking a sequence of messages. *)
Fixpoint handle_acknowledgments (this : addr) (ms : list Msg) : M Q unit :=
  match ms with
  | [] => mret tt
  | m :: ms' => _ ← handle_acknowledgment this m; handle_acknowledgments this ms'
  end.

Lemma handle_acknowledgments_run this ms w t s target :
  tasks w !! this = Some t -> derived t = IsStateManager s -> registered_live w s ->
  target_state s = Some target ->
  exists w', handle_acknowledgments this ms w = Ok (tt, w') /\ broker w' = broker w /\
    tasks w' = <[this := with_sm (set_task_states (foldl apply_ack (task_states s) ms) s) t]> (tasks w).
Proof.
  revert w t s. induction ms as [|m ms IH]; intros w t s Ht Hd Hlive Htg.
  { exists w. split_and!; [done..|]. cbn. rewrite set_task_states_same, with_sm_same by done.
    symmetry. by apply insert_same. }
  destruct (handle_acknowledgment_run this m w t s target Ht Hd Hlive Htg) as (b & w1 & Hrun & Hb1 & Ht1 & _).
  set (s1 := set_task_states (apply_ack (task_states s) m) s) in *.
  destruct (IH w1 (with_sm s1 t) s1) as (w' & Hrun' & Hb' & Ht'); [by rewrite Ht1, lookup_insert_eq|done| |done|].
  { intros p Hp. apply apply_ack_keys in Hp. rewrite Ht1. destruct (decide (this = p)) as [<-|Hne].
    - rewrite lookup_insert_eq. by eexists.
    - rewrite lookup_insert_ne by done. by apply Hlive. }
  exists w'. cbn [handle_acknowledgments]. rewrite (M_bind_Ok _ _ _ _ _ Hrun). split_and!; [done|by rewrite Hb'|].
  rewrite Ht', Ht1, insert_insert_eq. done.
Qed.

(** The message a state request is broadcast as. *)
Definition state_request (this : addr) (x : TaskState) : Msg :=
  pack this (VStateMsg (mkStateMsg (state_to_byte x))).

Lemma state_request_wf this x : 0 <= this < 2 ^ 64 -> msg_wf (state_request this x).
Proof. intros. apply pack_wf; [done|]. apply Z.mod_pos_bound. lia. Qed.

Lemma sm_transition_view this x w b t s :
  bus_view w b -> bus_wf b -> fresh b 1 -> tasks w !! this = Some t -> derived t = IsStateManager s ->
  0 < this < 2 ^ 64 ->
  match bus_publish b (state_request this x) with
  | Ok b' => exists w', StateManager_transition_to_state this x w = Ok (tt, w') /\ bus_view w' b' /\
      only_mail (with_task this (with_sm (set_sm_current_state x s) t) w) w'
  | Err e => StateManager_transition_to_state this x w = Err e
  end.
Proof.
  intros Hv Hwf Hf Ht Hd Hthis. unfold StateManager_transition_to_state.
  rewrite (M_bind_Ok _ _ _ _ _ (log_as_run this t _ _ w Ht)). set (w0 := logged _ _ _ w).
  rewrite (M_bind_Ok _ _ w0 _ _ (modify_sm_run this _ t s w0 Ht Hd)). set (t1 := with_sm _ t). set (w1 := with_task this t1 w0).
  rewrite (M_bind_Ok _ _ _ _ _ (lift_Msg_new _ _ _)).
  rewrite (safe_publish_live this _ w1 t1) by (apply with_task_lookup || (unfold nullptr; lia)).
  assert (Hv1 : bus_view w1 b) by (by apply (bus_view_fields w0 b this t)).
  apply (publish_view (state_request this x) w1 b Hv1); [apply state_request_wf; lia|apply Hwf|by apply fresh_one].
Qed.

Lemma demand_begin_view this x w b t s :
  bus_view w b -> bus_wf b -> fresh b 1 -> tasks w !! this = Some t -> derived t = IsStateManager s ->
  0 < this < 2 ^ 64 ->
  match bus_publish b (state_request this x) with
  | Ok b' => exists w', demand_begin this x w = Ok (tt, w') /\ bus_view w' b' /\
      only_mail (with_task this (with_sm (set_sm_current_state x (set_target_state x s)) t) w) w'
  | Err e => demand_begin this x w = Err e
  end.
Proof.
  intros Hv Hwf Hf Ht Hd Hthis. unfold demand_begin.
  rewrite (M_bind_Ok _ _ _ _ _ (log_as_run this t _ _ w Ht)). set (w0 := logged _ _ _ w).
  rewrite (M_bind_Ok _ _ w0 _ _ (modify_sm_run this _ t s w0 Ht Hd)). set (t1 := with_sm _ t). set (w1 := with_task this t1 w0).
  assert (Hv1 : bus_view w1 b) by (by apply (bus_view_fields w0 b this t)).
  pose proof (sm_transition_view this x w1 b t1 _ Hv1 Hwf Hf (with_task_lookup _ _ _) eq_refl Hthis) as Htr.
  destruct (bus_publish b (state_request this x)) as [b'|e]; [|done].
  destruct Htr as (w' & Hrun & Hv' & Hom). exists w'. split_and!; [done|done|].
  eapply only_mail_trans; [|done]. apply only_mail_refl. unfold w1, w0, with_task. cbn. by rewrite insert_insert_eq.
Qed.

Lemma only_mail_live w w' p : only_mail w w' -> is_Some (tasks w !! p) -> is_Some (tasks w' !! p).
Proof. intros Hm [t Ht]. destruct (only_mail_lookup w w' p t Hm Ht) as [q Hq]. by eexists. Qed.

Lemma with_task_live this t w p : is_Some (tasks w !! p) -> is_Some (tasks (with_task this t w) !! p).
Proof.
  intros Hp. unfold with_task. cbn. destruct (decide (this = p)) as [<-|Hne].
  - rewrite lookup_insert_eq. by eexists.
  - by rewrite lookup_insert_ne.
Qed.

Lemma log_laggards_run this x pairs w t :
  tasks w !! this = Some t -> (forall p, p ∈ pairs.*1 -> is_Some (tasks w !! p)) ->
  exists w', log_laggards this x pairs w = Ok (tt, w') /\ tasks w' = tasks w /\ broker w' = broker w.
Proof.
  revert w. induction pairs as [|[p y] pairs IH]; intros w Ht Hlive; [by exists w|]. cbn [log_laggards].
  assert (Hstep : exists w1, (if decide (y <> x) then
             nm ← get_name p;
             log_as this LOG_ERROR
               (String (Ascii.ascii_of_nat 9) "Task " +:+ nm +:+ " still in state " +:+ task_state_to_string y)
           else mret tt) w = Ok (tt, w1) /\ tasks w1 = tasks w /\ broker w1 = broker w).
  { case_decide; [|by exists w]. destruct (Hlive p) as [u Hu]; [apply list_elem_of_here|].
    rewrite (M_bind_Ok _ _ _ _ _ (get_name_run p u w Hu)), (log_as_run this t _ _ w Ht). by eexists. }
  destruct Hstep as (w1 & Hrun & Ht1 & Hb1). rewrite (M_bind_Ok _ _ _ _ _ Hrun).
  destruct (IH w1) as (w' & Hrun' & Ht' & Hb'); [by rewrite Ht1|rewrite Ht1; intros; by apply Hlive, list_elem_of_further|].
  exists w'. split_and!; congruence.
Qed.

Lemma demand_end_run this x w t s :
  tasks w !! this = Some t -> derived t = IsStateManager s -> registered_live w s ->
  exists w', demand_end this x w = Ok (all_in_state x (task_states s), w') /\ tasks w' = tasks w /\ broker w' = broker w.
Proof.
  intros Ht Hd Hlive. unfold demand_end, all_tasks_in_state.
  rewrite (M_bind_Ok _ _ w (all_in_state x (task_states s)) w)
    by (by rewrite (M_bind_Ok _ _ _ _ _ (get_sm_run this t s w Ht Hd))).
  destruct (all_in_state x (task_states s)); [by exists w|].
  set (w0 := logged LOG_ERROR (name t) ("Timeout waiting for tasks to state transition to " +:+ task_state_to_string x) w).
  destruct (log_laggards_run this x (task_states s) w0 t Ht Hlive) as (w' & Hrun & Ht' & Hb'). exists w'. split_and!; [|done|done].
  rewrite (M_bind_Ok _ _ w tt w'); [done|]. rewrite (M_bind_Ok _ _ _ _ _ (log_as_run this t _ _ w Ht)).
  by rewrite (M_bind_Ok _ _ _ _ _ (get_sm_run this t s w0 Ht Hd)).
Qed.
End lemmas.

(** ** Marking a task *)

Section marking.
Context {Q : Type} `{QueueImpl Q}.
Implicit Types (t : Task Q) (w : World Q) (s : StateManager).

Definition sm_at (this : addr) w s : Prop := exists t, tasks w !! this = Some t /\ derived t = IsStateManager s.

Lemma sm_at_run this w s : sm_at this w s -> get_sm this w = Ok (s, w).
Proof. intros (t & Ht & Hd). by eapply get_sm_run. Qed.

Lemma sm_at_live this w s : sm_at this w s -> is_Some (tasks w !! this).
Proof. intros (t & Ht & _). by exists t. Qed.

Lemma sm_at_mail this w w' s l : mail_except l w w' -> (this ∉ l) -> sm_at this w s -> sm_at this w' s.
Proof.
  intros Hm Hl (t & Ht & Hd). destruct (mail_except_lookup l w w' this t Hm Hl Ht) as [q Hq].
  eexists. by split.
Qed.

Lemma mark_unresponsive_run this task w mb s a :
  mailboxes w mb -> 0 < this < 2 ^ 64 -> sm_at this w s -> mb !! task = Some a -> has_room a ->
  aq_ticks a < 2 ^ 32 - 1 ->
  exists w', mark_task_as_unresponsive this task w = Ok (tt, w') /\
    mailboxes w' (<[task := received (state_request this ERROR) a]> mb) /\ broker w' = broker w /\
    sm_at this w' (set_task_states (pm_assign task ERROR (task_states s)) s) /\ mail_except [this] w w'.
Proof.
  intros Hmb Hthis (t & Ht & Hd) Ha Hroom Hticks.
  destruct (mailboxes_task w mb task a Hmb Ha) as (u & Hu & Hva).
  unfold mark_task_as_unresponsive. rewrite (M_bind_Ok _ _ _ _ _ (get_name_run task u w Hu)).
  rewrite (M_bind_Ok _ _ _ _ _ (log_as_run this t _ _ w Ht)). set (w1 := logged _ _ _ w).
  rewrite (M_bind_Ok _ _ _ _ _ (lift_Msg_new _ _ _)). fold (state_request this ERROR).
  assert (Hm1 : mailboxes w1 mb) by done. assert (Hsender : known_sender mb (state_request this ERROR)).
  { right. apply (mailboxes_live w); [done|]. by exists t. }
  pose proof (deliver_message_view task (state_request this ERROR) w1 mb Hm1) as Hdel.
  rewrite (bus_deliver_room _ _ _ _ Hsender Ha Hroom) in Hdel.
  destruct Hdel as (q & u' & Hu' & _ & Hrun & Hm2); [apply state_request_wf; lia|intros a' Ha'; congruence|].
  rewrite (M_bind_Ok _ _ _ _ _ Hrun). set (w2 := delivered _ _ _ _ w1) in *.
  assert (Hom : only_mail w w2) by (by apply (only_mail_update (logged _ _ _ w1))).
  destruct (only_mail_name _ _ this _ Hom Ht) as (t2 & Ht2 & _ & _ & _ & _ & _ & _ & Hd2). rewrite Hd in Hd2.
  set (s2 := set_task_states (pm_assign task ERROR (task_states s)) s).
  exists (with_task this (with_sm s2 t2) w2). split_and!.
  - by apply (modify_sm_run this (fun s => set_task_states (pm_assign task ERROR (task_states s)) s) t2 s w2).
  - by apply (mailboxes_fields w2 _ this t2).
  - done.
  - eexists. split; [apply with_task_lookup|done].
  - apply (mail_except_trans _ _ w2); [by apply mail_except_mail|]. apply mail_except_refl.
    intros p Hp. unfold with_task. cbn. rewrite lookup_insert_ne; [done|]. intros <-. apply Hp, list_elem_of_here.
Qed.
End marking.

(** ** Starting the registered tasks *)

Section starting.
Context {Q : Type} `{QueueImpl Q}.
Implicit Types (t : Task Q) (w : World Q).

(** Not running, and without a thread to join. *)
Definition startable t : Prop :=
  running t = false /\ queue_thread t = Unjoinable /\ periodic_thread t = Unjoinable.

(** [t'] is [t] started. *)
Definition started t t' : Prop :=
  running t' = true /\ queue_thread t' = LoopHead /\
  periodic_thread t' = (if decide (periodic_task_interval_ms t > 0) then LoopHead else Unjoinable) /\
  name t' = name t /\ current_state t' = current_state t /\ message_queue t' = message_queue t /\ derived t' = derived t.

Lemma start_startable p w t :
  tasks w !! p = Some t -> startable t -> exists t', start p w = Ok (tt, with_task p t' w) /\ started t t'.
Proof. intros Ht (Hr & Hq & Hp). eexists. split; [by apply start_stopped|]. by split_and!. Qed.

(** Starting different tasks one after the other. *)
Lemma for_each_start pairs w :
  NoDup (pairs.*1) -> (forall p, p ∈ pairs.*1 -> exists t, tasks w !! p = Some t /\ startable t) ->
  exists w', for_each_task start pairs w = Ok (tt, w') /\ broker w' = broker w /\ clock w' = clock w /\
    (forall p, p ∈ pairs.*1 -> exists t t', tasks w !! p = Some t /\ tasks w' !! p = Some t' /\ started t t') /\
    (forall p, (p ∉ pairs.*1) -> tasks w' !! p = tasks w !! p).
Proof.
  revert w. induction pairs as [|[p x] pairs IH]; intros w Hnd Hall.
  { exists w. split_and!; [done..| |done]. intros p Hp. by apply elem_of_nil in Hp. }
  apply NoDup_cons in Hnd as [Hp Hnd]. cbn [for_each_task]. destruct (Hall p) as (t & Ht & Hs); [apply list_elem_of_here|].
  destruct (start_startable p w t Ht Hs) as (t' & Hrun & Hst). rewrite (M_bind_Ok _ _ _ _ _ Hrun).
  assert (Hlook : forall q, q <> p -> tasks (with_task p t' w) !! q = tasks w !! q)
    by (intros q Hq; unfold with_task; cbn; by rewrite lookup_insert_ne).
  destruct (IH (with_task p t' w) Hnd) as (w' & Hrun' & Hb & Hc & Hin & Hout).
  { intros q Hq. rewrite Hlook by (by intros ->). by apply Hall, list_elem_of_further. }
  exists w'. split_and!; [done..| |].
  - intros q [->|Hq]%elem_of_cons.
    + exists t, t'. rewrite Hout by done. split_and!; [done|apply with_task_lookup|done].
    + destruct (Hin q Hq) as (u & u' & Hu & ? & ?). rewrite Hlook in Hu by (by intros ->). by exists u, u'.
  - intros q [Hq1 Hq2]%not_elem_of_cons. rewrite Hout by done. by apply Hlook.
Qed.
End starting.

Lemma pm_sorted_NoDup {V} (m : list (addr * V)) : pm_sorted m -> NoDup m.*1.
Proof.
  unfold pm_sorted. induction m as [|[k v] m IH]; cbn; intros Hs; [constructor|].
  apply StronglySorted_inv in Hs as [Hs Hlt]. rewrite Forall_forall in Hlt. constructor; [|by apply IH].
  intros Hk. specialize (Hlt k Hk). lia.
Qed.

(** ** Properties *)

Section properties.
Context {Q : Type} `{QueueImpl Q}.
Implicit Types (t : Task Q) (w : World Q) (s : StateManager).

(** [register_task] records the task with the state NOT_STARTED, also when
    it was registered before, and leaves the other entries and the order of
    the map as they were; then it notifies the observer, if there is one and
    it is a HeartBeatTask, and does nothing else. *)
Theorem register_task_records `{RegistrationObserver Q} this task w t s :
  tasks w !! this = Some t -> derived t = IsStateManager s -> pm_sorted (task_states s) ->
  exists w1 s1, tasks w1 = <[this := with_sm s1 t]> (tasks w) /\ broker w1 = broker w /\
    pm_sorted (task_states s1) /\ target_state s1 = target_state s /\
    pm_find task (task_states s1) = Some NOT_STARTED /\
    (forall p, p <> task -> pm_find p (task_states s1) = pm_find p (task_states s)) /\
    (task_registration_observer s = nullptr -> register_task this task w = Ok (tt, w1)) /\
    (forall o, task_registration_observer s <> nullptr -> tasks w1 !! task_registration_observer s = Some o ->
       register_task this task w =
         match derived o with
         | IsHeartBeat _ => notify_task_registered (task_registration_observer s) task w1
         | _ => Ok (tt, w1)
         end).
Proof.
  intros Ht Hd Hs. set (s1 := set_task_states (pm_assign task NOT_STARTED (task_states s)) s).
  set (w1 := with_task this (with_sm s1 t) w). exists w1, s1.
  assert (Hrun : register_task this task w =
    (if decide (task_registration_observer s = nullptr) then mret tt
     else o ← get_task (task_registration_observer s);
          match derived o with
          | IsHeartBeat _ => notify_task_registered (task_registration_observer s) task
          | _ => mret tt
          end) w1).
  { unfold register_task. rewrite (M_bind_Ok _ _ _ _ _ (modify_sm_run this _ t s w Ht Hd)).
    by rewrite (M_bind_Ok _ _ w1 _ _ (get_sm_run this (with_sm s1 t) s1 w1 (with_task_lookup _ _ _) eq_refl)). }
  split_and!; try done.
  - by apply pm_assign_sorted.
  - cbn. rewrite pm_assign_find by done. by rewrite decide_True.
  - intros p Hp. cbn. rewrite pm_assign_find by done. by rewrite decide_False by (by apply not_eq_sym).
  - intros Hn. by rewrite Hrun, decide_True.
  - intros o Hn Ho. rewrite Hrun, decide_False by done.
    rewrite (M_bind_Ok _ _ _ _ _ (get_task_run _ o w1 Ho)). by destruct (derived o).
Qed.

(** [handle_acknowledgment] records the acknowledged state of the sender
    exactly when the sender is a registered task and the message is a
    StateAckMsg, and otherwise changes nothing; it notifies the waiting demand
    exactly when, after recording, every registered task is in the target
    state. *)
Theorem acknowledgment_recorded this m w t s target :
  tasks w !! this = Some t -> derived t = IsStateManager s -> pm_sorted (task_states s) ->
  registered_live w s -> target_state s = Some target -> (nullptr ∉ (task_states s).*1) ->
  exists b w' s', handle_acknowledgment this m w = Ok (b, w') /\ broker w' = broker w /\
    tasks w' = <[this := with_sm s' t]> (tasks w) /\ pm_sorted (task_states s') /\
    (forall p, pm_find p (task_states s') =
       if decide (p = get_sender m /\ p ∈ (task_states s).*1) then
         match get_data_as AStateAckMsg m with
         | Some ack => Some (state_of_byte (sa_state ack))
         | None => pm_find p (task_states s)
         end
       else pm_find p (task_states s)) /\
    (b = true <-> get_sender m ∈ (task_states s).*1 /\ has_data_type AStateAckMsg m = true /\
       forall p, p ∈ (task_states s).*1 -> pm_find p (task_states s') = Some target).
Proof.
  intros Ht Hd Hs Hlive Htg Hnull.
  destruct (handle_acknowledgment_run this m w t s target Ht Hd Hlive Htg) as (b & w' & Hrun & Hb & Ht' & Hnotify).
  exists b, w', (set_task_states (apply_ack (task_states s) m) s).
  assert (Hdec : is_Some (ack_effect m (task_states s)) <->
            get_sender m ∈ (task_states s).*1 /\ has_data_type AStateAckMsg m = true).
  { unfold has_data_type. split.
    - intros [[p x] (-> & _ & Hin & Hm)%ack_effect_Some]. split; [done|].
      assert (Hg : get_data_as AStateAckMsg m = Some (mkStateAckMsg x)) by (by apply get_data_as_Some). by rewrite Hg.
    - intros [Hin Hg]. destruct (get_data_as AStateAckMsg m) as [[x]|] eqn:Hm; [|done].
      exists (get_sender m, x). apply ack_effect_Some. apply get_data_as_Some in Hm. split_and!; try done.
      by intros Hz; rewrite Hz in Hin. }
  split_and!; [done|done|done|by apply apply_ack_sorted| |].
  - intros p. cbn [task_states set_task_states]. case_decide as Hp.
    + destruct Hp as [-> Hin]. rewrite apply_ack_find by (done || (by intros Hz; rewrite Hz in Hin)).
      cbn [last_ack]. rewrite decide_True by done. by destruct (get_data_as AStateAckMsg m).
    + unfold apply_ack. destruct (ack_effect m (task_states s)) as [[q x]|] eqn:He; [|done].
      apply ack_effect_Some in He as (-> & _ & Hin & _). rewrite pm_assign_find by done.
      rewrite decide_False; [done|]. intros <-. by apply Hp.
  - rewrite Hnotify, Hdec. cbn [task_states set_task_states].
    rewrite all_in_state_spec by (by apply apply_ack_sorted). setoid_rewrite apply_ack_keys. tauto.
Qed.

(** C8. [demand_state_transition] answers true exactly when, once its wait is
    over, every registered task has the demanded state on record: because all
    had it on record when the demand was made, or because for each task the
    last acknowledgement handled during the wait (or, without one, the old
    record) names that state. The request has been published once, and only
    the registry and the queues of the subscribers have changed. *)
Theorem demand_decided_by_acks this x ms w b t s :
  bus_view w b -> bus_wf b -> fresh b 1 -> bus_on b = true -> 0 < this < 2 ^ 64 ->
  tasks w !! this = Some t -> derived t = IsStateManager s ->
  pm_sorted (task_states s) -> (nullptr ∉ (task_states s).*1) -> registered_live w s ->
  subscribers_room b (state_request this x) ->
  exists r w' mb, demand_state_transition this x (handle_acknowledgments this ms) w = Ok (r, w') /\
    mailboxes w' mb /\ (forall p, mb !! p = posted b (state_request this x) p) /\
    (r = true <-> (forall p, p ∈ (task_states s).*1 -> pm_find p (task_states s) = Some x) \/
                  (forall p, p ∈ (task_states s).*1 ->
                     match last_ack p ms with Some y => Some y | None => pm_find p (task_states s) end = Some x)).
Proof.
  intros Hv Hwf Hf Hon Hthis Ht Hd Hs Hnull Hlive Hroom.
  destruct (mailbox_room_publish this (state_request this x) w b Hv Hwf Hf Hon) as (mb & Hb & Hmb);
    [apply state_request_wf; lia|done|by eexists|done|].
  pose proof (demand_begin_view this x w b t s Hv Hwf Hf Ht Hd Hthis) as Hbegin. rewrite Hb in Hbegin.
  destruct Hbegin as (w1 & Hrun1 & (_ & _ & Hm1) & Hom). set (s1 := set_sm_current_state x (set_target_state x s)) in *.
  destruct (only_mail_name _ _ this _ Hom (with_task_lookup _ _ _)) as (t1 & Ht1 & _ & _ & _ & _ & _ & _ & Hd1).
  assert (Hlive1 : registered_live w1 s1)
    by (intros p Hp; apply (only_mail_live _ _ p Hom), with_task_live; by apply Hlive).
  unfold demand_state_transition. rewrite (M_bind_Ok _ _ _ _ _ Hrun1).
  rewrite (M_bind_Ok _ _ w1 (all_in_state x (task_states s)) w1)
    by (unfold all_tasks_in_state; by rewrite (M_bind_Ok _ _ _ _ _ (get_sm_run this t1 s1 w1 Ht1 Hd1))).
  destruct (all_in_state x (task_states s)) eqn:Hready.
  - rewrite (M_bind_Ok _ _ w1 tt w1 eq_refl).
    destruct (demand_end_run this x w1 t1 s1 Ht1 Hd1 Hlive1) as (w' & Hend & Ht' & _).
    cbn [task_states s1 set_sm_current_state set_target_state] in Hend. rewrite Hready in Hend. exists true, w', mb.
    split_and!; [done|by apply (mailboxes_tasks w1)|done|]. split; [|done]. intros _. left. by apply all_in_state_spec.
  - destruct (handle_acknowledgments_run this ms w1 t1 s1 x Ht1 Hd1 Hlive1 eq_refl) as (w2 & Hrun2 & _ & Ht2).
    rewrite (M_bind_Ok _ _ _ _ _ Hrun2). set (s2 := set_task_states (foldl apply_ack (task_states s) ms) s1).
    assert (Hself : tasks w2 !! this = Some (with_sm s2 t1)) by (by rewrite Ht2, lookup_insert_eq).
    destruct (demand_end_run this x w2 (with_sm s2 t1) s2 Hself eq_refl) as (w' & Hend & Ht' & _).
    { intros p Hp. apply apply_acks_keys in Hp. rewrite Ht2. apply (with_task_live this _ w1). by apply Hlive1. }
    exists (all_in_state x (foldl apply_ack (task_states s) ms)), w', mb. split_and!; [done| |done|].
    + apply (mailboxes_tasks w2); [done|]. apply (mailboxes_tasks (with_task this (with_sm s2 t1) w1)); [done|].
      by apply (mailboxes_fields w1 mb this t1).
    + rewrite all_in_state_spec by (by apply apply_acks_sorted). setoid_rewrite apply_acks_keys.
      assert (Hfind : forall p, p ∈ (task_states s).*1 -> pm_find p (foldl apply_ack (task_states s) ms) =
                match last_ack p ms with Some y => Some y | None => pm_find p (task_states s) end).
      { intros p Hp. apply apply_acks_find; [done|done|]. by intros ->. }
      split.
      * intros Hall. right. intros p Hp. rewrite <- Hfind by done. by apply Hall.
      * intros [Hall|Hall] p Hp; [|by rewrite Hfind; [apply Hall|]]. exfalso.
        assert (Hr : all_in_state x (task_states s) = true) by (by apply all_in_state_spec). congruence.
Qed.

(** A demand for a state every registered task already has on record
    returns true at once, whatever the other threads would have done: no task
    has taken the request out of its queue, and the states the tasks are in,
    whatever they are, have not changed. In particular a request for another
    state that is still in the queues does not delay it. *)
Theorem demand_stale_success this x others w b t s :
  bus_view w b -> bus_wf b -> fresh b 1 -> bus_on b = true -> 0 < this < 2 ^ 64 ->
  tasks w !! this = Some t -> derived t = IsStateManager s -> registered_live w s ->
  subscribers_room b (state_request this x) -> all_in_state x (task_states s) = true ->
  exists w' mb, demand_state_transition this x others w = Ok (true, w') /\
    mailboxes w' mb /\ (forall p, mb !! p = posted b (state_request this x) p) /\
    forall p u, tasks w !! p = Some u -> exists u', tasks w' !! p = Some u' /\ current_state u' = current_state u.
Proof.
  intros Hv Hwf Hf Hon Hthis Ht Hd Hlive Hroom Hready.
  destruct (mailbox_room_publish this (state_request this x) w b Hv Hwf Hf Hon) as (mb & Hb & Hmb);
    [apply state_request_wf; lia|done|by eexists|done|].
  pose proof (demand_begin_view this x w b t s Hv Hwf Hf Ht Hd Hthis) as Hbegin. rewrite Hb in Hbegin.
  destruct Hbegin as (w1 & Hrun1 & (_ & _ & Hm1) & Hom). set (s1 := set_sm_current_state x (set_target_state x s)) in *.
  destruct (only_mail_name _ _ this _ Hom (with_task_lookup _ _ _)) as (t1 & Ht1 & _ & _ & _ & _ & _ & _ & Hd1).
  assert (Hlive1 : registered_live w1 s1)
    by (intros p Hp; apply (only_mail_live _ _ p Hom), with_task_live; by apply Hlive).
  destruct (demand_end_run this x w1 t1 s1 Ht1 Hd1 Hlive1) as (w' & Hend & Ht' & _).
  change (task_states s1) with (task_states s) in Hend. rewrite Hready in Hend. exists w', mb. split_and!.
  - unfold demand_state_transition. rewrite (M_bind_Ok _ _ _ _ _ Hrun1).
    rewrite (M_bind_Ok _ _ w1 true w1); [by rewrite (M_bind_Ok _ _ w1 tt w1 eq_refl)|].
    unfold all_tasks_in_state. rewrite (M_bind_Ok _ _ _ _ _ (get_sm_run this t1 s1 w1 Ht1 Hd1)).
    by change (task_states s1) with (task_states s); rewrite Hready.
  - by apply (mailboxes_tasks w1).
  - done.
  - intros p u Hu. rewrite Ht'. destruct (decide (this = p)) as [<-|Hne].
    + rewrite Ht in Hu. injection Hu as <-.
      destruct (only_mail_name _ _ this _ Hom (with_task_lookup _ _ _)) as (u' & ? & _ & ? & _). by exists u'.
    + assert (Hu1 : tasks (with_task this (with_sm s1 t) w) !! p = Some u)
        by (unfold with_task; cbn; by rewrite lookup_insert_ne).
      destruct (only_mail_name _ _ p _ Hom Hu1) as (u' & ? & _ & ? & _). by exists u'.
Qed.

(** The state manager's own transition broadcasts one StateMsg with the
    state to the live subscribers of that type and stores the state in its
    member [current_state], but that member shadows the one of [Task]: the
    inherited [get_current_state] answers as before. *)
Theorem manager_state_shadowed this x w b t s :
  bus_view w b -> bus_wf b -> fresh b 1 -> bus_on b = true -> 0 < this < 2 ^ 64 ->
  tasks w !! this = Some t -> derived t = IsStateManager s -> subscribers_room b (state_request this x) ->
  exists w' mb s', request_state_transition this x w = Ok (tt, w') /\
    mailboxes w' mb /\ (forall p, mb !! p = posted b (state_request this x) p) /\
    get_sm this w' = Ok (s', w') /\ sm_current_state s' = Some x /\ task_states s' = task_states s /\
    get_current_state this w' = Ok (current_state t, w').
Proof.
  intros Hv Hwf Hf Hon Hthis Ht Hd Hroom.
  destruct (mailbox_room_publish this (state_request this x) w b Hv Hwf Hf Hon) as (mb & Hb & Hmb);
    [apply state_request_wf; lia|done|by eexists|done|].
  pose proof (sm_transition_view this x w b t s Hv Hwf Hf Ht Hd Hthis) as Htr. rewrite Hb in Htr.
  destruct Htr as (w' & Hrun & (_ & _ & Hm') & Hom).
  destruct (only_mail_name _ _ this _ Hom (with_task_lookup _ _ _)) as (t' & Ht' & _ & Hs' & _ & _ & _ & _ & Hd').
  exists w', mb, (set_sm_current_state x s). split_and!; try done.
  - by apply (get_sm_run this t').
  - unfold get_current_state. rewrite (M_bind_Ok _ _ _ _ _ (get_task_run this t' w' Ht')), Hs'. done.
Qed.

(** [mark_task_as_unresponsive] puts one StateMsg asking for ERROR into
    the queue of that task and no other, subscribed or not, and records ERROR
    for it, registered or not, and for no other task; no task's own state has
    changed by then. *)
Theorem unresponsive_marked this task w mb s a :
  mailboxes w mb -> 0 < this < 2 ^ 64 -> sm_at this w s -> pm_sorted (task_states s) ->
  mb !! task = Some a -> has_room a -> aq_ticks a < 2 ^ 32 - 1 ->
  exists w' s', mark_task_as_unresponsive this task w = Ok (tt, w') /\
    mailboxes w' (<[task := received (state_request this ERROR) a]> mb) /\ broker w' = broker w /\
    sm_at this w' s' /\ mail_except [this] w w' /\
    forall p, pm_find p (task_states s') = if decide (task = p) then Some ERROR else pm_find p (task_states s).
Proof.
  intros Hmb Hthis Hsm Hs Ha Hroom Hticks.
  destruct (mark_unresponsive_run this task w mb s a Hmb Hthis Hsm Ha Hroom Hticks) as (w' & Hrun & Hm & Hb & Hsm' & Hex).
  eexists w', _. split_and!; try done. intros p. by apply pm_assign_find.
Qed.

(** [initialize] starts the state manager and then every registered task,
    each once, before it demands IDLE: from tasks that have not been started,
    all are running with their message loops begun, no queue has changed, and
    the registry is as it was. *)
Theorem initialize_starts_all this others w t s :
  tasks w !! this = Some t -> derived t = IsStateManager s -> startable t ->
  pm_sorted (task_states s) -> (this ∉ (task_states s).*1) ->
  (forall p, p ∈ (task_states s).*1 -> exists u, tasks w !! p = Some u /\ startable u) ->
  exists w1, StateManager_initialize this others w =
      (ok ← demand_state_transition this IDLE others;
       if (ok : bool) then mret tt
       else log_as this LOG_ERROR "Timeout while waiting for tasks to transition to IDLE during initialization") w1 /\
    broker w1 = broker w /\ clock w1 = clock w /\
    (forall p, p = this \/ p ∈ (task_states s).*1 ->
       exists u u', tasks w !! p = Some u /\ tasks w1 !! p = Some u' /\ started u u') /\
    (forall p, p <> this -> (p ∉ (task_states s).*1) -> tasks w1 !! p = tasks w !! p).
Proof.
  intros Ht Hd Hst Hs Hself Hall. unfold StateManager_initialize.
  rewrite (M_bind_Ok _ _ _ _ _ (log_as_run this t _ _ w Ht)). set (w0 := logged _ _ _ w).
  destruct (start_startable this w0 t Ht Hst) as (t' & Hrun & Hstd). rewrite (M_bind_Ok _ _ _ _ _ Hrun).
  set (w1 := with_task this t' w0).
  assert (Ht1 : tasks w1 !! this = Some t') by apply with_task_lookup.
  assert (Hd1 : derived t' = IsStateManager s) by (destruct Hstd as (_ & _ & _ & _ & _ & _ & ->); done).
  rewrite (M_bind_Ok _ _ _ _ _ (get_sm_run this t' s w1 Ht1 Hd1)).
  assert (Hlook : forall p, p <> this -> tasks w1 !! p = tasks w !! p)
    by (intros p Hp; unfold w1, with_task; cbn; by rewrite lookup_insert_ne).
  destruct (for_each_start (task_states s) w1) as (w2 & Hrun2 & Hb & Hc & Hin & Hout).
  { by apply pm_sorted_NoDup. }
  { intros p Hp. rewrite Hlook by (by intros ->). by apply Hall. }
  rewrite (M_bind_Ok _ _ _ _ _ Hrun2). exists w2. split_and!; [done..| |].
  - intros p [->|Hp].
    + exists t, t'. by rewrite Hout.
    + destruct (Hin p Hp) as (u & u' & Hu & ? & ?). rewrite Hlook in Hu by (by intros ->). by exists u, u'.
  - intros p Hne Hp. rewrite Hout by done. by apply Hlook.
Qed.
End properties.

(** ** Witnesses: a state manager at 16 and one registered task at 32 *)

Definition sm_demo (state target : TaskState) : StateManager :=
  mkStateManager [(32, state)] (Some IDLE) (Some target) nullptr.
Definition sm_task (s : StateManager) : Task aqueue :=
  mkTask "StateManager" NOT_STARTED false Unjoinable Unjoinable 0 (aq_new 4) (IsStateManager s).
Definition sm_user : Task aqueue := mkTask "A" NOT_STARTED false Unjoinable Unjoinable 0 (aq_new 4) IsUserTask.
Definition sm_world (s : StateManager) : World aqueue :=
  mkWorld {[16 := sm_task s; 32 := sm_user]} (mkBroker true [[32]; [16]; []; []]) Logger_new
    (fun n => mkClockReading (Z.of_nat n * 1000000) 0 0) 0 (1, 1).
Definition sm_mail : gmap addr aqueue := {[16 := aq_new 4; 32 := aq_new 4]}.
Definition sm_bus : bus := mkBus true [[32]; [16]; []; []] sm_mail.

Lemma sm_view s : bus_view (sm_world s) sm_bus.
Proof.
  split_and!; [done..|]. intros p. cbn. unfold sm_mail. destruct (decide (p = 16)) as [->|H16].
  { rewrite !lookup_insert_eq. constructor. cbn. split; [done|lia]. }
  rewrite !lookup_insert_ne by done. destruct (decide (p = 32)) as [->|H32].
  { rewrite !lookup_singleton_eq. constructor. cbn. split; [done|lia]. }
  rewrite !lookup_singleton_ne by done. constructor.
Qed.

Lemma sm_bus_wf : bus_wf sm_bus.
Proof. split; [done|]. by apply (bool_decide_eq_true_1 (Forall NoDup _)). Qed.

Lemma sm_mail_fresh p a : sm_mail !! p = Some a -> a = aq_new 4.
Proof. unfold sm_mail. by intros [[_ <-]|[_ [_ <-]%lookup_singleton_Some]]%lookup_insert_Some. Qed.

Lemma sm_fresh : fresh sm_bus 1.
Proof. intros p a. cbn. by intros ->%sm_mail_fresh. Qed.

Lemma sm_room m : subscribers_room sm_bus m.
Proof. intros p a _. cbn. intros ->%sm_mail_fresh. unfold has_room. cbn. lia. Qed.

Lemma sm_sorted x y : pm_sorted (task_states (sm_demo x y)).
Proof. unfold pm_sorted. cbn. repeat constructor. Qed.

Lemma sm_live x y : registered_live (sm_world (sm_demo x y)) (sm_demo x y).
Proof. intros p Hp%list_elem_of_singleton. subst. by eexists. Qed.

Lemma sm_not_null x y : nullptr ∉ (task_states (sm_demo x y)).*1.
Proof. by intros Hp%list_elem_of_singleton. Qed.

#[local] Instance no_observer : RegistrationObserver aqueue := { notify_task_registered _ _ := mret tt }.

Lemma register_task_records_witness :
  exists w1 s1, register_task 16 32 (sm_world (sm_demo RUNNING IDLE)) = Ok (tt, w1) /\
    get_sm 16 w1 = Ok (s1, w1) /\ pm_find 32 (task_states s1) = Some NOT_STARTED.
Proof.
  destruct (register_task_records 16 32 (sm_world (sm_demo RUNNING IDLE)) (sm_task (sm_demo RUNNING IDLE)) _
    eq_refl eq_refl (sm_sorted _ _)) as (w1 & s1 & Ht & _ & _ & _ & Hf & _ & Hrun & _).
  exists w1, s1. split_and!; [by apply Hrun| |done].
  apply (get_sm_run 16 (with_sm s1 (sm_task (sm_demo RUNNING IDLE)))); [by rewrite Ht, lookup_insert_eq|done].
Defined.

Lemma acknowledgment_recorded_witness :
  exists w' s', handle_acknowledgment 16 (state_ack 32 IDLE) (sm_world (sm_demo NOT_STARTED IDLE)) = Ok (true, w') /\
    get_sm 16 w' = Ok (s', w') /\ pm_find 32 (task_states s') = Some IDLE.
Proof.
  destruct (acknowledgment_recorded 16 (state_ack 32 IDLE) (sm_world (sm_demo NOT_STARTED IDLE))
    (sm_task (sm_demo NOT_STARTED IDLE)) _ IDLE eq_refl eq_refl (sm_sorted _ _) (sm_live _ _) eq_refl (sm_not_null _ _))
    as (b & w' & s' & Hrun & _ & Ht & _ & Hfind & Hb).
  assert (Hf : pm_find 32 (task_states s') = Some IDLE) by (rewrite Hfind; done).
  assert (b = true) as ->.
  { apply Hb. split_and!; [apply list_elem_of_here|done|]. by intros p ->%list_elem_of_singleton. }
  exists w', s'. split_and!; [done| |done].
  apply (get_sm_run 16 (with_sm s' (sm_task (sm_demo NOT_STARTED IDLE)))); [by rewrite Ht, lookup_insert_eq|done].
Defined.

Lemma demand_decided_by_acks_witness :
  exists r w', demand_state_transition 16 IDLE (handle_acknowledgments 16 [state_ack 32 RUNNING; state_ack 32 IDLE])
      (sm_world (sm_demo NOT_STARTED IDLE)) = Ok (r, w') /\ r = true.
Proof.
  destruct (demand_decided_by_acks 16 IDLE [state_ack 32 RUNNING; state_ack 32 IDLE] _ _
    (sm_task (sm_demo NOT_STARTED IDLE)) (sm_demo NOT_STARTED IDLE) (sm_view (sm_demo NOT_STARTED IDLE)) sm_bus_wf sm_fresh)
    as (r & w' & mb & Hrun & _ & _ & Hr);
    [done|done|done|done|apply sm_sorted|apply sm_not_null|apply sm_live|apply sm_room|].
  exists r, w'. split; [done|]. apply Hr. right. by intros p ->%list_elem_of_singleton.
Defined.

Lemma demand_stale_success_witness :
  exists w', demand_state_transition 16 IDLE (throw (UB "never run")) (sm_world (sm_demo IDLE RUNNING)) = Ok (true, w').
Proof.
  destruct (demand_stale_success 16 IDLE (throw (UB "never run")) _ _ (sm_task (sm_demo IDLE RUNNING)) (sm_demo IDLE RUNNING)
    (sm_view (sm_demo IDLE RUNNING)) sm_bus_wf sm_fresh) as (w' & mb & Hrun & _);
    [done|done|done|done|apply sm_live|apply sm_room|done|]. by exists w'.
Defined.

Lemma manager_state_shadowed_witness :
  exists w', request_state_transition 16 RUNNING (sm_world (sm_demo IDLE IDLE)) = Ok (tt, w') /\
    get_current_state 16 w' = Ok (NOT_STARTED, w').
Proof.
  destruct (manager_state_shadowed 16 RUNNING _ _ (sm_task (sm_demo IDLE IDLE)) (sm_demo IDLE IDLE)
    (sm_view (sm_demo IDLE IDLE)) sm_bus_wf sm_fresh) as (w' & mb & s' & Hrun & _ & _ & _ & _ & _ & Hg);
    [done|done|done|done|apply sm_room|]. by exists w'.
Defined.

Lemma unresponsive_marked_witness :
  exists w' s', mark_task_as_unresponsive 16 32 (sm_world (sm_demo RUNNING RUNNING)) = Ok (tt, w') /\
    sm_at 16 w' s' /\ pm_find 32 (task_states s') = Some ERROR.
Proof.
  destruct (unresponsive_marked 16 32 (sm_world (sm_demo RUNNING RUNNING)) sm_mail
    (sm_demo RUNNING RUNNING) (aq_new 4) (proj2 (proj2 (sm_view _)))) as (w' & s' & Hrun & _ & _ & Hg & _ & Hf);
    [done|by eexists|apply sm_sorted|done|unfold has_room; cbn; lia|done|].
  exists w', s'. split_and!; [done|done|]. by rewrite Hf.
Defined.

Lemma initialize_starts_all_witness :
  exists w1, StateManager_initialize 16 (mret tt) (sm_world (sm_demo NOT_STARTED IDLE)) =
      (ok ← demand_state_transition 16 IDLE (mret tt);
       if (ok : bool) then mret tt
       else log_as 16 LOG_ERROR "Timeout while waiting for tasks to transition to IDLE during initialization") w1 /\
    exists u u', tasks (sm_world (sm_demo NOT_STARTED IDLE)) !! 32 = Some u /\ tasks w1 !! 32 = Some u' /\ started u u'.
Proof.
  destruct (initialize_starts_all 16 (mret tt) (sm_world (sm_demo NOT_STARTED IDLE)) (sm_task (sm_demo NOT_STARTED IDLE))
    (sm_demo NOT_STARTED IDLE)) as (w1 & Hrun & _ & _ & Hall & _); [done|done|done|apply sm_sorted| | |].
  - by intros Hp%list_elem_of_singleton.
  - intros p ->%list_elem_of_singleton. by exists sm_user.
  - exists w1. split; [done|]. apply Hall. right. apply list_elem_of_here.
Defined.
