(* ===== verification/DemandWait.v ===== *)
(** * DemandWait: the timed wait of a demand against the acknowledgements

    [demand_state_transition] waits on a condition variable with
    [state_mutex] held; [handle_acknowledgment] changes the records and
    notifies without that mutex. Here the two run side by side: the waiting
    thread tests the records, goes to sleep and is woken by a notification,
    by the end of its timeout or spuriously; the state manager's own thread
    records the acknowledgements of its queue and notifies. Every access to
    the records is a step of its own here; the C++ program has a data race on
    them. *)

From S2P Require Import Prelude Msg World TaskBase StateManager.
#[local] Open Scope Z_scope.

(** ** The two threads *)

(** [wait_for(lock, timeout, pred)]: [while (!pred()) if (wait_until(...) ==
    timeout) return pred();], where [wait_until] may also return without a
    reason. Between a test that fails and the sleep the thread holds
    [state_mutex], which the other thread does not ask for. *)
Inductive waiter := Testing | FallingAsleep | Asleep | Finished (success : bool).

(** [notifying]: the other thread is between its last test of the records
    and [notify_one]. *)
Record waiting := mkWaiting {
  records : ptr_map TaskState;
  demanding : waiter;
  acks : list Msg;
  notifying : bool
}.

(** What [notify_one] does to the thread that waits. *)
Definition notify_one (d : waiter) : waiter := match d with Asleep => Testing | _ => d end.

Section wait.
Context (target : TaskState).

(** Whether [handle_acknowledgment] gets as far as [notify_one]. *)
Definition notifies (pairs : ptr_map TaskState) (m : Msg) : bool :=
  bool_decide (is_Some (ack_effect m pairs)) && all_in_state target (apply_ack pairs m).

(** A step of one of the threads, the end of the timeout, or a spurious
    wake-up. *)
Inductive cause := ByThread | ByTimeout | Spurious.

Inductive wait_step : cause -> waiting -> waiting -> Prop :=
  | w_test_true r a n : all_in_state target r = true ->
      wait_step ByThread (mkWaiting r Testing a n) (mkWaiting r (Finished true) a n)
  | w_test_false r a n : all_in_state target r = false ->
      wait_step ByThread (mkWaiting r Testing a n) (mkWaiting r FallingAsleep a n)
  | w_sleep r a n : wait_step ByThread (mkWaiting r FallingAsleep a n) (mkWaiting r Asleep a n)
  | w_timeout r a n :
      wait_step ByTimeout (mkWaiting r Asleep a n) (mkWaiting r (Finished (all_in_state target r)) a n)
  | w_spurious r a n : wait_step Spurious (mkWaiting r Asleep a n) (mkWaiting r Testing a n)
  | w_record r d m a :
      wait_step ByThread (mkWaiting r d (m :: a) false) (mkWaiting (apply_ack r m) d a (notifies r m))
  | w_notify r d a : wait_step ByThread (mkWaiting r d a true) (mkWaiting r (notify_one d) a false).

(** Any number of steps. *)
Definition wait_steps : waiting -> waiting -> Prop := rtc (fun W W' => exists k, wait_step k W W').

(** No thread is going to wake the sleeper: the records are complete, nobody is
    going to notify, and no acknowledgement is left. *)
Definition overslept (W : waiting) : Prop :=
  all_in_state target (records W) = true /\ demanding W = Asleep /\ acks W = [] /\ notifying W = false.

Lemma overslept_waits W k W' :
  overslept W -> wait_step k W W' ->
  (k = ByTimeout /\ demanding W' = Finished true) \/ (k = Spurious /\ demanding W' = Testing).
Proof.
  intros (Hall & Hd & Ha & Hn) Hstep. destruct Hstep; cbn [records demanding acks notifying] in *; try done; subst.
  - left. by rewrite Hall.
  - by right.
Qed.

(** ** The invariant *)

(** A wait that has ended with false was right when it ended: some record
    differed, or an acknowledgement was still to be handled. The records are
    those of the acknowledgements taken so far. *)
Record wait_inv (r0 : ptr_map TaskState) (ms : list Msg) (W : waiting) : Prop := {
  wi_split : exists handled, ms = handled ++ acks W /\ records W = foldl apply_ack r0 handled;
  wi_false : demanding W = Finished false -> exists handled later, ms = handled ++ later /\
    all_in_state target (foldl apply_ack r0 handled) = false;
  wi_true : demanding W = Finished true -> exists handled later, ms = handled ++ later /\
    all_in_state target (foldl apply_ack r0 handled) = true
}.

Lemma wait_inv_step r0 ms k W W' : wait_inv r0 ms W -> wait_step k W W' -> wait_inv r0 ms W'.
Proof.
  intros [(h & Hms & Hr) Hf Ht] Hstep. destruct Hstep as [r a n Hall|r a n Hall|r a n|r a n|r a n|r d m a|r d a]; cbn in *; subst r.
  - split; cbn; [by exists h|done|]. intros _. by exists h, a.
  - split; cbn; [by exists h|done|done].
  - split; cbn; [by exists h|done|done].
  - split; cbn; [by exists h| |]; intros [= Hb]; by exists h, a.
  - split; cbn; [by exists h|done|done].
  - split; cbn; [|done|done]. exists (h ++ [m]). by rewrite foldl_snoc, <- app_assoc.
  - split; cbn; [by exists h| |]; by destruct d.
Qed.

Lemma wait_inv_start r0 ms : wait_inv r0 ms (mkWaiting r0 Testing ms false).
Proof. split; cbn; [by exists []|done|done]. Qed.
End wait.

(** ** Properties *)

(** The answer of a demand's wait is that of the records at one moment of
    it: true only if after some prefix of the acknowledgements all tasks were
    on record in the demanded state, false only if after some prefix they were
    not, whatever the threads' steps, the timeout and spurious wake-ups do. *)
Theorem wait_answer_sound target r0 ms W b :
  wait_steps target (mkWaiting r0 Testing ms false) W -> demanding W = Finished b ->
  exists handled later, ms = handled ++ later /\ all_in_state target (foldl apply_ack r0 handled) = b.
Proof.
  intros Hsteps Hd. assert (Hinv : wait_inv target r0 ms W).
  { pose proof (wait_inv_start target r0 ms) as Hi. induction Hsteps as [|W1 W2 W3 [k Hk] _ IH]; [done|].
    eauto using wait_inv_step. }
  destruct b; [by apply (wi_true _ _ _ _ Hinv)|by apply (wi_false _ _ _ _ Hinv)].
Qed.

(** C30. A wake-up can be lost: the last acknowledgement is recorded and
    notified after the demanding thread has tested the records and before it
    sleeps. From then on every task is on record in the demanded state and no
    acknowledgement is left, but the demanding thread sleeps, and no thread
    will move it any more: nothing happens until the timeout ends or the
    system wakes it up spuriously. *)
Theorem demand_wakeup_lost target r0 m :
  all_in_state target r0 = false -> is_Some (ack_effect m r0) -> all_in_state target (apply_ack r0 m) = true ->
  exists W, wait_steps target (mkWaiting r0 Testing [m] false) W /\
    records W = apply_ack r0 m /\ all_in_state target (records W) = true /\ demanding W = Asleep /\
    forall k W', wait_step target k W W' -> k = ByTimeout \/ k = Spurious.
Proof.
  intros Hnot Hack Hall. exists (mkWaiting (apply_ack r0 m) Asleep [] false).
  assert (Hn : notifies target r0 m = true) by (unfold notifies; by rewrite bool_decide_true, Hall).
  assert (Ho : overslept target (mkWaiting (apply_ack r0 m) Asleep [] false)) by (by split_and!).
  split_and!; [|done..|].
  - eapply rtc_l; [eexists; by apply w_test_false|]. eapply rtc_l; [eexists; apply w_record|]. rewrite Hn.
    eapply rtc_l; [eexists; apply w_notify|]. apply rtc_once. eexists. apply w_sleep.
  - intros k W' Hstep. destruct (overslept_waits target _ k W' Ho Hstep) as [[-> _] | [-> _]]; [by left|by right].
Qed.

(** ** Witnesses *)

Lemma wait_answer_sound_witness :
  exists handled later, [state_ack 32 IDLE] = handled ++ later /\
    all_in_state IDLE (foldl apply_ack [(32, NOT_STARTED)] handled) = true.
Proof.
  apply (wait_answer_sound IDLE [(32, NOT_STARTED)] [state_ack 32 IDLE] (mkWaiting [(32, IDLE)] (Finished true) [] true));
    [|done].
  eapply rtc_l; [eexists; apply w_record|]. apply rtc_once. eexists. by apply w_test_true.
Defined.

Lemma demand_wakeup_lost_witness :
  exists W, wait_steps IDLE (mkWaiting [(32, NOT_STARTED)] Testing [state_ack 32 IDLE] false) W /\
    records W = [(32, IDLE)] /\ demanding W = Asleep /\ forall k W', wait_step IDLE k W W' -> k = ByTimeout \/ k = Spurious.
Proof.
  destruct (demand_wakeup_lost IDLE [(32, NOT_STARTED)] (state_ack 32 IDLE)) as (W & Hsteps & Hr & _ & Hd & Hk);
    [done|by eexists|done|]. by exists W.
Defined.
