(* ===== verification/HeartBeat.v ===== *)
(** * HeartBeat: monitoring the registered tasks (heart_beat.h, heart_beat.cpp)

    The map of monitored tasks, the periodic sending of heartbeats and check
    for timeouts, and the handling of acknowledgements. The file gives the
    instance of [RegistrationObserver] the state manager calls. *)

From S2P Require Import Prelude Msg Heap QueueSpec Logger World Broker TaskBase StateManager.
#[local] Open Scope Z_scope.

(** ** Members *)

(** The constructor's members; [unresponsive_action] starts as ERROR. *)
Definition HeartBeat_new (sm : addr) (timeout_ms : Z) : HeartBeat := mkHeartBeat [] sm timeout_ms 1 ERROR.

Definition set_monitored (m : ptr_map TaskStatus) (h : HeartBeat) : HeartBeat :=
  mkHeartBeat m (state_manager h) (response_timeout_ms h) (next_heartbeat_id h) (unresponsive_action h).
Definition set_next_id (n : Z) (h : HeartBeat) : HeartBeat :=
  mkHeartBeat (monitored_tasks h) (state_manager h) (response_timeout_ms h) n (unresponsive_action h).
Definition set_action (a : TaskState) (h : HeartBeat) : HeartBeat :=
  mkHeartBeat (monitored_tasks h) (state_manager h) (response_timeout_ms h) (next_heartbeat_id h) a.

(** [monitored_tasks[p] = st], also for an assignment through the reference
    the loops have to the status. *)
Definition assign_status (p : addr) (st : TaskStatus) (h : HeartBeat) : HeartBeat :=
  set_monitored (pm_assign p st (monitored_tasks h)) h.

Definition set_awaiting (b : bool) (st : TaskStatus) : TaskStatus :=
  mkTaskStatus b (last_heartbeat_id st) (last_heartbeat_time st) (last_response_time st).

Section operations.
Context {Q : Type} `{QueueImpl Q}.
Implicit Types (t : Task Q) (w : World Q).

Definition get_hb (this : addr) : M Q HeartBeat :=
  t ← get_task this;
  match derived t with
  | IsHeartBeat h => mret h
  | _ => throw (UB "not a HeartBeatTask")
  end.
Definition modify_hb (this : addr) (f : HeartBeat -> HeartBeat) : M Q unit :=
  h ← get_hb this; modify_task this (set_derived (IsHeartBeat (f h))).

Definition set_unresponsive_action (this : addr) (action : TaskState) : M Q unit :=
  modify_hb this (set_action action).

(** [HeartBeatTask::notify_task_registered]. *)
Definition HeartBeat_notify_task_registered (this task : addr) : M Q unit :=
  if decide (task = this) then mret tt
  else
    h ← get_hb this;
    match pm_find task (monitored_tasks h) with
    | Some _ => mret tt
    | None =>
        c ← now;
        modify_hb this (assign_status task (mkTaskStatus false 0 0 (steady_ns c)))
    end.

#[export] Instance heart_beat_observer : RegistrationObserver Q := {
  notify_task_registered := HeartBeat_notify_task_registered
}.

(** [HeartBeatTask::on_initialize] and [create]. *)
Definition HeartBeat_on_initialize (this : addr) : M Q unit :=
  _ ← safe_subscribe this Type_StateMsg;
  _ ← safe_subscribe this Type_HeartbeatAckMsg;
  h ← get_hb this;
  if decide (state_manager h = nullptr) then mret tt
  else
    self ← shared_from_this this;
    set_task_registration_observer (state_manager h) self.

Definition HeartBeat_create (this : addr) (task_name : string) (q : Q) (sm : addr)
    (heartbeat_interval_ms timeout_ms : Z) : M Q addr :=
  instance ← make_shared this (set_periodic_interval heartbeat_interval_ms
    (Task_new task_name q (IsHeartBeat (HeartBeat_new sm timeout_ms))));
  _ ← HeartBeat_on_initialize instance;
  mret instance.

Definition generate_heartbeat_id (this : addr) : M Q Z :=
  h ← get_hb this;
  _ ← modify_hb this (set_next_id (u32 (next_heartbeat_id h + 1)));
  mret (next_heartbeat_id h).

Definition handle_unresponsive_task (this task : addr) : M Q unit :=
  h ← get_hb this;
  if decide (state_manager h = nullptr) then mret tt
  else mark_task_as_unresponsive (state_manager h) task.

(** [elapsed > response_timeout_ms] for an awaited response. *)
Definition timed_out (current_time timeout_ms : Z) (st : TaskStatus) : bool :=
  awaiting_response st &&
  bool_decide (timeout_ms < duration_cast_ms (current_time - last_heartbeat_time st)).

Fixpoint check_loop (this : addr) (current_time : Z) (pairs : ptr_map TaskStatus) : M Q unit :=
  match pairs with
  | [] => mret tt
  | (task, status) :: pairs' =>
      h ← get_hb this;
      _ ← (if timed_out current_time (response_timeout_ms h) status then
             nm ← get_name task;
             _ ← log_as this WARN
                   ("Task " +:+ nm +:+ " failed to respond to Heartbeat ID: " +:+
                    to_string (last_heartbeat_id status) +:+ " Taking action: " +:+
                    task_state_to_string (unresponsive_action h));
             _ ← handle_unresponsive_task this task;
             modify_hb this (assign_status task (set_awaiting false status))
           else mret tt);
      check_loop this current_time pairs'
  end.

Definition check_for_timeouts (this : addr) : M Q unit :=
  c ← now;
  h ← get_hb this;
  check_loop this (steady_ns c) (monitored_tasks h).

Fixpoint send_loop (this : addr) (pairs : ptr_map TaskStatus) : M Q unit :=
  match pairs with
  | [] => mret tt
  | (task, status) :: pairs' =>
      _ ← (if awaiting_response status then mret tt
           else
             c ← now;
             heartbeat_id ← generate_heartbeat_id this;
             heartbeat_msg ← lift (Msg_new this (VHeartbeatMsg
               (mkHeartbeatMsg heartbeat_id (u64 (duration_cast_ms (steady_ns c))))));
             _ ← modify_hb this (assign_status task
                   (mkTaskStatus true heartbeat_id (steady_ns c) (last_response_time status)));
             deliver_message task heartbeat_msg);
      send_loop this pairs'
  end.

Definition send_heartbeat (this : addr) : M Q unit :=
  h ← get_hb this; send_loop this (monitored_tasks h).

Fixpoint ack_loop (this : addr) (sender_raw : addr) (ack : option HeartbeatAckMsg)
    (pairs : ptr_map TaskStatus) : M Q unit :=
  match pairs with
  | [] => mret tt
  | (task, status) :: pairs' =>
      if decide (task = sender_raw) then
        match ack with
        | None => throw (UB "null HeartbeatAckMsg")
        | Some ack =>
            if decide (last_heartbeat_id status = orig_unique_id ack) then
              c ← now;
              _ ← modify_hb this (assign_status task
                    (mkTaskStatus false (last_heartbeat_id status) (last_heartbeat_time status) (steady_ns c)));
              nm ← get_name task;
              log_as this INFO
                ("Received Heartbeat ACK from " +:+ nm +:+ " for Heartbeat ID: " +:+
                 to_string (orig_unique_id ack) +:+ " at time: " +:+ to_string (ack_timestamp ack))
            else mret tt
        end
      else ack_loop this sender_raw ack pairs'
  end.

(** [HeartBeatTask::handle_acknowledgment]. *)
Definition HeartBeat_handle_acknowledgment (this : addr) (m : Msg) : M Q unit :=
  h ← get_hb this;
  ack_loop this (get_sender m) (get_data_as AHeartbeatAckMsg m) (monitored_tasks h).

Definition HeartBeat_process_message (this : addr) (m : Msg) : M Q unit :=
  if decide (get_type m = Type_StateMsg) then
    match get_data_as AStateMsg m with
    | Some stateMsg => Task_transition_to_state this (state_of_byte (sm_state stateMsg))
    | None => throw (UB "null StateMsg")
    end
  else if decide (get_type m = Type_HeartbeatAckMsg) then HeartBeat_handle_acknowledgment this m
  else log_as this LOG_ERROR ("Unhandled message type: " +:+ msg_type_to_string (get_type m)).

Definition HeartBeat_periodic_task_process (this : addr) : M Q unit :=
  _ ← check_for_timeouts this;
  cs ← get_current_state this;
  if decide (cs = RUNNING) then send_heartbeat this else mret tt.
End operations.

(** ** Lemmas *)

Section lemmas.
Context {Q : Type} `{QueueImpl Q}.
Implicit Types (t : Task Q) (w : World Q) (h : HeartBeat) (st : TaskStatus).

Lemma get_hb_run this t h w :
  tasks w !! this = Some t -> derived t = IsHeartBeat h -> get_hb this w = Ok (h, w).
Proof. intros Ht Hd. unfold get_hb. by rewrite (M_bind_Ok _ _ _ _ _ (get_task_run this t w Ht)), Hd. Qed.

Definition with_hb h t : Task Q := set_derived (IsHeartBeat h) t.

Lemma modify_hb_run this f t h w :
  tasks w !! this = Some t -> derived t = IsHeartBeat h ->
  modify_hb this f w = Ok (tt, with_task this (with_hb (f h) t) w).
Proof.
  intros Ht Hd. unfold modify_hb. rewrite (M_bind_Ok _ _ _ _ _ (get_hb_run this t h w Ht Hd)).
  by apply modify_task_with.
Qed.

(** What one round of the loops may change: the members of the heartbeat task
    and of the state manager, and the queues. *)
Definition hb_at (this : addr) w h : Prop := exists t, tasks w !! this = Some t /\ derived t = IsHeartBeat h.

Lemma hb_at_run this w h : hb_at this w h -> get_hb this w = Ok (h, w).
Proof. intros (t & Ht & Hd). by eapply get_hb_run. Qed.

Lemma hb_at_modify this w h mb f :
  mailboxes w mb -> hb_at this w h ->
  exists w', modify_hb this f w = Ok (tt, w') /\ mailboxes w' mb /\ hb_at this w' (f h) /\
    broker w' = broker w /\ clock w' = clock w /\ ticks w' = ticks w /\
    (forall p, p <> this -> tasks w' !! p = tasks w !! p).
Proof.
  intros Hm (t & Ht & Hd). exists (with_task this (with_hb (f h) t) w). split_and!; try done.
  - by apply modify_hb_run.
  - by apply (mailboxes_fields w mb this t).
  - eexists. split; [apply with_task_lookup|done].
  - intros p Hp. unfold with_task. cbn. by rewrite lookup_insert_ne.
Qed.

Lemma hb_at_deliver this w h mb p m a :
  mailboxes w mb -> hb_at this w h -> msg_wf m -> known_sender mb m -> mb !! p = Some a -> has_room a ->
  aq_ticks a < 2 ^ 32 - 1 ->
  exists w', deliver_message p m w = Ok (tt, w') /\ mailboxes w' (<[p := received m a]> mb) /\
    hb_at this w' h /\ only_mail w w' /\ broker w' = broker w /\ clock w' = clock w.
Proof.
  intros Hm (t & Ht & Hd) Hwf Hs Ha Hroom Hticks.
  pose proof (deliver_message_view p m w mb Hm Hwf) as Hdel. rewrite (bus_deliver_room _ _ _ _ Hs Ha Hroom) in Hdel.
  destruct Hdel as (q & u & Hu & _ & Hrun & Hm'); [intros a' Ha'; congruence|].
  assert (Hom : only_mail w (delivered p q u m w)) by (by apply (only_mail_update (logged _ _ _ w))).
  exists (delivered p q u m w). split_and!; try done.
  destruct (only_mail_name _ _ this t Hom Ht) as (t' & Ht' & _ & _ & _ & _ & _ & _ & Hd').
  exists t'. by rewrite Hd'.
Qed.

(** ** Sending *)

(** The heartbeat with the given id, sent when the clock shows [time_ns]. *)
Definition heartbeat (this : addr) (id time_ns : Z) : Msg :=
  pack this (VHeartbeatMsg (mkHeartbeatMsg id (u64 (duration_cast_ms time_ns)))).

Lemma heartbeat_wf this id time_ns : 0 <= this < 2 ^ 64 -> 0 <= id < 2 ^ 32 -> msg_wf (heartbeat this id time_ns).
Proof. intros. apply pack_wf; [done|]. cbn. split; [done|]. apply u64_range. Qed.

Lemma u32_add_succ n k : u32 (u32 (n + 1) + Z.of_nat k) = u32 (n + Z.of_nat (S k)).
Proof. unfold u32. rewrite Z.add_mod_idemp_l by done. f_equal. lia. Qed.

(** Who is sent which id by a round that starts at the id [n]. *)
Fixpoint send_ids (n : Z) (pairs : ptr_map TaskStatus) : list (addr * Z) :=
  match pairs with
  | [] => []
  | (p, st) :: pairs' =>
      if awaiting_response st then send_ids n pairs' else (p, n) :: send_ids (u32 (n + 1)) pairs'
  end.

Lemma send_ids_from n pairs p id : (p, id) ∈ send_ids n pairs -> exists st, (p, st) ∈ pairs /\ awaiting_response st = false.
Proof.
  revert n. induction pairs as [|[q st] pairs IH]; intros n Hin; cbn in Hin; [by apply elem_of_nil in Hin|].
  destruct (awaiting_response st) eqn:Ha.
  - destruct (IH n Hin) as (st' & ? & ?). exists st'. split; [by right|done].
  - apply elem_of_cons in Hin as [[= -> ->]|Hin]; [exists st; split; [left|done]|].
    destruct (IH _ Hin) as (st' & ? & ?). exists st'. split; [by right|done].
Qed.

(** One heartbeat. *)
Lemma send_one_run this p st w h mb a :
  mailboxes w mb -> hb_at this w h -> 0 < this < 2 ^ 64 -> p <> this -> 0 <= next_heartbeat_id h < 2 ^ 32 ->
  mb !! p = Some a -> has_room a -> aq_ticks a < 2 ^ 32 - 1 -> awaiting_response st = false ->
  exists w' time_ns,
    (if awaiting_response st then mret tt
     else
       c ← now;
       heartbeat_id ← generate_heartbeat_id this;
       heartbeat_msg ← lift (Msg_new this (VHeartbeatMsg
         (mkHeartbeatMsg heartbeat_id (u64 (duration_cast_ms (steady_ns c))))));
       _ ← modify_hb this (assign_status p
             (mkTaskStatus true heartbeat_id (steady_ns c) (last_response_time st)));
       deliver_message p heartbeat_msg) w = Ok (tt, w') /\
    mailboxes w' (<[p := received (heartbeat this (next_heartbeat_id h) time_ns) a]> mb) /\
    hb_at this w' (assign_status p (mkTaskStatus true (next_heartbeat_id h) time_ns (last_response_time st))
                     (set_next_id (u32 (next_heartbeat_id h + 1)) h)) /\
    mail_except [this] w w' /\ broker w' = broker w.
Proof.
  intros Hm Hh Hthis Hp Hid Ha Hroom Hticks Haw. rewrite Haw.
  set (c := clock w (ticks w)). set (tm := steady_ns c). set (id := next_heartbeat_id h) in *.
  rewrite (M_bind_Ok _ _ w c (tick w) eq_refl).
  assert (Hm0 : mailboxes (tick w) mb) by done. assert (Hh0 : hb_at this (tick w) h) by done.
  destruct (hb_at_modify this (tick w) h mb (set_next_id (u32 (id + 1))) Hm0 Hh0)
    as (w1 & Hrun1 & Hm1 & Hh1 & Hb1 & _ & _ & Ho1).
  assert (Hgen : generate_heartbeat_id this (tick w) = Ok (id, w1)).
  { unfold generate_heartbeat_id. rewrite (M_bind_Ok _ _ _ _ _ (hb_at_run _ _ _ Hh0)).
    by rewrite (M_bind_Ok _ _ _ _ _ Hrun1). }
  rewrite (M_bind_Ok _ _ _ _ _ Hgen), (M_bind_Ok _ _ _ _ _ (lift_Msg_new _ _ _)). fold (heartbeat this id tm).
  destruct (hb_at_modify this w1 _ mb (assign_status p (mkTaskStatus true id tm (last_response_time st))) Hm1 Hh1)
    as (w2 & Hrun2 & Hm2 & Hh2 & Hb2 & _ & _ & Ho2).
  rewrite (M_bind_Ok _ _ _ _ _ Hrun2).
  assert (Hs : known_sender mb (heartbeat this id tm)).
  { right. cbn. apply (mailboxes_live w2); [done|]. destruct Hh2 as (t & ? & _). by exists t. }
  destruct (hb_at_deliver this w2 _ mb p (heartbeat this id tm) a Hm2 Hh2) as (w' & Hrun & Hm' & Hh' & Hom & Hb' & _);
    [apply heartbeat_wf; lia|done..|].
  exists w', tm. split_and!; try done.
  - apply (mail_except_trans _ _ w2); [|by apply mail_except_mail]. apply mail_except_refl.
    intros q Hq. rewrite Ho2, Ho1; [done|..]; intros ->; apply Hq, list_elem_of_here.
  - by rewrite Hb', Hb2, Hb1.
Qed.

(** A round: every monitored task that owes no answer gets one heartbeat. *)
Lemma send_loop_run this pairs w h mb :
  mailboxes w mb -> hb_at this w h -> 0 < this < 2 ^ 64 -> pm_sorted (monitored_tasks h) ->
  NoDup pairs.*1 -> (this ∉ pairs.*1) -> 0 <= next_heartbeat_id h < 2 ^ 32 ->
  (forall p st, (p, st) ∈ pairs -> awaiting_response st = false ->
     exists a, mb !! p = Some a /\ has_room a /\ aq_ticks a < 2 ^ 32 - 1) ->
  exists w' h' mb', send_loop this pairs w = Ok (tt, w') /\ mailboxes w' mb' /\ hb_at this w' h' /\
    mail_except [this] w w' /\ broker w' = broker w /\ pm_sorted (monitored_tasks h') /\
    h' = set_next_id (u32 (next_heartbeat_id h + Z.of_nat (length (send_ids (next_heartbeat_id h) pairs))))
           (set_monitored (monitored_tasks h') h) /\
    (forall p, (p ∉ (send_ids (next_heartbeat_id h) pairs).*1) ->
       mb' !! p = mb !! p /\ pm_find p (monitored_tasks h') = pm_find p (monitored_tasks h)) /\
    (forall p id, (p, id) ∈ send_ids (next_heartbeat_id h) pairs ->
       exists a st time_ns, mb !! p = Some a /\ (p, st) ∈ pairs /\ awaiting_response st = false /\
         mb' !! p = Some (received (heartbeat this id time_ns) a) /\
         pm_find p (monitored_tasks h') = Some (mkTaskStatus true id time_ns (last_response_time st))).
Proof.
  revert w h mb. induction pairs as [|[p st] pairs IH]; intros w h mb Hm Hh Hthis Hs Hnd Hself Hid Hroom.
  { exists w, h, mb. split_and!; try done; [by apply mail_except_refl| |].
    - cbn. rewrite Z.add_0_r, u32_small by done. by destruct h.
    - intros p id Hp. by apply elem_of_nil in Hp. }
  apply NoDup_cons in Hnd as [Hp Hnd]. apply not_elem_of_cons in Hself as [Hpt Hself].
  assert (Hroom' : forall p st, (p, st) ∈ pairs -> awaiting_response st = false ->
            exists a, mb !! p = Some a /\ has_room a /\ aq_ticks a < 2 ^ 32 - 1)
    by (intros q st' Hq; apply Hroom; by right).
  cbn [send_loop send_ids]. destruct (awaiting_response st) eqn:Haw.
  - rewrite (M_bind_Ok _ _ w tt w eq_refl).
    destruct (IH w h mb Hm Hh Hthis Hs Hnd Hself Hid Hroom') as (w' & h' & mb' & ? & ? & ? & ? & ? & ? & ? & Hout & Hin).
    exists w', h', mb'. split_and!; try done. intros q id Hq.
    destruct (Hin q id Hq) as (a & st' & tm & ? & ? & ? & ? & ?). exists a, st', tm. split_and!; try done. by right.
  - destruct (Hroom p st) as (a & Ha & Hra & Hta); [by left|done|].
    destruct (send_one_run this p st w h mb a) as (w1 & tm & Hrun1 & Hm1 & Hh1 & He1 & Hb1); try done.
    rewrite Haw in Hrun1. rewrite (M_bind_Ok _ _ _ _ _ Hrun1).
    set (h1 := assign_status p _ (set_next_id _ h)) in *. set (mb1 := <[p := _]> mb) in *.
    assert (Hs1 : pm_sorted (monitored_tasks h1)) by (by apply pm_assign_sorted).
    assert (Hroom1 : forall q st, (q, st) ∈ pairs -> awaiting_response st = false ->
              exists a, mb1 !! q = Some a /\ has_room a /\ aq_ticks a < 2 ^ 32 - 1).
    { intros q st' Hq Hst'. unfold mb1. rewrite lookup_insert_ne; [by apply (Hroom' q st')|].
      intros ->. apply Hp, list_elem_of_fmap. by exists (q, st'). }
    destruct (IH w1 h1 mb1 Hm1 Hh1 Hthis Hs1 Hnd Hself (u32_range _) Hroom1)
      as (w' & h' & mb' & Hrun & Hm' & Hh' & He' & Hb' & Hs' & Heq & Hout & Hin).
    change (next_heartbeat_id h1) with (u32 (next_heartbeat_id h + 1)) in Heq, Hout, Hin.
    assert (Hfind1 : forall q, pm_find q (monitored_tasks h1) =
      if decide (p = q) then Some (mkTaskStatus true (next_heartbeat_id h) tm (last_response_time st))
      else pm_find q (monitored_tasks h)) by (intros q; by apply pm_assign_find).
    assert (Hpout : p ∉ (send_ids (u32 (next_heartbeat_id h + 1)) pairs).*1).
    { intros Hin'. apply list_elem_of_fmap in Hin' as ([p' id'] & -> & Hin').
      apply send_ids_from in Hin' as (st' & Hin' & _). apply Hp, list_elem_of_fmap. by exists (p', st'). }
    exists w', h', mb'. split_and!; [done|done|done|by eapply mail_except_trans|by rewrite Hb'|done| | |].
    + rewrite Heq at 1. cbn [length]. rewrite u32_add_succ. done.
    + intros q [Hq Hq']%not_elem_of_cons. cbn in Hq. destruct (Hout q Hq') as [-> ->].
      rewrite Hfind1, decide_False by (by apply not_eq_sym). unfold mb1. by rewrite lookup_insert_ne by (by apply not_eq_sym).
    + intros q id [[= -> ->]|Hq]%elem_of_cons.
      * destruct (Hout p Hpout) as [-> ->]. exists a, st, tm. unfold mb1. rewrite lookup_insert_eq.
        rewrite Hfind1, decide_True by done. split_and!; try done. by left.
      * destruct (Hin q id Hq) as (b & st' & tm' & Hb2 & ? & ? & ? & ?). exists b, st', tm'.
        assert (q <> p) by (intros ->; apply Hpout, list_elem_of_fmap; by exists (p, id)).
        unfold mb1 in Hb2. rewrite lookup_insert_ne in Hb2 by (by apply not_eq_sym). split_and!; try done. by right.
Qed.

(** ** Checking *)

Lemma hb_at_mail this w w' h l : mail_except l w w' -> (this ∉ l) -> hb_at this w h -> hb_at this w' h.
Proof.
  intros Hm Hl (t & Ht & Hd). destruct (mail_except_lookup l w w' this t Hm Hl Ht) as [q Hq].
  eexists. by split.
Qed.

Lemma hb_sm_differ this sm w h s : hb_at this w h -> sm_at sm w s -> this <> sm.
Proof. intros (t & Ht & Hd) (u & Hu & Hs) ->. congruence. Qed.

(** A task that has not answered in time. *)
Lemma check_one_run this p st w h mb s a :
  mailboxes w mb -> hb_at this w h -> sm_at (state_manager h) w s -> 0 < state_manager h < 2 ^ 64 ->
  mb !! p = Some a -> has_room a -> aq_ticks a < 2 ^ 32 - 1 ->
  exists w',
    (nm ← get_name p;
     _ ← log_as this WARN
           ("Task " +:+ nm +:+ " failed to respond to Heartbeat ID: " +:+
            to_string (last_heartbeat_id st) +:+ " Taking action: " +:+
            task_state_to_string (unresponsive_action h));
     _ ← handle_unresponsive_task this p;
     modify_hb this (assign_status p (set_awaiting false st))) w = Ok (tt, w') /\
    mailboxes w' (<[p := received (state_request (state_manager h) ERROR) a]> mb) /\
    hb_at this w' (assign_status p (set_awaiting false st) h) /\
    sm_at (state_manager h) w' (set_task_states (pm_assign p ERROR (task_states s)) s) /\
    mail_except [this; state_manager h] w w' /\ broker w' = broker w.
Proof.
  intros Hm Hh Hsm Hrange Ha Hroom Hticks. set (sm := state_manager h) in *.
  pose proof (hb_sm_differ this sm w h s Hh Hsm) as Hne.
  destruct (mailboxes_task w mb p a Hm Ha) as (u & Hu & _). destruct Hh as (t & Ht & Hd).
  rewrite (M_bind_Ok _ _ _ _ _ (get_name_run p u w Hu)), (M_bind_Ok _ _ _ _ _ (log_as_run this t _ _ w Ht)).
  set (w1 := logged _ _ _ w).
  destruct (mark_unresponsive_run sm p w1 mb s a Hm Hrange Hsm Ha Hroom Hticks) as (w2 & Hrun2 & Hm2 & Hb2 & Hsm2 & He2).
  assert (Hh2 : hb_at this w2 h).
  { apply (hb_at_mail this w1 w2 h [sm]); [done| |by exists t]. by intros ->%list_elem_of_singleton. }
  assert (Hun : handle_unresponsive_task this p w1 = Ok (tt, w2)).
  { unfold handle_unresponsive_task. rewrite (M_bind_Ok _ _ w1 h w1) by (by apply hb_at_run; exists t).
    rewrite decide_False; [done|]. unfold nullptr. fold sm. lia. }
  rewrite (M_bind_Ok _ _ _ _ _ Hun).
  destruct (hb_at_modify this w2 h _ (assign_status p (set_awaiting false st)) Hm2 Hh2)
    as (w' & Hrun & Hm' & Hh' & Hb' & _ & _ & Ho).
  assert (Hex : mail_except [this] w2 w')
    by (apply mail_except_refl; intros q Hq; apply Ho; intros ->; apply Hq, list_elem_of_here).
  exists w'. split_and!; try done.
  - apply (sm_at_mail sm w2 w' _ [this]); [done| |done]. by intros Hx%list_elem_of_singleton.
  - apply (mail_except_trans _ _ w2); intros q [Hq1 Hq2]%not_elem_of_cons.
    + by apply He2.
    + apply Hex. by intros Hx%list_elem_of_singleton.
  - by rewrite Hb', Hb2.
Qed.

(** A check: every monitored task that has not answered in time is marked. *)
Lemma check_loop_run this time_ns pairs w h mb s :
  mailboxes w mb -> hb_at this w h -> sm_at (state_manager h) w s -> 0 < state_manager h < 2 ^ 64 ->
  pm_sorted (monitored_tasks h) -> pm_sorted (task_states s) -> NoDup pairs.*1 ->
  (forall p st, (p, st) ∈ pairs -> timed_out time_ns (response_timeout_ms h) st = true ->
     exists a, mb !! p = Some a /\ has_room a /\ aq_ticks a < 2 ^ 32 - 1) ->
  exists w' h' s' mb', check_loop this time_ns pairs w = Ok (tt, w') /\ mailboxes w' mb' /\ hb_at this w' h' /\
    sm_at (state_manager h) w' s' /\ mail_except [this; state_manager h] w w' /\ broker w' = broker w /\
    pm_sorted (monitored_tasks h') /\ pm_sorted (task_states s') /\
    h' = set_monitored (monitored_tasks h') h /\
    (forall p, (forall st, (p, st) ∈ pairs -> timed_out time_ns (response_timeout_ms h) st = false) ->
       mb' !! p = mb !! p /\ pm_find p (monitored_tasks h') = pm_find p (monitored_tasks h) /\
       pm_find p (task_states s') = pm_find p (task_states s)) /\
    (forall p st, (p, st) ∈ pairs -> timed_out time_ns (response_timeout_ms h) st = true ->
       mb' !! p = received (state_request (state_manager h) ERROR) <$> mb !! p /\
       pm_find p (monitored_tasks h') = Some (set_awaiting false st) /\ pm_find p (task_states s') = Some ERROR).
Proof.
  revert w h mb s. induction pairs as [|[p st] pairs IH]; intros w h mb s Hm Hh Hsm Hrange Hs1 Hs2 Hnd Hroom.
  { exists w, h, s, mb. split_and!; try done; [by apply mail_except_refl|by destruct h|]. intros p st Hp. by apply elem_of_nil in Hp. }
  apply NoDup_cons in Hnd as [Hp Hnd]. cbn [check_loop]. rewrite (M_bind_Ok _ _ _ _ _ (hb_at_run _ _ _ Hh)).
  assert (Hkey : forall st', (p, st') ∈ pairs -> False)
    by (intros st' Hin; apply Hp, list_elem_of_fmap; by exists (p, st')).
  destruct (timed_out time_ns (response_timeout_ms h) st) eqn:Hto.
  - destruct (Hroom p st) as (a & Ha & Hra & Hta); [by left|done|].
    destruct (check_one_run this p st w h mb s a Hm Hh Hsm Hrange Ha Hra Hta) as (w1 & Hrun1 & Hm1 & Hh1 & Hsm1 & He1 & Hb1).
    rewrite (M_bind_Ok _ _ _ _ _ Hrun1). set (h1 := assign_status p _ h) in *. set (s1 := set_task_states _ s) in *.
    set (mb1 := <[p := _]> mb) in *.
    assert (Hroom1 : forall q st', (q, st') ∈ pairs -> timed_out time_ns (response_timeout_ms h1) st' = true ->
              exists a, mb1 !! q = Some a /\ has_room a /\ aq_ticks a < 2 ^ 32 - 1).
    { intros q st' Hq Hst'. unfold mb1. rewrite lookup_insert_ne; [by apply (Hroom q st'); [right|]|].
      intros <-. by apply (Hkey st'). }
    destruct (IH w1 h1 mb1 s1 Hm1 Hh1 Hsm1 Hrange) as (w' & h' & s' & mb' & Hrun & Hm' & Hh' & Hsm' & He' & Hb' & Hs1' & Hs2' & Heq & Hout & Hin);
      [by apply pm_assign_sorted|by apply pm_assign_sorted|done|done|].
    assert (Hfindh : forall q, pm_find q (monitored_tasks h1) =
              if decide (p = q) then Some (set_awaiting false st) else pm_find q (monitored_tasks h))
      by (intros q; by apply pm_assign_find).
    assert (Hfinds : forall q, pm_find q (task_states s1) = if decide (p = q) then Some ERROR else pm_find q (task_states s))
      by (intros q; by apply pm_assign_find).
    exists w', h', s', mb'. split_and!; [done|done|done|done|by eapply mail_except_trans|by rewrite Hb'|done|done|by rewrite Heq at 1| |].
    + intros q Hq. destruct (Hout q) as (-> & -> & ->); [intros st' Hst'; apply (Hq st'); by right|].
      assert (p <> q) by (intros <-; specialize (Hq st ltac:(by left)); congruence).
      rewrite Hfindh, Hfinds, !decide_False by done. unfold mb1. by rewrite lookup_insert_ne.
    + intros q st' [[= -> ->]|Hq]%elem_of_cons Hst'.
      * destruct (Hout p) as (-> & -> & ->); [intros st' Hst''; by destruct (Hkey st')|].
        rewrite Hfindh, Hfinds, !decide_True by done. unfold mb1. by rewrite lookup_insert_eq, Ha.
      * destruct (Hin q st' Hq Hst') as (-> & -> & ->). unfold mb1.
        rewrite lookup_insert_ne; [done|]. intros <-. by apply (Hkey st').
  - rewrite (M_bind_Ok _ _ w tt w eq_refl).
    destruct (IH w h mb s Hm Hh Hsm Hrange Hs1 Hs2 Hnd)
      as (w' & h' & s' & mb' & Hrun & Hm' & Hh' & Hsm' & He' & Hb' & Hs1' & Hs2' & Heq & Hout & Hin).
    { intros q st' Hq. apply Hroom. by right. }
    exists w', h', s', mb'. split_and!; try done.
    + intros q Hq. apply Hout. intros st' Hst'. apply Hq. by right.
    + intros q st' [[= -> ->]|Hq]%elem_of_cons Hst'; [congruence|by apply Hin].
Qed.

(** ** Acknowledgements *)

Definition acknowledged (time_ns : Z) st : TaskStatus :=
  mkTaskStatus false (last_heartbeat_id st) (last_heartbeat_time st) time_ns.

Lemma ack_loop_run this sender ack pairs w h mb :
  mailboxes w mb -> hb_at this w h -> pm_sorted pairs -> (forall p, p ∈ pairs.*1 -> is_Some (mb !! p)) ->
  exists w' h', ack_loop this sender (Some ack) pairs w = Ok (tt, w') /\ mailboxes w' mb /\ hb_at this w' h' /\
    mail_except [this] w w' /\ broker w' = broker w /\
    h' = match pm_find sender pairs with
         | Some st => if decide (last_heartbeat_id st = orig_unique_id ack)
                      then assign_status sender (acknowledged (steady_ns (clock w (ticks w))) st) h else h
         | None => h
         end.
Proof.
  intros Hm Hh Hs Hlive. induction pairs as [|[p st] pairs IH]; cbn [ack_loop pm_find].
  { exists w, h. split_and!; try done. by apply mail_except_refl. }
  destruct (decide (p = sender)) as [->|Hne].
  - destruct (decide (last_heartbeat_id st = orig_unique_id ack)) as [Hid|Hid].
    + set (c := clock w (ticks w)). rewrite (M_bind_Ok _ _ w c (tick w) eq_refl).
      fold (acknowledged (steady_ns c) st).
      destruct (hb_at_modify this (tick w) h mb (assign_status sender (acknowledged (steady_ns c) st)) Hm Hh)
        as (w1 & Hrun1 & Hm1 & Hh1 & Hb1 & _ & _ & Ho1).
      rewrite (M_bind_Ok _ _ _ _ _ Hrun1).
      destruct (Hlive sender) as [a Ha]; [apply list_elem_of_here|].
      destruct (mailboxes_task w1 mb sender a Hm1 Ha) as (u & Hu & _). destruct Hh1 as (t1 & Ht1 & Hd1).
      rewrite (M_bind_Ok _ _ _ _ _ (get_name_run sender u w1 Hu)), (log_as_run this t1 _ _ w1 Ht1).
      eexists _, _. split; [done|]. split_and!; [done|by exists t1| |done|done].
      apply mail_except_refl. intros q Hq. cbn. apply Ho1. intros ->. apply Hq, list_elem_of_here.
    + exists w, h. split_and!; try done. by apply mail_except_refl.
  - apply IH; [by apply StronglySorted_inv in Hs as [? _]|]. intros q Hq. by apply Hlive, list_elem_of_further.
Qed.
End lemmas.

(** ** The invariant *)

(** The map is in order, the task does not monitor itself, and the counter is
    a 32-bit value. *)
Record hb_wf (this : addr) (h : HeartBeat) : Prop := {
  hb_wf_sorted : pm_sorted (monitored_tasks h);
  hb_wf_self : this ∉ (monitored_tasks h).*1;
  hb_wf_id : 0 <= next_heartbeat_id h < 2 ^ 32
}.

Lemma hb_wf_new this sm timeout_ms : hb_wf this (HeartBeat_new sm timeout_ms).
Proof. split; cbn; [constructor|apply not_elem_of_nil|lia]. Qed.

Lemma pm_find_is_Some {V} p (m : list (addr * V)) : is_Some (pm_find p m) <-> p ∈ m.*1.
Proof.
  rewrite <- not_eq_None_Some, pm_find_None. split; [|tauto].
  intros Hn. destruct (decide (p ∈ m.*1)); tauto.
Qed.

(** The ids of [n] successive calls of [generate_heartbeat_id]. *)
Fixpoint generate_ids {Q} `{QueueImpl Q} (n : nat) (this : addr) : M Q (list Z) :=
  match n with
  | O => mret []
  | S n' => i ← generate_heartbeat_id this; rest ← generate_ids n' this; mret (i :: rest)
  end.

Section ids.
Context {Q : Type} `{QueueImpl Q}.
Implicit Types (w : World Q) (h : HeartBeat).

Lemma generate_ids_run n this w h mb :
  mailboxes w mb -> hb_at this w h -> 0 <= next_heartbeat_id h < 2 ^ 32 ->
  exists w', generate_ids n this w = Ok ((fun i => u32 (next_heartbeat_id h + Z.of_nat i)) <$> seq 0 n, w') /\
    hb_at this w' (set_next_id (u32 (next_heartbeat_id h + Z.of_nat n)) h).
Proof.
  revert w h. induction n as [|n IH]; intros w h Hm Hh Hid.
  { exists w. split; [done|]. rewrite Z.add_0_r, u32_small by done. by destruct h. }
  destruct (hb_at_modify this w h mb (set_next_id (u32 (next_heartbeat_id h + 1))) Hm Hh) as (w1 & Hrun1 & Hm1 & Hh1 & _).
  destruct (IH w1 _ Hm1 Hh1 (u32_range _)) as (w' & Hrun & Hh'). exists w'. cbn [generate_ids].
  assert (Hgen : generate_heartbeat_id this w = Ok (next_heartbeat_id h, w1)).
  { unfold generate_heartbeat_id. rewrite (M_bind_Ok _ _ _ _ _ (hb_at_run _ _ _ Hh)). by rewrite (M_bind_Ok _ _ _ _ _ Hrun1). }
  rewrite (M_bind_Ok _ _ _ _ _ Hgen), (M_bind_Ok _ _ _ _ _ Hrun). cbn [next_heartbeat_id set_next_id].
  split.
  - cbn [seq]. rewrite <- fmap_S_seq, fmap_cons, <- list_fmap_compose, Z.add_0_r, (u32_small (next_heartbeat_id h)) by done.
    unfold mret, M_ret. do 3 f_equal. apply list_fmap_ext. intros i x _. cbn. by rewrite u32_add_succ.
  - cbn in Hh'. rewrite u32_add_succ in Hh'. done.
Qed.

Lemma ids_NoDup (c : Z) n :
  NoDup ((fun i => u32 (c + Z.of_nat i)) <$> seq 0 n) <-> Z.of_nat n <= 2 ^ 32.
Proof.
  split.
  - intros Hnd. destruct (decide (Z.of_nat n <= 2 ^ 32)) as [|Hn]; [done|exfalso].
    set (k := Z.to_nat (2 ^ 32)). assert (Hk : Z.of_nat k = 2 ^ 32) by (unfold k; lia).
    assert (Hlt : (k < n)%nat) by lia.
    assert (H0 : ((fun i => u32 (c + Z.of_nat i)) <$> seq 0 n) !! 0%nat = Some (u32 c))
      by (rewrite list_lookup_fmap, lookup_seq_lt by lia; cbn; by rewrite Z.add_0_r).
    assert (H1 : ((fun i => u32 (c + Z.of_nat i)) <$> seq 0 n) !! k = Some (u32 c)).
    { rewrite list_lookup_fmap, lookup_seq_lt by lia. cbn [fmap option_fmap option_map]. f_equal.
      rewrite Nat.add_0_l, Hk. unfold u32. rewrite <- (Z.mul_1_l (2 ^ 32)) at 1. by rewrite Z.mod_add. }
    pose proof (NoDup_lookup _ _ _ _ Hnd H0 H1). lia.
  - intros Hn. apply NoDup_fmap_2_strong; [|apply NoDup_seq].
    intros i j Hi%elem_of_seq Hj%elem_of_seq. unfold u32. intros Heq.
    assert (Hd : (Z.of_nat i - Z.of_nat j) mod 2 ^ 32 = 0).
    { replace (Z.of_nat i - Z.of_nat j) with ((c + Z.of_nat i) - (c + Z.of_nat j)) by lia.
      rewrite Zminus_mod, Heq, Z.sub_diag. done. }
    apply Z.mod_divide in Hd as [q Hq]; [|lia]. nia.
Qed.

Lemma send_ids_keys n pairs p :
  p ∈ (send_ids n pairs).*1 <-> exists st, (p, st) ∈ pairs /\ awaiting_response st = false.
Proof.
  split.
  - intros Hp. apply list_elem_of_fmap in Hp as ([q id] & -> & Hp). by eapply send_ids_from.
  - intros (st & Hst & Ha). revert n. induction pairs as [|[q st'] pairs IH]; intros n; [by apply elem_of_nil in Hst|].
    cbn [send_ids]. apply elem_of_cons in Hst as [[= <- <-]|Hst].
    + rewrite Ha. apply list_elem_of_here.
    + destruct (awaiting_response st'); [by apply IH|]. apply list_elem_of_further. by apply IH.
Qed.

Lemma send_ids_NoDup n pairs : NoDup pairs.*1 -> NoDup (send_ids n pairs).*1.
Proof.
  revert n. induction pairs as [|[q st] pairs IH]; intros n; cbn [send_ids fmap list_fmap fst]; [constructor|].
  intros [Hq Hnd]%NoDup_cons. destruct (awaiting_response st); [by apply IH|].
  apply NoDup_cons. split; [|by apply IH]. intros Hin. apply send_ids_keys in Hin as (st' & Hin & _).
  apply Hq, list_elem_of_fmap. by exists (q, st').
Qed.

Lemma length_send_ids n pairs : (length (send_ids n pairs) <= length pairs)%nat.
Proof.
  revert n. induction pairs as [|[q st] pairs IH]; intros n; cbn [send_ids length]; [lia|].
  destruct (awaiting_response st); cbn [length]; [specialize (IH n)|specialize (IH (u32 (n + 1)))]; lia.
Qed.

Lemma send_ids_snd n pairs :
  0 <= n < 2 ^ 32 ->
  (send_ids n pairs).*2 = (fun i => u32 (n + Z.of_nat i)) <$> seq 0 (length (send_ids n pairs)).
Proof.
  revert n. induction pairs as [|[p st] pairs IH]; intros n Hn; cbn [send_ids]; [done|].
  destruct (awaiting_response st); [by apply IH|]. cbn [length seq fmap list_fmap snd].
  rewrite IH by apply u32_range. rewrite <- fmap_S_seq, <- list_fmap_compose, Z.add_0_r, (u32_small n) by done.
  f_equal. apply list_fmap_ext. intros i x _. cbn. by rewrite u32_add_succ.
Qed.
(** An answer is overdue: it is awaited, and more than [limit] whole
    milliseconds have passed since the heartbeat was sent. *)
Definition overdue (time_ns limit_ms : Z) (st : TaskStatus) : Prop :=
  awaiting_response st = true /\ limit_ms < duration_cast_ms (time_ns - last_heartbeat_time st).

#[export] Instance overdue_dec time_ns limit_ms st : Decision (overdue time_ns limit_ms st).
Proof. unfold overdue. apply _. Defined.

Lemma timed_out_overdue time_ns limit_ms st : timed_out time_ns limit_ms st = true <-> overdue time_ns limit_ms st.
Proof. unfold timed_out, overdue. by rewrite andb_true_iff, bool_decide_eq_true. Qed.

(** A whole check, task by task. *)
Lemma check_marks this w h mb s :
  mailboxes w mb -> hb_at this w h -> hb_wf this h -> sm_at (state_manager h) w s -> pm_sorted (task_states s) ->
  0 < state_manager h < 2 ^ 64 ->
  let time_ns := steady_ns (clock w (ticks w)) in
  (forall p st, (p, st) ∈ monitored_tasks h -> timed_out time_ns (response_timeout_ms h) st = true ->
     exists a, mb !! p = Some a /\ has_room a /\ aq_ticks a < 2 ^ 32 - 1) ->
  exists w' h' s' mb', check_for_timeouts this w = Ok (tt, w') /\ mailboxes w' mb' /\ hb_at this w' h' /\
    hb_wf this h' /\ sm_at (state_manager h) w' s' /\ mail_except [this; state_manager h] w w' /\
    forall p, match pm_find p (monitored_tasks h) with
              | Some st =>
                  if timed_out time_ns (response_timeout_ms h) st then
                    mb' !! p = received (state_request (state_manager h) ERROR) <$> mb !! p /\
                    pm_find p (monitored_tasks h') = Some (set_awaiting false st) /\
                    pm_find p (task_states s') = Some ERROR
                  else mb' !! p = mb !! p /\ pm_find p (monitored_tasks h') = Some st /\
                    pm_find p (task_states s') = pm_find p (task_states s)
              | None => mb' !! p = mb !! p /\ pm_find p (monitored_tasks h') = None /\
                    pm_find p (task_states s') = pm_find p (task_states s)
              end.
Proof.
  intros Hm Hh [Hs Hself Hid] Hsm Hss Hrange time_ns Hroom. pose proof (pm_sorted_NoDup _ Hs) as Hnd.
  destruct (check_loop_run this time_ns (monitored_tasks h) (tick w) h mb s Hm Hh Hsm Hrange Hs Hss Hnd Hroom)
    as (w' & h' & s' & mb' & Hrun & Hm' & Hh' & Hsm' & He & _ & Hs' & _ & Heq & Hout & Hin).
  assert (Hfind : forall p st, pm_find p (monitored_tasks h) = Some st <-> (p, st) ∈ monitored_tasks h)
    by (intros; by apply pm_find_elem).
  assert (Hother : forall p, (forall st, pm_find p (monitored_tasks h) = Some st ->
      timed_out time_ns (response_timeout_ms h) st = false) ->
      mb' !! p = mb !! p /\ pm_find p (monitored_tasks h') = pm_find p (monitored_tasks h) /\
      pm_find p (task_states s') = pm_find p (task_states s)).
  { intros p Hp. apply Hout. intros st Hst. by apply Hp, Hfind. }
  assert (Hall : forall p, match pm_find p (monitored_tasks h) with
              | Some st =>
                  if timed_out time_ns (response_timeout_ms h) st then
                    mb' !! p = received (state_request (state_manager h) ERROR) <$> mb !! p /\
                    pm_find p (monitored_tasks h') = Some (set_awaiting false st) /\
                    pm_find p (task_states s') = Some ERROR
                  else mb' !! p = mb !! p /\ pm_find p (monitored_tasks h') = Some st /\
                    pm_find p (task_states s') = pm_find p (task_states s)
              | None => mb' !! p = mb !! p /\ pm_find p (monitored_tasks h') = None /\
                    pm_find p (task_states s') = pm_find p (task_states s)
              end).
  { intros p. destruct (pm_find p (monitored_tasks h)) as [st|] eqn:Hp.
    - destruct (timed_out time_ns (response_timeout_ms h) st) eqn:Hto; [by apply Hin; [apply Hfind|]|].
      rewrite <- Hp. apply Hother. intros st' Hst'. congruence.
    - rewrite <- Hp. apply Hother. intros st' Hst'. congruence. }
  exists w', h', s', mb'. split_and!; try done.
  - unfold check_for_timeouts. rewrite (M_bind_Ok _ _ w _ (tick w) eq_refl).
    by rewrite (M_bind_Ok _ _ (tick w) h (tick w)) by (by apply (hb_at_run this (tick w))).
  - split; [done| |by rewrite Heq]. apply pm_find_None. specialize (Hall this).
    rewrite (proj2 (pm_find_None this (monitored_tasks h)) Hself) in Hall. apply Hall.
Qed.
End ids.

(** ** Properties *)

Section properties.
Context {Q : Type} `{QueueImpl Q}.
Implicit Types (t : Task Q) (w : World Q) (h : HeartBeat) (st : TaskStatus).

(** C25. A round of heartbeats puts exactly one HeartbeatMsg into the queue of
    every monitored task that owes no answer and none into any other queue;
    the ids of the round are different and go up by one in map order (modulo
    2^32); each of these tasks now owes an answer to its id, sent at the time
    the message carries, and no other status changes. *)
Theorem heartbeat_round this w h mb :
  mailboxes w mb -> hb_at this w h -> hb_wf this h -> 0 < this < 2 ^ 64 ->
  Z.of_nat (length (monitored_tasks h)) <= 2 ^ 32 ->
  (forall p st, (p, st) ∈ monitored_tasks h -> awaiting_response st = false ->
     exists a, mb !! p = Some a /\ has_room a /\ aq_ticks a < 2 ^ 32 - 1) ->
  exists w' h' mb', send_heartbeat this w = Ok (tt, w') /\ mailboxes w' mb' /\ hb_at this w' h' /\ hb_wf this h' /\
    mail_except [this] w w' /\
    (let ids := send_ids (next_heartbeat_id h) (monitored_tasks h) in
     NoDup ids.*2 /\ NoDup ids.*1 /\
     (forall p, p ∈ ids.*1 <-> exists st, (p, st) ∈ monitored_tasks h /\ awaiting_response st = false) /\
     (forall p, (p ∉ ids.*1) ->
        mb' !! p = mb !! p /\ pm_find p (monitored_tasks h') = pm_find p (monitored_tasks h)) /\
     (forall p id, (p, id) ∈ ids ->
        exists a st time_ns, mb !! p = Some a /\ pm_find p (monitored_tasks h) = Some st /\
          mb' !! p = Some (received (heartbeat this id time_ns) a) /\
          pm_find p (monitored_tasks h') = Some (mkTaskStatus true id time_ns (last_response_time st)))).
Proof.
  intros Hm Hh [Hs Hself Hid] Hthis Hlen Hroom. pose proof (pm_sorted_NoDup _ Hs) as Hnd.
  destruct (send_loop_run this (monitored_tasks h) w h mb Hm Hh Hthis Hs Hnd Hself Hid Hroom)
    as (w' & h' & mb' & Hrun & Hm' & Hh' & He & _ & Hs' & Heq & Hout & Hin).
  assert (Hkeys : forall p, p ∈ (send_ids (next_heartbeat_id h) (monitored_tasks h)).*1 <->
            exists st, (p, st) ∈ monitored_tasks h /\ awaiting_response st = false) by apply send_ids_keys.
  exists w', h', mb'. split_and!; try done.
  - unfold send_heartbeat. by rewrite (M_bind_Ok _ _ _ _ _ (hb_at_run _ _ _ Hh)).
  - split; [done| |rewrite Heq; apply u32_range]. rewrite <- pm_find_None. destruct (Hout this) as [_ ->].
    + rewrite Hkeys. intros (st & Hst & _). apply Hself, list_elem_of_fmap. by exists (this, st).
    + by apply pm_find_None.
  - cbn zeta. split_and!; try done.
    + rewrite send_ids_snd by done. apply ids_NoDup. pose proof (length_send_ids (next_heartbeat_id h) (monitored_tasks h)). lia.
    + by apply send_ids_NoDup.
    + intros p id Hp. destruct (Hin p id Hp) as (a & st & tm & ? & ? & _ & ? & ?). exists a, st, tm.
      split_and!; try done. by apply pm_find_elem.
Qed.

(** C24. A check for timeouts marks exactly the monitored tasks whose answer is
    awaited and overdue by more than the limit: each gets one StateMsg asking
    for ERROR from the state manager and is recorded as ERROR there, whatever
    [unresponsive_action] is, and owes no answer any more; no other queue,
    status or record changes. *)
Theorem timeouts_marked this w h mb s :
  mailboxes w mb -> hb_at this w h -> hb_wf this h -> sm_at (state_manager h) w s -> pm_sorted (task_states s) ->
  0 < state_manager h < 2 ^ 64 ->
  let time_ns := steady_ns (clock w (ticks w)) in
  (forall p st, (p, st) ∈ monitored_tasks h -> overdue time_ns (response_timeout_ms h) st ->
     exists a, mb !! p = Some a /\ has_room a /\ aq_ticks a < 2 ^ 32 - 1) ->
  exists w' h' s' mb', check_for_timeouts this w = Ok (tt, w') /\ mailboxes w' mb' /\ hb_at this w' h' /\
    hb_wf this h' /\ sm_at (state_manager h) w' s' /\ mail_except [this; state_manager h] w w' /\
    forall p, match pm_find p (monitored_tasks h) with
              | Some st =>
                  if decide (overdue time_ns (response_timeout_ms h) st) then
                    mb' !! p = received (state_request (state_manager h) ERROR) <$> mb !! p /\
                    pm_find p (monitored_tasks h') = Some (set_awaiting false st) /\
                    pm_find p (task_states s') = Some ERROR
                  else mb' !! p = mb !! p /\ pm_find p (monitored_tasks h') = Some st /\
                    pm_find p (task_states s') = pm_find p (task_states s)
              | None => mb' !! p = mb !! p /\ pm_find p (monitored_tasks h') = None /\
                    pm_find p (task_states s') = pm_find p (task_states s)
              end.
Proof.
  intros Hm Hh Hwf Hsm Hss Hrange time_ns Hroom.
  destruct (check_marks this w h mb s Hm Hh Hwf Hsm Hss Hrange) as (w' & h' & s' & mb' & H1 & H2 & H3 & H4 & H5 & H6 & Hall).
  { intros p st Hp Hto. by apply (Hroom p st Hp), timed_out_overdue. }
  exists w', h', s', mb'. split_and!; try done. intros p. specialize (Hall p).
  destruct (pm_find p (monitored_tasks h)) as [st|]; [|done].
  destruct (decide (overdue time_ns (response_timeout_ms h) st)) as [Ho|Ho].
  - apply timed_out_overdue in Ho. fold time_ns in Hall. by rewrite Ho in Hall.
  - fold time_ns in Hall. destruct (timed_out _ _ _) eqn:Hto in Hall; [by destruct Ho; apply timed_out_overdue|done].
Qed.

(** C39. An acknowledgement counts only if its sender is monitored and it
    repeats the id of the last heartbeat sent to that task: then the task owes
    no answer any more and the time of its response is noted. A late answer
    to an earlier heartbeat, or one from another task, changes nothing. *)
Theorem heartbeat_acknowledged this m ack w h mb :
  mailboxes w mb -> hb_at this w h -> hb_wf this h -> (forall p, p ∈ (monitored_tasks h).*1 -> is_Some (mb !! p)) ->
  msg_data m = VHeartbeatAckMsg ack ->
  exists w' h', HeartBeat_handle_acknowledgment this m w = Ok (tt, w') /\ mailboxes w' mb /\ hb_at this w' h' /\
    hb_wf this h' /\ mail_except [this] w w' /\
    forall p, pm_find p (monitored_tasks h') =
      match pm_find p (monitored_tasks h) with
      | Some st => Some (if decide (p = get_sender m /\ last_heartbeat_id st = orig_unique_id ack)
                         then acknowledged (steady_ns (clock w (ticks w))) st else st)
      | None => None
      end.
Proof.
  intros Hm Hh [Hs Hself Hid] Hlive Hdata. unfold HeartBeat_handle_acknowledgment.
  rewrite (M_bind_Ok _ _ _ _ _ (hb_at_run _ _ _ Hh)).
  assert (Hack : get_data_as AHeartbeatAckMsg m = Some ack) by (by apply get_data_as_Some).
  rewrite Hack. destruct (ack_loop_run this (get_sender m) ack (monitored_tasks h) w h mb Hm Hh Hs Hlive)
    as (w' & h' & Hrun & Hm' & Hh' & He & _ & Heq).
  set (now_ns := steady_ns (clock w (ticks w))) in *.
  assert (Hfind : forall p, pm_find p (monitored_tasks h') =
      match pm_find p (monitored_tasks h) with
      | Some st => Some (if decide (p = get_sender m /\ last_heartbeat_id st = orig_unique_id ack)
                         then acknowledged now_ns st else st)
      | None => None
      end).
  { intros p. rewrite Heq. destruct (pm_find (get_sender m) (monitored_tasks h)) as [st|] eqn:Hst.
    - destruct (decide (last_heartbeat_id st = orig_unique_id ack)) as [Hi|Hi].
      + cbn [assign_status set_monitored monitored_tasks]. rewrite pm_assign_find by done.
        destruct (decide (get_sender m = p)) as [<-|Hne]; [rewrite Hst; by rewrite decide_True|].
        destruct (pm_find p (monitored_tasks h)); [|done]. by rewrite decide_False by (by intros [-> _]).
      + destruct (pm_find p (monitored_tasks h)) as [st'|] eqn:Hp; [|done].
        rewrite decide_False; [done|]. intros [-> Hi']. congruence.
    - destruct (pm_find p (monitored_tasks h)) as [st'|] eqn:Hp; [|done].
      rewrite decide_False; [done|]. intros [-> _]. congruence. }
  exists w', h'. split_and!; try done.
  assert (Hs' : pm_sorted (monitored_tasks h')).
  { rewrite Heq. destruct (pm_find _ _); [|done]. case_decide; [by apply pm_assign_sorted|done]. }
  split; [done| |].
  - apply pm_find_None. rewrite Hfind. by rewrite (proj2 (pm_find_None this (monitored_tasks h)) Hself).
  - rewrite Heq. destruct (pm_find _ _); [|done]. by case_decide.
Qed.

(** Registration makes a task monitored, owing no answer, unless it is the
    heartbeat task itself; registering a monitored task again does not touch
    its status, so an overdue answer is not forgiven. *)
Theorem registration_monitors this task w h mb :
  mailboxes w mb -> hb_at this w h -> hb_wf this h ->
  exists w' h', HeartBeat_notify_task_registered this task w = Ok (tt, w') /\ mailboxes w' mb /\ hb_at this w' h' /\
    hb_wf this h' /\ (forall p, p <> this -> tasks w' !! p = tasks w !! p) /\
    forall p, pm_find p (monitored_tasks h') =
      match pm_find p (monitored_tasks h) with
      | Some st => Some st
      | None => if decide (p = task /\ p <> this)
                then Some (mkTaskStatus false 0 0 (steady_ns (clock w (ticks w)))) else None
      end.
Proof.
  intros Hm Hh [Hs Hself Hid]. unfold HeartBeat_notify_task_registered. destruct (decide (task = this)) as [->|Hne].
  { exists w, h. split_and!; try done. intros p. destruct (pm_find p (monitored_tasks h)); [done|].
    by rewrite decide_False by (by intros [-> ?]). }
  rewrite (M_bind_Ok _ _ _ _ _ (hb_at_run _ _ _ Hh)).
  destruct (pm_find task (monitored_tasks h)) as [st|] eqn:Hst.
  { exists w, h. split_and!; try done. intros p. destruct (pm_find p (monitored_tasks h)) eqn:Hp; [done|].
    rewrite decide_False; [done|]. intros [-> _]. congruence. }
  set (c := clock w (ticks w)). rewrite (M_bind_Ok _ _ w c (tick w) eq_refl).
  destruct (hb_at_modify this (tick w) h mb (assign_status task (mkTaskStatus false 0 0 (steady_ns c))) Hm Hh)
    as (w' & Hrun & Hm' & Hh' & _ & _ & _ & Ho).
  eexists w', _. split_and!; try done.
  - split; [by apply pm_assign_sorted| |done]. cbn. rewrite pm_assign_keys. by intros [->|].
  - intros p. cbn. rewrite pm_assign_find by done. destruct (decide (task = p)) as [<-|Hp].
    + rewrite Hst. by rewrite decide_True.
    + destruct (pm_find p (monitored_tasks h)); [done|]. by rewrite decide_False by (by intros [-> _]).
Qed.

(** The ids of successive heartbeats count up from the current value
    modulo 2^32; any [n] in a row are different if and only if [n <= 2^32]. *)
Theorem heartbeat_ids_unique n this w h mb :
  mailboxes w mb -> hb_at this w h -> hb_wf this h ->
  exists ids w', generate_ids n this w = Ok (ids, w') /\ length ids = n /\
    (forall i, (i < n)%nat -> ids !! i = Some (u32 (next_heartbeat_id h + Z.of_nat i))) /\
    (NoDup ids <-> Z.of_nat n <= 2 ^ 32).
Proof.
  intros Hm Hh [_ _ Hid]. destruct (generate_ids_run n this w h mb Hm Hh Hid) as (w' & Hrun & _).
  eexists _, w'. split_and!; [done| | |apply ids_NoDup].
  - by rewrite length_fmap, length_seq.
  - intros i Hi. by rewrite list_lookup_fmap, lookup_seq_lt by done.
Qed.

End properties.

(** ** Witnesses: a heartbeat task at 48 that monitors the task at 32 *)

Definition owing : TaskStatus := mkTaskStatus true 7 1000000 0.
Definition hb_demo (st : TaskStatus) : HeartBeat := mkHeartBeat [(32, st)] 16 3 (2 ^ 32 - 1) ERROR.
Definition hb_task (h : HeartBeat) : Task aqueue :=
  mkTask "HeartBeat" RUNNING false Unjoinable Unjoinable 10 (aq_new 4) (IsHeartBeat h).
Definition hb_world (h : HeartBeat) : World aqueue :=
  mkWorld {[16 := sm_task (sm_demo RUNNING RUNNING); 32 := sm_user; 48 := hb_task h]}
    (mkBroker true [[32]; [16]; []; []]) Logger_new
    (fun n => mkClockReading ((5 + Z.of_nat n) * 1000000) 0 0) 0 (1, 1).
Definition hb_mail : gmap addr aqueue := {[16 := aq_new 4; 32 := aq_new 4; 48 := aq_new 4]}.

Lemma hb_mailboxes h : mailboxes (hb_world h) hb_mail.
Proof.
  assert (Hq : forall t, message_queue t = aq_new 4 -> option_Forall2 (fun t a => q_view (message_queue t) a)
            (Some t) (Some (aq_new 4))) by (intros t Ht; constructor; rewrite Ht; split; [done|cbn; lia]).
  intros p. cbn. unfold hb_mail. destruct (decide (p = 16)) as [->|]; [by apply Hq|].
  destruct (decide (p = 32)) as [->|]; [by apply Hq|]. destruct (decide (p = 48)) as [->|]; [by apply Hq|].
  rewrite !lookup_insert_ne, !lookup_singleton_ne by done. constructor.
Qed.

Lemma hb_demo_at h : hb_at 48 (hb_world h) h.
Proof. by exists (hb_task h). Qed.

Lemma sm_demo_at h : sm_at 16 (hb_world h) (sm_demo RUNNING RUNNING).
Proof. by exists (sm_task (sm_demo RUNNING RUNNING)). Qed.

Lemma hb_demo_wf st : hb_wf 48 (hb_demo st).
Proof. split; cbn; [unfold pm_sorted; cbn; repeat constructor|by intros Hp%list_elem_of_singleton|lia]. Qed.

Lemma hb_demo_room st p st' :
  (p, st') ∈ monitored_tasks (hb_demo st) -> exists a, hb_mail !! p = Some a /\ has_room a /\ aq_ticks a < 2 ^ 32 - 1.
Proof. intros [= -> ->]%list_elem_of_singleton. exists (aq_new 4). split_and!; [done|unfold has_room; cbn; lia|done]. Qed.

Lemma heartbeat_round_witness :
  let st := mkTaskStatus false 3 0 0 in
  exists w' h' mb', send_heartbeat 48 (hb_world (hb_demo st)) = Ok (tt, w') /\ mailboxes w' mb' /\ hb_at 48 w' h' /\
    exists time_ns, mb' !! 32 = Some (received (heartbeat 48 (2 ^ 32 - 1) time_ns) (aq_new 4)).
Proof.
  cbn zeta. destruct (heartbeat_round 48 (hb_world (hb_demo (mkTaskStatus false 3 0 0))) _ hb_mail (hb_mailboxes _) (hb_demo_at _)
    (hb_demo_wf _)) as (w' & h' & mb' & Hrun & Hm & Hh & _ & _ & _ & _ & _ & _ & Hin);
    [done|done|by intros; eapply hb_demo_room|].
  exists w', h', mb'. split_and!; try done.
  destruct (Hin 32 (2 ^ 32 - 1)) as (a & st & tm & Ha & _ & Hmb & _); [by apply list_elem_of_singleton|].
  exists tm. rewrite Hmb. change (Some (aq_new 4) = Some a) in Ha. congruence.
Defined.

Lemma timeouts_marked_witness :
  exists w' h' s' (mb' : gmap addr aqueue), check_for_timeouts 48 (hb_world (hb_demo owing)) = Ok (tt, w') /\
    hb_at 48 w' h' /\ sm_at 16 w' s' /\
    mb' !! 32 = Some (received (state_request 16 ERROR) (aq_new 4)) /\ pm_find 32 (task_states s') = Some ERROR.
Proof.
  destruct (timeouts_marked 48 (hb_world (hb_demo owing)) (hb_demo owing) hb_mail (sm_demo RUNNING RUNNING) (hb_mailboxes _)
    (hb_demo_at _) (hb_demo_wf _) (sm_demo_at _) (sm_sorted _ _)) as (w' & h' & s' & mb' & Hrun & _ & Hh & _ & Hsm & _ & Hall);
    [done|by intros; eapply hb_demo_room|].
  exists w', h', s', mb'. specialize (Hall 32). cbn in Hall. destruct Hall as (Hmb & _ & Hs). by split_and!.
Defined.

Lemma heartbeat_acknowledged_witness :
  exists w' h', HeartBeat_handle_acknowledgment 48 (pack 32 (VHeartbeatAckMsg (mkHeartbeatAckMsg 7 1 2)))
      (hb_world (hb_demo owing)) = Ok (tt, w') /\ hb_at 48 w' h' /\
    pm_find 32 (monitored_tasks h') = Some (acknowledged 5000000 owing).
Proof.
  destruct (heartbeat_acknowledged 48 (pack 32 (VHeartbeatAckMsg (mkHeartbeatAckMsg 7 1 2))) (mkHeartbeatAckMsg 7 1 2)
    (hb_world (hb_demo owing)) _ hb_mail (hb_mailboxes _) (hb_demo_at _) (hb_demo_wf _))
    as (w' & h' & Hrun & _ & Hh & _ & _ & Hall); [by intros p ->%list_elem_of_singleton; eexists|done|].
  exists w', h'. split_and!; [done|done|]. by rewrite Hall.
Defined.

Lemma registration_monitors_witness :
  exists w' h', HeartBeat_notify_task_registered 48 16 (hb_world (hb_demo owing)) = Ok (tt, w') /\ hb_at 48 w' h' /\
    pm_find 32 (monitored_tasks h') = Some owing /\
    pm_find 16 (monitored_tasks h') = Some (mkTaskStatus false 0 0 5000000).
Proof.
  destruct (registration_monitors 48 16 (hb_world (hb_demo owing)) _ hb_mail (hb_mailboxes _) (hb_demo_at _) (hb_demo_wf _))
    as (w' & h' & Hrun & _ & Hh & _ & _ & Hall). exists w', h'. rewrite !Hall. by split_and!.
Defined.

Lemma heartbeat_ids_unique_witness :
  exists ids w', generate_ids 3 48 (hb_world (hb_demo owing)) = Ok (ids, w') /\
    ids !! 0%nat = Some (2 ^ 32 - 1) /\ ids !! 1%nat = Some 0 /\ NoDup ids.
Proof.
  destruct (heartbeat_ids_unique 3 48 (hb_world (hb_demo owing)) _ hb_mail (hb_mailboxes _) (hb_demo_at _) (hb_demo_wf _))
    as (ids & w' & Hrun & _ & Hids & Hnd). exists ids, w'. split_and!; [done|by rewrite Hids by lia|by rewrite Hids by lia|].
  by apply Hnd.
Defined.

