(* ===== verification/Locks.v ===== *)
(** * Locks: the order in which the operations take their mutexes

    The functional models of the other files treat an operation as a step.
    Here an operation is the sequence of the mutexes it locks and unlocks,
    threads run such sequences with any interleaving, and the question is
    whether they can get stuck. A [condition_variable] wait is an unlock
    followed by a lock of the same mutex. *)

From S2P Require Import Prelude World.
#[local] Open Scope nat_scope.

(** ** Mutexes and lock sequences *)

(** One state manager and one heartbeat task; a queue and a pool per task.
    The sinks' own mutexes are only taken by the logger's worker. *)
Inductive mutex :=
  | StateMutex                (* StateManager::state_mutex *)
  | TasksMutex                (* HeartBeatTask::tasks_mutex *)
  | SubMutex                  (* Broker::sub_mutex *)
  | QueueMutex (p : addr)     (* MessageQueue::queue_mutex *)
  | PoolMutex (p : addr)      (* MemoryPool::pool_mutex *)
  | LogMutex.                 (* Logger::queue_mutex *)

#[export] Instance mutex_eq_dec : EqDecision mutex.
Proof. solve_decision. Defined.

Inductive lock_instr := Lock (m : mutex) | Unlock (m : mutex).

#[export] Instance lock_instr_eq_dec : EqDecision lock_instr.
Proof. solve_decision. Defined.

(** The scope of a [lock_guard]. *)
Definition guard (m : mutex) (body : list lock_instr) : list lock_instr := Lock m :: body ++ [Unlock m].

(** A wait that is woken [n] times. *)
Definition waits (m : mutex) (n : nat) : list lock_instr := concat (replicate n [Unlock m; Lock m]).

Definition log_locks : list lock_instr := guard LogMutex [].
Definition allocate_locks (p : addr) : list lock_instr := guard (PoolMutex p) [].
Definition deallocate_locks (p : addr) : list lock_instr := guard (PoolMutex p) [].
Definition enqueue_locks (p : addr) : list lock_instr := allocate_locks p ++ guard (QueueMutex p) [].
Definition dequeue_locks (p : addr) (n : nat) : list lock_instr :=
  guard (QueueMutex p) (waits (QueueMutex p) n ++ deallocate_locks p).
Definition notify_shutdown_locks (p : addr) : list lock_instr := guard (QueueMutex p) [].
Definition deliver_message_locks (p : addr) : list lock_instr := log_locks ++ enqueue_locks p.
Definition subscribe_locks : list lock_instr := guard SubMutex [].
Definition publish_locks (subscribers : list addr) : list lock_instr :=
  guard SubMutex (concat (map deliver_message_locks subscribers)).
Definition transition_to_state_locks (subscribers : list addr) : list lock_instr :=
  log_locks ++ publish_locks subscribers.
Definition stop_locks (p : addr) (subscribers : list addr) : list lock_instr :=
  transition_to_state_locks subscribers ++ notify_shutdown_locks p.

Definition notify_task_registered_locks : list lock_instr := guard TasksMutex [].
(** With a HeartBeatTask as the observer. *)
Definition register_task_locks : list lock_instr := guard StateMutex notify_task_registered_locks.
(** [n] wake-ups of the wait, [k] lines logged at its end. *)
Definition demand_locks (subscribers : list addr) (n k : nat) : list lock_instr :=
  log_locks ++ guard StateMutex [] ++ transition_to_state_locks subscribers ++
  guard StateMutex (waits StateMutex n ++ concat (replicate k log_locks)).
Definition handle_state_ack_locks : list lock_instr := log_locks.
Definition mark_task_locks (p : addr) : list lock_instr :=
  log_locks ++ deliver_message_locks p ++ guard StateMutex [].

Definition send_heartbeat_locks (ps : list addr) : list lock_instr :=
  guard TasksMutex (concat (map deliver_message_locks ps)).
Definition handle_heartbeat_ack_locks : list lock_instr := guard TasksMutex log_locks.
(** A check that finds the tasks [late] overdue. *)
Definition check_for_timeouts_locks (late : list addr) : list lock_instr :=
  guard TasksMutex (concat (map (fun p => log_locks ++ mark_task_locks p) late)).

(** ** Threads *)

(** The mutexes a thread holds, latest first, and what it still has to do. *)
Record locker := mkLocker { held : list mutex; todo : list lock_instr }.

Definition free (m : mutex) (ts : list locker) : Prop := forall i t, ts !! i = Some t -> m ∉ held t.

Inductive lock_step : list locker -> list locker -> Prop :=
  | step_lock ts i h m r :
      ts !! i = Some (mkLocker h (Lock m :: r)) -> free m ts ->
      lock_step ts (<[i := mkLocker (m :: h) r]> ts)
  | step_unlock ts i h m r :
      ts !! i = Some (mkLocker (m :: h) (Unlock m :: r)) ->
      lock_step ts (<[i := mkLocker h r]> ts).

Definition start_lockers (programs : list (list lock_instr)) : list locker := mkLocker [] <$> programs.
Definition all_done (ts : list locker) : Prop := forall i t, ts !! i = Some t -> todo t = [].
Definition deadlocked (ts : list locker) : Prop := ~ all_done ts /\ forall ts', ~ lock_step ts ts'.

(** ** The order *)

Definition rank (m : mutex) : nat :=
  match m with
  | StateMutex => 0
  | TasksMutex => 1
  | SubMutex => 2
  | QueueMutex _ => 3
  | PoolMutex _ => 4
  | LogMutex => 5
  end.

(** A sequence that, holding [h], locks only above everything it holds,
    unlocks the last it has locked, and ends holding nothing. *)
Fixpoint ordered (h : list mutex) (prog : list lock_instr) : Prop :=
  match prog with
  | [] => h = []
  | Lock m :: r => Forall (fun x => rank x < rank m) h /\ ordered (m :: h) r
  | Unlock m :: r => match h with x :: h' => x = m /\ ordered h' r | [] => False end
  end.

(** The operations, and which of them keep to the order. *)
Inductive operation :=
  | OpLog | OpEnqueue (p : addr) | OpDequeue (p : addr) (n : nat) | OpShutdown (p : addr)
  | OpSubscribe | OpPublish (l : list addr) | OpTransition (l : list addr) | OpStop (p : addr) (l : list addr)
  | OpRegister | OpDemand (l : list addr) (n k : nat) | OpStateAck | OpMark (p : addr)
  | OpSendHeartbeat (l : list addr) | OpHeartbeatAck | OpCheck (late : list addr).

Definition operation_locks (o : operation) : list lock_instr :=
  match o with
  | OpLog => log_locks
  | OpEnqueue p => enqueue_locks p
  | OpDequeue p n => dequeue_locks p n
  | OpShutdown p => notify_shutdown_locks p
  | OpSubscribe => subscribe_locks
  | OpPublish l => publish_locks l
  | OpTransition l => transition_to_state_locks l
  | OpStop p l => stop_locks p l
  | OpRegister => register_task_locks
  | OpDemand l n k => demand_locks l n k
  | OpStateAck => handle_state_ack_locks
  | OpMark p => mark_task_locks p
  | OpSendHeartbeat l => send_heartbeat_locks l
  | OpHeartbeatAck => handle_heartbeat_ack_locks
  | OpCheck late => check_for_timeouts_locks late
  end.

(** A check that finds somebody overdue calls back into the state manager
    with [tasks_mutex] held; nothing else goes against the order. *)
Definition keeps_order (o : operation) : bool :=
  match o with
  | OpCheck (_ :: _) => false
  | _ => true
  end.

(** ** Lemmas *)

(** A block that locks only mutexes of rank [k] and above, and leaves what is
    held as it was. *)
Definition above (k : nat) (body : list lock_instr) : Prop :=
  forall h r, Forall (fun x => rank x < k) h -> ordered h r -> ordered h (body ++ r).

Lemma above_nil k : above k [].
Proof. by intros h r. Qed.

Lemma above_app k b1 b2 : above k b1 -> above k b2 -> above k (b1 ++ b2).
Proof. intros H1 H2 h r Hh Hr. rewrite <- app_assoc. by apply H1, H2. Qed.

Lemma above_guard k m body : k <= rank m -> above (S (rank m)) body -> above k (guard m body).
Proof.
  intros Hk Hb h r Hh Hr. unfold guard. cbn. split; [eapply Forall_impl; [done|cbn; lia]|].
  rewrite <- app_assoc. apply Hb; [|done]. constructor; [lia|]. eapply Forall_impl; [done|cbn; lia].
Qed.

Lemma above_concat {A} k (f : A -> list lock_instr) l : (forall x, above k (f x)) -> above k (concat (map f l)).
Proof. intros Hf. induction l as [|x l IH]; cbn; [apply above_nil|by apply above_app]. Qed.

Lemma above_replicate k n b : above k b -> above k (concat (replicate n b)).
Proof. intros Hb. induction n as [|n IH]; cbn; [apply above_nil|by apply above_app]. Qed.

(** Waiting with [m], the only mutex above [k] that is held. *)
Lemma above_waiting k m n body :
  k <= rank m -> above (S (rank m)) body -> above k (guard m (waits m n ++ body)).
Proof.
  intros Hk Hb h r Hh Hr. unfold guard. cbn. split; [eapply Forall_impl; [done|cbn; lia]|].
  assert (Hlow : Forall (fun x => rank x < rank m) h) by (eapply Forall_impl; [done|cbn; lia]).
  rewrite <- !app_assoc. induction n as [|n IH]; cbn; [|by split_and!].
  apply Hb; [|done]. constructor; [lia|]. eapply Forall_impl; [done|cbn; lia].
Qed.

#[local] Hint Resolve above_nil above_app above_concat above_replicate : core.

Ltac solve_above :=
  repeat first
    [ apply above_nil | apply above_app | apply above_concat; intros | apply above_replicate
    | apply above_guard; [cbn; lia|] ].

Lemma deliver_above k p : k <= 3 -> above k (deliver_message_locks p).
Proof. intros Hk. unfold deliver_message_locks, log_locks, enqueue_locks, allocate_locks. solve_above. Qed.

Lemma publish_above k l : k <= 2 -> above k (publish_locks l).
Proof. intros Hk. apply above_guard; [done|]. apply above_concat. intros p. by apply deliver_above. Qed.

Lemma operation_above o : keeps_order o = true -> above 0 (operation_locks o).
Proof.
  assert (Hlog : forall k, k <= 5 -> above k log_locks) by (intros k Hk; unfold log_locks; solve_above).
  assert (Htr : forall l, above 0 (transition_to_state_locks l))
    by (intros l; apply above_app; [apply Hlog|apply publish_above]; lia).
  destruct o as [|p|p n|p| |l|l|p l| |l n k| |p|l| |late]; intros Ho; cbn [operation_locks].
  - by apply Hlog; lia.
  - unfold enqueue_locks, allocate_locks. solve_above.
  - apply above_waiting; [cbn; lia|]. unfold deallocate_locks. solve_above.
  - unfold notify_shutdown_locks. solve_above.
  - unfold subscribe_locks. solve_above.
  - apply publish_above. lia.
  - apply Htr.
  - unfold stop_locks, notify_shutdown_locks. apply above_app; [apply Htr|solve_above].
  - unfold register_task_locks, notify_task_registered_locks. solve_above.
  - unfold demand_locks. apply above_app; [apply Hlog; lia|]. apply above_app; [solve_above|].
    apply above_app; [apply Htr|]. apply above_waiting; [cbn; lia|]. apply above_replicate, Hlog. cbn. lia.
  - apply Hlog. lia.
  - unfold mark_task_locks. apply above_app; [apply Hlog; lia|]. apply above_app; [apply deliver_above; lia|solve_above].
  - unfold send_heartbeat_locks. apply above_guard; [cbn; lia|]. apply above_concat. intros p. apply deliver_above. cbn. lia.
  - unfold handle_heartbeat_ack_locks. apply above_guard; [cbn; lia|]. apply Hlog. cbn. lia.
  - destruct late; [|done]. unfold check_for_timeouts_locks. solve_above.
Qed.

Lemma operations_ordered os :
  Forall (fun o => keeps_order o = true) os -> ordered [] (concat (map operation_locks os)).
Proof.
  induction os as [|o os IH]; intros Hos; cbn; [done|]. apply Forall_cons in Hos as [Ho Hos].
  apply (operation_above o Ho); [constructor|by apply IH].
Qed.

(** Every thread keeps to the order from where it is. *)
Definition all_ordered (ts : list locker) : Prop := forall i t, ts !! i = Some t -> ordered (held t) (todo t).

Lemma all_ordered_update ts i t : all_ordered ts -> ordered (held t) (todo t) -> all_ordered (<[i := t]> ts).
Proof.
  intros Hts Ht j u Hu. apply list_lookup_insert_Some in Hu as [(-> & -> & _)|[_ Hu]]; [done|by eapply Hts].
Qed.

Lemma lock_step_ordered ts ts' : all_ordered ts -> lock_step ts ts' -> all_ordered ts'.
Proof.
  intros Hts Hstep. destruct Hstep as [ts i h m r Hi Hfree|ts i h m r Hi]; specialize (Hts i _ Hi) as Ho; cbn in Ho;
    apply all_ordered_update; try done; by destruct Ho.
Qed.

(** The mutex a thread is about to lock. *)
Definition wants (t : locker) : option mutex := match todo t with Lock m :: _ => Some m | _ => None end.

Lemma wants_above t m x : ordered (held t) (todo t) -> wants t = Some m -> x ∈ held t -> rank x < rank m.
Proof.
  destruct t as [h [|[m'|m'] r]]; cbn; intros Ho [= <-] Hx. destruct Ho as [Hlow _].
  rewrite Forall_forall in Hlow. by apply Hlow.
Qed.

(** Whether the next instruction of [t] can be executed. *)
Definition can_go (ts : list locker) (t : locker) : Prop :=
  match todo t with
  | [] => False
  | Lock m :: _ => Forall (fun u => m ∉ held u) ts
  | Unlock m :: _ => match held t with x :: _ => x = m | [] => False end
  end.

#[export] Instance can_go_dec ts t : Decision (can_go ts t).
Proof.
  unfold can_go. destruct (todo t) as [|[m|m] r]; [apply _..|]. destruct (held t); apply _.
Defined.

Lemma can_go_step ts i t : ts !! i = Some t -> can_go ts t -> exists ts', lock_step ts ts'.
Proof.
  destruct t as [h [|[m|m] r]]; cbn; intros Hi Hgo; [done| |].
  - eexists. apply (step_lock ts i h m r Hi). intros j u Hu. by eapply Forall_lookup_1 in Hgo.
  - destruct h as [|x h]; [done|]. cbn in Hgo. subst x. eexists. by eapply step_unlock.
Qed.

Lemma not_all_done ts : ~ all_done ts -> exists i t, ts !! i = Some t /\ todo t <> [].
Proof.
  intros Hnd. destruct (decide (Forall (fun t => todo t = []) ts)) as [Hall|Hn].
  - destruct Hnd. intros i t Hi. by eapply Forall_lookup_1 in Hall.
  - apply not_Forall_Exists in Hn; [|apply _]. apply Exists_exists in Hn as (t & Ht & Hne).
    apply list_elem_of_lookup_1 in Ht as [i Hi]. by exists i, t.
Qed.

(** A thread of an ordered system that cannot go on wants a mutex that an
    unfinished thread holds. *)
Lemma stuck_wants ts i t :
  all_ordered ts -> ts !! i = Some t -> todo t <> [] -> ~ can_go ts t ->
  exists m j u, wants t = Some m /\ ts !! j = Some u /\ (m ∈ held u) /\ todo u <> [].
Proof.
  intros Hts Hi Hne Hstuck. pose proof (Hts i t Hi) as Ho. destruct t as [h prog]. unfold can_go in Hstuck. cbn in *.
  destruct prog as [|[m|m] r]; [done| |].
  - apply not_Forall_Exists in Hstuck; [|apply _]. apply Exists_exists in Hstuck as (u & Hu & Hm).
    apply dec_stable in Hm. apply list_elem_of_lookup_1 in Hu as [j Hj].
    exists m, j, u. split_and!; try done. intros Hdone. pose proof (Hts j u Hj) as Hou.
    rewrite Hdone in Hou. cbn in Hou. rewrite Hou in Hm. by apply elem_of_nil in Hm.
  - destruct h as [|x h]; [done|]. by destruct Ho as [-> _].
Qed.

(** In an ordered system somebody can go on: otherwise there would be
    threads wanting mutexes of ever higher rank. *)
Lemma ordered_can_step ts : all_ordered ts -> ~ all_done ts -> exists ts', lock_step ts ts'.
Proof.
  intros Hts Hnd. destruct (decide (Exists (can_go ts) ts)) as [Hgo|Hno].
  { apply Exists_exists in Hgo as (t & Ht & Hgo). apply list_elem_of_lookup_1 in Ht as [i Hi]. by eapply can_go_step. }
  assert (Hwants : forall i t, ts !! i = Some t -> todo t <> [] ->
    exists m j u, wants t = Some m /\ ts !! j = Some u /\ (m ∈ held u) /\ todo u <> []).
  { intros i t Hi Hne. apply (stuck_wants ts i t); try done. intros Hgo.
    apply Hno, Exists_exists. exists t. split; [by eapply list_elem_of_lookup_2|done]. }
  assert (Hclimb : forall k, exists i t m, ts !! i = Some t /\ wants t = Some m /\ k <= rank m).
  { induction k as [|k (i & t & m & Hi & Hw & Hk)].
    - apply not_all_done in Hnd as (i & t & Hi & Hne). destruct (Hwants i t Hi Hne) as (m & _ & _ & Hw & _).
      exists i, t, m. split_and!; [done|done|lia].
    - destruct (Hwants i t Hi) as (m' & j & u & Hw' & Hj & Hm & Hne).
      { intros Hd. unfold wants in Hw. by rewrite Hd in Hw. }
      rewrite Hw in Hw'. injection Hw' as <-. destruct (Hwants j u Hj Hne) as (m2 & _ & _ & Hw2 & _).
      exists j, u, m2. split_and!; [done|done|]. pose proof (wants_above u m2 m (Hts j u Hj) Hw2 Hm). lia. }
  destruct (Hclimb 6) as (i & t & m & _ & _ & Hm). destruct m; cbn in Hm; lia.
Qed.

Lemma start_ordered threads :
  Forall (Forall (fun o => keeps_order o = true)) threads ->
  all_ordered (start_lockers (map (fun os => concat (map operation_locks os)) threads)).
Proof.
  intros Hall i t. unfold start_lockers. rewrite list_lookup_fmap. intros (prog & Hp & ->)%fmap_Some.
  cbn. change (map (fun os => concat (map operation_locks os)) threads)
    with ((fun os => concat (map operation_locks os)) <$> threads) in Hp.
  rewrite list_lookup_fmap in Hp. apply fmap_Some in Hp as (os & Hos & ->).
  apply operations_ordered. by eapply Forall_lookup_1 in Hall.
Qed.

(** Two threads, the first holding nothing: the second can lock and unlock. *)
Lemma free_two m t u : (m ∉ held t) -> (m ∉ held u) -> free m [t; u].
Proof. intros Ht Hu i v Hi. by destruct i as [|[|i]]; simplify_eq/=. Qed.

Lemma guard_passes q h m r :
  (m ∉ h) -> rtc lock_step [mkLocker [] q; mkLocker h (Lock m :: Unlock m :: r)] [mkLocker [] q; mkLocker h r].
Proof.
  intros Hm. eapply rtc_l; [apply (step_lock _ 1 h m); [done|]; apply free_two; [apply not_elem_of_nil|done]|].
  cbn. apply rtc_once. by apply (step_unlock [mkLocker [] q; mkLocker (m :: h) (Unlock m :: r)] 1 h m).
Qed.

(** ** Properties *)

(** C28. Any number of threads, each running any sequence of the operations
    (logging, queues, publications, registrations, demands, acknowledgements,
    heartbeat rounds, checks that find nobody overdue), under any
    interleaving, never get stuck on their mutexes: from every state they can
    reach, unless all are done, one of them can go on. *)
Theorem operations_deadlock_free threads ts :
  Forall (Forall (fun o => keeps_order o = true)) threads ->
  rtc lock_step (start_lockers (map (fun os => concat (map operation_locks os)) threads)) ts ->
  all_done ts \/ exists ts', lock_step ts ts'.
Proof.
  intros Hall Hsteps. assert (Hts : all_ordered ts).
  { apply start_ordered in Hall. induction Hsteps; [done|]. eauto using lock_step_ordered. }
  destruct (decide (Forall (fun t => todo t = []) ts)) as [Hd|Hd].
  - left. intros i t Hi. by eapply Forall_lookup_1 in Hd.
  - right. apply ordered_can_step; [done|]. intros Hdone. apply Hd, Forall_lookup_2. apply Hdone.
Qed.

(** C29. Registering a task while the heartbeat task is observing, against a
    timeout check that finds a task overdue: the first holds [state_mutex] and
    wants [tasks_mutex], the second holds [tasks_mutex] and wants
    [state_mutex]. This state can be reached, and neither can ever go on. *)
Theorem registration_check_deadlock p late :
  exists ts, rtc lock_step (start_lockers [operation_locks OpRegister; operation_locks (OpCheck (p :: late))]) ts /\
    deadlocked ts.
Proof.
  set (rest := concat (map (fun q => log_locks ++ mark_task_locks q) late) ++ [Unlock TasksMutex]).
  exists [mkLocker [StateMutex] [Lock TasksMutex; Unlock TasksMutex; Unlock StateMutex];
     mkLocker [TasksMutex] (Lock StateMutex :: Unlock StateMutex :: rest)]. split.
  - set (body := concat (map (fun q => log_locks ++ mark_task_locks q) (p :: late)) ++ [Unlock TasksMutex]).
    set (ts0 := [mkLocker [] register_task_locks; mkLocker [] (Lock TasksMutex :: body)]).
    change (rtc lock_step ts0 [mkLocker [StateMutex] [Lock TasksMutex; Unlock TasksMutex; Unlock StateMutex];
      mkLocker [TasksMutex] (Lock StateMutex :: Unlock StateMutex :: rest)]).
    apply (rtc_l _ ts0 (<[1 := mkLocker [TasksMutex] body]> ts0)).
    { apply (step_lock ts0 1 [] TasksMutex body); [done|]. by apply free_two; apply not_elem_of_nil. }
    assert (Hm : forall m, m <> TasksMutex -> m ∉ [TasksMutex]) by (by intros m Hne ->%list_elem_of_singleton).
    cbn. do 5 (etrans; [by apply guard_passes, Hm|]).
    apply rtc_once. set (ts1 := [_; _]).
    change (lock_step ts1 (<[0 := mkLocker [StateMutex] [Lock TasksMutex; Unlock TasksMutex; Unlock StateMutex]]> ts1)).
    by apply (step_lock ts1 0 []); [|apply free_two; [apply not_elem_of_nil|apply Hm]].
  - split.
    + intros Hdone. by specialize (Hdone 0 _ eq_refl).
    + intros ts' Hstep. inversion Hstep as [ts i h m r Hi Hfree|ts i h m r Hi]; subst.
      * destruct i as [|[|i]]; simplify_eq/=.
        -- apply (Hfree 1 _ eq_refl), list_elem_of_here.
        -- apply (Hfree 0 _ eq_refl), list_elem_of_here.
      * by destruct i as [|[|i]].
Qed.

Lemma operations_deadlock_free_witness :
  let ts := start_lockers (map (fun os => concat (map operation_locks os))
              [[OpRegister; OpCheck []]; [OpPublish [16%Z; 32%Z]; OpSendHeartbeat [32%Z]]]) in
  all_done ts \/ exists ts', lock_step ts ts'.
Proof.
  cbn zeta. apply (operations_deadlock_free [[OpRegister; OpCheck []]; [OpPublish [16%Z; 32%Z]; OpSendHeartbeat [32%Z]]]);
    [by repeat constructor|apply rtc_refl].
Defined.
