(* ===== verification/Races.v ===== *)
(** * Races: who touches which member under which mutex

    The sequences of Locks with the accesses to the members between the locks
    and unlocks. A data race is a reachable state in which two threads are
    about to access one member, one of them to write it. The members that are
    always accessed under one and the same mutex have none, whatever calls the
    threads make; for each of the others two calls that race are shown.
    [std::atomic] members ([running], [shutdown], [next_heartbeat_id],
    [min_level], [relative_ts]) cannot race and are left out, and so is what
    is never written after construction (names, intervals, pointers). *)

From S2P Require Import Prelude World Locks.
#[local] Open Scope nat_scope.

(** ** Members *)

(** Of a task [p], its queue and pool; of the state manager, whose map has a
    structure and the states in its nodes; of the broker, the heartbeat task
    and the logger. *)
Inductive member :=
  | CurrentState (p : addr)       (* Task::current_state *)
  | Threads (p : addr)            (* Task::queue_thread, Task::periodic_thread *)
  | NodeVector (p : addr)         (* MessageQueue::queue *)
  | Sequence (p : addr)           (* MessageQueue::sequence *)
  | FreeList (p : addr)           (* MemoryPool::free_list *)
  | Subscribers                   (* Broker::subscriber_lists *)
  | Initialized                   (* Broker::initialized *)
  | RegisteredTasks               (* StateManager::task_states: its tree *)
  | RecordedStates                (* StateManager::task_states: the values *)
  | TargetState                   (* StateManager::target_state *)
  | ManagerState                  (* StateManager::current_state *)
  | Observer                      (* StateManager::task_registration_observer *)
  | Monitored                     (* HeartBeatTask::monitored_tasks *)
  | UnresponsiveAction            (* HeartBeatTask::unresponsive_action *)
  | LogQueue                      (* Logger::queue *)
  | Stopping                      (* Logger::stopping *)
  | LogSinks.                     (* Logger::sinks *)

#[export] Instance member_eq_dec : EqDecision member.
Proof. solve_decision. Defined.

(** The mutex that is meant to protect a member. *)
Definition protector (x : member) : option mutex :=
  match x with
  | NodeVector p | Sequence p => Some (QueueMutex p)
  | FreeList p => Some (PoolMutex p)
  | Subscribers | Initialized => Some SubMutex
  | Monitored => Some TasksMutex
  | LogQueue | Stopping => Some LogMutex
  | CurrentState _ | Threads _ | RegisteredTasks | RecordedStates | TargetState | ManagerState | Observer
  | UnresponsiveAction | LogSinks => None
  end.

Inductive action := Sync (i : lock_instr) | Reads (x : member) | Writes (x : member).

#[export] Instance action_eq_dec : EqDecision action.
Proof. solve_decision. Defined.

(** ** Calls *)

Definition guarded (m : mutex) (body : list action) : list action := Sync (Lock m) :: body ++ [Sync (Unlock m)].

(** A wait with its predicate, whose accesses are [test]. *)
Definition waiting_for (m : mutex) (test : list action) (n : nat) : list action :=
  test ++ concat (replicate n ([Sync (Unlock m); Sync (Lock m)] ++ test)).

Definition log_code : list action := guarded LogMutex [Writes LogQueue].
Definition shutdown_logger_code : list action := guarded LogMutex [Writes Stopping].
Definition add_sink_code : list action := [Writes LogSinks].
(** One turn of the worker that finds an entry after [n] wake-ups. *)
Definition worker_code (n : nat) : list action :=
  guarded LogMutex (waiting_for LogMutex [Reads Stopping; Reads LogQueue] n ++ [Writes LogQueue]) ++ [Reads LogSinks].

Definition allocate_code (p : addr) : list action := guarded (PoolMutex p) [Reads (FreeList p); Writes (FreeList p)].
Definition deallocate_code (p : addr) : list action := guarded (PoolMutex p) [Reads (FreeList p); Writes (FreeList p)].
Definition enqueue_code (p : addr) : list action :=
  allocate_code p ++ guarded (QueueMutex p) [Reads (Sequence p); Writes (Sequence p); Writes (NodeVector p)].
(** A [dequeue] that is woken [n] times and takes the last message. *)
Definition dequeue_code (p : addr) (n : nat) : list action :=
  guarded (QueueMutex p) (waiting_for (QueueMutex p) [Reads (NodeVector p)] n ++
    [Writes (NodeVector p); Writes (Sequence p)] ++ deallocate_code p).
Definition notify_shutdown_code (p : addr) : list action := guarded (QueueMutex p) [].
Definition is_empty_code (p : addr) : list action := guarded (QueueMutex p) [Reads (NodeVector p)].

Definition broker_initialize_code : list action := guarded SubMutex [Writes Subscribers; Writes Initialized].
Definition subscribe_code : list action := guarded SubMutex [Reads Initialized; Reads Subscribers; Writes Subscribers].
Definition deliver_message_code (p : addr) : list action := log_code ++ enqueue_code p.
(** A publication that also finds an expired subscriber. *)
Definition publish_code (subscribers : list addr) : list action :=
  guarded SubMutex ([Reads Initialized; Reads Subscribers] ++ concat (map deliver_message_code subscribers) ++
    [Writes Subscribers]).

Definition transition_to_state_code (p : addr) (subscribers : list addr) : list action :=
  [Writes (CurrentState p)] ++ log_code ++ [Reads (CurrentState p)] ++ publish_code subscribers.
Definition start_code (p : addr) : list action := [Writes (Threads p)].
Definition stop_code (p : addr) (subscribers : list addr) : list action :=
  transition_to_state_code p subscribers ++ notify_shutdown_code p ++ [Writes (Threads p)].

Definition notify_task_registered_code : list action := guarded TasksMutex [Reads Monitored; Writes Monitored].
Definition register_task_code : list action :=
  guarded StateMutex ([Writes RegisteredTasks; Writes RecordedStates; Reads Observer] ++ notify_task_registered_code).
Definition set_observer_code : list action := [Writes Observer].
Definition manager_transition_code (subscribers : list addr) : list action :=
  log_code ++ [Writes ManagerState] ++ publish_code subscribers.
Definition demand_code (subscribers : list addr) (n k : nat) : list action :=
  log_code ++ guarded StateMutex [Writes TargetState] ++ manager_transition_code subscribers ++
  guarded StateMutex (waiting_for StateMutex [Reads RegisteredTasks; Reads RecordedStates] n ++ concat (replicate k log_code)).
Definition handle_state_ack_code : list action :=
  [Reads RegisteredTasks; Writes RecordedStates] ++ log_code ++ [Reads RegisteredTasks; Reads RecordedStates; Reads TargetState].
Definition mark_task_code (p : addr) : list action :=
  log_code ++ deliver_message_code p ++ guarded StateMutex [Reads RegisteredTasks; Writes RecordedStates].
(** [initialize] and [shutdown] of the state manager [sm] with the registered
    tasks [ps]; the demand in them succeeds after [n] wake-ups, or fails with
    [k] lines of the log, and one more outside. *)
Definition initialize_code (sm : addr) (ps subscribers : list addr) (n k : nat) : list action :=
  log_code ++ start_code sm ++ [Reads RegisteredTasks] ++ concat (map start_code ps) ++
  demand_code subscribers n k ++ (if decide (k = 0) then [] else log_code).
Definition shutdown_code (sm : addr) (ps subscribers : list addr) (n k : nat) : list action :=
  log_code ++ demand_code subscribers n k ++ (if decide (k = 0) then [] else log_code) ++
  [Reads RegisteredTasks] ++ concat (map (fun p => stop_code p subscribers) ps) ++
  manager_transition_code subscribers ++ notify_shutdown_code sm ++ [Writes (Threads sm)].

Definition send_heartbeat_code (ps : list addr) : list action :=
  guarded TasksMutex ([Reads Monitored] ++ concat (map (fun p => [Writes Monitored] ++ deliver_message_code p) ps)).
Definition handle_heartbeat_ack_code : list action := guarded TasksMutex ([Reads Monitored; Writes Monitored] ++ log_code).
Definition check_for_timeouts_code (late : list addr) : list action :=
  guarded TasksMutex ([Reads Monitored] ++ concat (map (fun p => [Reads UnresponsiveAction] ++ log_code ++
    mark_task_code p ++ [Writes Monitored]) late)).
Definition set_unresponsive_action_code : list action := [Writes UnresponsiveAction].
Definition periodic_code (hb : addr) (late ps : list addr) : list action :=
  check_for_timeouts_code late ++ [Reads (CurrentState hb)] ++ send_heartbeat_code ps.

(** The operations of Locks, made by the task [p] where it matters, and those
    that take no mutex or are composed of others. *)
Inductive call :=
  | Operation (p : addr) (o : operation)
  | BrokerInitialize | ShutdownLogger | AddSink | WorkerTurn (n : nat)
  | IsEmpty (p : addr) | Start (p : addr) | Stop (p : addr) (l : list addr) | SetObserver | SetUnresponsiveAction
  | Initialize (sm : addr) (ps l : list addr) (n k : nat) | Shutdown (sm : addr) (ps l : list addr) (n k : nat)
  | Periodic (hb : addr) (late ps : list addr).

Definition operation_code (p : addr) (o : operation) : list action :=
  match o with
  | OpLog => log_code
  | OpEnqueue q => enqueue_code q
  | OpDequeue q n => dequeue_code q n
  | OpShutdown q => notify_shutdown_code q
  | OpSubscribe => subscribe_code
  | OpPublish l => publish_code l
  | OpTransition l => transition_to_state_code p l
  | OpStop q l => stop_code q l
  | OpRegister => register_task_code
  | OpDemand l n k => demand_code l n k
  | OpStateAck => handle_state_ack_code
  | OpMark q => mark_task_code q
  | OpSendHeartbeat l => send_heartbeat_code l
  | OpHeartbeatAck => handle_heartbeat_ack_code
  | OpCheck late => check_for_timeouts_code late
  end.

Definition call_code (c : call) : list action :=
  match c with
  | Operation p o => operation_code p o
  | BrokerInitialize => broker_initialize_code
  | ShutdownLogger => shutdown_logger_code
  | AddSink => add_sink_code
  | WorkerTurn n => worker_code n
  | IsEmpty p => is_empty_code p
  | Start p => start_code p
  | Stop p l => stop_code p l
  | SetObserver => set_observer_code
  | SetUnresponsiveAction => set_unresponsive_action_code
  | Initialize sm ps l n k => initialize_code sm ps l n k
  | Shutdown sm ps l n k => shutdown_code sm ps l n k
  | Periodic hb late ps => periodic_code hb late ps
  end.

(** ** The locks among the actions are those of Locks *)

Definition locks_of (l : list action) : list lock_instr :=
  l ≫= fun a => match a with Sync i => [i] | _ => [] end.

Lemma locks_app l l' : locks_of (l ++ l') = locks_of l ++ locks_of l'.
Proof. apply bind_app. Qed.

Lemma locks_guarded m b b' : locks_of b = b' -> locks_of (guarded m b) = guard m b'.
Proof. intros <-. unfold guarded, guard. cbn. by rewrite locks_app. Qed.

Lemma locks_concat {A} (f : A -> list action) g l : (forall x, locks_of (f x) = g x) -> locks_of (concat (map f l)) = concat (map g l).
Proof. intros Hf. induction l as [|x l IH]; cbn; [done|]. by rewrite locks_app, Hf, IH. Qed.

Lemma locks_replicate n b b' : locks_of b = b' -> locks_of (concat (replicate n b)) = concat (replicate n b').
Proof. intros <-. induction n as [|n IH]; cbn; [done|]. by rewrite locks_app, IH. Qed.

Lemma locks_waiting m test n : locks_of test = [] -> locks_of (waiting_for m test n) = waits m n.
Proof.
  intros Ht. unfold waiting_for, waits. rewrite locks_app, Ht. apply locks_replicate. by rewrite locks_app, Ht.
Qed.

Lemma locks_publish l : locks_of (publish_code l) = publish_locks l.
Proof.
  apply locks_guarded. rewrite !locks_app. cbn [locks_of app mbind list_bind]. rewrite app_nil_r. by apply locks_concat.
Qed.

(** The accesses are put between the locks that the operation takes. *)
Lemma locks_operation p o : locks_of (operation_code p o) = operation_locks o.
Proof.
  assert (Htr : forall q l, locks_of (transition_to_state_code q l) = transition_to_state_locks l)
    by (intros q l; unfold transition_to_state_code; by rewrite !locks_app, locks_publish).
  destruct o as [|q|q n|q| |l|l|q l| |l n k| |q|l| |late]; cbn [operation_code operation_locks]; try done.
  - apply locks_guarded. rewrite !locks_app, locks_waiting by done. done.
  - apply locks_publish.
  - unfold stop_code, stop_locks. by rewrite !locks_app, Htr, app_nil_r.
  - unfold demand_code, demand_locks, manager_transition_code. rewrite !locks_app, locks_publish.
    do 3 f_equal. apply locks_guarded. rewrite locks_app, locks_waiting by done. f_equal. by apply locks_replicate.
  - apply locks_guarded. rewrite locks_app. by apply locks_concat.
  - apply locks_guarded. rewrite locks_app. apply locks_concat. intros q. by rewrite !locks_app.
Qed.

(** ** Threads *)

(** The mutexes a thread holds, latest first, and what it still has to do. *)
Record runner := mkRunner { holding : list mutex; code : list action }.

Definition available (m : mutex) (ts : list runner) : Prop := forall i t, ts !! i = Some t -> m ∉ holding t.

Inductive runner_step : list runner -> list runner -> Prop :=
  | run_lock ts i h m r :
      ts !! i = Some (mkRunner h (Sync (Lock m) :: r)) -> available m ts ->
      runner_step ts (<[i := mkRunner (m :: h) r]> ts)
  | run_unlock ts i h m r :
      ts !! i = Some (mkRunner (m :: h) (Sync (Unlock m) :: r)) ->
      runner_step ts (<[i := mkRunner h r]> ts)
  | run_read ts i h x r : ts !! i = Some (mkRunner h (Reads x :: r)) -> runner_step ts (<[i := mkRunner h r]> ts)
  | run_write ts i h x r : ts !! i = Some (mkRunner h (Writes x :: r)) -> runner_step ts (<[i := mkRunner h r]> ts).

Definition start_runners (threads : list (list call)) : list runner :=
  (fun cs => mkRunner [] (concat (map call_code cs))) <$> threads.

(** What a thread is about to do to a member: [true] for a write. *)
Definition next_access (t : runner) : option (member * bool) :=
  match code t with
  | Reads x :: _ => Some (x, false)
  | Writes x :: _ => Some (x, true)
  | _ => None
  end.

(** Two accesses are in conflict if they are to one member and one writes. *)
Definition conflict (a b : option (member * bool)) (x : member) : bool :=
  match a, b with
  | Some (y, w), Some (z, v) => bool_decide (y = x) && bool_decide (z = x) && (w || v)
  | _, _ => false
  end.

Definition race (ts : list runner) (x : member) : Prop :=
  exists i j t u, i <> j /\ ts !! i = Some t /\ ts !! j = Some u /\ conflict (next_access t) (next_access u) x = true.

(** ** The discipline *)

(** Holding [h], a sequence that touches protected members with their mutex
    held, and unlocks the mutex it has locked last. *)
Fixpoint disciplined (h : list mutex) (prog : list action) : Prop :=
  match prog with
  | [] => True
  | Sync (Lock m) :: r => disciplined (m :: h) r
  | Sync (Unlock m) :: r => match h with x :: h' => x = m /\ disciplined h' r | [] => False end
  | Reads x :: r | Writes x :: r =>
      match protector x with Some m => m ∈ h | None => True end /\ disciplined h r
  end.

(** A block that is disciplined when [m]'s owner runs it, or anybody
    ([None]), and leaves what is held as it was. *)
Definition tidy (m : option mutex) (body : list action) : Prop :=
  forall h r, match m with Some m => m ∈ h | None => True end -> disciplined h r -> disciplined h (body ++ r).

Lemma tidy_nil m : tidy m [].
Proof. by intros h r. Qed.

Lemma tidy_app m b1 b2 : tidy m b1 -> tidy m b2 -> tidy m (b1 ++ b2).
Proof. intros H1 H2 h r Hm Hr. rewrite <- app_assoc. by apply H1; [|apply H2]. Qed.

Lemma tidy_any m b : tidy None b -> tidy m b.
Proof. intros Hb h r _ Hr. by apply Hb. Qed.

Lemma tidy_reads m x b : protector x = None \/ protector x = m -> tidy m b -> tidy m (Reads x :: b).
Proof. intros Hx Hb h r Hm Hr. cbn. split; [by destruct Hx as [-> | ->]|by apply Hb]. Qed.

Lemma tidy_writes m x b : protector x = None \/ protector x = m -> tidy m b -> tidy m (Writes x :: b).
Proof. intros Hx Hb h r Hm Hr. cbn. split; [by destruct Hx as [-> | ->]|by apply Hb]. Qed.

Lemma tidy_guarded o m b : tidy (Some m) b -> tidy o (guarded m b).
Proof.
  intros Hb h r _ Hr. unfold guarded. cbn. rewrite <- app_assoc. apply Hb; [apply list_elem_of_here|]. by cbn.
Qed.

Lemma tidy_concat {A} m (f : A -> list action) l : (forall x, tidy m (f x)) -> tidy m (concat (map f l)).
Proof. intros Hf. induction l as [|x l IH]; cbn; [apply tidy_nil|by apply tidy_app]. Qed.

Lemma tidy_replicate m n b : tidy m b -> tidy m (concat (replicate n b)).
Proof. intros Hb. induction n as [|n IH]; cbn; [apply tidy_nil|by apply tidy_app]. Qed.

(** The waits happen with their mutex locked last. *)
Lemma tidy_waiting o m test n b : tidy (Some m) test -> tidy (Some m) b -> tidy o (guarded m (waiting_for m test n ++ b)).
Proof.
  intros Ht Hb h r _ Hr. unfold guarded, waiting_for. cbn. rewrite <- !app_assoc.
  assert (Hm : m ∈ m :: h) by apply list_elem_of_here. apply Ht; [done|].
  induction n as [|n IH]; cbn; [apply Hb; [done|by cbn]|]. split; [done|]. rewrite <- app_assoc. by apply Ht.
Qed.

Ltac solve_tidy :=
  repeat first
    [ apply tidy_nil | apply tidy_waiting | apply tidy_guarded | apply tidy_app | apply tidy_concat; intros
    | apply tidy_replicate | case_decide | apply tidy_reads; [by first [by left|by right]|]
    | apply tidy_writes; [by first [by left|by right]|] ].

Lemma operation_tidy p o : tidy None (operation_code p o).
Proof. destruct o; cbn [operation_code]; solve_tidy. Qed.

Lemma call_tidy c : tidy None (call_code c).
Proof. destruct c; cbn [call_code]; [apply operation_tidy|solve_tidy..]. Qed.

(** ** Protected members do not race *)

Definition all_disciplined (ts : list runner) : Prop := forall i t, ts !! i = Some t -> disciplined (holding t) (code t).

(** No mutex has two owners. *)
Definition exclusive (ts : list runner) : Prop :=
  forall i j t u m, i <> j -> ts !! i = Some t -> ts !! j = Some u -> m ∈ holding t -> m ∉ holding u.

Lemma start_disciplined threads : all_disciplined (start_runners threads).
Proof.
  intros i t Hi. unfold start_runners in Hi. rewrite list_lookup_fmap in Hi. apply fmap_Some in Hi as (cs & _ & ->). cbn.
  induction cs as [|c cs IH]; cbn; [done|]. by apply (call_tidy c).
Qed.

Lemma start_exclusive threads : exclusive (start_runners threads).
Proof.
  intros i j t u m _ Hi _ Hm. unfold start_runners in Hi. rewrite list_lookup_fmap in Hi.
  apply fmap_Some in Hi as (cs & _ & ->). by apply elem_of_nil in Hm.
Qed.

Lemma all_disciplined_update ts i t : all_disciplined ts -> disciplined (holding t) (code t) -> all_disciplined (<[i := t]> ts).
Proof. intros Hts Ht j u Hu. apply list_lookup_insert_Some in Hu as [(-> & -> & _)|[_ Hu]]; [done|by eapply Hts]. Qed.

Lemma runner_step_disciplined ts ts' : all_disciplined ts -> runner_step ts ts' -> all_disciplined ts'.
Proof.
  intros Hts Hstep. destruct Hstep as [ts i h m r Hi Hav|ts i h m r Hi|ts i h x r Hi|ts i h x r Hi];
    specialize (Hts i _ Hi) as Ho; cbn in Ho; apply all_disciplined_update; try done; by destruct Ho.
Qed.

(** A thread that comes to hold no more than before keeps the others out of
    nothing new. *)
Lemma exclusive_update ts i t t' :
  exclusive ts -> ts !! i = Some t -> (forall m, m ∈ holding t' -> m ∈ holding t \/ available m ts) ->
  exclusive (<[i := t']> ts).
Proof.
  intros Hex Hi Hnew j k u v m Hne Hj Hk Hm Hm'.
  apply list_lookup_insert_Some in Hj as [(-> & -> & _)|[Hij Hj]]; apply list_lookup_insert_Some in Hk as [(-> & -> & _)|[Hik Hk]].
  - done.
  - destruct (Hnew m Hm) as [Hold|Hav]; [by eapply (Hex j k)|by eapply Hav].
  - destruct (Hnew m Hm') as [Hold|Hav]; [by eapply (Hex k j)|by eapply Hav].
  - by eapply (Hex j k).
Qed.

Lemma runner_step_exclusive ts ts' : exclusive ts -> runner_step ts ts' -> exclusive ts'.
Proof.
  intros Hex Hstep. destruct Hstep as [ts i h m r Hi Hav|ts i h m r Hi|ts i h x r Hi|ts i h x r Hi];
    eapply exclusive_update; try done; cbn; intros m' Hm; [|left; by right|by left|by left].
  apply elem_of_cons in Hm as [->|Hm]; [by right|by left].
Qed.

Lemma reachable_runners threads ts :
  rtc runner_step (start_runners threads) ts -> all_disciplined ts /\ exclusive ts.
Proof.
  intros Hsteps. pose proof (start_disciplined threads) as Hd. pose proof (start_exclusive threads) as He.
  induction Hsteps as [|ts1 ts2 ts3 Hstep _ IH]; [done|]. apply IH; [by eapply runner_step_disciplined|by eapply runner_step_exclusive].
Qed.

(** A thread about to access a protected member holds its mutex. *)
Lemma access_holds t x w m :
  disciplined (holding t) (code t) -> next_access t = Some (x, w) -> protector x = Some m -> m ∈ holding t.
Proof.
  destruct t as [h [|[[]|y|y] r]]; cbn; intros Hd Hn Hp; simplify_eq; rewrite Hp in Hd; by destruct Hd.
Qed.

Lemma conflict_accesses a b x :
  conflict a b x = true -> exists w v, a = Some (x, w) /\ b = Some (x, v) /\ w || v = true.
Proof.
  destruct a as [[y w]|], b as [[z v]|]; cbn; try done. intros [[Hy Hz]%andb_true_iff Hw]%andb_true_iff.
  apply bool_decide_eq_true in Hy, Hz. subst. by exists w, v.
Qed.

Lemma protected_no_race threads ts x m :
  rtc runner_step (start_runners threads) ts -> protector x = Some m -> ~ race ts x.
Proof.
  intros Hsteps Hp (i & j & t & u & Hne & Hi & Hj & Hc). destruct (reachable_runners threads ts Hsteps) as [Hd He].
  destruct (conflict_accesses _ _ _ Hc) as (w & v & Ht & Hu & _).
  apply (He i j t u m Hne Hi Hj); by eapply access_holds; [by eapply Hd|done..].
Qed.

(** ** Schedules *)

Definition run_one (i : nat) (ts : list runner) : option (list runner) :=
  match ts !! i with
  | Some (mkRunner h (Sync (Lock m) :: r)) =>
      if decide (Forall (fun t => m ∉ holding t) ts) then Some (<[i := mkRunner (m :: h) r]> ts) else None
  | Some (mkRunner (x :: h) (Sync (Unlock m) :: r)) =>
      if decide (x = m) then Some (<[i := mkRunner h r]> ts) else None
  | Some (mkRunner h (Reads _ :: r)) | Some (mkRunner h (Writes _ :: r)) => Some (<[i := mkRunner h r]> ts)
  | _ => None
  end.

Fixpoint run_schedule (who : list nat) (ts : list runner) : option (list runner) :=
  match who with
  | [] => Some ts
  | i :: who' => run_one i ts ≫= run_schedule who'
  end.

Lemma run_one_ok i ts ts' : run_one i ts = Some ts' -> runner_step ts ts'.
Proof.
  unfold run_one. destruct (ts !! i) as [[h [|[[m|m]|x|x] r]]|] eqn:Hi; try done.
  - by destruct h.
  - destruct (decide _) as [Hav|]; [|by destruct h]. intros Heq. assert (Heq' : <[i := mkRunner (m :: h) r]> ts = ts') by (destruct h; congruence).
    subst ts'. apply run_lock; [done|]. intros j t Hj. by eapply Forall_lookup_1 in Hav.
  - destruct h as [|x h]; [done|]. case_decide; [|done]. intros [= <-]. subst. by eapply run_unlock.
  - intros Heq. assert (<[i := mkRunner h r]> ts = ts') as <- by (destruct h; congruence). by eapply run_read.
  - intros Heq. assert (<[i := mkRunner h r]> ts = ts') as <- by (destruct h; congruence). by eapply run_write.
Qed.

Lemma run_schedule_ok who ts ts' : run_schedule who ts = Some ts' -> rtc runner_step ts ts'.
Proof.
  revert ts. induction who as [|i who IH]; intros ts; cbn; [by intros [= ->]|].
  destruct (run_one i ts) as [ts1|] eqn:H1; cbn; [|done]. intros Hr. eapply rtc_l; [by eapply run_one_ok|by apply IH].
Qed.

(** Two calls that meet at the member, and how far each of them gets. *)
Definition meeting (x : member) : call * nat * (call * nat) :=
  match x with
  | CurrentState p => (Operation p (OpTransition []), 0, (Periodic p [] [], 3))
  | Threads p => (Stop p [], 12, (Shutdown 16%Z [p] [] 0 0, 13 + 3 + length (demand_code [] 0 0)))
  | RegisteredTasks => (Initialize 16%Z [] [] 0 0, 4, (Operation 16%Z OpRegister, 1))
  | RecordedStates => (Operation 16%Z OpStateAck, 1, (Operation 16%Z (OpDemand [] 0 0), 17))
  | TargetState => (Operation 16%Z OpStateAck, 7, (Operation 16%Z (OpDemand [] 0 0), 4))
  | ManagerState => (Operation 16%Z (OpDemand [] 0 0), 9, (Operation 16%Z (OpDemand [] 0 0), 9))
  | Observer => (SetObserver, 0, (Operation 16%Z OpRegister, 3))
  | UnresponsiveAction => (SetUnresponsiveAction, 0, (Operation 16%Z (OpCheck [17%Z]), 2))
  | LogSinks => (AddSink, 0, (WorkerTurn 0, 5))
  | _ => (AddSink, 0, (AddSink, 0))
  end.

Definition meet (x : member) : option (list runner) :=
  let '(a, n, (b, k)) := meeting x in
  run_schedule (replicate n 0 ++ replicate k 1) (start_runners [[a]; [b]]).

Definition racing (x : member) (ts : list runner) : bool :=
  match ts with
  | [t; u] => conflict (next_access t) (next_access u) x
  | _ => false
  end.

Lemma racing_race x ts : racing x ts = true -> race ts x.
Proof. destruct ts as [|t [|u [|]]]; try done. cbn. intros Hc. by exists 0, 1, t, u. Qed.

(** Execute a schedule whose addresses are variables. *)
Ltac run_ahead :=
  repeat first
    [ reflexivity
    | rewrite decide_True by first [done|repeat apply Forall_cons_2; [by rewrite ?elem_of_cons, ?elem_of_nil; intuition congruence..|
        apply Forall_nil_2]]
    | progress cbn -[decide] ].

Lemma meet_races x : protector x = None -> exists ts, meet x = Some ts /\ racing x ts = true.
Proof.
  destruct x; try done; intros _; eexists; (split; [unfold meet, run_one; run_ahead|]); unfold racing, conflict;
    cbn; rewrite ?bool_decide_true by done; done.
Qed.

(** ** Properties *)

(** C20. Any number of threads, each making any sequence of the calls of the
    program: a member is subject to a data race if and only if it has no
    mutex that protects it, which is the case of [current_state] and the
    thread handles of a task, of the state manager's members, whose mutex
    [handle_acknowledgment], [initialize] and [shutdown] do not take, of the
    heartbeat task's [unresponsive_action], and of the logger's list of sinks. *)
Theorem race_iff_unprotected x :
  (exists threads ts, rtc runner_step (start_runners threads) ts /\ race ts x) <-> protector x = None.
Proof.
  split.
  - intros (threads & ts & Hsteps & Hr). destruct (protector x) as [m|] eqn:Hp; [|done].
    by destruct (protected_no_race threads ts x m Hsteps Hp).
  - intros Hp. destruct (meet_races x Hp) as (ts & Hm & Hr). unfold meet in Hm.
    destruct (meeting x) as [[a n] [b k]]. exists [[a]; [b]], ts.
    split; [by eapply run_schedule_ok|by apply racing_race].
Qed.
