(* ===== verification/System.v ===== *)
(** * System: dispatch, and the invariant of every reachable world

    The instance of [Virtual] that dispatches on the dynamic type, the calls a
    program makes on the bus, and the transition system in which such calls
    and the turns of all threads interleave. Its invariant says that the
    subscriber lists, the registries and the maps of monitored tasks are well
    formed and own only live objects, whatever the user's tasks do in their
    handlers, as long as they use the bus through its interface. *)

From S2P Require Import Prelude Msg Heap QueueSpec Logger World Broker TaskBase StateManager HeartBeat.
#[local] Open Scope Z_scope.

(** ** Dispatch *)

(** What the user's task classes do: [process_message] and
    [periodic_task_process] of the object at an address. *)
Class UserTasks (Q : Type) := {
  user_process_message : addr -> Msg -> M Q unit;
  user_periodic_task_process : addr -> M Q unit
}.

Section dispatch.
Context {Q : Type} `{QueueImpl Q} `{UserTasks Q}.

Definition dispatch {A} (this : addr) (on_sm on_hb on_user : M Q A) : M Q A :=
  t ← get_task this;
  match derived t with
  | IsStateManager _ => on_sm
  | IsHeartBeat _ => on_hb
  | IsUserTask => on_user
  end.

#[export] Instance dynamic_dispatch : Virtual Q := {
  process_message this m := dispatch this (StateManager_process_message this m)
    (HeartBeat_process_message this m) (user_process_message this m);
  periodic_task_process this := dispatch this (mret tt) (HeartBeat_periodic_task_process this)
    (user_periodic_task_process this);
  transition_to_state this s := dispatch this (StateManager_transition_to_state this s)
    (Task_transition_to_state this s) (Task_transition_to_state this s)
}.

(** The factory of a user's task: the constructor, then subscriptions. *)
Fixpoint subscribe_all (this : addr) (types : list MsgType) : M Q unit :=
  match types with
  | [] => mret tt
  | ty :: types' => _ ← safe_subscribe this ty; subscribe_all this types'
  end.
Definition UserTask_create (this : addr) (task_name : string) (q : Q) (interval_ms : Z) (types : list MsgType) : M Q addr :=
  instance ← make_shared this (set_periodic_interval interval_ms (Task_new task_name q IsUserTask));
  _ ← subscribe_all instance types;
  mret instance.
End dispatch.

(** ** Calls and threads *)

Inductive call (Q : Type) :=
  | CBrokerInitialize (n : Z)
  | CPublish (m : Msg)
  | CSubscribe (task : addr) (ty : MsgType)
  | CSafePublish (p : addr) (m : Msg)
  | CDeliver (p : addr) (m : Msg)
  | CTransition (p : addr) (s : TaskState)
  | CCreateStateManager (this : addr) (q : Q)
  | CCreateHeartBeat (this : addr) (nm : string) (q : Q) (sm : addr) (interval_ms timeout_ms : Z)
  | CCreateUserTask (this : addr) (nm : string) (q : Q) (interval_ms : Z) (types : list MsgType)
  | CSetObserver (sm o : addr)
  | CRegister (sm task : addr)
  | CRequest (sm : addr) (s : TaskState)
  | CDemandBegin (sm : addr) (s : TaskState)
  | CDemandEnd (sm : addr) (s : TaskState)
  | CMark (sm task : addr)
  | CSetAction (hb : addr) (s : TaskState)
  | CStart (p : addr)
  | CStopRequest (p : addr)
  | CJoin (p : addr)
  | CDestroy (p : addr).
Arguments CBrokerInitialize {Q} n.
Arguments CPublish {Q} m.
Arguments CSubscribe {Q} task ty.
Arguments CSafePublish {Q} p m.
Arguments CDeliver {Q} p m.
Arguments CTransition {Q} p s.
Arguments CCreateStateManager {Q} this q.
Arguments CCreateHeartBeat {Q} this nm q sm interval_ms timeout_ms.
Arguments CCreateUserTask {Q} this nm q interval_ms types.
Arguments CSetObserver {Q} sm o.
Arguments CRegister {Q} sm task.
Arguments CRequest {Q} sm s.
Arguments CDemandBegin {Q} sm s.
Arguments CDemandEnd {Q} sm s.
Arguments CMark {Q} sm task.
Arguments CSetAction {Q} hb s.
Arguments CStart {Q} p.
Arguments CStopRequest {Q} p.
Arguments CJoin {Q} p.
Arguments CDestroy {Q} p.

(** The shared pointers an object holds. *)
Definition owns (d : Derived) : list addr :=
  match d with
  | IsStateManager s => task_registration_observer s :: (task_states s).*1
  | IsHeartBeat h => state_manager h :: (monitored_tasks h).*1
  | IsUserTask => []
  end.

Section steps.
Context {Q : Type} `{QueueImpl Q} `{UserTasks Q}.
Implicit Types (w : World Q) (t : Task Q).

Definition live w (p : addr) : Prop := is_Some (tasks w !! p).

#[export] Instance live_dec w p : Decision (live w p).
Proof. unfold live. apply _. Defined.

Definition ignore {A} (m : M Q A) : M Q unit := _ ← m; mret tt.

Definition run_call (c : call Q) : M Q unit :=
  match c with
  | CBrokerInitialize n => initialize n
  | CPublish m => publish m
  | CSubscribe task ty => subscribe task ty
  | CSafePublish p m => safe_publish p m
  | CDeliver p m => deliver_message p m
  | CTransition p s => transition_to_state p s
  | CCreateStateManager this q => ignore (StateManager_create this q)
  | CCreateHeartBeat this nm q sm i tmo => ignore (HeartBeat_create this nm q sm i tmo)
  | CCreateUserTask this nm q i types => ignore (UserTask_create this nm q i types)
  | CSetObserver sm o => set_task_registration_observer sm o
  | CRegister sm task => register_task sm task
  | CRequest sm s => request_state_transition sm s
  | CDemandBegin sm s => demand_begin sm s
  | CDemandEnd sm s => ignore (demand_end sm s)
  | CMark sm task => mark_task_as_unresponsive sm task
  | CSetAction hb s => set_unresponsive_action hb s
  | CStart p => start p
  | CStopRequest p => ignore (stop_request p)
  | CJoin p => ignore (_ ← join_queue_thread 0 p; join_periodic_thread 0 p)
  | CDestroy p => Task_destroy p
  end.

(** What the caller's types guarantee: a new object has an unused address; an
    argument of type [shared_ptr] is empty or owns a live object; an object
    ends when nobody owns it. *)
Definition call_ok w (c : call Q) : Prop :=
  match c with
  | CCreateStateManager this _ => 0 < this < 2 ^ 64 /\ tasks w !! this = None
  | CCreateHeartBeat this _ _ sm _ _ =>
      0 < this < 2 ^ 64 /\ tasks w !! this = None /\ (sm = nullptr \/ live w sm)
  | CCreateUserTask this _ _ _ _ => 0 < this < 2 ^ 64 /\ tasks w !! this = None
  | CSubscribe task _ => live w task
  | CSetObserver _ o => o = nullptr \/ live w o
  | CRegister _ task => live w task
  | CDestroy p => forall q t, tasks w !! q = Some t -> p ∉ owns (derived t)
  | _ => True
  end.

Inductive sys_step : World Q -> World Q -> Prop :=
  | sys_call w c w' : call_ok w c -> run_call c w = Ok (tt, w') -> sys_step w w'
  | sys_run w p r w' : run_step p w = Ok (r, w') -> sys_step w w'
  | sys_periodic w p r w' : run_periodic_step p w = Ok (r, w') -> sys_step w w'.

(** ** The invariant *)

Definition derived_ok (alive : addr -> Prop) (p : addr) (d : Derived) : Prop :=
  match d with
  | IsStateManager s =>
      pm_sorted (task_states s) /\ Forall alive (task_states s).*1 /\
      (task_registration_observer s = nullptr \/ alive (task_registration_observer s))
  | IsHeartBeat h =>
      hb_wf p h /\ Forall alive (monitored_tasks h).*1 /\ (state_manager h = nullptr \/ alive (state_manager h))
  | IsUserTask => True
  end.

Record world_wf w : Prop := {
  wf_range p : live w p -> 0 < p < 2 ^ 64;
  wf_lists : length (subscriber_lists (broker w)) = Z.to_nat MESSAGE_TYPE_COUNT;
  wf_NoDup : Forall NoDup (subscriber_lists (broker w));
  wf_derived p t : tasks w !! p = Some t -> derived_ok (live w) p (derived t)
}.

(** No object disappears. *)
Definition grows w w' : Prop := forall p, live w p -> live w' p.

(** An operation that keeps the invariant and lets no object disappear. *)
Definition keeps {A} (m : M Q A) : Prop :=
  forall w a w', world_wf w -> m w = Ok (a, w') -> world_wf w' /\ grows w w'.
End steps.

(** ** Rules *)

Section rules.
Context {Q : Type} `{QueueImpl Q}.
Implicit Types (w : World Q) (t : Task Q).

Lemma M_bind_inv {A B} (m : M Q A) (f : A -> M Q B) w b w'' :
  (m ≫= f) w = Ok (b, w'') -> exists a w', m w = Ok (a, w') /\ f a w' = Ok (b, w'').
Proof. unfold mbind, M_bind. destruct (m w) as [[a w']|e]; [|done]. by exists a, w'. Qed.

Lemma wf_here w : world_wf w -> world_wf w /\ grows w w.
Proof. intros Hw. by split; [|intros p]. Qed.

Lemma keeps_ret {A} (a : A) : keeps (Q := Q) (mret a).
Proof. intros w a' w' Hw [= <- <-]. by apply wf_here. Qed.

Lemma keeps_bind {A B} (m : M Q A) (f : A -> M Q B) : keeps m -> (forall a, keeps (f a)) -> keeps (m ≫= f).
Proof.
  intros Hm Hf w b w'' Hw (a & w' & H1 & H2)%M_bind_inv.
  destruct (Hm _ _ _ Hw H1) as [Hw' Hg]. destruct (Hf a _ _ _ Hw' H2) as [Hw'' Hg']. split; [done|].
  intros p Hp. by apply Hg', Hg.
Qed.

Lemma keeps_gets {A} (f : World Q -> A) : keeps (gets f).
Proof. intros w a w' Hw [= <- <-]. by apply wf_here. Qed.

Lemma keeps_throw {A} e : keeps (throw (Q := Q) (A := A) e).
Proof. by intros w a w' Hw. Qed.

Lemma keeps_lift {A} (r : result A) : keeps (lift (Q := Q) r).
Proof. intros w a w' Hw. unfold lift. destruct r as [x|e]; cbn; [|done]. intros [= <- <-]. by apply wf_here. Qed.

Lemma keeps_if {A} (b : bool) (m1 m2 : M Q A) : keeps m1 -> keeps m2 -> keeps (if b then m1 else m2).
Proof. by destruct b. Qed.

Lemma keeps_decide {A} P `{Decision P} (m1 m2 : M Q A) : keeps m1 -> keeps m2 -> keeps (if decide P then m1 else m2).
Proof. by destruct (decide P). Qed.

(** Worlds with the same objects and subscriber lists. *)
Lemma wf_same w w' : tasks w' = tasks w -> subscriber_lists (broker w') = subscriber_lists (broker w) ->
  world_wf w -> world_wf w' /\ grows w w'.
Proof.
  intros Ht Hb [Hr Hl Hn Hd]. split; [|intros p; unfold live; by rewrite Ht].
  split; unfold live in *; rewrite ?Ht, ?Hb; done.
Qed.

Lemma keeps_now : keeps (Q := Q) now.
Proof. intros w a w' Hw [= <- <-]. by apply wf_same. Qed.

Lemma keeps_log l c m : keeps (Q := Q) (log_entry l c m).
Proof. intros w a w' Hw [= <- <-]. by apply wf_same. Qed.

Lemma get_task_inv p w t w' : get_task p w = Ok (t, w') -> w' = w /\ tasks w !! p = Some t.
Proof. unfold get_task. destruct (tasks w !! p); [|done]. by intros [= -> ->]. Qed.

Lemma keeps_get_task p : keeps (Q := Q) (get_task p).
Proof. intros w a w' Hw [-> _]%get_task_inv. by apply wf_here. Qed.

Lemma keeps_expired p : keeps (Q := Q) (expired p).
Proof. intros w a w' Hw [= <- <-]. by apply wf_here. Qed.

(** Replacing an object by one whose derived members are in order. *)
Lemma live_insert w p t q : live w p -> live (with_task p t w) q <-> live w q.
Proof.
  intros Hp. unfold live, with_task; cbn. destruct (decide (p = q)) as [<-|Hne].
  - rewrite lookup_insert_eq. split; [done|by eexists].
  - by rewrite lookup_insert_ne.
Qed.

Lemma derived_ok_impl (P P' : addr -> Prop) p d : (forall q, P q -> P' q) -> derived_ok P p d -> derived_ok P' p d.
Proof.
  intros Hi. destruct d as [s|h|]; cbn; [| |done]; intros (? & Hf & Ho);
    (split_and!; [done|by eapply Forall_impl|destruct Ho; auto]).
Qed.

Lemma wf_put w p t t' : world_wf w -> tasks w !! p = Some t -> derived_ok (live w) p (derived t') ->
  world_wf (with_task p t' w) /\ grows w (with_task p t' w).
Proof.
  intros [Hr Hl Hn Hd] Ht Hok. assert (Hlive : live w p) by (by exists t).
  assert (Hiff : forall q, live (with_task p t' w) q <-> live w q) by (intros q; by apply live_insert).
  split; [|intros q Hq; by apply Hiff]. split; try done.
  - intros q Hq. by apply Hr, Hiff.
  - intros q u Hu. eapply derived_ok_impl; [intros x Hx; by apply Hiff|].
    unfold with_task in Hu; cbn in Hu. destruct (decide (p = q)) as [<-|Hne].
    + rewrite lookup_insert_eq in Hu. by injection Hu as <-.
    + rewrite lookup_insert_ne in Hu by done. by apply Hd.
Qed.

Lemma modify_task_inv p f w a w' :
  modify_task p f w = Ok (a, w') -> exists t, tasks w !! p = Some t /\ w' = with_task p (f t) w.
Proof.
  unfold modify_task. intros (t & w1 & [-> Ht]%get_task_inv & H1)%M_bind_inv. exists t. split; [done|].
  by injection H1 as _ <-.
Qed.

Lemma keeps_modify_task p f : (forall t, derived (f t) = derived t) -> keeps (Q := Q) (modify_task p f).
Proof.
  intros Hf w a w' Hw (t & Ht & ->)%modify_task_inv. apply (wf_put w p t); [done|done|].
  rewrite Hf. by apply (wf_derived w Hw).
Qed.

Lemma keeps_put_after_get p (g : Task Q -> M Q (Task Q)) :
  (forall t w t' w', g t w = Ok (t', w') -> w' = w /\ derived t' = derived t) ->
  keeps (t ← get_task p; t' ← g t; put_task p t').
Proof.
  intros Hg w a w' Hw (t & w1 & [-> Ht]%get_task_inv & (t' & w2 & [-> Hd]%Hg & Hput)%M_bind_inv)%M_bind_inv.
  injection Hput as _ <-. apply (wf_put w p t); [done|done|]. rewrite Hd. by apply (wf_derived w Hw).
Qed.
End rules.

#[export] Hint Resolve keeps_ret keeps_bind keeps_gets keeps_throw keeps_lift keeps_if keeps_decide keeps_now keeps_log
  keeps_get_task keeps_expired : bus.
#[export] Hint Extern 1 (keeps (modify_task _ _)) => apply keeps_modify_task; by intros : bus.

(** Take an operation apart into binds of operations with known rules. *)
Ltac keep := eauto 20 with bus.

(** ** The operations keep the invariant *)

Section base_operations.
Context {Q : Type} `{QueueImpl Q}.
Implicit Types (w : World Q) (t : Task Q).

Lemma keeps_get_name p : keeps (Q := Q) (get_name p).
Proof. unfold get_name. keep. Qed.

Lemma keeps_log_as p l c : keeps (Q := Q) (log_as p l c).
Proof. unfold log_as. pose proof keeps_get_name. keep. Qed.

(** A new queue for an object read before. *)
Lemma keeps_put_queue p (r : Task Q -> result Q) :
  keeps (t ← get_task p; q ← lift (r t); put_task p (set_message_queue q t)).
Proof.
  intros w a w' Hw (t & w1 & [-> Ht]%get_task_inv & (q & w2 & Hq & Hput)%M_bind_inv)%M_bind_inv.
  unfold lift in Hq. destruct (r t); cbn in Hq; [|done]. injection Hq as -> <-. injection Hput as _ <-.
  apply (wf_put w p t); [done|done|]. exact (wf_derived _ Hw p t Ht).
Qed.

Lemma keeps_deliver p m : keeps (Q := Q) (deliver_message p m).
Proof.
  unfold deliver_message. pose proof keeps_get_name. pose proof keeps_put_queue.
  apply keeps_bind; [keep|]. intros nm. apply keeps_bind; [keep|]. intros _.
  apply (keeps_put_queue p (fun t => q_enqueue (message_queue t) m)).
Qed.

Lemma set_subscribers_wf i l w a w' :
  world_wf w -> NoDup l -> set_subscribers i l w = Ok (a, w') -> world_wf w' /\ grows w w'.
Proof.
  intros [Hr Hl Hn Hd] Hnd [= _ <-]. split; [|by intros p]. split; cbn; try done.
  - by rewrite length_insert.
  - by apply Forall_insert.
Qed.

Lemma publish_loop_wf l m w kept w' :
  world_wf w -> publish_loop l m w = Ok (kept, w') -> world_wf w' /\ grows w w' /\ kept `sublist_of` l.
Proof.
  revert w kept w'. induction l as [|p l IH]; intros w kept w' Hw; cbn [publish_loop].
  { intros [= <- <-]. destruct (wf_here w Hw). split_and!; [done..|constructor]. }
  intros (e & w1 & He & Hrest)%M_bind_inv. destruct (keeps_expired p w e w1 Hw He) as [Hw1 Hg1]. destruct e.
  - destruct (IH _ _ _ Hw1 Hrest) as (? & Hg & ?). split_and!; [done|intros q Hq; by apply Hg, Hg1|by constructor].
  - apply M_bind_inv in Hrest as (u & w2 & Hd & Hrest). destruct (keeps_deliver p m w1 u w2 Hw1 Hd) as [Hw2 Hg2].
    apply M_bind_inv in Hrest as (k & w3 & Hk & [= <- <-]). destruct (IH _ _ _ Hw2 Hk) as (? & Hg & ?).
    split_and!; [done|intros q Hq; by apply Hg, Hg2, Hg1|by constructor].
Qed.

Lemma keeps_type_index ty : keeps (Q := Q) (type_index ty).
Proof. unfold type_index. keep. Qed.

Lemma wf_list w i : world_wf w -> NoDup (default [] (subscriber_lists (broker w) !! i)).
Proof.
  intros Hw. destruct (subscriber_lists (broker w) !! i) eqn:Hi; [|constructor].
  by eapply Forall_lookup_1 in Hi; [|apply (wf_NoDup w Hw)].
Qed.

Lemma keeps_publish m : keeps (Q := Q) (publish m).
Proof.
  intros w a w' Hw (i & w1 & Hi & (l & w2 & [= <- <-] & (kept & w3 & Hl & Hs)%M_bind_inv)%M_bind_inv)%M_bind_inv.
  destruct (keeps_type_index _ _ _ _ Hw Hi) as [Hw1 Hg1].
  destruct (publish_loop_wf _ _ _ _ _ Hw1 Hl) as (Hw3 & Hg3 & Hsub).
  destruct (set_subscribers_wf _ _ _ _ _ Hw3 (sublist_NoDup _ _ (wf_list w1 i Hw1) Hsub) Hs) as [Hw' Hg'].
  split; [done|]. intros p Hp. by apply Hg', Hg3, Hg1.
Qed.

Lemma find_if_inv task l w b w' :
  find_if task l w = Ok (b, w') -> w' = w /\ (b = false -> live w task -> task ∉ l).
Proof.
  revert b w'. induction l as [|p l IH]; intros b w'; cbn [find_if].
  { intros [= <- <-]. split; [done|]. intros _ _. apply not_elem_of_nil. }
  intros (c & w1 & Hc & Hrest)%M_bind_inv. apply M_bind_inv in Hc as (e & w0 & [= <- <-] & [= <- <-]).
  destruct (decide (p = task)) as [->|Hp].
  - rewrite (bool_decide_true (task = task)) in Hrest by done.
    destruct (decide (live w task)) as [Hlive|Hdead].
    + rewrite (bool_decide_true (is_Some _)) in Hrest by done. injection Hrest as <- <-. by split.
    + rewrite (bool_decide_false (is_Some _)) in Hrest by done. by destruct (IH b w' Hrest) as [-> _].
  - rewrite (bool_decide_false (p = task)), andb_false_r in Hrest by done.
    destruct (IH b w' Hrest) as [-> Hb]. split; [done|].
    intros Hf Ht. apply not_elem_of_cons. split; [by apply not_eq_sym|by apply Hb].
Qed.

Lemma subscribe_wf task ty w a w' :
  world_wf w -> live w task -> subscribe task ty w = Ok (a, w') -> world_wf w' /\ grows w w'.
Proof.
  intros Hw Ht (i & w1 & Hi & (l & w2 & [= <- <-] & (b & w3 & Hf & Hs)%M_bind_inv)%M_bind_inv)%M_bind_inv.
  destruct (keeps_type_index _ _ _ _ Hw Hi) as [Hw1 Hg1]. destruct (find_if_inv _ _ _ _ _ Hf) as [-> Hb].
  destruct b; [injection Hs as _ <-; by split|].
  destruct (set_subscribers_wf i (default [] (subscriber_lists (broker w1) !! i) ++ [task]) w1 a w' Hw1) as [Hw' Hg']; [|done|].
  - apply NoDup_app. split_and!; [by apply wf_list| |apply NoDup_singleton].
    intros x Hx ->%list_elem_of_singleton. by apply (Hb eq_refl (Hg1 _ Ht)).
  - split; [done|]. intros p Hp. by apply Hg', Hg1.
Qed.

Lemma shared_from_this_inv p w q w' : shared_from_this p w = Ok (q, w') -> q = p /\ w' = w /\ live w p.
Proof.
  intros (e & w1 & [= <- <-] & Hrest)%M_bind_inv. case_bool_decide as Hl; cbn in Hrest; [|done].
  by injection Hrest as <- <-.
Qed.

Lemma keeps_safe_publish p m : keeps (Q := Q) (safe_publish p m).
Proof.
  unfold safe_publish, shared_from_this. pose proof keeps_publish. keep.
Qed.

Lemma keeps_safe_subscribe p ty : keeps (Q := Q) (safe_subscribe p ty).
Proof.
  intros w a w' Hw (q & w1 & (-> & -> & Hl)%shared_from_this_inv & (u & w2 & Hu & Hs)%M_bind_inv)%M_bind_inv.
  destruct (keeps_lift _ _ _ _ Hw Hu) as [Hw2 Hg2].
  destruct (subscribe_wf _ _ _ _ _ Hw2 (Hg2 _ Hl) Hs) as [Hw' Hg']. split; [done|]. intros x Hx. by apply Hg', Hg2.
Qed.

Lemma keeps_announce p t : keeps (announce_state p t).
Proof. unfold announce_state. pose proof keeps_safe_publish. keep. Qed.

Lemma keeps_Task_transition p s : keeps (Q := Q) (Task_transition_to_state p s).
Proof. unfold Task_transition_to_state. pose proof keeps_announce. keep. Qed.

Lemma keeps_start p : keeps (Q := Q) (start p).
Proof.
  unfold start, is_running. repeat first [apply keeps_modify_task; by intros | apply keeps_bind; [keep|intros ?]
                                            | apply keeps_if; [keep|] | apply keeps_decide; [|keep]].
Qed.

Lemma make_shared_wf p t w a w' :
  world_wf w -> 0 < p < 2 ^ 64 -> tasks w !! p = None -> derived_ok (live w) p (derived t) ->
  make_shared p t w = Ok (a, w') -> world_wf w' /\ grows w w' /\ a = p.
Proof.
  intros [Hr Hl Hn Hd] Hp Hnone Hok. unfold make_shared. intros (u & w1 & [= <- <-] & [= <- <-])%M_bind_inv.
  assert (Hg : grows w (with_task p t w)).
  { intros q [x Hx]. unfold live, with_task; cbn. destruct (decide (p = q)) as [<-|Hne].
    - rewrite lookup_insert_eq. by eexists.
    - rewrite lookup_insert_ne by done. by exists x. }
  split_and!; [|done|done]. split; try done.
  - intros q [x Hx]. cbn in Hx. destruct (decide (p = q)) as [<-|Hne]; [done|].
    rewrite lookup_insert_ne in Hx by done. apply Hr. by exists x.
  - intros q u Hu. apply (derived_ok_impl (live w)); [done|]. cbn in Hu. destruct (decide (p = q)) as [<-|Hne].
    + rewrite lookup_insert_eq in Hu. by injection Hu as <-.
    + rewrite lookup_insert_ne in Hu by done. by apply Hd.
Qed.
End base_operations.
#[export] Hint Resolve keeps_get_name keeps_log_as keeps_deliver keeps_publish keeps_safe_publish keeps_safe_subscribe
  keeps_announce keeps_Task_transition keeps_start : bus.

Section derived_operations.
Context {Q : Type} `{QueueImpl Q}.
Implicit Types (w : World Q) (t : Task Q).

Lemma get_sm_inv p w s w' :
  get_sm p w = Ok (s, w') -> w' = w /\ exists t, tasks w !! p = Some t /\ derived t = IsStateManager s.
Proof.
  intros (t & w1 & [-> Ht]%get_task_inv & Hs)%M_bind_inv. destruct (derived t) as [s'| |] eqn:Hd; [|done..].
  injection Hs as <- <-. split; [done|]. by exists t.
Qed.

Lemma get_hb_inv p w h w' :
  get_hb p w = Ok (h, w') -> w' = w /\ exists t, tasks w !! p = Some t /\ derived t = IsHeartBeat h.
Proof.
  intros (t & w1 & [-> Ht]%get_task_inv & Hs)%M_bind_inv. destruct (derived t) as [|h'|] eqn:Hd; [done| |done].
  injection Hs as <- <-. split; [done|]. by exists t.
Qed.

Lemma keeps_get_sm p : keeps (Q := Q) (get_sm p).
Proof. intros w a w' Hw [-> _]%get_sm_inv. by apply wf_here. Qed.

Lemma keeps_get_hb p : keeps (Q := Q) (get_hb p).
Proof. intros w a w' Hw [-> _]%get_hb_inv. by apply wf_here. Qed.

(** An assignment to the members of a derived class. *)
Lemma modify_sm_wf p f w a w' :
  world_wf w ->
  (forall s, derived_ok (live w) p (IsStateManager s) -> derived_ok (live w) p (IsStateManager (f s))) ->
  modify_sm p f w = Ok (a, w') -> world_wf w' /\ grows w w'.
Proof.
  intros Hw Hf (s & w1 & [-> (t & Ht & Hd)]%get_sm_inv & (t' & Ht' & ->)%modify_task_inv)%M_bind_inv.
  rewrite Ht in Ht'. injection Ht' as <-. apply (wf_put w p t); [done|done|]. apply Hf.
  rewrite <- Hd. by apply (wf_derived w Hw).
Qed.

Lemma modify_hb_wf p f w a w' :
  world_wf w ->
  (forall h, derived_ok (live w) p (IsHeartBeat h) -> derived_ok (live w) p (IsHeartBeat (f h))) ->
  modify_hb p f w = Ok (a, w') -> world_wf w' /\ grows w w'.
Proof.
  intros Hw Hf (h & w1 & [-> (t & Ht & Hd)]%get_hb_inv & (t' & Ht' & ->)%modify_task_inv)%M_bind_inv.
  rewrite Ht in Ht'. injection Ht' as <-. apply (wf_put w p t); [done|done|]. apply Hf.
  rewrite <- Hd. by apply (wf_derived w Hw).
Qed.

Lemma Forall_assign {V} (P : addr -> Prop) p (v : V) m :
  P p -> Forall P m.*1 -> Forall P (pm_assign p v m).*1.
Proof.
  rewrite !Forall_forall. intros Hp Hm k Hk. apply pm_assign_keys in Hk as [->|Hk]; [done|by apply Hm].
Qed.

(** Recording a state for a live task. *)
Lemma record_state_wf p task x w a w' :
  world_wf w -> live w task ->
  modify_sm p (fun s => set_task_states (pm_assign task x (task_states s)) s) w = Ok (a, w') ->
  world_wf w' /\ grows w w'.
Proof.
  intros Hw Ht. apply modify_sm_wf; [done|]. intros s (Hs & Hf & Ho). cbn. split_and!; [|by apply Forall_assign|done].
  by apply pm_assign_sorted.
Qed.

(** Assigning the status of a live task other than the heartbeat task. *)
Lemma assign_status_wf p task st w a w' :
  world_wf w -> live w task -> task <> p -> modify_hb p (assign_status task st) w = Ok (a, w') ->
  world_wf w' /\ grows w w'.
Proof.
  intros Hw Ht Hne. apply modify_hb_wf; [done|]. intros h ([Hs Hself Hid] & Hf & Ho). cbn.
  split_and!; [|by apply Forall_assign|done]. split; [by apply pm_assign_sorted| |done].
  cbn. rewrite pm_assign_keys. by intros [->|].
Qed.

Lemma keeps_modify_sm_fields p f :
  (forall s, task_states (f s) = task_states s /\ task_registration_observer (f s) = task_registration_observer s) ->
  keeps (Q := Q) (modify_sm p f).
Proof.
  intros Hf w a w' Hw. apply modify_sm_wf; [done|]. intros s. destruct (Hf s) as [H1 H2]. cbn. by rewrite H1, H2.
Qed.

Lemma keeps_sm_transition p x : keeps (Q := Q) (StateManager_transition_to_state p x).
Proof.
  unfold StateManager_transition_to_state. apply keeps_bind; [keep|intros _].
  apply keeps_bind; [by apply keeps_modify_sm_fields|intros _]. keep.
Qed.

Lemma keeps_demand_begin p x : keeps (Q := Q) (demand_begin p x).
Proof.
  unfold demand_begin. apply keeps_bind; [keep|intros _].
  apply keeps_bind; [by apply keeps_modify_sm_fields|intros _]. apply keeps_sm_transition.
Qed.

Lemma keeps_laggards p x pairs : keeps (Q := Q) (log_laggards p x pairs).
Proof.
  induction pairs as [|[k y] pairs IH]; cbn [log_laggards]; [keep|].
  apply keeps_bind; [apply keeps_decide; keep|done].
Qed.

Lemma keeps_demand_end p x : keeps (Q := Q) (demand_end p x).
Proof.
  unfold demand_end, all_tasks_in_state. pose proof keeps_get_sm. pose proof keeps_laggards.
  apply keeps_bind; [keep|intros b]. apply keeps_bind; [apply keeps_if; keep|keep].
Qed.

Lemma keeps_mark p task : keeps (Q := Q) (mark_task_as_unresponsive p task).
Proof.
  intros w a w' Hw (nm & w1 & Hnm & Hrest)%M_bind_inv.
  assert (Hlive : live w task).
  { apply M_bind_inv in Hnm as (t & w0 & [_ Ht]%get_task_inv & _). by exists t. }
  destruct (keeps_get_name _ _ _ _ Hw Hnm) as [Hw1 Hg1].
  apply M_bind_inv in Hrest as (u1 & w2 & Hl & Hrest). destruct (keeps_log_as _ _ _ _ _ _ Hw1 Hl) as [Hw2 Hg2].
  apply M_bind_inv in Hrest as (m & w3 & Hm & Hrest). destruct (keeps_lift _ _ _ _ Hw2 Hm) as [Hw3 Hg3].
  apply M_bind_inv in Hrest as (u2 & w4 & Hd & Hrest). destruct (keeps_deliver _ _ _ _ _ Hw3 Hd) as [Hw4 Hg4].
  destruct (record_state_wf p task ERROR w4 a w' Hw4) as [Hw' Hg']; [by apply Hg4, Hg3, Hg2, Hg1|done|].
  split; [done|]. intros q Hq. by apply Hg', Hg4, Hg3, Hg2, Hg1.
Qed.

Lemma keeps_sm_ack p m : keeps (Q := Q) (handle_acknowledgment p m).
Proof.
  unfold handle_acknowledgment. case_decide as Hn; [keep|].
  intros w b w' Hw (s & w1 & [-> (t & Ht & Hd)]%get_sm_inv & Hrest)%M_bind_inv. rewrite find_raw_spec in Hrest.
  pose proof (wf_derived w Hw p t Ht) as Hok. rewrite Hd in Hok. destruct Hok as (_ & Hf & _).
  destruct (decide (get_sender m ∈ (task_states s).*1)) as [Hin|Hin]; [|revert Hrest; by apply (keeps_bind _ _ (keeps_log_as _ _ _)); [keep|]].
  destruct (get_data_as AStateAckMsg m) as [ack|]; [|revert Hrest; by apply (keeps_bind _ _ (keeps_log_as _ _ _)); [keep|]].
  apply M_bind_inv in Hrest as (u & w1 & Hmod & Hrest).
  destruct (record_state_wf _ _ _ _ _ _ Hw (proj1 (Forall_forall _ _) Hf _ Hin) Hmod) as [Hw1 Hg1].
  pose proof (keeps_get_sm p) as Hget.
  assert (Hk : keeps (Q := Q) (nm ← get_name (get_sender m);
            _ ← log_as p INFO ("Task " +:+ nm +:+ " acknowledged transition to state " +:+ task_state_to_string (state_of_byte (sa_state ack)));
            s ← get_sm p;
            match target_state s with
            | None => throw (UB "read of the uninitialised target_state")
            | Some target => mret (all_in_state target (task_states s))
            end)).
  { apply keeps_bind; [keep|intros nm]. apply keeps_bind; [keep|intros _]. apply keeps_bind; [done|intros s'].
    destruct (target_state s'); keep. }
  destruct (Hk _ _ _ Hw1 Hrest) as [Hw' Hg']. split; [done|]. intros q Hq. by apply Hg', Hg1.
Qed.
End derived_operations.
#[export] Hint Resolve keeps_get_sm keeps_get_hb keeps_sm_transition keeps_demand_begin keeps_demand_end keeps_mark
  keeps_sm_ack : bus.

Section heartbeat_operations.
Context {Q : Type} `{QueueImpl Q}.
Implicit Types (w : World Q) (t : Task Q).

(** The tasks a loop of the heartbeat task goes through: live, and not itself. *)
Definition others_live w (p : addr) (pairs : ptr_map TaskStatus) : Prop :=
  Forall (fun k => live w k /\ k <> p) pairs.*1.

Lemma others_live_grows w w' p pairs : grows w w' -> others_live w p pairs -> others_live w' p pairs.
Proof. intros Hg Hl. eapply Forall_impl; [exact Hl|]. intros k [Hk Hne]. split; [by apply Hg|done]. Qed.

Lemma monitored_others_live w p h t :
  world_wf w -> tasks w !! p = Some t -> derived t = IsHeartBeat h -> others_live w p (monitored_tasks h).
Proof.
  intros Hw Ht Hd. pose proof (wf_derived w Hw p t Ht) as Hok. rewrite Hd in Hok. destruct Hok as ([_ Hself _] & Hf & _).
  rewrite Forall_forall in Hf. apply Forall_forall. intros k Hk. split; [by apply Hf|]. by intros ->.
Qed.

Lemma keeps_handle_unresponsive p task : keeps (Q := Q) (handle_unresponsive_task p task).
Proof. unfold handle_unresponsive_task. apply keeps_bind; [keep|intros h]. apply keeps_decide; keep. Qed.

Lemma keeps_generate_id p : keeps (Q := Q) (generate_heartbeat_id p).
Proof.
  unfold generate_heartbeat_id. apply keeps_bind; [keep|intros h]. apply keeps_bind; [|keep].
  intros w a w' Hw. apply modify_hb_wf; [done|]. intros h' ([Hs Hself Hid] & Hf & Ho). cbn.
  split_and!; [|done|done]. split; [done|done|apply u32_range].
Qed.

Lemma check_loop_wf p time_ns pairs w a w' :
  world_wf w -> others_live w p pairs -> check_loop p time_ns pairs w = Ok (a, w') -> world_wf w' /\ grows w w'.
Proof.
  revert w a w'. induction pairs as [|[k st] pairs IH]; intros w a w' Hw Hl; cbn [check_loop].
  { intros [= <- <-]. by apply wf_here. }
  apply Forall_cons in Hl as [[Hk Hne] Hl].
  intros (h & w0 & [-> _]%get_hb_inv & (u & w1 & Hone & Hrest)%M_bind_inv)%M_bind_inv.
  assert (Hw1 : world_wf w1 /\ grows w w1).
  { destruct (timed_out time_ns (response_timeout_ms h) st); [|injection Hone as _ <-; by apply wf_here].
    apply M_bind_inv in Hone as (nm & w2 & Hnm & Hone). destruct (keeps_get_name _ _ _ _ Hw Hnm) as [Hw2 Hg2].
    apply M_bind_inv in Hone as (u2 & w3 & Hlog & Hone). destruct (keeps_log_as _ _ _ _ _ _ Hw2 Hlog) as [Hw3 Hg3].
    apply M_bind_inv in Hone as (u3 & w4 & Hun & Hone). destruct (keeps_handle_unresponsive _ _ _ _ _ Hw3 Hun) as [Hw4 Hg4].
    destruct (assign_status_wf _ _ _ _ _ _ Hw4 (Hg4 _ (Hg3 _ (Hg2 _ Hk))) Hne Hone) as [Hw5 Hg5].
    split; [done|]. intros q Hq. by apply Hg5, Hg4, Hg3, Hg2. }
  destruct Hw1 as [Hw1 Hg1]. destruct (IH w1 a w' Hw1 (others_live_grows _ _ _ _ Hg1 Hl) Hrest) as [Hw' Hg'].
  split; [done|]. intros q Hq. by apply Hg', Hg1.
Qed.

Lemma keeps_check p : keeps (Q := Q) (check_for_timeouts p).
Proof.
  intros w a w' Hw (c & w1 & Hc & (h & w2 & [-> (t & Ht & Hd)]%get_hb_inv & Hl)%M_bind_inv)%M_bind_inv.
  destruct (keeps_now _ _ _ Hw Hc) as [Hw1 Hg1].
  destruct (check_loop_wf _ _ _ _ _ _ Hw1 (monitored_others_live w1 p h t Hw1 Ht Hd) Hl) as [Hw' Hg'].
  split; [done|]. intros q Hq. by apply Hg', Hg1.
Qed.

Lemma send_loop_wf p pairs w a w' :
  world_wf w -> others_live w p pairs -> send_loop p pairs w = Ok (a, w') -> world_wf w' /\ grows w w'.
Proof.
  revert w a w'. induction pairs as [|[k st] pairs IH]; intros w a w' Hw Hl; cbn [send_loop].
  { intros [= <- <-]. by apply wf_here. }
  apply Forall_cons in Hl as [[Hk Hne] Hl]. intros (u & w1 & Hone & Hrest)%M_bind_inv.
  assert (Hw1 : world_wf w1 /\ grows w w1).
  { destruct (awaiting_response st); [injection Hone as _ <-; by apply wf_here|].
    apply M_bind_inv in Hone as (c & w2 & Hc & Hone). destruct (keeps_now _ _ _ Hw Hc) as [Hw2 Hg2].
    apply M_bind_inv in Hone as (id & w3 & Hid & Hone). destruct (keeps_generate_id _ _ _ _ Hw2 Hid) as [Hw3 Hg3].
    apply M_bind_inv in Hone as (m & w4 & Hm & Hone). destruct (keeps_lift _ _ _ _ Hw3 Hm) as [Hw4 Hg4].
    apply M_bind_inv in Hone as (u5 & w5 & Has & Hone).
    destruct (assign_status_wf _ _ _ _ _ _ Hw4 (Hg4 _ (Hg3 _ (Hg2 _ Hk))) Hne Has) as [Hw5 Hg5].
    destruct (keeps_deliver _ _ _ _ _ Hw5 Hone) as [Hw6 Hg6]. split; [done|]. intros q Hq. by apply Hg6, Hg5, Hg4, Hg3, Hg2. }
  destruct Hw1 as [Hw1 Hg1]. destruct (IH w1 a w' Hw1 (others_live_grows _ _ _ _ Hg1 Hl) Hrest) as [Hw' Hg'].
  split; [done|]. intros q Hq. by apply Hg', Hg1.
Qed.

Lemma keeps_send p : keeps (Q := Q) (send_heartbeat p).
Proof.
  intros w a w' Hw (h & w1 & [-> (t & Ht & Hd)]%get_hb_inv & Hl)%M_bind_inv.
  by apply (send_loop_wf _ _ _ _ _ Hw (monitored_others_live w p h t Hw Ht Hd) Hl).
Qed.

Lemma ack_loop_wf p sender ack pairs w a w' :
  world_wf w -> others_live w p pairs -> ack_loop p sender ack pairs w = Ok (a, w') -> world_wf w' /\ grows w w'.
Proof.
  revert w a w'. induction pairs as [|[k st] pairs IH]; intros w a w' Hw Hl; cbn [ack_loop].
  { intros [= <- <-]. by apply wf_here. }
  apply Forall_cons in Hl as [[Hk Hne] Hl]. case_decide; [|by apply IH]. destruct ack as [ack|]; [|done].
  case_decide; [|intros [= <- <-]; by apply wf_here].
  intros (c & w1 & Hc & (u & w2 & Has & Hrest)%M_bind_inv)%M_bind_inv.
  destruct (keeps_now _ _ _ Hw Hc) as [Hw1 Hg1].
  destruct (assign_status_wf _ _ _ _ _ _ Hw1 (Hg1 _ Hk) Hne Has) as [Hw2 Hg2].
  destruct (keeps_bind _ _ (keeps_get_name k) (fun nm => keeps_log_as p INFO _) _ _ _ Hw2 Hrest) as [Hw' Hg'].
  split; [done|]. intros q Hq. by apply Hg', Hg2, Hg1.
Qed.

Lemma keeps_hb_ack p m : keeps (Q := Q) (HeartBeat_handle_acknowledgment p m).
Proof.
  intros w a w' Hw (h & w1 & [-> (t & Ht & Hd)]%get_hb_inv & Hl)%M_bind_inv.
  by apply (ack_loop_wf _ _ _ _ _ _ _ Hw (monitored_others_live w p h t Hw Ht Hd) Hl).
Qed.

Lemma keeps_hb_process p m : keeps (Q := Q) (HeartBeat_process_message p m).
Proof.
  unfold HeartBeat_process_message. pose proof keeps_hb_ack.
  apply keeps_decide; [destruct (get_data_as AStateMsg m); keep|]. apply keeps_decide; keep.
Qed.

Lemma keeps_hb_periodic p : keeps (Q := Q) (HeartBeat_periodic_task_process p).
Proof.
  unfold HeartBeat_periodic_task_process, get_current_state. pose proof keeps_check. pose proof keeps_send.
  apply keeps_bind; [keep|intros _]. apply keeps_bind; [keep|intros s]. apply keeps_decide; keep.
Qed.

Lemma keeps_sm_process p m : keeps (Q := Q) (StateManager_process_message p m).
Proof. unfold StateManager_process_message. apply keeps_decide; keep. Qed.

Lemma notify_registered_wf p task w a w' :
  world_wf w -> live w task -> HeartBeat_notify_task_registered p task w = Ok (a, w') -> world_wf w' /\ grows w w'.
Proof.
  intros Hw Ht. unfold HeartBeat_notify_task_registered. case_decide as Hne; [intros [= <- <-]; by apply wf_here|].
  intros (h & w1 & [-> _]%get_hb_inv & Hrest)%M_bind_inv.
  destruct (pm_find task (monitored_tasks h)); [injection Hrest as _ <-; by apply wf_here|].
  apply M_bind_inv in Hrest as (c & w1 & Hc & Has). destruct (keeps_now _ _ _ Hw Hc) as [Hw1 Hg1].
  destruct (assign_status_wf _ _ _ _ _ _ Hw1 (Hg1 _ Ht) Hne Has) as [Hw' Hg']. split; [done|]. intros q Hq. by apply Hg', Hg1.
Qed.

Lemma register_task_wf p task w a w' :
  world_wf w -> live w task -> register_task p task w = Ok (a, w') -> world_wf w' /\ grows w w'.
Proof.
  intros Hw Ht (u & w1 & Hmod & (s & w2 & [-> _]%get_sm_inv & Hrest)%M_bind_inv)%M_bind_inv.
  destruct (record_state_wf _ _ _ _ _ _ Hw Ht Hmod) as [Hw1 Hg1].
  case_decide; [injection Hrest as _ <-; by split|].
  apply M_bind_inv in Hrest as (o & w2 & [-> _]%get_task_inv & Hrest).
  destruct (derived o); [injection Hrest as _ <-; by split| |injection Hrest as _ <-; by split].
  destruct (notify_registered_wf _ _ _ _ _ Hw1 (Hg1 _ Ht) Hrest) as [Hw' Hg']. split; [done|]. intros q Hq. by apply Hg', Hg1.
Qed.

Lemma set_observer_wf p o w a w' :
  world_wf w -> (o = nullptr \/ live w o) -> set_task_registration_observer p o w = Ok (a, w') ->
  world_wf w' /\ grows w w'.
Proof. intros Hw Ho. apply modify_sm_wf; [done|]. intros s (? & ? & _). by split_and!. Qed.

Lemma hb_on_initialize_wf p : keeps (Q := Q) (HeartBeat_on_initialize p).
Proof.
  intros w a w' Hw (u1 & w1 & H1 & (u2 & w2 & H2 & (h & w3 & [-> _]%get_hb_inv & Hrest)%M_bind_inv)%M_bind_inv)%M_bind_inv.
  destruct (keeps_safe_subscribe _ _ _ _ _ Hw H1) as [Hw1 Hg1]. destruct (keeps_safe_subscribe _ _ _ _ _ Hw1 H2) as [Hw2 Hg2].
  assert (Hw' : world_wf w' /\ grows w2 w').
  { case_decide; [injection Hrest as _ <-; by apply wf_here|].
    apply M_bind_inv in Hrest as (self & w3 & (-> & -> & Hl)%shared_from_this_inv & Hset).
    eapply set_observer_wf; [exact Hw2|by right|exact Hset]. }
  destruct Hw' as [Hw' Hg']. split; [done|]. intros q Hq. by apply Hg', Hg2, Hg1.
Qed.

Lemma keeps_subscribe_all p types : keeps (Q := Q) (subscribe_all p types).
Proof. induction types as [|ty types IH]; cbn [subscribe_all]; keep. Qed.
End heartbeat_operations.
#[export] Hint Resolve keeps_hb_process keeps_hb_periodic keeps_sm_process keeps_subscribe_all hb_on_initialize_wf : bus.

(** ** The steps keep the invariant *)

Section invariant.
Context {Q : Type} `{QueueImpl Q} `{UserTasks Q}.
Implicit Types (w : World Q) (t : Task Q).

(** The user's handlers use the bus through its interface only. *)
Context (user_keeps : forall p m, keeps (user_process_message p m)).
Context (user_periodic_keeps : forall p, keeps (user_periodic_task_process p)).

Lemma keeps_dispatch {A} p (m1 m2 m3 : M Q A) : keeps m1 -> keeps m2 -> keeps m3 -> keeps (dispatch p m1 m2 m3).
Proof. intros. unfold dispatch. apply keeps_bind; [keep|intros t]. by destruct (derived t). Qed.

Lemma keeps_process_message p m : keeps (process_message p m).
Proof. apply keeps_dispatch; keep. Qed.

Lemma keeps_periodic p : keeps (periodic_task_process p).
Proof. apply keeps_dispatch; keep. Qed.

Lemma keeps_transition p s : keeps (transition_to_state p s).
Proof. apply keeps_dispatch; keep. Qed.

Lemma keeps_set_queue_thread {A} p s (r : A) : keeps (Q := Q) (_ ← modify_task p (set_queue_thread s); mret r).
Proof. apply keeps_bind; [by apply keeps_modify_task|intros _; apply keeps_ret]. Qed.

Lemma keeps_run_step p : keeps (run_step p).
Proof.
  intros w a w' Hw (t & w1 & [-> Ht]%get_task_inv & Hrest)%M_bind_inv.
  destruct (queue_thread t); try (injection Hrest as _ <-; by apply wf_here).
  - by apply (keeps_set_queue_thread _ _ _ _ _ _ Hw Hrest).
  - apply M_bind_inv in Hrest as ([opt q] & w1 & Hq & Hrest). destruct (keeps_lift _ _ _ _ Hw Hq) as [Hw1 Hg1].
    destruct opt as [|opt]; [injection Hrest as _ <-; by split|].
    assert (Hw1t : tasks w1 !! p = Some t).
    { unfold lift in Hq. destruct (q_dequeue (message_queue t)) as [[o' q']|]; cbn in Hq; [|done]. by injection Hq as _ _ <-. }
    apply M_bind_inv in Hrest as (u2 & w2 & [= _ <-] & Hrest).
    destruct (wf_put w1 p t (set_message_queue q t) Hw1 Hw1t) as [Hw2 Hg2]; [exact (wf_derived w1 Hw1 p t Hw1t)|].
    apply M_bind_inv in Hrest as (u3 & w3 & H3 & Hrest).
    assert (Hw3 : world_wf w3 /\ grows (with_task p (set_message_queue q t) w1) w3).
    { destruct opt as [m|]; [by apply (keeps_process_message p m _ u3)|injection H3 as _ <-; by apply wf_here]. }
    destruct Hw3 as [Hw3 Hg3].
    destruct (keeps_set_queue_thread _ _ _ _ _ _ Hw3 Hrest) as [Hw' Hg']. split; [done|]. intros x Hx. by apply Hg', Hg3, Hg2, Hg1.
Qed.

Lemma keeps_periodic_step p : keeps (run_periodic_step p).
Proof.
  unfold run_periodic_step. pose proof keeps_periodic. apply keeps_bind; [keep|intros t].
  destruct (periodic_thread t); [keep| |keep| |keep].
  - apply keeps_if; [|apply keeps_bind; [keep|intros _; keep]]. apply keeps_bind; [keep|intros _].
    apply keeps_bind; [keep|intros c]. apply keeps_bind; [keep|intros t']. apply keeps_bind; [keep|intros _; keep].
  - apply keeps_bind; [keep|intros c]. apply keeps_decide; [keep|]. apply keeps_bind; [keep|intros _; keep].
Qed.

Lemma keeps_stop_request p : keeps (stop_request p).
Proof.
  unfold stop_request, is_running. pose proof keeps_transition. apply keeps_bind; [keep|intros r]. apply keeps_if; [|keep].
  apply keeps_bind; [keep|intros _]. apply keeps_bind; [keep|intros _].
  intros w a w' Hw (t & w1 & [-> Ht]%get_task_inv & (u & w2 & [= _ <-] & [= _ <-])%M_bind_inv)%M_bind_inv.
  apply (wf_put w p t); [done|done|]. exact (wf_derived w Hw p t Ht).
Qed.

Lemma keeps_join p : keeps (_ ← join_queue_thread 0 p; join_periodic_thread 0 p).
Proof.
  cbn [join_queue_thread join_periodic_thread]. apply keeps_bind; [|intros _].
  - apply keeps_bind; [keep|intros t]. destruct (queue_thread t); keep.
  - apply keeps_bind; [keep|intros t]. destruct (periodic_thread t); keep.
Qed.

Lemma noexcept_inv {A} (m : M Q A) w a w' : noexcept m w = Ok (a, w') -> m w = Ok (a, w').
Proof. unfold noexcept. by destruct (m w) as [|[]]. Qed.

Lemma drop_wf p w : world_wf w -> (forall q t, tasks w !! q = Some t -> p ∉ owns (derived t)) ->
  world_wf (set_tasks (delete p (tasks w)) w).
Proof.
  intros [Hr Hl Hn Hd] Hown. split; try done.
  - intros q [t Ht]. cbn in Ht. apply lookup_delete_Some in Ht as [_ Ht]. apply Hr. by exists t.
  - intros q t. cbn. intros [_ Ht]%lookup_delete_Some. specialize (Hown q t Ht). specialize (Hd q t Ht).
    assert (Hlive : forall x, live w x -> x <> p -> live (set_tasks (delete p (tasks w)) w) x)
      by (intros x Hx Hne; unfold live; cbn; by rewrite lookup_delete_ne by (by apply not_eq_sym)).
    assert (Hall : forall l, Forall (live w) l -> p ∉ l -> Forall (live (set_tasks (delete p (tasks w)) w)) l).
    { intros l Hf Hp. rewrite Forall_forall in Hf. apply Forall_forall. intros x Hx.
      apply Hlive; [by apply Hf|]. by intros ->. }
    destruct (derived t) as [s|h|]; cbn in *; [| |done]; apply not_elem_of_cons in Hown as [Hne Hown];
      destruct Hd as (H1 & H2 & H3); split_and!; try done; try (by apply Hall);
      (destruct H3 as [H3|H3]; [by left|right]; by apply Hlive; [|apply not_eq_sym]).
Qed.

Lemma destroy_wf p w a w' :
  world_wf w -> (forall q t, tasks w !! q = Some t -> p ∉ owns (derived t)) ->
  Task_destroy p w = Ok (a, w') -> world_wf w'.
Proof.
  intros Hw Hown (t & w1 & [-> Ht]%get_task_inv & (u & w0 & [= _ <-] & (u2 & w2 & H2%noexcept_inv & Hrest)%M_bind_inv)%M_bind_inv)%M_bind_inv.
  pose proof (drop_wf p w Hw Hown) as Hw1.
  assert (Hw2 : world_wf w2).
  { destruct (running t); [|by injection H2 as _ <-].
    destruct (keeps_announce _ _ _ _ _ Hw1 H2) as [Hw2 _]. exact Hw2. }
  destruct (joinable (queue_thread t) || joinable (periodic_thread t)); [done|by injection Hrest as _ <-].
Qed.

(** Creating an object and initialising it. *)
Lemma create_wf p t (init : addr -> M Q unit) w a w' :
  world_wf w -> 0 < p < 2 ^ 64 -> tasks w !! p = None -> derived_ok (live w) p (derived t) -> (forall q, keeps (init q)) ->
  (instance ← make_shared p t; _ ← init instance; mret instance) w = Ok (a, w') -> world_wf w'.
Proof.
  intros Hw Hp Hnone Hok Hinit (i & w1 & H1 & (u & w2 & H2 & [= _ <-])%M_bind_inv)%M_bind_inv.
  destruct (make_shared_wf p t w i w1 Hw Hp Hnone Hok H1) as (Hw1 & _ & ->). by destruct (Hinit p _ _ _ Hw1 H2).
Qed.

Lemma ignore_inv {A} (m : M Q A) w u w' : ignore m w = Ok (u, w') -> exists a, m w = Ok (a, w').
Proof. intros (a & w1 & H1 & [= _ <-])%M_bind_inv. by exists a. Qed.

Lemma run_call_wf c w w' : world_wf w -> call_ok w c -> run_call c w = Ok (tt, w') -> world_wf w'.
Proof.
  intros Hw Hok. destruct c; cbn [run_call call_ok] in *; intros Hrun.
  - injection Hrun as <-. by apply (wf_same w).
  - by destruct (keeps_publish _ _ _ _ Hw Hrun).
  - by destruct (subscribe_wf _ _ _ _ _ Hw Hok Hrun).
  - by destruct (keeps_safe_publish _ _ _ _ _ Hw Hrun).
  - by destruct (keeps_deliver _ _ _ _ _ Hw Hrun).
  - by destruct (keeps_transition _ _ _ _ _ Hw Hrun).
  - apply ignore_inv in Hrun as [a Hrun]. destruct Hok as [Hp Hnone].
    refine (create_wf _ _ _ _ _ _ Hw Hp Hnone _ _ Hrun); [cbn|intros p; unfold StateManager_on_initialize; keep].
    split_and!; [constructor|constructor|by left].
  - apply ignore_inv in Hrun as [a Hrun]. destruct Hok as (Hp & Hnone & Hsm).
    refine (create_wf _ _ _ _ _ _ Hw Hp Hnone _ _ Hrun); [cbn|apply hb_on_initialize_wf].
    split_and!; [apply hb_wf_new|constructor|done].
  - apply ignore_inv in Hrun as [a Hrun]. destruct Hok as [Hp Hnone].
    by refine (create_wf _ _ (fun i => subscribe_all i types) _ _ _ Hw Hp Hnone _ _ Hrun); [|intros p; keep].
  - by destruct (set_observer_wf _ _ _ _ _ Hw Hok Hrun).
  - by destruct (register_task_wf _ _ _ _ _ Hw Hok Hrun).
  - by destruct (keeps_sm_transition _ _ _ _ _ Hw Hrun).
  - by destruct (keeps_demand_begin _ _ _ _ _ Hw Hrun).
  - apply ignore_inv in Hrun as [a Hrun]. by destruct (keeps_demand_end _ _ _ _ _ Hw Hrun).
  - by destruct (keeps_mark _ _ _ _ _ Hw Hrun).
  - unfold set_unresponsive_action in Hrun. refine (proj1 (modify_hb_wf _ _ _ _ _ Hw _ Hrun)). intros h ([? ? ?] & ? & ?). by split_and!.
  - by destruct (keeps_start _ _ _ _ Hw Hrun).
  - apply ignore_inv in Hrun as [a Hrun]. by destruct (keeps_stop_request _ _ _ _ Hw Hrun).
  - apply ignore_inv in Hrun as [a Hrun]. by destruct (keeps_join _ _ _ _ Hw Hrun).
  - by apply (destroy_wf p w tt).
Qed.

Lemma sys_step_wf w w' : world_wf w -> sys_step w w' -> world_wf w'.
Proof.
  intros Hw Hstep. destruct Hstep as [w c w' Hok Hrun|w p r w' Hrun|w p r w' Hrun].
  - by eapply run_call_wf.
  - by destruct (keeps_run_step _ _ _ _ Hw Hrun).
  - by destruct (keeps_periodic_step _ _ _ _ Hw Hrun).
Qed.
End invariant.

(** ** Properties *)

(** The world before [main]. *)
Definition empty_world {Q} (clk : nat -> clock_reading) : World Q :=
  mkWorld ∅ Broker_static Logger_new clk 0 (1, 1).

Lemma empty_world_wf {Q} clk : world_wf (empty_world (Q := Q) clk).
Proof.
  assert (Hno : forall p, ~ live (empty_world (Q := Q) clk) p) by (intros p [t Ht]; exact (lookup_empty_Some (M := gmap addr) p t Ht)).
  split; [intros p Hp; by destruct (Hno p)|done|by repeat constructor|intros p t Ht; destruct (Hno p); by exists t].
Qed.

Section properties.
Context {Q : Type} `{QueueImpl Q} `{UserTasks Q}.
Implicit Types (w : World Q) (t : Task Q).

(** C27. Whatever a program calls and however the threads of all tasks
    interleave, every world reached from the start is well formed: there is a
    subscriber list per type, without duplicates; the registry of a state
    manager and the map of a heartbeat task are sorted maps whose keys are
    live tasks, a heartbeat task never monitors itself, and its counter stays
    in 32 bits. *)
Theorem reachable_worlds_wf clk w :
  (forall p m, keeps (user_process_message p m)) -> (forall p, keeps (user_periodic_task_process p)) ->
  rtc sys_step (empty_world clk) w -> world_wf w.
Proof.
  intros Hu Hp Hsteps. assert (Hw : world_wf (empty_world (Q := Q) clk)) by apply empty_world_wf.
  induction Hsteps as [|w1 w2 w3 Hstep _ IH]; [done|]. by apply IH, (sys_step_wf Hu Hp w1).
Qed.
End properties.

(** ** Witness: a state manager and a user task whose handlers do nothing *)

Definition silent_tasks : UserTasks aqueue :=
  {| user_process_message _ _ := mret tt; user_periodic_task_process _ := mret tt |}.
Definition still_clock (n : nat) : clock_reading := mkClockReading (Z.of_nat n) 0 0.

(** The outcome of a call that returns. *)
Definition after (c : call aqueue) (w : World aqueue) : World aqueue :=
  match run_call (H0 := silent_tasks) c w with Ok (_, w') => w' | Err _ => w end.

Definition boot0 : World aqueue := empty_world still_clock.
Definition boot1 : World aqueue := after (CBrokerInitialize 16) boot0.
Definition boot2 : World aqueue := after (CCreateStateManager 16 (aq_new 4)) boot1.
Definition boot3 : World aqueue := after (CCreateUserTask 32 "A" (aq_new 4) 10 [2]) boot2.
Definition boot4 : World aqueue := after (CRegister 16 32) boot3.
Definition boot5 : World aqueue := after (CStart 32) boot4.

Lemma reachable_worlds_wf_witness :
  rtc (sys_step (H0 := silent_tasks)) boot0 boot5 /\ world_wf boot5 /\ subscriber_lists (broker boot5) !! 2%nat = Some [32].
Proof.
  assert (Hsteps : rtc (sys_step (H0 := silent_tasks)) boot0 boot5).
  { apply (rtc_l _ _ boot1). { by apply (sys_call (H0 := silent_tasks) _ (CBrokerInitialize 16)). }
    apply (rtc_l _ _ boot2). { by apply (sys_call (H0 := silent_tasks) _ (CCreateStateManager 16 (aq_new 4))). }
    apply (rtc_l _ _ boot3). { by apply (sys_call (H0 := silent_tasks) _ (CCreateUserTask 32 "A" (aq_new 4) 10 [2])). }
    apply (rtc_l _ _ boot4). { apply (sys_call (H0 := silent_tasks) _ (CRegister 16 32)); [by eexists|done]. }
    apply (rtc_l _ _ boot5). { by apply (sys_call (H0 := silent_tasks) _ (CStart 32)). }
    apply rtc_refl. }
  split_and!; [exact Hsteps| |vm_compute; reflexivity].
  apply (reachable_worlds_wf (H0 := silent_tasks) still_clock boot5); [|intros p|exact Hsteps]; intros; apply keeps_ret.
Defined.
