(* ===== verification/Typing.v ===== *)
(** * Typing: well-typed calls and turns do not go wrong

    The static types of C++ say that a [shared_ptr<StateManager>] owns a
    state manager, that a handler gets a message its sender has constructed,
    that a caller passes pointers to objects it holds. This file shows what
    these types buy: in a world that is typed, a call with typed arguments and
    a turn of any thread either end in a typed world or fail with one of a few
    errors listed for that call. Undefined behaviour, the access to a payload
    that is not there, the access through a dangling pointer and the member
    access to an object of another class are not among them; reading the
    uninitialised [target_state] is.

    The triple [wp errors w m P] says that [m], started in [w], ends in a typed
    world and with a result that satisfy [P], or fails with one of [errors]. *)

From S2P Require Import Prelude Msg Heap QueueSpec Logger World Broker TaskBase StateManager HeartBeat System.
#[local] Open Scope Z_scope.

(** ** Errors the program's types do not exclude *)

Definition broker_off : error := AssertFailed "Broker not initialized!".
Definition no_target : error := UB "read of the uninitialised target_state".
Definition rethread : error := Terminated "assignment to a joinable std::thread".
Definition unjoined : error := Terminated "destruction of a joinable std::thread".
Definition gone : error := Terminated "std::bad_weak_ptr".

(** Delivering, publishing, and handling a message. *)
Definition deliver_errors : list error := [queue_full].
Definition publish_errors : list error := [queue_full; broker_off].
Definition handler_errors : list error := [queue_full; broker_off; no_target].

Definition errors_of {Q} (c : call Q) : list error :=
  match c with
  | CBrokerInitialize _ | CSetObserver _ _ | CRegister _ _ | CDemandEnd _ _ | CSetAction _ _ => []
  | CSubscribe _ _ | CCreateStateManager _ _ | CCreateHeartBeat _ _ _ _ _ _ | CCreateUserTask _ _ _ _ _ => [broker_off]
  | CPublish _ | CSafePublish _ _ | CTransition _ _ | CRequest _ _ | CDemandBegin _ _ | CStopRequest _ => publish_errors
  | CDeliver _ _ | CMark _ _ => deliver_errors
  | CStart _ => [rethread]
  | CJoin _ => []
  | CDestroy _ => [gone; unjoined]
  end.

(** ** Classes of objects and typed worlds *)

Inductive class := ManagerClass | HeartBeatClass | UserClass.

Definition class_of (d : Derived) : class :=
  match d with
  | IsStateManager _ => ManagerClass
  | IsHeartBeat _ => HeartBeatClass
  | IsUserTask => UserClass
  end.

Section typing.
Context {Q : Type} `{QueueTyping Q}.
Implicit Types (w : World Q) (t : Task Q).

(** The object at [p] is there and has the class [k]. *)
Definition is_a w (p : addr) (k : class) : Prop := exists t, tasks w !! p = Some t /\ class_of (derived t) = k.

(** The one member pointer to a derived class. *)
Definition manager_ok w (d : Derived) : Prop :=
  match d with
  | IsHeartBeat h => state_manager h = nullptr \/ is_a w (state_manager h) ManagerClass
  | _ => True
  end.

Record typed w : Prop := {
  typed_wf : world_wf w;
  typed_queue p t : tasks w !! p = Some t -> queue_typed (message_queue t);
  typed_manager p t : tasks w !! p = Some t -> manager_ok w (derived t)
}.

(** Objects stay, and keep their class. *)
Definition extends w w' : Prop := forall p k, is_a w p k -> is_a w' p k.

Definition wp {A} (errors : list error) w (m : M Q A) (P : A -> World Q -> Prop) : Prop :=
  match m w with
  | Ok (a, w') => typed w' /\ extends w w' /\ P a w'
  | Err e => e ∈ errors
  end.

(** The result does not matter. *)
Definition returns {A} (errors : list error) w (m : M Q A) : Prop := wp errors w m (fun _ _ => True).

(** *** Facts about typed worlds *)

Lemma is_a_live w p k : is_a w p k -> live w p.
Proof. intros (t & Ht & _). by exists t. Qed.

Lemma live_is_a w p : live w p -> exists k, is_a w p k.
Proof. intros [t Ht]. exists (class_of (derived t)). by exists t. Qed.

Lemma extends_refl w : extends w w.
Proof. by intros p k. Qed.

Lemma extends_trans w1 w2 w3 : extends w1 w2 -> extends w2 w3 -> extends w1 w3.
Proof. intros H1 H2 p k Hp. by apply H2, H1. Qed.

Lemma extends_live w w' p : extends w w' -> live w p -> live w' p.
Proof. intros He [k Hk]%live_is_a. apply (is_a_live w' p k). by apply He. Qed.

Lemma manager_ok_extends w w' d : extends w w' -> manager_ok w d -> manager_ok w' d.
Proof. intros He. destruct d as [s|h|]; cbn; [done| |done]. intros [|Hm]; [by left|right; by apply He]. Qed.

Lemma is_manager w p : is_a w p ManagerClass -> exists t s, tasks w !! p = Some t /\ derived t = IsStateManager s.
Proof. intros (t & Ht & Hk). destruct (derived t) as [s|h|] eqn:Hd; [|done..]. by exists t, s. Qed.

Lemma is_heartbeat w p : is_a w p HeartBeatClass -> exists t h, tasks w !! p = Some t /\ derived t = IsHeartBeat h.
Proof. intros (t & Ht & Hk). destruct (derived t) as [s|h|] eqn:Hd; [done| |done]. by exists t, h. Qed.

Lemma is_a_same w w' p k : tasks w' = tasks w -> is_a w p k -> is_a w' p k.
Proof. unfold is_a. by intros ->. Qed.

Lemma typed_same w w' :
  tasks w' = tasks w -> length (subscriber_lists (broker w')) = length (subscriber_lists (broker w)) ->
  Forall NoDup (subscriber_lists (broker w')) -> typed w -> typed w' /\ extends w w'.
Proof.
  intros Ht Hl Hnd [[Hr Hlen _ Hd] Hq Hm].
  assert (He : extends w w') by (intros p k; by apply is_a_same).
  split; [|done]. split.
  - split; unfold live in *; rewrite ?Ht, ?Hl; done.
  - rewrite Ht. exact Hq.
  - rewrite Ht. intros p t Hp. by eapply manager_ok_extends, Hm.
Qed.

Lemma typed_tick w w' : tasks w' = tasks w -> broker w' = broker w -> typed w -> typed w' /\ extends w w'.
Proof. intros Ht Hb Hw. apply typed_same; rewrite ?Hb; try done. apply (wf_NoDup w (typed_wf w Hw)). Qed.

(** Replacing an object by one of the same class. *)
Lemma typed_put w p t t' :
  typed w -> tasks w !! p = Some t -> class_of (derived t') = class_of (derived t) ->
  queue_typed (message_queue t') -> derived_ok (live w) p (derived t') -> manager_ok w (derived t') ->
  typed (with_task p t' w) /\ extends w (with_task p t' w).
Proof.
  intros [Hw Hq Hm] Ht Hc Hqt Hd Hmt.
  assert (He : extends w (with_task p t' w)).
  { intros q k (u & Hu & Hk). unfold is_a, with_task; cbn. destruct (decide (p = q)) as [<-|Hne].
    - exists t'. rewrite lookup_insert_eq. split; [done|]. rewrite Hc. congruence.
    - exists u. by rewrite lookup_insert_ne. }
  split; [|done]. split.
  - by apply (wf_put w p t).
  - intros q u. unfold with_task; cbn. destruct (decide (p = q)) as [<-|Hne].
    + rewrite lookup_insert_eq. by intros [= <-].
    + rewrite lookup_insert_ne by done. apply Hq.
  - intros q u. unfold with_task; cbn. intros Hu. eapply manager_ok_extends; [exact He|]. revert Hu.
    destruct (decide (p = q)) as [<-|Hne].
    + rewrite lookup_insert_eq. by intros [= <-].
    + rewrite lookup_insert_ne by done. apply Hm.
Qed.

(** A new object. *)
Lemma typed_new w p t :
  typed w -> 0 < p < 2 ^ 64 -> tasks w !! p = None ->
  queue_typed (message_queue t) -> derived_ok (live w) p (derived t) -> manager_ok w (derived t) ->
  typed (with_task p t w) /\ extends w (with_task p t w).
Proof.
  intros [Hw Hq Hm] Hp Hnone Hqt Hd Hmt.
  assert (He : extends w (with_task p t w)).
  { intros q k (u & Hu & Hk). exists u. unfold with_task; cbn. by rewrite lookup_insert_ne by congruence. }
  split; [|done]. split.
  - by apply (make_shared_wf p t w p _ Hw Hp Hnone Hd).
  - intros q u. unfold with_task; cbn. destruct (decide (p = q)) as [<-|Hne].
    + rewrite lookup_insert_eq. by intros [= <-].
    + rewrite lookup_insert_ne by done. apply Hq.
  - intros q u. unfold with_task; cbn. intros Hu. eapply manager_ok_extends; [exact He|]. revert Hu.
    destruct (decide (p = q)) as [<-|Hne].
    + rewrite lookup_insert_eq. by intros [= <-].
    + rewrite lookup_insert_ne by done. apply Hm.
Qed.
End typing.

(** ** Rules *)

Section rules.
Context {Q : Type} `{QueueTyping Q}.
Implicit Types (w : World Q) (t : Task Q) (E : list error).

Lemma wp_ret {A} E w (a : A) (P : A -> World Q -> Prop) : typed w -> P a w -> wp E w (mret a) P.
Proof. intros Hw HP. cbn. split_and!; [done|apply extends_refl|done]. Qed.

Lemma wp_bind {A B} E w (m : M Q A) (f : A -> M Q B) (R : A -> World Q -> Prop) (P : B -> World Q -> Prop) :
  wp E w m R ->
  (forall a w', typed w' -> extends w w' -> R a w' -> wp E w' (f a) P) ->
  wp E w (m ≫= f) P.
Proof.
  unfold wp, mbind, M_bind. destruct (m w) as [[a w']|e]; [|done]. intros (Ht & He & HR) Hf.
  specialize (Hf a w' Ht He HR). destruct (f a w') as [[b w'']|e]; [|done]. destruct Hf as (? & He' & ?).
  split_and!; [done|by eapply extends_trans|done].
Qed.

Lemma wp_weaken {A} E E' w (m : M Q A) (P P' : A -> World Q -> Prop) :
  wp E w m P -> E ⊆ E' -> (forall a w', P a w' -> P' a w') -> wp E' w m P'.
Proof.
  unfold wp. destruct (m w) as [[a w']|e]; [|by auto]. intros (? & ? & ?) _ HP. split_and!; [done..|by apply HP].
Qed.

Lemma returns_weaken {A} E E' w (m : M Q A) : returns E w m -> E ⊆ E' -> returns E' w m.
Proof. intros Hm HE. by eapply wp_weaken. Qed.

(** A step that leaves no fact behind. *)
Lemma returns_bind {A B} E w (m : M Q A) (f : A -> M Q B) :
  returns E w m -> (forall a w', typed w' -> extends w w' -> returns E w' (f a)) -> returns E w (m ≫= f).
Proof. intros Hm Hf. eapply wp_bind; [exact Hm|]. intros a w' Ht He _. by apply Hf. Qed.

Lemma returns_ret {A} E w (a : A) : typed w -> returns E w (mret a).
Proof. intros Hw. by apply wp_ret. Qed.

Lemma returns_throw {A} E w e : e ∈ E -> returns E w (throw (A := A) e).
Proof. done. Qed.

Lemma returns_if {A} E w (b : bool) (m1 m2 : M Q A) : returns E w m1 -> returns E w m2 -> returns E w (if b then m1 else m2).
Proof. by destruct b. Qed.

Lemma returns_log E w l c m : typed w -> returns E w (log_entry l c m).
Proof. intros Hw. split_and!; [by apply (typed_tick w)..|done]. Qed.

Lemma returns_now E w : typed w -> returns E w now.
Proof. intros Hw. split_and!; [by apply (typed_tick w)..|done]. Qed.

(** Reading a member of an object that is there. *)
Lemma wp_get_task E w p t (P : Task Q -> World Q -> Prop) :
  typed w -> tasks w !! p = Some t -> P t w -> wp E w (get_task p) P.
Proof. intros Hw Ht HP. unfold wp. rewrite (get_task_run p t w Ht). split_and!; [done|apply extends_refl|done]. Qed.

Lemma returns_get_name E w p : typed w -> live w p -> returns E w (get_name p).
Proof. intros Hw [t Ht]. unfold returns, wp. rewrite (get_name_run p t w Ht). split_and!; [done|apply extends_refl|done]. Qed.

Lemma returns_log_as E w p l m : typed w -> live w p -> returns E w (log_as p l m).
Proof. intros Hw Hp. apply returns_bind; [by apply returns_get_name|]. intros nm w' Hw' _. by apply returns_log. Qed.

(** Assigning members of the base class. *)
Lemma returns_modify_task E w p f :
  typed w -> live w p -> (forall t, derived (f t) = derived t /\ (queue_typed (message_queue t) -> queue_typed (message_queue (f t)))) ->
  returns E w (modify_task p f).
Proof.
  intros Hw [t Ht] Hf. destruct (Hf t) as [Hd Hq]. unfold returns, wp. rewrite (modify_task_with p f t w Ht).
  destruct (typed_put w p t (f t) Hw Ht) as [? ?]; [by rewrite Hd|by apply Hq, (typed_queue w Hw p)| | |done].
  - rewrite Hd. by apply (wf_derived w (typed_wf w Hw)).
  - rewrite Hd. by apply (typed_manager w Hw p).
Qed.

(** A payload packed into a message. *)
Lemma wp_new E w sender d (P : Msg -> World Q -> Prop) : typed w -> P (pack sender d) w -> wp E w (lift (Msg_new sender d)) P.
Proof. intros Hw HP. unfold wp. rewrite lift_Msg_new. split_and!; [done|apply extends_refl|done]. Qed.

Lemma live_range w p : typed w -> live w p -> 0 <= p < 2 ^ 64.
Proof. intros Hw Hp. pose proof (wf_range w (typed_wf w Hw) p Hp). lia. Qed.
End rules.
Create HintDb typing.
#[export] Hint Resolve returns_ret returns_throw returns_if returns_log returns_now returns_get_name returns_log_as
  is_a_live extends_live extends_trans extends_refl live_range : typing.

(** ** The operations of the bus *)

Section base_operations.
Context {Q : Type} `{QueueTyping Q}.
Implicit Types (w : World Q) (t : Task Q) (E : list error).

(** A message as its constructor makes it, from nobody or from an object that
    is there. *)
Definition message_ok w (m : Msg) : Prop := msg_wf m /\ (get_sender m = nullptr \/ live w (get_sender m)).

Lemma message_ok_extends w w' m : extends w w' -> message_ok w m -> message_ok w' m.
Proof. intros He [Hm Hs]. split; [done|]. destruct Hs; [by left|right; by eapply extends_live]. Qed.

Lemma pack_ok w p d : typed w -> live w p -> variant_wf d -> message_ok w (pack p d).
Proof. intros Hw Hp Hd. split; [apply pack_wf; [by eapply live_range|done]|by right]. Qed.

Lemma returns_deliver w p m : typed w -> live w p -> message_ok w m -> returns deliver_errors w (deliver_message p m).
Proof.
  intros Hw Hp [Hm Hs]. apply returns_bind.
  { case_decide; [by apply returns_ret|]. destruct Hs; [done|by apply returns_get_name]. }
  intros nm w1 Hw1 He1. apply returns_bind; [by apply returns_log|]. intros _ w2 Hw2 He2.
  assert (Hp2 : live w2 p) by eauto with typing. destruct Hp2 as [t Ht].
  unfold returns, wp. rewrite (M_bind_Ok _ _ _ _ _ (get_task_run p t w2 Ht)).
  pose proof (enqueue_typed (message_queue t) m (typed_queue w2 Hw2 p t Ht) Hm) as Hq.
  unfold mbind, M_bind, lift. destruct (q_enqueue (message_queue t) m) as [q|e]; cbn; [|subst; by left].
  destruct (typed_put w2 p t (set_message_queue q t) Hw2 Ht) as [? ?]; [done|done|..].
  - apply (wf_derived w2 (typed_wf w2 Hw2) p t Ht).
  - exact (typed_manager w2 Hw2 p t Ht).
  - done.
Qed.

Lemma wp_gets {A} E w (f : World Q -> A) (P : A -> World Q -> Prop) : typed w -> P (f w) w -> wp E w (gets f) P.
Proof. intros Hw HP. split_and!; [done|apply extends_refl|done]. Qed.

Lemma wp_type_index w ty : typed w -> 0 <= ty < MESSAGE_TYPE_COUNT -> returns [broker_off] w (type_index ty).
Proof.
  intros Hw Hty. unfold returns, wp, type_index, mbind, M_bind, gets, lift.
  destruct (decide (initialized (broker w) = true)) as [Hi|Hi].
  - rewrite (assert_that_true (initialized _ = true)) by done. cbn.
    rewrite assert_that_true by (change MESSAGE_TYPE_COUNT with 4 in *; rewrite u64_small by lia; lia). cbn.
    split_and!; [done|apply extends_refl|done].
  - rewrite (assert_that_false (initialized _ = true)) by done. cbn. by left.
Qed.

Lemma wp_publish_loop w m l :
  typed w -> message_ok w m -> wp deliver_errors w (publish_loop l m) (fun kept _ => kept `sublist_of` l).
Proof.
  revert w. induction l as [|p l IH]; intros w Hw Hm; cbn [publish_loop]; [by apply wp_ret|].
  unfold wp. destruct (decide (live w p)) as [[t Ht]|Hdead].
  - rewrite (M_bind_Ok _ _ _ _ _ (expired_live p t w Ht)).
    apply (wp_bind _ _ _ _ (fun _ _ => True)); [by apply returns_deliver; [|exists t|]|].
    intros _ w1 Hw1 He1 _. eapply wp_bind; [apply IH; [done|by eapply message_ok_extends]|].
    intros kept w2 Hw2 _ Hk. cbn beta in Hk. apply wp_ret; [done|by constructor].
  - apply eq_None_not_Some in Hdead. rewrite (M_bind_Ok _ _ _ _ _ (expired_dead p w Hdead)).
    eapply wp_weaken; [by apply IH|done|]. intros kept w'. by constructor.
Qed.

Lemma returns_set_subscribers E w i l : typed w -> NoDup l -> returns E w (set_subscribers i l).
Proof.
  intros Hw Hl. destruct (typed_same w (set_broker (mkBroker (initialized (broker w)) (<[i := l]> (subscriber_lists (broker w)))) w))
    as [? ?]; [done|cbn; by rewrite length_insert|cbn; apply Forall_insert; [apply (wf_NoDup w (typed_wf w Hw))|done]|done|].
  by split_and!.
Qed.

Lemma publish_errors_deliver : deliver_errors ⊆ publish_errors.
Proof. intros e. unfold deliver_errors, publish_errors. rewrite !elem_of_cons. tauto. Qed.

Lemma publish_errors_off : [broker_off] ⊆ publish_errors.
Proof. intros e. unfold publish_errors. rewrite !elem_of_cons. tauto. Qed.

Lemma handler_errors_publish : publish_errors ⊆ handler_errors.
Proof. intros e. unfold publish_errors, handler_errors. rewrite !elem_of_cons. tauto. Qed.

Lemma handler_errors_deliver : deliver_errors ⊆ handler_errors.
Proof. intros e He. by apply handler_errors_publish, publish_errors_deliver. Qed.

Lemma type_range m : msg_wf m -> 0 <= get_type m < MESSAGE_TYPE_COUNT.
Proof. intros [_ _ _ Ht]. unfold get_type. rewrite Ht. by destruct (msg_data m). Qed.

Lemma returns_publish w m : typed w -> message_ok w m -> returns publish_errors w (publish m).
Proof.
  intros Hw Hm. apply returns_bind.
  { eapply returns_weaken; [apply wp_type_index; [done|apply type_range, Hm]|exact publish_errors_off]. }
  intros i w1 Hw1 He1. eapply wp_bind; [by apply (wp_gets _ _ _ (fun l _ => NoDup l)); [|apply wf_list, typed_wf]|].
  intros l w2 Hw2 He2 Hl. cbn beta in Hl. eapply wp_bind.
  { eapply wp_weaken; [apply wp_publish_loop; [done|]|exact publish_errors_deliver|done].
    eapply message_ok_extends, Hm. by eapply extends_trans. }
  intros kept w3 Hw3 _ Hk. cbn beta in Hk. apply returns_set_subscribers; [done|]. by eapply sublist_NoDup.
Qed.

Lemma returns_subscribe w p ty :
  typed w -> live w p -> 0 <= ty < MESSAGE_TYPE_COUNT -> returns [broker_off] w (subscribe p ty).
Proof.
  intros Hw Hp Hty. apply returns_bind; [by apply wp_type_index|]. intros i w1 Hw1 He1.
  eapply wp_bind; [by apply (wp_gets _ _ _ (fun l _ => NoDup l)); [|apply wf_list, typed_wf]|].
  intros l w2 Hw2 He2 Hl. cbn beta in Hl. assert (Hp2 : live w2 p) by eauto with typing.
  assert (Hf : wp [broker_off] w2 (find_if p l) (fun b _ => b = false -> p ∉ l)).
  { clear Hl. assert (Hrun : exists b, find_if p l w2 = Ok (b, w2)).
    { induction l as [|x l [b IHl]]; cbn [find_if]; [by exists false|].
      unfold subscribed_as, expired, gets, mbind, M_bind. cbn. case_match; [by exists true|by exists b]. }
    destruct Hrun as [b Hb]. unfold wp. rewrite Hb. destruct (find_if_inv p l w2 b w2 Hb) as [_ Hno].
    split_and!; [done|apply extends_refl|]. intros Hf. by apply Hno. }
  eapply wp_bind; [exact Hf|]. intros b w3 Hw3 _ Hb. cbn beta in Hb. destruct b; [by apply returns_ret|].
  apply returns_set_subscribers; [done|]. apply NoDup_app. split_and!; [done| |apply NoDup_singleton].
  intros x Hx ->%list_elem_of_singleton. by apply Hb.
Qed.

Lemma returns_safe_publish w p m :
  typed w -> live w p -> message_ok w m -> returns publish_errors w (safe_publish p m).
Proof.
  intros Hw Hp Hm. pose proof Hp as [t Ht]. unfold returns, wp. rewrite (safe_publish_live p m w t Ht).
  - by apply returns_publish.
  - pose proof (wf_range w (typed_wf w Hw) p Hp). unfold nullptr. lia.
Qed.

Lemma returns_safe_subscribe w p ty :
  typed w -> live w p -> 0 <= ty < MESSAGE_TYPE_COUNT -> returns [broker_off] w (safe_subscribe p ty).
Proof.
  intros Hw Hp Hty. pose proof Hp as [t Ht]. unfold returns, wp. rewrite (safe_subscribe_live p ty w t Ht).
  - by apply returns_subscribe.
  - pose proof (wf_range w (typed_wf w Hw) p Hp). unfold nullptr. lia.
Qed.

Lemma byte_range s : 0 <= state_to_byte s < 2 ^ 8.
Proof. apply Z.mod_pos_bound. lia. Qed.

Lemma returns_announce w p t : typed w -> live w p -> returns publish_errors w (announce_state p t).
Proof.
  intros Hw Hp. apply returns_bind; [by apply returns_log|]. intros _ w1 Hw1 He1.
  eapply wp_bind; [by apply (wp_new _ _ _ _ (fun m _ => m = pack p (VStateAckMsg (mkStateAckMsg (state_to_byte (current_state t))))))|].
  intros m w2 Hw2 He2 ->. assert (Hp2 : live w2 p) by eauto with typing.
  apply returns_safe_publish; [done..|]. apply pack_ok; [done..|]. apply byte_range.
Qed.

Lemma returns_Task_transition w p s : typed w -> live w p -> returns publish_errors w (Task_transition_to_state p s).
Proof.
  intros Hw Hp. apply returns_bind; [by apply returns_modify_task|]. intros _ w1 Hw1 He1.
  assert (Hp1 : live w1 p) by eauto with typing. pose proof Hp1 as [t Ht].
  eapply wp_bind; [by apply (wp_get_task _ _ _ t (fun _ _ => True))|]. intros u w2 Hw2 He2 _.
  apply returns_announce; [done|]. eauto with typing.
Qed.

Lemma returns_start w p : typed w -> live w p -> returns [rethread] w (start p).
Proof.
  intros Hw Hp. unfold start, is_running. pose proof Hp as [t Ht].
  unfold returns, wp. rewrite (M_bind_Ok _ _ w (running t) w) by (by rewrite (M_bind_Ok _ _ _ _ _ (get_task_run p t w Ht))).
  destruct (running t); [by apply returns_ret|]. clear t Ht.
  assert (Hspawn : forall th w', typed w' -> returns [rethread] w' (lift (Q := Q) (spawn th))).
  { intros th w' Hw'. unfold returns, wp, lift, spawn. destruct (joinable th); cbn; [by left|].
    split_and!; [done|apply extends_refl|done]. }
  apply returns_bind; [by apply returns_modify_task|]. intros _ w1 Hw1 He1.
  assert (Hp1 : live w1 p) by eauto with typing. pose proof Hp1 as [t Ht].
  eapply wp_bind; [by apply (wp_get_task _ _ _ t (fun _ _ => True))|]. intros u w2 Hw2 He2 _.
  apply returns_bind; [by apply Hspawn|]. intros th w3 Hw3 He3. assert (Hp3 : live w3 p) by eauto with typing.
  apply returns_bind; [by apply returns_modify_task|]. intros _ w4 Hw4 He4. case_decide; [|by apply returns_ret].
  apply returns_bind; [by apply Hspawn|]. intros th' w5 Hw5 He5. apply returns_modify_task; [done| |done]. eauto with typing.
Qed.
End base_operations.
#[export] Hint Resolve message_ok_extends returns_subscribe returns_deliver returns_publish returns_safe_publish returns_safe_subscribe
  returns_announce returns_Task_transition returns_start : typing.

Ltac live := eauto 6 with typing.

(** ** The operations of the derived classes *)

Section derived_operations.
Context {Q : Type} `{QueueTyping Q}.
Implicit Types (w : World Q) (t : Task Q) (E : list error).

Lemma wp_get_sm E w p (P : StateManager -> World Q -> Prop) :
  typed w -> is_a w p ManagerClass -> (forall s, derived_ok (live w) p (IsStateManager s) -> P s w) ->
  wp E w (get_sm p) P.
Proof.
  intros Hw (t & s & Ht & Hd)%is_manager HP. unfold wp. rewrite (get_sm_run p t s w Ht Hd).
  split_and!; [done|apply extends_refl|]. apply HP. rewrite <- Hd. by apply (wf_derived w (typed_wf w Hw)).
Qed.

Lemma wp_get_hb E w p (P : HeartBeat -> World Q -> Prop) :
  typed w -> is_a w p HeartBeatClass ->
  (forall h, derived_ok (live w) p (IsHeartBeat h) -> manager_ok w (IsHeartBeat h) -> P h w) ->
  wp E w (get_hb p) P.
Proof.
  intros Hw (t & h & Ht & Hd)%is_heartbeat HP. unfold wp. rewrite (get_hb_run p t h w Ht Hd).
  split_and!; [done|apply extends_refl|].
  apply HP; rewrite <- Hd; [by apply (wf_derived w (typed_wf w Hw))|by apply (typed_manager w Hw p)].
Qed.

Lemma returns_modify_sm E w p f :
  typed w -> is_a w p ManagerClass ->
  (forall s, derived_ok (live w) p (IsStateManager s) -> derived_ok (live w) p (IsStateManager (f s))) ->
  returns E w (modify_sm p f).
Proof.
  intros Hw (t & s & Ht & Hd)%is_manager Hf. unfold returns, wp. rewrite (modify_sm_run p f t s w Ht Hd).
  destruct (typed_put w p t (with_sm (f s) t) Hw Ht) as [? ?]; [by rewrite Hd|exact (typed_queue w Hw p t Ht)| |done|done].
  apply Hf. rewrite <- Hd. by apply (wf_derived w (typed_wf w Hw)).
Qed.

Lemma returns_modify_hb E w p f :
  typed w -> is_a w p HeartBeatClass ->
  (forall h, derived_ok (live w) p (IsHeartBeat h) -> derived_ok (live w) p (IsHeartBeat (f h))) ->
  (forall h, state_manager (f h) = state_manager h) ->
  returns E w (modify_hb p f).
Proof.
  intros Hw (t & h & Ht & Hd)%is_heartbeat Hf Hs. unfold returns, wp. rewrite (modify_hb_run p f t h w Ht Hd).
  pose proof (wf_derived w (typed_wf w Hw) p t Ht) as Hok. pose proof (typed_manager w Hw p t Ht) as Hm.
  rewrite Hd in Hok, Hm.
  destruct (typed_put w p t (with_hb (f h) t) Hw Ht) as [? ?]; [by rewrite Hd|exact (typed_queue w Hw p t Ht)|by apply Hf| |done].
  cbn. by rewrite Hs.
Qed.

(** Recording a state for a live task, and the status of another live task. *)
Lemma returns_record E w p task x :
  typed w -> is_a w p ManagerClass -> live w task ->
  returns E w (modify_sm p (fun s => set_task_states (pm_assign task x (task_states s)) s)).
Proof.
  intros Hw Hp Ht. apply returns_modify_sm; [done..|]. intros s (Hs & Hf & Ho). cbn.
  split_and!; [by apply pm_assign_sorted|by apply Forall_assign|done].
Qed.

Lemma returns_assign E w p task st :
  typed w -> is_a w p HeartBeatClass -> live w task -> task <> p -> returns E w (modify_hb p (assign_status task st)).
Proof.
  intros Hw Hp Ht Hne. apply returns_modify_hb; [done|done| |done]. intros h ([Hs Hself Hid] & Hf & Ho). cbn.
  split_and!; [|by apply Forall_assign|done]. split; [by apply pm_assign_sorted| |done].
  cbn. rewrite pm_assign_keys. by intros [->|].
Qed.

(** *** StateManager *)

Lemma returns_sm_transition w p x :
  typed w -> is_a w p ManagerClass -> returns publish_errors w (StateManager_transition_to_state p x).
Proof.
  intros Hw Hp. apply returns_bind; [live|]. intros _ w1 Hw1 He1.
  apply returns_bind; [by apply returns_modify_sm; [|apply He1|]|]. intros _ w2 Hw2 He2.
  eapply wp_bind; [by apply (wp_new _ _ _ _ (fun m _ => m = pack p (VStateMsg (mkStateMsg (state_to_byte x)))))|].
  intros m w3 Hw3 He3 ->. assert (Hp3 : live w3 p) by live.
  apply returns_safe_publish; [done..|]. apply pack_ok; [done..|]. apply byte_range.
Qed.

Lemma returns_demand_begin w p x :
  typed w -> is_a w p ManagerClass -> returns publish_errors w (demand_begin p x).
Proof.
  intros Hw Hp. apply returns_bind; [live|]. intros _ w1 Hw1 He1.
  apply returns_bind; [by apply returns_modify_sm; [|apply He1|]|]. intros _ w2 Hw2 He2.
  apply returns_sm_transition; [done|]. by apply He2, He1.
Qed.

Lemma returns_laggards w p x pairs :
  typed w -> live w p -> Forall (live w) pairs.*1 -> returns [] w (log_laggards p x pairs).
Proof.
  revert w. induction pairs as [|[k y] pairs IH]; intros w Hw Hp Hl; cbn [log_laggards]; [by apply returns_ret|].
  apply Forall_cons in Hl as [Hk Hl]. cbn in Hk. apply returns_bind.
  - case_decide; [|by apply returns_ret]. apply returns_bind; [live|]. intros nm w1 Hw1 He1. live.
  - intros _ w1 Hw1 He1. apply IH; [done|live|]. eapply Forall_impl; [exact Hl|]. intros q Hq. live.
Qed.

Lemma returns_demand_end w p x : typed w -> is_a w p ManagerClass -> returns [] w (demand_end p x).
Proof.
  intros Hw Hp. apply returns_bind.
  { eapply wp_bind; [by apply (wp_get_sm _ _ _ (fun _ _ => True))|]. intros s w1 Hw1 _ _. by apply returns_ret. }
  intros b w1 Hw1 He1. apply returns_bind; [|intros _ w2 Hw2 _; by apply returns_ret].
  destruct b; [by apply returns_ret|]. apply returns_bind; [live|]. intros _ w2 Hw2 He2.
  eapply wp_bind; [apply (wp_get_sm _ _ _ (fun s w => Forall (live w) (task_states s).*1)); [done|by apply He2, He1|]|].
  { by intros s (_ & ? & _). }
  intros s w3 Hw3 He3 Hf. cbn beta in Hf. apply returns_laggards; [done|live|done].
Qed.

Lemma returns_mark w p task :
  typed w -> is_a w p ManagerClass -> live w task -> returns deliver_errors w (mark_task_as_unresponsive p task).
Proof.
  intros Hw Hp Ht. apply returns_bind; [live|]. intros nm w1 Hw1 He1. apply returns_bind; [live|]. intros _ w2 Hw2 He2.
  eapply wp_bind; [by apply (wp_new _ _ _ _ (fun m _ => m = pack p (VStateMsg (mkStateMsg (state_to_byte ERROR)))))|].
  intros m w3 Hw3 He3 ->. assert (Hp3 : is_a w3 p ManagerClass) by (by apply He3, He2, He1).
  apply returns_bind; [apply returns_deliver; [done|live|apply pack_ok; [done|live|apply byte_range]]|].
  intros _ w4 Hw4 He4. apply returns_record; [done|by apply He4|live].
Qed.

Lemma returns_sm_ack w p m : typed w -> is_a w p ManagerClass -> returns [no_target] w (handle_acknowledgment p m).
Proof.
  intros Hw Hp. assert (Hlog : forall l s w', typed w' -> is_a w' p ManagerClass ->
    returns [no_target] w' (_ ← log_as p l s; mret false)).
  { intros l s w' Hw' Hp'. apply returns_bind; [live|]. intros _ w1 Hw1 _. by apply returns_ret. }
  unfold handle_acknowledgment. case_decide as Hn; [by apply Hlog|].
  eapply wp_bind; [apply (wp_get_sm _ _ _ (fun s w => Forall (live w) (task_states s).*1)); [done..|]|].
  { by intros s (_ & ? & _). }
  intros s w1 Hw1 He1 Hf. cbn beta in Hf. specialize (He1 _ _ Hp) as Hp1. rewrite find_raw_spec.
  destruct (decide (get_sender m ∈ (task_states s).*1)) as [Hin|Hin]; [|by apply Hlog].
  destruct (get_data_as AStateAckMsg m) as [ack|]; [|by apply Hlog].
  assert (Hs : live w1 (get_sender m)) by (by apply (proj1 (Forall_forall _ _) Hf)).
  apply returns_bind; [by apply returns_record|]. intros _ w2 Hw2 He2. apply returns_bind; [live|]. intros nm w3 Hw3 He3.
  apply returns_bind; [live|]. intros _ w4 Hw4 He4.
  eapply wp_bind; [apply (wp_get_sm _ _ _ (fun _ _ => True)); [done|by apply He4, He3, He2|done]|].
  intros s' w5 Hw5 _ _. destruct (target_state s'); [by apply returns_ret|by apply returns_throw; left].
Qed.

Lemma returns_sm_process w p m :
  typed w -> is_a w p ManagerClass -> returns handler_errors w (StateManager_process_message p m).
Proof.
  intros Hw Hp. unfold StateManager_process_message. case_decide; [|live].
  apply returns_bind; [|intros b w1 Hw1 _; by apply returns_ret].
  eapply returns_weaken; [by apply returns_sm_ack|]. intros e. unfold handler_errors. rewrite !elem_of_cons. tauto.
Qed.

(** *** HeartBeatTask *)

Lemma returns_notify E w p task :
  typed w -> is_a w p HeartBeatClass -> live w task -> returns E w (HeartBeat_notify_task_registered p task).
Proof.
  intros Hw Hp Ht. unfold HeartBeat_notify_task_registered. case_decide as Hne; [by apply returns_ret|].
  eapply wp_bind; [by apply (wp_get_hb _ _ _ (fun _ _ => True))|]. intros h w1 Hw1 He1 _.
  destruct (pm_find task (monitored_tasks h)); [by apply returns_ret|].
  apply returns_bind; [live|]. intros c w2 Hw2 He2. apply returns_assign; [done|by apply He2, He1|live|done].
Qed.

Lemma returns_register w p task :
  typed w -> is_a w p ManagerClass -> live w task -> returns [] w (register_task p task).
Proof.
  intros Hw Hp Ht. apply returns_bind; [by apply returns_record|]. intros _ w1 Hw1 He1.
  eapply wp_bind; [apply (wp_get_sm _ _ _ (fun s w => task_registration_observer s = nullptr \/ live w (task_registration_observer s)));
    [done|by apply He1|by intros s (_ & _ & ?)]|].
  intros s w2 Hw2 He2 Ho. cbn beta in Ho. case_decide as Hn; [by apply returns_ret|]. destruct Ho as [|[o Ho]]; [done|].
  eapply wp_bind; [by apply (wp_get_task _ _ _ o (fun t w => t = o /\ tasks w !! task_registration_observer s = Some o))|].
  intros t w3 Hw3 He3 [-> Ho3]. destruct (derived o) as [s'|h|] eqn:Hd; [by apply returns_ret| |by apply returns_ret].
  apply returns_notify; [done| |live]. exists o. by rewrite Hd.
Qed.

Lemma returns_unresponsive w p task :
  typed w -> is_a w p HeartBeatClass -> live w task -> returns deliver_errors w (handle_unresponsive_task p task).
Proof.
  intros Hw Hp Ht. eapply wp_bind; [by apply (wp_get_hb _ _ _ (fun h w => manager_ok w (IsHeartBeat h)))|].
  intros h w1 Hw1 He1 Hm. cbn in Hm. case_decide; [by apply returns_ret|]. destruct Hm; [done|]. apply returns_mark; [done..|live].
Qed.

Lemma wp_generate_id E w p : typed w -> is_a w p HeartBeatClass ->
  wp E w (generate_heartbeat_id p) (fun id _ => 0 <= id < 2 ^ 32).
Proof.
  intros Hw Hp. eapply wp_bind; [apply (wp_get_hb _ _ _ (fun h _ => 0 <= next_heartbeat_id h < 2 ^ 32)); [done..|]|].
  { by intros h ([] & _) _. }
  intros h w1 Hw1 He1 Hid. eapply (wp_bind _ _ _ _ (fun _ _ => True)).
  - apply returns_modify_hb; [done|by apply He1| |done]. intros h' ([Hs Hself Hid'] & Hf & Ho). cbn.
    split_and!; [|done|done]. split; [done|done|apply u32_range].
  - intros _ w2 Hw2 _ _. by apply wp_ret.
Qed.

Lemma others_live_extends w w' p pairs : extends w w' -> others_live w p pairs -> others_live w' p pairs.
Proof. intros He. apply others_live_grows. intros q Hq. live. Qed.

Lemma wp_monitored E w p (f : HeartBeat -> M Q unit) :
  typed w -> is_a w p HeartBeatClass ->
  (forall h, others_live w p (monitored_tasks h) -> returns E w (f h)) -> returns E w (h ← get_hb p; f h).
Proof.
  intros Hw (t & h & Ht & Hd)%is_heartbeat Hf. unfold returns, wp.
  rewrite (M_bind_Ok _ _ _ _ _ (get_hb_run p t h w Ht Hd)). apply Hf.
  by apply (monitored_others_live w p h t (typed_wf w Hw)).
Qed.

Lemma returns_check_loop w p time_ns pairs :
  typed w -> is_a w p HeartBeatClass -> others_live w p pairs -> returns deliver_errors w (check_loop p time_ns pairs).
Proof.
  revert w. induction pairs as [|[k st] pairs IH]; intros w Hw Hp Hl; cbn [check_loop]; [by apply returns_ret|].
  pose proof Hl as [[Hk Hne] Hl']%Forall_cons. eapply wp_bind; [by apply (wp_get_hb _ _ _ (fun _ _ => True))|].
  intros h w0 Hw0 He0 _. apply returns_bind.
  - destruct (timed_out time_ns (response_timeout_ms h) st); [|by apply returns_ret].
    apply returns_bind; [live|]. intros nm w1 Hw1 He1. apply returns_bind; [live|]. intros _ w2 Hw2 He2.
    apply returns_bind; [apply returns_unresponsive; [done|by apply He2, He1, He0|live]|]. intros _ w3 Hw3 He3.
    apply returns_assign; [done|by apply He3, He2, He1, He0|live|done].
  - intros _ w1 Hw1 He1. apply IH; [done|by apply He1, He0|]. apply (others_live_extends w); [by eapply extends_trans|done].
Qed.

Lemma returns_send_loop w p pairs :
  typed w -> is_a w p HeartBeatClass -> others_live w p pairs -> returns deliver_errors w (send_loop p pairs).
Proof.
  revert w. induction pairs as [|[k st] pairs IH]; intros w Hw Hp Hl; cbn [send_loop]; [by apply returns_ret|].
  pose proof Hl as [[Hk Hne] Hl']%Forall_cons. apply returns_bind.
  - destruct (awaiting_response st); [by apply returns_ret|]. apply returns_bind; [live|]. intros c w1 Hw1 He1.
    eapply wp_bind; [apply wp_generate_id; [done|by apply He1]|]. intros id w2 Hw2 He2 Hid. cbn beta in Hid.
    eapply wp_bind; [by apply (wp_new _ _ _ _ (fun m _ => m = heartbeat p id (steady_ns c)))|].
    intros m w3 Hw3 He3 ->. assert (Hp3 : is_a w3 p HeartBeatClass) by (by apply He3, He2, He1).
    apply returns_bind; [by apply returns_assign; [| |live|]|]. intros _ w4 Hw4 He4.
    apply returns_deliver; [done|live|]. apply pack_ok; [done|live|]. cbn. split; [done|apply u64_range].
  - intros _ w1 Hw1 He1. apply IH; [done|by apply He1|]. by apply (others_live_extends w).
Qed.

(** An acknowledgement without its payload is the only way to fail. *)
Lemma returns_ack_loop E w p sender ack pairs :
  typed w -> is_a w p HeartBeatClass -> others_live w p pairs -> is_Some ack -> returns E w (ack_loop p sender ack pairs).
Proof.
  intros Hw Hp Hl [a ->]. induction pairs as [|[k st] pairs IH]; cbn [ack_loop]; [by apply returns_ret|].
  apply Forall_cons in Hl as [[Hk Hne] Hl]. cbn in Hk, Hne. case_decide; [|by apply IH]. case_decide; [|by apply returns_ret].
  apply returns_bind; [live|]. intros c w1 Hw1 He1. apply returns_bind; [by apply returns_assign; [|apply He1|live|]|].
  intros _ w2 Hw2 He2. apply returns_bind; [live|]. intros nm w3 Hw3 He3. live.
Qed.

(** The type tag of a constructed message tells the alternative it carries. *)
Lemma payload_of_type m T :
  msg_wf m -> (forall d, variant_index d = get_type m -> exists x, d = inject T x) -> is_Some (get_data_as T m).
Proof.
  intros Hm Hd. destruct (Hd (msg_data m)) as [x Hx]; [symmetry; apply (msg_wf_type m Hm)|].
  exists x. by apply get_data_as_Some.
Qed.

Lemma returns_hb_process w p m :
  typed w -> is_a w p HeartBeatClass -> msg_wf m -> returns publish_errors w (HeartBeat_process_message p m).
Proof.
  intros Hw Hp Hm. unfold HeartBeat_process_message. case_decide as Hs; [|case_decide as Ha; [|live]].
  - destruct (payload_of_type m AStateMsg Hm) as [x ->]; [|live].
    rewrite Hs. intros [y|y|y|y] Hy; try done. by exists y.
  - apply wp_monitored; [done..|]. intros h Hl. apply returns_ack_loop; [done..|].
    apply (payload_of_type m AHeartbeatAckMsg Hm). rewrite Ha. intros [y|y|y|y] Hy; try done. by exists y.
Qed.

Lemma returns_hb_periodic w p :
  typed w -> is_a w p HeartBeatClass -> returns deliver_errors w (HeartBeat_periodic_task_process p).
Proof.
  intros Hw Hp. apply returns_bind.
  { apply returns_bind; [live|]. intros c w1 Hw1 He1. apply wp_monitored; [done|by apply He1|]. intros h Hl.
    apply returns_check_loop; [done|by apply He1|done]. }
  intros _ w1 Hw1 He1. pose proof (He1 _ _ Hp) as Hp1. pose proof (is_a_live _ _ _ Hp1) as [t Ht].
  apply returns_bind.
  { eapply wp_bind; [by apply (wp_get_task _ _ _ t (fun _ _ => True))|]. intros u w2 Hw2 _ _. by apply returns_ret. }
  intros s w2 Hw2 He2. case_decide; [|by apply returns_ret]. apply wp_monitored; [done|by apply He2|]. intros h Hl.
  apply returns_send_loop; [done|by apply He2|done].
Qed.

Lemma returns_hb_initialize w p :
  typed w -> is_a w p HeartBeatClass -> returns [broker_off] w (HeartBeat_on_initialize p).
Proof.
  intros Hw Hp. apply returns_bind; [apply returns_safe_subscribe; [done|live|done]|]. intros _ w1 Hw1 He1.
  apply returns_bind; [apply returns_safe_subscribe; [done|live|done]|]. intros _ w2 Hw2 He2.
  assert (Hp2 : is_a w2 p HeartBeatClass) by (by apply He2, He1).
  eapply wp_bind; [by apply (wp_get_hb _ _ _ (fun h w => manager_ok w (IsHeartBeat h)))|].
  intros h w3 Hw3 He3 Hm. cbn in Hm. case_decide as Hn; [by apply returns_ret|]. destruct Hm as [|Hm]; [done|].
  pose proof (is_a_live _ _ _ (He3 _ _ Hp2)) as Hl. pose proof Hl as [t Ht].
  unfold returns, wp. rewrite (M_bind_Ok _ _ _ _ _ (shared_from_this_run p t w3 Ht)).
  apply returns_modify_sm; [done..|]. intros s (? & ? & _). split_and!; [done..|by right].
Qed.

Lemma returns_subscribe_all w p types :
  typed w -> live w p -> Forall (fun ty => 0 <= ty < MESSAGE_TYPE_COUNT) types -> returns [broker_off] w (subscribe_all p types).
Proof.
  revert w. induction types as [|ty types IH]; intros w Hw Hp Hf; cbn [subscribe_all]; [by apply returns_ret|].
  apply Forall_cons in Hf as [Hty Hf]. apply returns_bind; [live|]. intros _ w1 Hw1 He1. apply IH; [done|live|done].
Qed.
End derived_operations.
#[export] Hint Resolve returns_sm_transition returns_demand_begin returns_demand_end returns_mark returns_sm_process
  returns_register returns_hb_process returns_hb_periodic returns_hb_initialize returns_subscribe_all : typing.

(** ** Calls and turns *)

(** What the static types of a call's arguments say, on top of [call_ok]. *)
Definition call_typed {Q} `{QueueTyping Q} (w : World Q) (c : call Q) : Prop :=
  call_ok w c /\
  match c with
  | CBrokerInitialize _ => True
  | CPublish m => message_ok w m
  | CSubscribe task ty => live w task /\ 0 <= ty < MESSAGE_TYPE_COUNT
  | CSafePublish p m | CDeliver p m => live w p /\ message_ok w m
  | CTransition p _ | CStart p | CStopRequest p | CJoin p | CDestroy p => live w p
  | CCreateStateManager _ q => queue_typed q
  | CCreateHeartBeat _ _ q sm _ _ => queue_typed q /\ (sm = nullptr \/ is_a w sm ManagerClass)
  | CCreateUserTask _ _ q _ types => queue_typed q /\ Forall (fun ty => 0 <= ty < MESSAGE_TYPE_COUNT) types
  | CSetObserver sm _ | CRequest sm _ | CDemandBegin sm _ | CDemandEnd sm _ => is_a w sm ManagerClass
  | CRegister sm task | CMark sm task => is_a w sm ManagerClass /\ live w task
  | CSetAction hb _ => is_a w hb HeartBeatClass
  end.

(** The handlers of a user's class have the types of the virtual functions. *)
Class TypedTasks (Q : Type) `{QueueTyping Q} `{UserTasks Q} : Prop := {
  user_process_typed w p m :
    typed w -> is_a w p UserClass -> msg_wf m -> returns handler_errors w (user_process_message p m);
  user_periodic_typed w p :
    typed w -> is_a w p UserClass -> returns handler_errors w (user_periodic_task_process p)
}.

Section soundness.
Context {Q : Type} `{QueueTyping Q} `{!UserTasks Q} `{!TypedTasks Q}.
Implicit Types (w : World Q) (t : Task Q) (E : list error).

Lemma returns_dispatch {A} E w p (m1 m2 m3 : M Q A) :
  typed w -> live w p ->
  (is_a w p ManagerClass -> returns E w m1) -> (is_a w p HeartBeatClass -> returns E w m2) ->
  (is_a w p UserClass -> returns E w m3) -> returns E w (dispatch p m1 m2 m3).
Proof.
  intros Hw [t Ht] H1 H2 H3. unfold returns, wp, dispatch. rewrite (M_bind_Ok _ _ _ _ _ (get_task_run p t w Ht)).
  destruct (derived t) as [s|h|] eqn:Hd; [apply H1|apply H2|apply H3]; exists t; by rewrite Hd.
Qed.

Lemma returns_process_message w p m :
  typed w -> live w p -> msg_wf m -> returns handler_errors w (process_message p m).
Proof.
  intros Hw Hp Hm. apply returns_dispatch; [done..|intros Hk; live|intros Hk|intros Hk; by apply user_process_typed].
  eapply returns_weaken; [by apply returns_hb_process|exact handler_errors_publish].
Qed.

Lemma returns_periodic w p : typed w -> live w p -> returns handler_errors w (periodic_task_process p).
Proof.
  intros Hw Hp. apply returns_dispatch; [done..|intros Hk; live|intros Hk|intros Hk; by apply user_periodic_typed].
  eapply returns_weaken; [by apply returns_hb_periodic|exact handler_errors_deliver].
Qed.

Lemma returns_transition w p s : typed w -> live w p -> returns publish_errors w (transition_to_state p s).
Proof. intros Hw Hp. apply returns_dispatch; [done..|intros Hk; live|intros Hk; live|intros Hk; live]. Qed.

Lemma returns_get_task {A} E w p (f : Task Q -> M Q A) :
  typed w -> live w p -> (forall t, tasks w !! p = Some t -> returns E w (f t)) -> returns E w (t ← get_task p; f t).
Proof. intros Hw [t Ht] Hf. unfold returns, wp. rewrite (M_bind_Ok _ _ _ _ _ (get_task_run p t w Ht)). by apply Hf. Qed.

Lemma returns_assign_thread {A} E w p f (r : A) :
  typed w -> live w p -> (forall t, derived (f t) = derived t /\ message_queue (f t) = message_queue t) ->
  returns E w (_ ← modify_task p f; mret r).
Proof.
  intros Hw Hp Hf. apply returns_bind; [|intros _ w1 Hw1 _; by apply returns_ret].
  apply returns_modify_task; [done..|]. intros t. destruct (Hf t) as [-> ->]. done.
Qed.

Lemma returns_put_queue {A} E w p t q (m : M Q A) :
  typed w -> tasks w !! p = Some t -> queue_typed q ->
  (forall w', typed w' -> extends w w' -> returns E w' m) -> returns E w (_ ← put_task p (set_message_queue q t); m).
Proof.
  intros Hw Ht Hq Hm. apply returns_bind; [|intros _ w1 Hw1 He1; by apply Hm].
  destruct (typed_put w p t (set_message_queue q t) Hw Ht) as [Hw' He]; [done|done| | |by split_and!].
  - apply (wf_derived w (typed_wf w Hw) p t Ht).
  - exact (typed_manager w Hw p t Ht).
Qed.

Lemma returns_run_step w p : typed w -> live w p -> returns handler_errors w (run_step p).
Proof.
  intros Hw Hp. apply returns_get_task; [done..|]. intros t Ht.
  destruct (queue_thread t); try (by apply returns_ret); [by apply returns_assign_thread|].
  destruct (dequeue_typed (message_queue t) (typed_queue w Hw p t Ht)) as (r & q & Hq & Hqt & Hm).
  unfold returns, wp. rewrite (M_bind_Ok _ _ w (r, q) w) by (unfold lift; by rewrite Hq).
  destruct r as [|opt]; [by apply returns_ret|]. apply returns_put_queue; [done..|]. intros w1 Hw1 He1.
  apply returns_bind.
  - destruct opt as [m|]; [|by apply returns_ret]. apply returns_process_message; [done|live|by apply Hm].
  - intros _ w2 Hw2 He2. apply returns_assign_thread; [done|live|done].
Qed.

Lemma returns_periodic_step w p : typed w -> live w p -> returns handler_errors w (run_periodic_step p).
Proof.
  intros Hw Hp. apply returns_get_task; [done..|]. intros t Ht. destruct (periodic_thread t); try (by apply returns_ret).
  - destruct (running t); [|by apply returns_assign_thread]. apply returns_bind; [by apply returns_periodic|].
    intros _ w1 Hw1 He1. apply returns_bind; [live|]. intros c w2 Hw2 He2. apply returns_get_task; [done|live|].
    intros t' Ht'. apply returns_assign_thread; [done|live|done].
  - apply returns_bind; [live|]. intros c w1 Hw1 He1. case_decide; [by apply returns_ret|]. apply returns_assign_thread; [done|live|done].
Qed.

Lemma returns_stop_request w p : typed w -> live w p -> returns publish_errors w (stop_request p).
Proof.
  intros Hw Hp. apply returns_bind; [apply returns_get_task; [done..|]; intros t Ht; by apply returns_ret|].
  intros r w1 Hw1 He1. destruct r; [|by apply returns_ret]. apply returns_bind; [apply returns_modify_task; [done|live|done]|].
  intros _ w2 Hw2 He2. apply returns_bind; [apply returns_transition; [done|live]|]. intros _ w3 Hw3 He3.
  apply returns_get_task; [done|live|]. intros t Ht. apply returns_put_queue; [done..| |intros; by apply returns_ret].
  by apply notify_shutdown_typed, (typed_queue w3 Hw3 p).
Qed.

Lemma returns_join E w p : typed w -> live w p -> returns E w (_ ← join_queue_thread 0 p; join_periodic_thread 0 p).
Proof.
  intros Hw Hp. cbn [join_queue_thread join_periodic_thread]. apply returns_bind; [|intros _ w1 Hw1 He1].
  - apply returns_get_task; [done..|]. intros t Ht. destruct (queue_thread t); first [by apply returns_ret|by apply returns_assign_thread].
  - apply returns_get_task; [done|live|]. intros t Ht.
    destruct (periodic_thread t); first [by apply returns_ret|apply returns_assign_thread; [done|live|done]].
Qed.
(** Creating an object and initialising it. *)
Lemma returns_create w p t (init : addr -> M Q unit) :
  typed w -> 0 < p < 2 ^ 64 -> tasks w !! p = None ->
  queue_typed (message_queue t) -> derived_ok (live w) p (derived t) -> manager_ok w (derived t) ->
  (forall w', typed w' -> is_a w' p (class_of (derived t)) -> returns [broker_off] w' (init p)) ->
  returns [broker_off] w (instance ← make_shared p t; _ ← init instance; mret instance).
Proof.
  intros Hw Hp Hnone Hq Hd Hm Hinit. destruct (typed_new w p t Hw Hp Hnone Hq Hd Hm) as [Hw' He].
  eapply (wp_bind _ _ _ _ (fun i w' => i = p /\ is_a w' p (class_of (derived t)))).
  - unfold wp, make_shared. cbn. split_and!; [done|done|done|]. exists t. split; [apply with_task_lookup|done].
  - intros i w1 Hw1 He1 [-> Hi]. apply returns_bind; [by apply Hinit|]. intros _ w2 Hw2 _. by apply returns_ret.
Qed.

(** The end of an object nobody owns. *)
Lemma typed_drop w p :
  typed w -> (forall q t, tasks w !! q = Some t -> p ∉ owns (derived t)) -> typed (set_tasks (delete p (tasks w)) w).
Proof.
  intros [Hw Hq Hm] Hown. split; [by apply drop_wf| |]; cbn; intros q t [Hne Ht]%lookup_delete_Some; [by apply (Hq q)|].
  specialize (Hm q t Ht). specialize (Hown q t Ht). destruct (derived t) as [s|h|]; cbn in *; [done| |done].
  destruct Hm as [|(u & Hu & Hk)]; [by left|right]. exists u. cbn. rewrite lookup_delete_ne; [done|].
  intros Hp. apply Hown. rewrite Hp. by left.
Qed.

Lemma destroy_sound w p :
  typed w -> live w p -> (forall q t, tasks w !! q = Some t -> p ∉ owns (derived t)) ->
  match Task_destroy p w with Ok (_, w') => typed w' | Err e => e ∈ [gone; unjoined] end.
Proof.
  intros Hw [t Ht] Hown. pose proof (typed_drop w p Hw Hown) as Hw1. unfold Task_destroy.
  rewrite (M_bind_Ok _ _ _ _ _ (get_task_run p t w Ht)).
  rewrite (M_bind_Ok _ _ w tt (set_tasks (delete p (tasks w)) w)) by done. destruct (running t).
  - rewrite (M_bind_Err _ _ _ gone); [by left|]. unfold noexcept. rewrite announce_state_expired; [done|].
    cbn. apply lookup_delete_eq.
  - cbn. destruct (joinable (queue_thread t) || joinable (periodic_thread t)); cbn; [by right; left|done].
Qed.

(** What [returns] says of the whole call. *)
Lemma returns_sound E w (m : M Q unit) :
  returns E w m -> match m w with Ok (_, w') => typed w' | Err e => e ∈ E end.
Proof. unfold returns, wp. destruct (m w) as [[u w']|e]; [by intros []|done]. Qed.

Lemma returns_ignore {A} E w (m : M Q A) : returns E w m -> returns E w (ignore m).
Proof. intros Hm. apply returns_bind; [done|]. intros a w1 Hw1 _. by apply returns_ret. Qed.

Lemma call_sound w c :
  typed w -> call_typed w c ->
  match run_call c w with Ok (_, w') => typed w' | Err e => e ∈ errors_of c end.
Proof.
  intros Hw [Hok Hc]. destruct c; cbn [run_call errors_of call_ok] in *;
    [..|by apply destroy_sound]; apply returns_sound; try (apply returns_ignore); try (by destruct Hc; live); try live.
  - destruct (typed_same w (set_broker (mkBroker true (subscriber_lists (broker w))) w)) as [? ?]; try done.
    apply (wf_NoDup w (typed_wf w Hw)).
  - by apply returns_transition.
  - destruct Hok. apply (returns_create _ _ _ StateManager_on_initialize); try done.
    + split_and!; [constructor|constructor|by left].
    + intros w' Hw' Hp. apply returns_safe_subscribe; [done|live|done].
  - destruct Hok as (? & ? & ?), Hc. apply (returns_create _ _ _ HeartBeat_on_initialize); try done.
    + split_and!; [apply hb_wf_new|constructor|done].
    + intros w' Hw' Hp. live.
  - destruct Hok, Hc. apply (returns_create _ _ _ (fun i => subscribe_all i types)); try done.
    intros w' Hw' Hp. live.
  - apply returns_modify_sm; [done..|]. intros s (? & ? & _). by split_and!.
  - apply returns_modify_hb; [done..| |done]. intros h ([] & ? & ?). by split_and!.
  - by apply returns_stop_request.
  - by apply returns_join.
Qed.
End soundness.

(** ** A user's class whose handlers have these types: it goes where a state
    message says and answers heartbeats *)

Definition following_message {Q} `{QueueImpl Q} (this : addr) (m : Msg) : M Q unit :=
  match get_data_as AStateMsg m, get_data_as AHeartbeatMsg m with
  | Some sm, _ => Task_transition_to_state this (state_of_byte (sm_state sm))
  | None, Some hb => handle_heartbeat this hb
  | None, None => mret tt
  end.

Definition following_tasks {Q} `{QueueImpl Q} : UserTasks Q :=
  {| user_process_message := following_message; user_periodic_task_process _ := mret tt |}.

Lemma returns_handle_heartbeat {Q} `{QueueTyping Q} (w : World Q) p hb :
  typed w -> live w p -> 0 <= unique_id hb < 2 ^ 32 -> 0 <= timestamp hb < 2 ^ 64 ->
  returns publish_errors w (handle_heartbeat p hb).
Proof.
  intros Hw Hp Hid Htm. apply returns_bind; [live|]. intros c w1 Hw1 He1.
  eapply wp_bind; [by apply (wp_new _ _ _ _ (fun m _ => m = pack p (VHeartbeatAckMsg (mkHeartbeatAckMsg (unique_id hb) (timestamp hb)
    (u64 (duration_cast_ms (steady_ns c)))))))|].
  intros m w2 Hw2 He2 ->. assert (Hp2 : live w2 p) by live.
  apply returns_safe_publish; [done..|]. apply pack_ok; [done..|]. cbn. split_and!; try lia; apply u64_range.
Qed.

Lemma following_typed {Q} `{QueueTyping Q} : TypedTasks Q (H1 := following_tasks).
Proof.
  split; [|intros w p Hw _; by apply returns_ret]. intros w p m Hw Hp Hm. pose proof (is_a_live _ _ _ Hp) as Hl.
  cbn [user_process_message following_tasks]. unfold following_message.
  destruct (get_data_as AStateMsg m) as [sm|]; [eapply returns_weaken; [by apply returns_Task_transition|exact handler_errors_publish]|].
  destruct (get_data_as AHeartbeatMsg m) as [hb|] eqn:Hd; [|by apply returns_ret].
  apply get_data_as_Some in Hd. pose proof (msg_wf_data m Hm) as Hv. rewrite Hd in Hv. destruct Hv.
  eapply returns_weaken; [by apply returns_handle_heartbeat|exact handler_errors_publish].
Qed.

(** ** Properties *)

(** Undefined behaviour among the errors. *)
Definition undefined (e : error) : Prop := match e with UB _ => True | _ => False end.

Section properties.
Context {Q : Type} `{QueueTyping Q} `{!UserTasks Q}.
Implicit Types (w : World Q) (t : Task Q).

(** Calls with typed arguments and turns of threads. *)
Inductive typed_step : World Q -> World Q -> Prop :=
  | typed_call w c w' : call_typed w c -> run_call c w = Ok (tt, w') -> typed_step w w'
  | typed_run w p r w' : live w p -> run_step p w = Ok (r, w') -> typed_step w w'
  | typed_periodic w p r w' : live w p -> run_periodic_step p w = Ok (r, w') -> typed_step w w'.

Lemma turn_sound `{!TypedTasks Q} w p :
  typed w -> live w p ->
  match run_step p w with Ok (_, w') => typed w' | Err e => e ∈ handler_errors end /\
  match run_periodic_step p w with Ok (_, w') => typed w' | Err e => e ∈ handler_errors end.
Proof.
  intros Hw Hp. pose proof (returns_run_step w p Hw Hp) as H1. pose proof (returns_periodic_step w p Hw Hp) as H2.
  unfold returns, wp in H1, H2. split.
  - destruct (run_step p w) as [[u w']|e]; [by destruct H1|done].
  - destruct (run_periodic_step p w) as [[u w']|e]; [by destruct H2|done].
Qed.

Lemma typed_step_typed `{!TypedTasks Q} w w' : typed w -> typed_step w w' -> typed w'.
Proof.
  intros Hw Hs. destruct Hs as [w c w' Hc Hr|w p r w' Hp Hr|w p r w' Hp Hr].
  - pose proof (call_sound w c Hw Hc) as Hk. by rewrite Hr in Hk.
  - destruct (turn_sound w p Hw Hp) as [Hk _]. by rewrite Hr in Hk.
  - destruct (turn_sound w p Hw Hp) as [_ Hk]. by rewrite Hr in Hk.
Qed.

Lemma empty_world_typed clk : typed (empty_world (Q := Q) clk).
Proof.
  assert (Hno : forall p t, tasks (empty_world (Q := Q) clk) !! p = Some t -> False)
    by (intros p t Ht; exact (lookup_empty_Some (M := gmap addr) p t Ht)).
  split; [apply empty_world_wf|intros p t Ht; by destruct (Hno p t)..].
Qed.

(** C7. Well-typed programs do not go wrong: whatever typed calls a program
    makes and however the threads interleave, from every world it can reach a
    typed call ends in a typed world or fails with one of the errors listed
    for that call, and a turn of a thread ends in a typed world or finds a
    full queue, a broker not initialised, or [target_state] not set. No call
    has undefined behaviour, and the only undefined behaviour of a turn is
    the read of [target_state] before the first demand. *)
Theorem typed_programs_sound clk w :
  TypedTasks Q -> rtc typed_step (empty_world clk) w ->
  typed w /\
  (forall c, call_typed w c -> match run_call c w with Ok (_, w') => typed w' | Err e => e ∈ errors_of c end) /\
  (forall p, live w p ->
     match run_step p w with Ok (_, w') => typed w' | Err e => e ∈ handler_errors end /\
     match run_periodic_step p w with Ok (_, w') => typed w' | Err e => e ∈ handler_errors end) /\
  (forall (c : call Q) e, e ∈ errors_of c -> ~ undefined e) /\
  (forall e, e ∈ handler_errors -> undefined e -> e = no_target).
Proof.
  intros HT Hsteps. assert (Hw : typed w).
  { pose proof (empty_world_typed clk) as Hw. induction Hsteps as [|w1 w2 w3 Hs _ IH]; [done|].
    by apply IH, (typed_step_typed w1). }
  split_and!; [done|intros c Hc; by apply call_sound|intros p Hp; by apply turn_sound| |].
  - intros c e He. assert (Hall : Forall (fun e => ~ undefined e) (errors_of c)) by (destruct c; repeat (constructor; [by intros []|]); constructor).
    by apply (proj1 (Forall_forall _ _) Hall).
  - intros e He Hu. unfold handler_errors in He. by repeat (apply elem_of_cons in He as [->|He]); [..|apply elem_of_nil in He].
Qed.
End properties.

(** ** Witness: a state manager asks a following task to run *)

Section witness.
#[local] Instance followers : UserTasks aqueue := following_tasks.

Definition run_of (c : call aqueue) (w : World aqueue) : World aqueue :=
  match run_call c w with Ok (_, w') => w' | Err _ => w end.
Definition turn_of (p : addr) (w : World aqueue) : World aqueue :=
  match run_step p w with Ok (_, w') => w' | Err _ => w end.

Definition seen1 : World aqueue := run_of (CBrokerInitialize 16) (empty_world still_clock).
Definition seen2 : World aqueue := run_of (CCreateStateManager 16 (aq_new 4)) seen1.
Definition seen3 : World aqueue := run_of (CCreateUserTask 32 "A" (aq_new 4) 10 [Type_StateMsg]) seen2.
Definition seen4 : World aqueue := run_of (CStart 32) seen3.
Definition seen5 : World aqueue := run_of (CRequest 16 RUNNING) seen4.
Definition seen6 : World aqueue := turn_of 32 seen5.
Definition seen7 : World aqueue := turn_of 32 seen6.

Lemma run_of_step c w : call_typed w c -> is_ok (run_call c w) = true -> typed_step w (run_of c w).
Proof.
  intros Hc. unfold run_of. destruct (run_call c w) as [[[] w']|e] eqn:Hr; [intros _|done]. by apply (typed_call w c).
Qed.

Lemma turn_of_step p w : live w p -> is_ok (run_step p w) = true -> typed_step w (turn_of p w).
Proof.
  intros Hp. unfold turn_of. destruct (run_step p w) as [[r w']|e] eqn:Hr; [intros _|done]. by apply (typed_run w p r).
Qed.

Lemma typed_programs_sound_witness :
  rtc typed_step (empty_world (Q := aqueue) still_clock) seen7 /\ typed seen7 /\
  current_state <$> tasks seen7 !! 32 = Some RUNNING /\
  match run_call (CRegister 16 32) seen7 with Ok (_, w') => typed w' | Err e => e ∈ [] end.
Proof.
  assert (Hc2 : call_typed seen1 (CCreateStateManager 16 (aq_new 4))).
  { split; [split; [lia|vm_compute; reflexivity]|constructor]. }
  assert (Hc3 : call_typed seen2 (CCreateUserTask 32 "A" (aq_new 4) 10 [Type_StateMsg])).
  { split; [split; [lia|vm_compute; reflexivity]|]. split; [constructor|by repeat constructor]. }
  assert (Hl3 : live seen3 32) by (unfold live; vm_compute; by eexists).
  assert (Hl5 : live seen5 32) by (unfold live; vm_compute; by eexists).
  assert (Hl6 : live seen6 32) by (unfold live; vm_compute; by eexists).
  assert (Hl7 : live seen7 32) by (unfold live; vm_compute; by eexists).
  assert (Hm4 : is_a seen4 16 ManagerClass) by (unfold is_a; vm_compute; by eexists).
  assert (Hm7 : is_a seen7 16 ManagerClass) by (unfold is_a; vm_compute; by eexists).
  assert (Hsteps : rtc typed_step (empty_world (Q := aqueue) still_clock) seen7).
  { apply (rtc_l _ _ seen1); [by apply run_of_step; [|vm_compute; reflexivity]|].
    apply (rtc_l _ _ seen2); [by apply run_of_step; [|vm_compute; reflexivity]|].
    apply (rtc_l _ _ seen3); [by apply run_of_step; [|vm_compute; reflexivity]|].
    apply (rtc_l _ _ seen4); [by apply run_of_step; [|vm_compute; reflexivity]|].
    apply (rtc_l _ _ seen5); [by apply run_of_step; [|vm_compute; reflexivity]|].
    apply (rtc_l _ _ seen6); [by apply turn_of_step; [|vm_compute; reflexivity]|].
    apply (rtc_l _ _ seen7); [by apply turn_of_step; [|vm_compute; reflexivity]|apply rtc_refl]. }
  destruct (typed_programs_sound still_clock seen7 following_typed Hsteps) as (Hw & Hc & _).
  split_and!; [exact Hsteps|exact Hw|vm_compute; reflexivity|].
  apply (Hc (CRegister 16 32)). by split.
Defined.
End witness.
