(* ===== verification/Handshake.v ===== *)
(** * Handshake: the turns a demand is made of

    The protocol of a state transition across all components: the state
    manager broadcasts a request, a registered task takes it out of its queue,
    changes its state and publishes an acknowledgement, and the state
    manager's thread takes that out of its own queue and records it. Each of
    these turns has its lemma here, with what it leaves alone; Schedules puts
    them together. The threads' turns are those of TaskBase.v, the virtual
    calls those of System.v. *)

From S2P Require Import Prelude Msg Heap QueueSpec Logger World Broker TaskBase StateManager HeartBeat System.
#[local] Open Scope Z_scope.

(** ** What an operation leaves as it is *)

Section leaves.
Context {Q B : Type} `{QueueImpl Q} (f : World Q -> B).
Implicit Types (w : World Q).

Definition leaves {A} (m : M Q A) : Prop := forall w a w', m w = Ok (a, w') -> f w' = f w.

Lemma leaves_bind {A C} (m : M Q A) (k : A -> M Q C) : leaves m -> (forall a, leaves (k a)) -> leaves (m ≫= k).
Proof. intros Hm Hk w b w2 (a & w1 & H1 & H2)%M_bind_inv. by rewrite (Hk a _ _ _ H2), (Hm _ _ _ H1). Qed.

Lemma leaves_modify g : (forall w, f (g w) = f w) -> leaves (modify g).
Proof. intros Hg w a w' [= _ <-]. apply Hg. Qed.

Lemma leaves_gets {A} (g : World Q -> A) : leaves (gets g).
Proof. by intros w a w' [= _ <-]. Qed.

Lemma leaves_ret {A} (a : A) : leaves (mret a).
Proof. apply (leaves_gets (fun _ => a)). Qed.

Lemma leaves_throw {A} e : leaves (throw (Q := Q) (A := A) e).
Proof. by intros w a w'. Qed.

Lemma leaves_lift {A} (r : result A) : leaves (lift r).
Proof. intros w a w'. unfold lift. by destruct r; cbn; [intros [= _ <-]|]. Qed.

Lemma leaves_now : (forall w, f (tick w) = f w) -> leaves now.
Proof. intros Hf w a w' [= _ <-]. apply Hf. Qed.

Lemma leaves_get_task p : leaves (get_task p).
Proof. by intros w a w' [-> _]%get_task_inv. Qed.

Lemma leaves_if {A} (b : bool) (m1 m2 : M Q A) : leaves m1 -> leaves m2 -> leaves (if b then m1 else m2).
Proof. by destruct b. Qed.

Lemma leaves_decide {A} P `{Decision P} (m1 m2 : M Q A) : leaves m1 -> leaves m2 -> leaves (if decide P then m1 else m2).
Proof. by destruct (decide P). Qed.
End leaves.
#[export] Hint Resolve leaves_bind leaves_gets leaves_ret leaves_throw leaves_lift leaves_get_task leaves_if leaves_decide : bus.
#[export] Hint Extern 1 (leaves _ (modify _)) => apply leaves_modify; by intros : bus.
#[export] Hint Extern 1 (leaves _ now) => apply leaves_now; by intros : bus.

(** *** Nobody sets the clock *)

Section clock_operations.
Context {Q : Type} `{QueueImpl Q}.
Abbreviation same_clock := (leaves (Q := Q) clock).

Lemma clock_deliver p m : same_clock (deliver_message p m).
Proof.
  unfold deliver_message, get_name, put_task. apply leaves_bind; [case_decide; keep|]. intros nm. unfold log_entry. keep.
Qed.

Lemma clock_publish m : same_clock (publish m).
Proof.
  unfold publish, type_index, subscribers_of, set_subscribers, put_task. apply leaves_bind; [keep|intros i].
  apply leaves_bind; [keep|intros l]. apply leaves_bind; [|keep].
  induction l as [|p l IH]; cbn [publish_loop]; [keep|]. unfold expired. pose proof clock_deliver. keep.
Qed.

Lemma clock_safe_publish p m : same_clock (safe_publish p m).
Proof. unfold safe_publish, shared_from_this, expired. pose proof clock_publish. keep. Qed.

Lemma clock_modify_task p f : same_clock (modify_task p f).
Proof. unfold modify_task, put_task. keep. Qed.

Lemma clock_log_as p l m : same_clock (log_as p l m).
Proof. unfold log_as, get_name, log_entry. keep. Qed.

Lemma clock_transition p s : same_clock (Task_transition_to_state p s).
Proof.
  unfold Task_transition_to_state, announce_state, log_entry. pose proof clock_modify_task. pose proof clock_safe_publish. keep.
Qed.

Lemma clock_get_sm p : same_clock (get_sm p).
Proof. unfold get_sm. apply leaves_bind; [keep|]. intros t. destruct (derived t); keep. Qed.

Lemma clock_modify_sm p f : same_clock (modify_sm p f).
Proof. unfold modify_sm. pose proof clock_get_sm. pose proof clock_modify_task. keep. Qed.

Lemma clock_sm_transition p s : same_clock (StateManager_transition_to_state p s).
Proof.
  unfold StateManager_transition_to_state. pose proof clock_log_as. pose proof clock_modify_sm. pose proof clock_safe_publish. keep.
Qed.

Lemma clock_demand_begin p s : same_clock (demand_begin p s).
Proof.
  unfold demand_begin. pose proof clock_log_as. pose proof clock_modify_sm. pose proof clock_sm_transition. keep.
Qed.

Lemma clock_handle_ack p m : same_clock (handle_acknowledgment p m).
Proof.
  unfold handle_acknowledgment. pose proof clock_log_as. pose proof clock_modify_sm. pose proof clock_get_sm.
  case_decide; [keep|]. apply leaves_bind; [keep|intros s]. destruct (find_raw _ _); [|keep].
  destruct (get_data_as AStateAckMsg m); [|keep]. unfold get_name.
  do 3 (apply leaves_bind; [keep|intros ?]). apply leaves_bind; [keep|intros s']. destruct (target_state s'); keep.
Qed.
Lemma clock_get_hb p : same_clock (get_hb p).
Proof. by intros w a w' [-> _]%get_hb_inv. Qed.

Lemma clock_modify_hb p f : same_clock (modify_hb p f).
Proof. unfold modify_hb. pose proof clock_get_hb. pose proof (clock_modify_task). keep. Qed.

Lemma clock_ack_loop p sender ack pairs : same_clock (ack_loop p sender ack pairs).
Proof.
  induction pairs as [|[k st] pairs IH]; cbn [ack_loop]; [keep|]. apply leaves_decide; [|exact IH].
  pose proof clock_modify_hb. pose proof (clock_log_as). destruct ack as [a|]; [|keep].
  apply leaves_decide; [|keep]. unfold get_name. keep.
Qed.

Lemma clock_handle_ack_hb p m : same_clock (HeartBeat_handle_acknowledgment p m).
Proof. unfold HeartBeat_handle_acknowledgment. pose proof clock_get_hb. pose proof clock_ack_loop. keep. Qed.

Lemma clock_handle_heartbeat p hb : same_clock (handle_heartbeat p hb).
Proof. unfold handle_heartbeat. pose proof (clock_safe_publish). keep. Qed.

Lemma clock_send_loop p pairs : same_clock (send_loop p pairs).
Proof.
  induction pairs as [|[k st] pairs IH]; cbn [send_loop]; [keep|]. apply leaves_bind; [|intros; exact IH].
  pose proof clock_modify_hb. pose proof (clock_deliver). pose proof clock_get_hb.
  apply leaves_if; [keep|]. unfold generate_heartbeat_id. keep.
Qed.

(** The handlers of the two tasks of the library do not either. *)
Lemma clock_process_message `{UserTasks Q} p m :
  (forall p m, same_clock (user_process_message p m)) -> same_clock (process_message p m).
Proof.
  intros Hu. cbn [process_message dynamic_dispatch]. unfold dispatch, StateManager_process_message, HeartBeat_process_message.
  pose proof clock_handle_ack. pose proof clock_handle_ack_hb. pose proof clock_log_as. pose proof clock_transition.
  apply leaves_bind; [keep|intros t]. destruct (derived t); [keep| |apply Hu].
  destruct (get_data_as AStateMsg m); keep.
Qed.
End clock_operations.

Section handshake.
Context {Q : Type} `{QueueImpl Q} `{UserTasks Q}.
Implicit Types (t : Task Q) (w : World Q) (s : StateManager) (d : Derived).

(** ** What a turn changes *)

(** State, running flag, threads and dynamic type of the object at [p]. *)
Definition status w (p : addr) : option (TaskState * bool * thread * thread * Derived) :=
  (fun t => (current_state t, running t, queue_thread t, periodic_thread t, derived t)) <$> tasks w !! p.

Lemma status_Some w p c r th pt d :
  status w p = Some (c, r, th, pt, d) ->
  exists t, tasks w !! p = Some t /\ current_state t = c /\ running t = r /\ queue_thread t = th /\
    periodic_thread t = pt /\ derived t = d.
Proof. unfold status. intros (t & Ht & [= -> -> -> -> ->])%fmap_Some. by exists t. Qed.

Lemma status_live w p : is_Some (status w p) <-> is_Some (tasks w !! p).
Proof. apply fmap_is_Some. Qed.

Lemma status_mail w w' p : only_mail w w' -> status w' p = status w p.
Proof. intros Hm. unfold status. specialize (Hm p). inversion Hm as [t t' Heq H1 H2|H1 H2]; subst; [by rewrite Heq|done]. Qed.

Lemma status_with_task p t w q :
  status (with_task p t w) q =
    if decide (p = q) then Some (current_state t, running t, queue_thread t, periodic_thread t, derived t) else status w q.
Proof.
  unfold status, with_task. cbn. case_decide as Hq; [subst; by rewrite lookup_insert_eq|by rewrite lookup_insert_ne].
Qed.

(** Nobody is subscribed, and nobody alive is unsubscribed. *)
Definition pruned (b b' : bus) : Prop := forall i q,
  ((q ∈ default [] (bus_subs b' !! i)) -> q ∈ default [] (bus_subs b !! i)) /\
  ((q ∈ default [] (bus_subs b !! i)) -> is_Some (bus_mail b !! q) -> q ∈ default [] (bus_subs b' !! i)).

Lemma pruned_subs b b' i : pruned b b' -> default [] (bus_subs b' !! i) ⊆ default [] (bus_subs b !! i).
Proof. intros Hp q. apply Hp. Qed.

Lemma pruned_refl b : pruned b b.
Proof. by intros i q. Qed.

Lemma pruned_trans b1 b2 b3 :
  (forall q, is_Some (bus_mail b1 !! q) -> is_Some (bus_mail b2 !! q)) -> pruned b1 b2 -> pruned b2 b3 -> pruned b1 b3.
Proof.
  intros Hlive H12 H23 i q. split; [intros Hq; by apply H12, H23|]. intros Hq Hl. apply H23; [by apply H12|by apply Hlive].
Qed.

(** What a handshake leaves alone: the clock, the periodic threads, the members
    of derived classes but the state manager's, the capacities of queues, and
    the subscriptions of the living. *)
Definition carried (this : addr) w (b : bus) w' (b' : bus) : Prop :=
  clock w' = clock w /\
  (forall q, periodic_thread <$> tasks w' !! q = periodic_thread <$> tasks w !! q) /\
  (forall q, q <> this -> derived <$> tasks w' !! q = derived <$> tasks w !! q) /\
  (forall q, aq_capacity <$> bus_mail b' !! q = aq_capacity <$> bus_mail b !! q) /\
  pruned b b'.

Lemma carried_refl this w b : carried this w b w b.
Proof. by split_and!. Qed.

Lemma same_capacity_live b b' q :
  aq_capacity <$> bus_mail b' !! q = aq_capacity <$> bus_mail b !! q -> is_Some (bus_mail b !! q) -> is_Some (bus_mail b' !! q).
Proof. intros Hc [a Ha]. rewrite Ha in Hc. destruct (bus_mail b' !! q); [by eexists|done]. Qed.

Lemma carried_trans this w1 b1 w2 b2 w3 b3 :
  carried this w1 b1 w2 b2 -> carried this w2 b2 w3 b3 -> carried this w1 b1 w3 b3.
Proof.
  intros (C1 & P1 & D1 & A1 & S1) (C2 & P2 & D2 & A2 & S2). split_and!; [congruence| | | |].
  - intros q. by rewrite P2.
  - intros q Hq. by rewrite D2, D1.
  - intros q. by rewrite A2.
  - apply (pruned_trans b1 b2); [|done..]. intros q. by apply same_capacity_live.
Qed.

Lemma bus_publish_pruned b m b' : bus_publish b m = Ok b' -> pruned b b'.
Proof.
  intros (j & mb & _ & _ & ->)%bus_publish_Ok i q. cbn [bus_subs]. destruct (decide (j = i)) as [->|Hne].
  - destruct (decide (i < length (bus_subs b))%nat) as [Hi|Hi].
    + rewrite list_lookup_insert_eq by done. cbn. rewrite elem_of_live_in. tauto.
    + by rewrite list_insert_ge by lia.
  - by rewrite list_lookup_insert_ne.
Qed.

Lemma status_periodic w q : periodic_thread <$> tasks w !! q = (fun r => r.1.2) <$> status w q.
Proof. unfold status. by destruct (tasks w !! q). Qed.

Lemma status_derived w q : derived <$> tasks w !! q = snd <$> status w q.
Proof. unfold status. by destruct (tasks w !! q). Qed.

(** [p]'s thread takes a message out of its queue. *)
Lemma take_turn p w b t a m a' :
  bus_view w b -> tasks w !! p = Some t -> queue_thread t = InDequeue -> bus_mail b !! p = Some a ->
  aq_dequeue a = (Returns (Some m), a') ->
  exists q, bus_view (with_task p (set_message_queue q t) w) (set_mail p a' b) /\
    run_step p w = (_ ← process_message p m; _ ← modify_task p (set_queue_thread LoopHead); mret Progress)
      (with_task p (set_message_queue q t) w).
Proof.
  intros (Hon & Hs & Hm) Ht Hth Ha Hd. destruct (mailboxes_task w _ p a Hm Ha) as (t' & Ht' & Hv).
  rewrite Ht in Ht'. injection Ht' as <-. destruct (run_step_dequeue p t w a Ht Hth Hv) as (q & Hq & Hrun).
  rewrite Hd in Hq, Hrun. exists q. split; [|done]. split_and!; [done|done|]. by apply (mailboxes_update w).
Qed.

(** Publishing a message whose only subscriber is [this]. *)
Lemma publish_to_one this m b a0 :
  bus_wf b -> msg_wf m -> bus_on b = true -> known_sender (bus_mail b) m ->
  default [] (bus_subs b !! Z.to_nat (get_type m)) = [this] -> bus_mail b !! this = Some a0 -> has_room a0 ->
  exists b', bus_publish b m = Ok b' /\ bus_wf b' /\ bus_on b' = true /\
    default [] (bus_subs b' !! Z.to_nat (get_type m)) = [this] /\
    pruned b b' /\
    forall q, bus_mail b' !! q = if decide (q = this) then Some (received m a0) else bus_mail b !! q.
Proof.
  intros Hwf Hm Hon Hs Hsubs Ha0 Hroom. destruct (bus_publish_room b m Hwf Hm Hon Hs) as (mb & Hpub & Hmb).
  { intros y z. rewrite Hsubs. intros ->%list_elem_of_singleton. congruence. }
  eexists. split; [exact Hpub|]. split; [exact (bus_publish_wf b _ _ Hwf Hpub)|]. split; [done|]. split; [|split].
  - cbn [bus_subs]. rewrite list_lookup_insert_eq.
    + cbn [default from_option]. rewrite Hsubs. cbn [id]. by rewrite (live_in_cons_live _ this a0).
    + rewrite (proj1 Hwf), (msg_wf_type m Hm : get_type m = _). destruct (msg_data m); vm_compute; lia.
  - exact (bus_publish_pruned b _ _ Hpub).
  - intros q. cbn [bus_mail]. rewrite Hmb. unfold posted. rewrite Hsubs. destruct (decide (q = this)) as [->|Hq].
    + by rewrite decide_True, Ha0 by apply list_elem_of_here.
    + rewrite decide_False; [done|]. by intros ->%list_elem_of_singleton.
Qed.

Lemma single_dequeue a m :
  aq_items a = [m] -> aq_dequeue a = (Returns (Some m), mkAqueue [] (aq_capacity a) (aq_closed a) 0).
Proof. intros Hi. unfold aq_dequeue. by rewrite Hi. Qed.

(** Back to the head of the loop, and from there into the next wait. *)
Lemma loop_turn p w b c pt d :
  bus_view w b -> status w p = Some (c, true, LoopHead, pt, d) ->
  exists w', run_step p w = Ok (Progress, w') /\ bus_view w' b /\ clock w' = clock w /\
    forall q, status w' q = if decide (p = q) then Some (c, true, InDequeue, pt, d) else status w q.
Proof.
  intros Hv (t & Ht & <- & Hr & Hth & <- & <-)%status_Some.
  eexists. split; [by apply (run_step_head p t w Ht Hth)|]. rewrite Hr. split; [by apply (bus_view_fields w b p t)|].
  split; [done|].
  intros q. rewrite status_with_task. cbn. by rewrite Hr.
Qed.

(** ** The registered task's side *)

(** The handler of [p] does what a request for [x] asks for. *)
Definition follows (sender p : addr) (x : TaskState) d : Prop :=
  forall w t, tasks w !! p = Some t -> derived t = d ->
    process_message p (state_request sender x) w = Task_transition_to_state p x w.

(** Heartbeat tasks do. *)
Lemma heart_beat_follows sender p x h : 0 <= x < 2 ^ 8 -> follows sender p x (IsHeartBeat h).
Proof.
  intros Hx w t Ht Hd. cbn [process_message dynamic_dispatch]. unfold dispatch.
  rewrite (M_bind_Ok _ _ _ _ _ (get_task_run p t w Ht)), Hd. unfold HeartBeat_process_message, state_request.
  cbn -[state_to_byte state_of_byte]. unfold state_of_byte, state_to_byte. by rewrite u8_small.
Qed.

Lemma dequeue_ticks a m a1 : aq_dequeue a = (Returns (Some m), a1) -> aq_ticks a1 = 0 \/ aq_ticks a1 = aq_ticks a.
Proof.
  unfold aq_dequeue. destruct (pop_best msg_lt (aq_items a)) as [[m' r]|]; [|by destruct (aq_closed a)].
  intros [= -> <-]. cbn. destruct r; [by left|by right].
Qed.

Lemma dequeue_fresh p a m a1 b k :
  bus_mail b !! p = Some a -> aq_dequeue a = (Returns (Some m), a1) -> k < 2 ^ 32 -> fresh b k -> fresh (set_mail p a1 b) k.
Proof.
  intros Ha Hd Hk Hf. apply set_mail_fresh; [|done]. specialize (Hf p a Ha). destruct (dequeue_ticks a m a1 Hd); lia.
Qed.

Lemma user_turn this p x w b c pt d a a0 a1 :
  bus_view w b -> bus_wf b -> fresh b 1 -> bus_on b = true -> 0 < p < 2 ^ 64 -> p <> this ->
  default [] (bus_subs b !! Z.to_nat Type_StateAckMsg) = [this] -> follows this p x d ->
  status w p = Some (c, true, InDequeue, pt, d) -> bus_mail b !! p = Some a ->
  aq_dequeue a = (Returns (Some (state_request this x)), a1) ->
  bus_mail b !! this = Some a0 -> has_room a0 ->
  exists w' b', run_step p w = Ok (Progress, w') /\ bus_view w' b' /\ bus_wf b' /\ bus_on b' = true /\
    default [] (bus_subs b' !! Z.to_nat Type_StateAckMsg) = [this] /\ clock w' = clock w /\
    pruned b b' /\
    (forall q, status w' q = if decide (p = q) then Some (x, true, LoopHead, pt, d) else status w q) /\
    (forall q, bus_mail b' !! q =
       if decide (q = p) then Some a1
       else if decide (q = this) then Some (received (state_ack p x) a0) else bus_mail b !! q).
Proof.
  intros Hv Hwf Hf Hon Hp Hne Hack Hfol (t & Ht & Hc & Hr & Hth & Hpt & Hd)%status_Some Ha Hdq Ha0 Hroom.
  destruct (take_turn p w b t a _ _ Hv Ht Hth Ha Hdq) as (q & Hv1 & ->).
  set (b1 := set_mail p a1 b) in *.
  set (t1 := set_message_queue q t). set (w1 := with_task p t1 w) in *.
  assert (Hf1 : fresh b1 1) by (by apply (dequeue_fresh p a _ a1 b 1 Ha Hdq)).
  destruct (publish_to_one this (state_ack p x) b1 a0 Hwf (state_ack_wf p x ltac:(lia)) Hon) as (b2 & Hpub & Wf2 & On2 & Ack2 & Sub2 & Mail2);
    [right; exists a1; cbn [state_ack]; etrans; [apply set_mail_lookup|by apply decide_True]
    |exact Hack|by rewrite (set_mail_lookup p a1 b), decide_False by (by apply not_eq_sym)|done|].
  pose proof (transition_view p x w1 b1 t1 Hv1 Hwf Hf1 (with_task_lookup _ _ _) Hp) as Htr. rewrite Hpub in Htr.
  destruct Htr as (w2 & Hrun & Hv2 & Hom).
  rewrite (M_bind_Ok _ _ w1 tt w2) by (by rewrite (Hfol w1 t1 (with_task_lookup _ _ _) Hd)).
  destruct (only_mail_name _ _ p _ Hom (with_task_lookup _ _ _)) as (t2 & Ht2 & _ & Hs2 & Hr2 & _ & Hp2 & _ & Hd2).
  rewrite (M_bind_Ok _ _ _ _ _ (modify_task_with p _ t2 w2 Ht2)).
  eexists _, b2. split; [done|]. split; [by apply (bus_view_fields w2 _ p t2)|].
  split; [done|]. split; [done|]. split; [exact Ack2|]. split; [exact (clock_transition p x w1 tt w2 Hrun)|]. split; [|split].
  - apply (pruned_trans b b1); [|by intros i y|done]. intros y Hy. unfold b1. rewrite set_mail_lookup. case_decide; [by eexists|done].
  - intros y. rewrite status_with_task. cbn in Hs2, Hr2, Hd2, Hp2. cbn. rewrite Hs2, Hr2, Hp2, Hd2, Hr, Hpt, Hd.
    case_decide as Hy; [done|]. rewrite (status_mail _ _ y Hom). unfold w1. by rewrite !status_with_task, !decide_False.
  - intros y. rewrite Mail2. unfold b1. rewrite set_mail_lookup.
    destruct (decide (y = this)) as [->|Hy]; [by rewrite decide_False by (by apply not_eq_sym)|done].
Qed.

(** ** The state manager's side *)

Lemma state_ack_applies p x pairs :
  0 <= x < 2 ^ 8 -> p <> nullptr -> (p ∈ pairs.*1) -> apply_ack pairs (state_ack p x) = pm_assign p x pairs.
Proof.
  intros Hx Hp Hin. unfold apply_ack.
  assert (He : ack_effect (state_ack p x) pairs = Some (p, x)).
  { apply ack_effect_Some. split_and!; [done|done|done|]. cbn. unfold state_to_byte. by rewrite u8_small. }
  by rewrite He.
Qed.

Lemma manager_turn this p x w b c pt s a0 a1 target :
  bus_view w b -> 0 <= x < 2 ^ 8 -> p <> nullptr -> (p ∈ (task_states s).*1) -> target_state s = Some target ->
  (forall q, q ∈ (task_states s).*1 -> is_Some (tasks w !! q)) ->
  status w this = Some (c, true, InDequeue, pt, IsStateManager s) ->
  bus_mail b !! this = Some a0 -> aq_dequeue a0 = (Returns (Some (state_ack p x)), a1) ->
  let s' := set_task_states (pm_assign p x (task_states s)) s in
  exists w', run_step this w = Ok (Progress, w') /\
    bus_view w' (set_mail this a1 b) /\ clock w' = clock w /\
    forall q, status w' q = if decide (this = q) then Some (c, true, LoopHead, pt, IsStateManager s') else status w q.
Proof.
  intros Hv Hx Hp Hin Htg Hlive (t & Ht & Hc & Hr & Hth & Hpt & Hd)%status_Some Ha Hi s'.
  destruct (take_turn this w b t a0 _ _ Hv Ht Hth Ha Hi) as (q & Hv1 & ->).
  set (t1 := set_message_queue q t). set (w1 := with_task this t1 w) in *.
  assert (Hlive1 : registered_live w1 s) by (intros y Hy; by apply with_task_live, Hlive).
  destruct (handle_acknowledgment_run this (state_ack p x) w1 t1 s target (with_task_lookup _ _ _) Hd Hlive1 Htg)
    as (r & w2 & Hrun & Hb2 & Ht2 & _).
  rewrite state_ack_applies in Ht2 by done. fold s' in Ht2. set (t2 := with_sm s' t1) in *.
  rewrite (M_bind_Ok _ _ w1 tt w2).
  2: { cbn [process_message dynamic_dispatch]. unfold dispatch.
       rewrite (M_bind_Ok _ _ _ _ _ (get_task_run this t1 w1 (with_task_lookup _ _ _))).
       change (derived t1) with (derived t). rewrite Hd. unfold StateManager_process_message.
       rewrite decide_True by done. by rewrite (M_bind_Ok _ _ _ _ _ Hrun). }
  assert (Ht2' : tasks w2 !! this = Some t2) by (rewrite Ht2; apply lookup_insert_eq).
  rewrite (M_bind_Ok _ _ _ _ _ (modify_task_with this _ t2 w2 Ht2')).
  eexists. split; [done|]. split; [|split; [exact (clock_handle_ack _ _ _ _ _ Hrun)|]].
  - apply (bus_view_fields w2 _ this t2); [done|done|]. unfold bus_view. rewrite Hb2. destruct Hv1 as (Hon & Hs & Hm).
    split_and!; [done|done|]. apply (mailboxes_tasks (with_task this t2 w1)); [done|].
    by apply (mailboxes_fields w1 _ this t1); [apply with_task_lookup| |].
  - intros y. rewrite status_with_task. cbn. rewrite Hc, Hr, Hpt. case_decide as Hy; [done|].
    transitivity (status (with_task this t2 w1) y); [unfold status; by rewrite Ht2|].
    unfold w1. by rewrite !status_with_task, !decide_False.
Qed.

(** ** Before and after a demand *)

(** The state manager's queue is empty and open, its message thread at [th]. *)
Definition manager_at (th : thread) (this : addr) w (b : bus) s : Prop :=
  exists c pt a, status w this = Some (c, true, th, pt, IsStateManager s) /\
    bus_mail b !! this = Some a /\ aq_items a = [] /\ aq_closed a = false /\ (0 < aq_capacity a)%nat.

(** The message thread of [p] is at [th], and its open queue holds [ms]. *)
Definition task_at (th : thread) (this : addr) (x : TaskState) w (b : bus) (ms : list Msg) (p : addr) : Prop :=
  exists c pt d a, status w p = Some (c, true, th, pt, d) /\ follows this p x d /\
    bus_mail b !! p = Some a /\ aq_items a = ms /\ aq_closed a = false.

Definition bus_ready (this : addr) w (b : bus) : Prop :=
  bus_view w b /\ bus_wf b /\ fresh b 1 /\ bus_on b = true /\
  default [] (bus_subs b !! Z.to_nat Type_StateAckMsg) = [this].

(** The broadcast puts the request into the queue of every registered task. *)
Lemma broadcast_run th this x w b s :
  bus_ready this w b -> fresh b 2 -> 0 < this < 2 ^ 64 -> manager_at th this w b s ->
  subscribers_room b (state_request this x) ->
  (this ∉ default [] (bus_subs b !! Z.to_nat Type_StateMsg)) ->
  let s1 := set_sm_current_state x (set_target_state x s) in
  exists w1 b1, demand_begin this x w = Ok (tt, w1) /\ bus_ready this w1 b1 /\ manager_at th this w1 b1 s1 /\
    (forall q, is_Some (tasks w !! q) -> is_Some (tasks w1 !! q)) /\ carried this w b w1 b1 /\
    (forall k, fresh b (k + 1) -> fresh b1 k) /\
    (forall th p, p <> this -> (p ∈ default [] (bus_subs b !! Z.to_nat Type_StateMsg)) -> task_at th this x w b [] p ->
       task_at th this x w1 b1 [state_request this x] p).
Proof.
  intros (Hv & Hwf & Hf & Hon & Hack) Hf2 Hthis (cm & ptm & a0 & Hsm & Ha0 & Hi0 & Hop0 & Hcap) Hroom Hnsub s1.
  pose proof Hsm as (t & Ht & Hc & Hr & Hth & Hpt & Hd)%status_Some.
  destruct (bus_publish_room b (state_request this x) Hwf (state_request_wf this x ltac:(lia)) Hon) as (mb & Hpub & Hmb).
  { right. by exists a0. } { done. }
  pose proof (demand_begin_view this x w b t s Hv Hwf Hf Ht Hd Hthis) as Hbegin. rewrite Hpub in Hbegin.
  destruct Hbegin as (w1 & R1 & V1 & Hom). fold s1 in Hom. set (b1 := mkBus true _ mb) in *.
  assert (S1 : forall q, status w1 q = if decide (this = q) then Some (cm, true, th, ptm, IsStateManager s1) else status w q).
  { intros q. rewrite (status_mail _ _ q Hom), status_with_task. cbn. by rewrite Hc, Hr, Hth, Hpt. }
  assert (Hm : forall q, bus_mail b1 !! q = if decide (q ∈ default [] (bus_subs b !! Z.to_nat Type_StateMsg))
                                   then received (state_request this x) <$> bus_mail b !! q else bus_mail b !! q) by exact Hmb.
  exists w1, b1. split; [done|]. split; [|split; [|split; [|split; [|split]]]].
  - split_and!; [done|exact (bus_publish_wf b _ _ Hwf Hpub)| |done|].
    + intros q z. rewrite Hm. case_decide; [|apply Hf].
      destruct (bus_mail b !! q) as [a|] eqn:Ha; cbn; [|done]. intros [= <-]. cbn. specialize (Hf2 q a Ha). lia.
    + cbn [bus_subs b1]. by rewrite list_lookup_insert_ne.
  - exists cm, ptm, a0. split_and!; [by rewrite S1, decide_True|by rewrite Hm, decide_False|done..].
  - intros q Hq. apply status_live. rewrite S1. case_decide; [by eexists|]. by apply status_live.
  - split_and!; [exact (clock_demand_begin _ _ _ _ _ R1)| | | |].
    + intros q. rewrite !status_periodic, S1. case_decide as Hq; [|done]. by rewrite <- Hq, Hsm.
    + intros q Hq. by rewrite !status_derived, S1, decide_False by (by apply not_eq_sym).
    + intros q. rewrite Hm. case_decide; [|done]. by destruct (bus_mail b !! q).
    + exact (bus_publish_pruned b _ _ Hpub).
  - intros k Hk q z. rewrite Hm. case_decide; [|intros Hz; specialize (Hk q z Hz); lia].
    destruct (bus_mail b !! q) as [a|] eqn:Ha; cbn; [|done]. intros [= <-]. cbn. specialize (Hk q a Ha). lia.
  - intros th' p Hne Hsub (c & pt & d & a & St & Hfol & Ha & Hi & Hop). exists c, pt, d, (received (state_request this x) a).
    rewrite S1, decide_False by (by apply not_eq_sym). rewrite Hm, decide_True, Ha by done. cbn [received aq_items].
    by rewrite Hi.
Qed.

Lemma waiting_manager th this w b s : manager_at th this w b s -> exists t, tasks w !! this = Some t /\ derived t = IsStateManager s.
Proof. intros (? & ? & ? & (t & Ht & _ & _ & _ & _ & Hd)%status_Some & _). by exists t. Qed.

Lemma all_tasks_in_state_run this x w t s :
  tasks w !! this = Some t -> derived t = IsStateManager s ->
  all_tasks_in_state this x w = Ok (all_in_state x (task_states s), w).
Proof. intros Ht Hd. unfold all_tasks_in_state. by rewrite (M_bind_Ok _ _ _ _ _ (get_sm_run this t s w Ht Hd)). Qed.

Lemma demand_end_success this x w t s :
  tasks w !! this = Some t -> derived t = IsStateManager s -> all_in_state x (task_states s) = true ->
  demand_end this x w = Ok (true, w).
Proof.
  intros Ht Hd Hall. unfold demand_end. pose proof (all_tasks_in_state_run this x w t s Ht Hd) as Hrun.
  rewrite Hall in Hrun. by rewrite (M_bind_Ok _ _ _ _ _ Hrun).
Qed.
End handshake.

Abbreviation manager_waits := (manager_at InDequeue).
Abbreviation task_waits := (task_at InDequeue).

(** ** For the witnesses: a state manager and a user task on reference queues *)

#[local] Instance following_user : UserTasks aqueue := {
  user_process_message this m :=
    match get_data_as AStateMsg m with
    | Some sm => Task_transition_to_state this (state_of_byte (sm_state sm))
    | None => mret tt
    end;
  user_periodic_task_process _ := mret tt
}.

Definition waiting_task (nm : string) (der : Derived) : Task aqueue :=
  mkTask nm NOT_STARTED true InDequeue Unjoinable 0 (aq_new 4) der.
Definition rest_manager : StateManager := mkStateManager [(32, NOT_STARTED)] None None nullptr.
Definition rest_world : World aqueue :=
  mkWorld {[16 := waiting_task "StateManager" (IsStateManager rest_manager); 32 := waiting_task "A" IsUserTask]}
    (mkBroker true [[32]; [16]; []; []]) Logger_new (fun n => mkClockReading (Z.of_nat n) 0 0) 0 (1, 1).
Definition rest_bus : bus := mkBus true [[32]; [16]; []; []] {[16 := aq_new 4; 32 := aq_new 4]}.

Lemma rest_mail p a : bus_mail rest_bus !! p = Some a -> a = aq_new 4.
Proof. cbn. intros [[_ <-]|[_ [_ <-]%lookup_singleton_Some]]%lookup_insert_Some; done. Qed.

Lemma rest_mailboxes : mailboxes rest_world (bus_mail rest_bus).
Proof.
  intros p. unfold rest_world, rest_bus. cbn [tasks bus_mail].
  destruct (decide (p = 16)) as [->|H1]; [rewrite !lookup_insert_eq; by repeat constructor|].
  rewrite !lookup_insert_ne by (by apply not_eq_sym).
  destruct (decide (p = 32)) as [->|H2]; [rewrite !lookup_singleton_eq; by repeat constructor|].
  rewrite !lookup_singleton_ne by (by apply not_eq_sym). constructor.
Qed.

Lemma rest_ready : bus_ready 16 rest_world rest_bus.
Proof.
  split; [split; [done|split; [done|apply rest_mailboxes]]|]. split; [split; [done|]|split; [|done]].
  - repeat constructor; apply not_elem_of_nil.
  - intros p a ->%rest_mail. cbn. lia.
Qed.

Lemma user_follows p x : 0 <= x < 2 ^ 8 -> follows 16 p x IsUserTask.
Proof.
  intros Hx w t Ht Hd. cbn [process_message dynamic_dispatch]. unfold dispatch.
  rewrite (M_bind_Ok _ _ _ _ _ (get_task_run p t w Ht)), Hd. cbn -[state_to_byte state_of_byte].
  unfold state_of_byte, state_to_byte. by rewrite u8_small.
Qed.
