(* ===== verification/Stopping.v ===== *)
(** * Stopping: one task stopped by another thread (task.cpp)

    [Task::stop] with its two joins, for a task whose message thread is
    anywhere in its loop and whose periodic thread, if it has one, is at the
    head of its loop, asleep or over. The handlers may publish; what they may
    rely on is room in the queues. *)

From S2P Require Import Prelude Msg Heap QueueSpec Logger World Broker TaskBase StateManager HeartBeat System Handshake.
#[local] Open Scope Z_scope.

Section stopping.
Context {Q : Type} `{QueueImpl Q} `{HV : Virtual Q}.
Implicit Types (t : Task Q) (w : World Q).

(** ** Joining the threads *)

Lemma with_task_twice p t t' w : with_task p t' (with_task p t w) = with_task p t' w.
Proof. unfold with_task, set_tasks. cbn. by rewrite insert_insert_eq. Qed.

(** Within [K] looks at the clock, from any of them on, the sleep of a periodic
    thread is over. *)
Definition ends_within (K : nat) (clk : nat -> clock_reading) (pt : thread) : Prop :=
  match pt with
  | Sleeping until_ns => forall n, exists k, (k <= K)%nat /\ until_ns <= steady_ns (clk (n + k)%nat)
  | InDequeue => False
  | _ => True
  end.

Lemma join_periodic_run K fuel p t w :
  tasks w !! p = Some t -> running t = false -> ends_within K (clock w) (periodic_thread t) -> (K + 2 <= fuel)%nat ->
  exists w', join_periodic_thread fuel p w = Ok (true, w') /\
    tasks w' = <[p := set_periodic_thread Unjoinable t]> (tasks w) /\ broker w' = broker w /\ clock w' = clock w.
Proof.
  intros Ht Hr He Hk. destruct (periodic_thread t) as [| | |u|] eqn:Hth; cbn in He.
  - exists w. split_and!; try done.
    + destruct fuel; cbn [join_periodic_thread]; by rewrite (M_bind_Ok _ _ _ _ _ (get_task_run p t w Ht)), Hth.
    + symmetry. apply insert_id. rewrite Ht. destruct t; cbn in *. by subst.
  - destruct fuel as [|fuel]; [lia|]. destruct (join_periodic_head fuel p t w Ht Hr Hth) as (w' & ? & ? & ? & ?). by exists w'.
  - done.
  - destruct (He (ticks w)) as (k & Hle & Hu).
    destruct (join_periodic_sleeping k (fuel - (k + 2)) p t w u Ht Hr Hth Hu) as (w' & Hj & ? & ? & ?). exists w'.
    replace (k + S (S (fuel - (k + 2))))%nat with fuel in Hj by lia. done.
  - exists (with_task p (set_periodic_thread Unjoinable t) w). split; [|done].
    destruct fuel; cbn [join_periodic_thread]; rewrite (M_bind_Ok _ _ _ _ _ (get_task_run p t w Ht)), Hth;
      by rewrite (M_bind_Ok _ _ _ _ _ (modify_task_with p _ t w Ht)).
Qed.

(** The message thread does not set the clock when its handlers do not. *)
Lemma clock_run_step this : (forall m, leaves clock (process_message this m)) -> leaves clock (run_step this).
Proof.
  intros Hm. unfold run_step, put_task. pose proof (clock_modify_task (Q := Q)). apply leaves_bind; [keep|intros t].
  destruct (queue_thread t); try keep. apply leaves_bind; [keep|intros [[|opt] q]]; [keep|].
  destruct opt; keep.
Qed.

Lemma clock_join_queue fuel this :
  (forall m, leaves clock (process_message this m)) -> leaves clock (join_queue_thread fuel this).
Proof.
  intros Hm. pose proof (clock_run_step this Hm). pose proof (clock_modify_task (Q := Q)).
  induction fuel as [|fuel IH]; cbn [join_queue_thread]; (apply leaves_bind; [keep|intros t]); destruct (queue_thread t); keep.
Qed.

Lemma clock_stop_request this t w r w' :
  let w0 := with_task this (set_running false t) w in
  transition_to_state this STOPPED w0 = Task_transition_to_state this STOPPED w0 ->
  tasks w !! this = Some t -> stop_request this w = Ok (r, w') -> clock w' = clock w.
Proof.
  intros w0 Htr Ht. unfold stop_request, is_running.
  rewrite (M_bind_Ok _ _ w (running t) w) by (by rewrite (M_bind_Ok _ _ _ _ _ (get_task_run this t w Ht))).
  destruct (running t); [|by intros [= _ <-]].
  rewrite (M_bind_Ok _ _ _ _ _ (modify_task_with this _ t w Ht)). fold w0.
  intros (u & w2 & H2 & Hrest)%M_bind_inv. rewrite Htr in H2.
  transitivity (clock w2); [|exact (clock_transition this STOPPED w0 u w2 H2)].
  revert Hrest. apply leaves_bind; [keep|intros t2]. unfold put_task. keep.
Qed.

(** C26. [stop] on a running task comes back, with no thread left to join,
    wherever the message thread is in its loop, even waiting in [dequeue], and
    also with a periodic thread that is about to look at the flag or asleep:
    the message thread needs two more turns, a dequeue and a test of the loop,
    and the periodic thread as many looks at the clock as its sleep takes.
    Stopping the task again does nothing. The task does not override
    [transition_to_state]; its handlers leave the clock alone and return for
    the pending messages when the queues have room for what they publish. *)
Theorem stop_terminates K k this t w b :
  let w0 := with_task this (set_running false t) w in
  transition_to_state this STOPPED w0 = Task_transition_to_state this STOPPED w0 ->
  (forall m, leaves clock (process_message this m)) ->
  bus_view w b -> bus_wf b -> fresh b 1 -> 0 < this < 2 ^ 64 -> tasks w !! this = Some t ->
  running t = true -> queue_thread t = LoopHead \/ queue_thread t = InDequeue ->
  ends_within K (clock w) (periodic_thread t) -> pending_return k this (derived t) b ->
  exists w' t', stop (K + 2) this w = Ok (true, w') /\ tasks w' !! this = Some t' /\ running t' = false /\
    queue_thread t' = Unjoinable /\ periodic_thread t' = Unjoinable /\ stop 0 this w' = Ok (true, w').
Proof.
  intros w0 Htr Hclk Hv Hwf Hf Hthis Ht Hr Hth He Hret.
  destruct (stop_request_pending k K this t w b Htr Hv Hwf Hf Hthis Ht Hr Hth Hret)
    as (w1 & w2 & t2 & Hreq & Hj & Ht2 & Hr2 & Hq2 & Hp2).
  assert (Hc : clock w2 = clock w).
  { rewrite (clock_join_queue _ this Hclk _ _ _ Hj). exact (clock_stop_request this t w true w1 Htr Ht Hreq). }
  destruct (join_periodic_run K (K + 2) this t2 w2 Ht2 Hr2) as (w3 & Hjp & Ht3 & _ & _); [by rewrite Hc, Hp2|done|].
  assert (Hl3 : tasks w3 !! this = Some (set_periodic_thread Unjoinable t2)) by (rewrite Ht3; apply lookup_insert_eq).
  eexists w3, _. split; [|split; [exact Hl3|split_and!; try done]].
  - unfold stop. rewrite (M_bind_Ok _ _ _ _ _ Hreq). replace (K + 2)%nat with (S (S K)) in * by lia.
    by rewrite (M_bind_Ok _ _ _ _ _ Hj).
  - unfold stop. rewrite (M_bind_Ok _ _ w3 false w3); [done|]. unfold stop_request, is_running.
    rewrite (M_bind_Ok _ _ w3 false w3); [done|].
    by rewrite (M_bind_Ok _ _ _ _ _ (get_task_run this _ w3 Hl3)), <- Hr2.
Qed.
End stopping.

(** Of the tasks of the program, only the state manager overrides
    [transition_to_state]. *)
Lemma dispatch_transition {Q} `{QueueImpl Q} `{UserTasks Q} p x (w : World Q) t :
  tasks w !! p = Some t ->
  transition_to_state p x w =
    match derived t with IsStateManager _ => StateManager_transition_to_state p x w | _ => Task_transition_to_state p x w end.
Proof.
  intros Ht. cbn [transition_to_state dynamic_dispatch]. unfold dispatch.
  rewrite (M_bind_Ok _ _ _ _ _ (get_task_run p t w Ht)). by destruct (derived t).
Qed.

(** ** Witness: a task that follows requests, with one pending, asleep in its
    periodic thread *)

Definition loaded_task : Task aqueue :=
  mkTask "A" NOT_STARTED true InDequeue (Sleeping 3000000) 10
    (mkAqueue [pack 32 (VStateMsg (mkStateMsg IDLE))] 4 false 1) IsUserTask.

Lemma loaded_view : bus_view (quiet_world loaded_task) (quiet_bus loaded_task).
Proof.
  split_and!; [done..|]. intros p. cbn. destruct (decide (p = 16)) as [->|Hne].
  - rewrite !lookup_singleton_eq. constructor. cbn. split; [done|]. split; [lia|done].
  - rewrite !lookup_singleton_ne by done. constructor.
Qed.

#[local] Existing Instance following_user.

Lemma following_clock m : leaves clock (process_message 16 m).
Proof.
  apply clock_process_message. intros p m'. cbn [user_process_message following_user].
  pose proof (clock_transition (Q := aqueue)). destruct (get_data_as AStateMsg m'); keep.
Qed.

(** It answers with one message. *)
Lemma following_returns : handler_returns 1 16 IsUserTask (pack 32 (VStateMsg (mkStateMsg IDLE))).
Proof.
  intros w b t Hv Hwf Hon [Hf Hroom] Ht Hd. cbn [process_message dynamic_dispatch]. unfold dispatch.
  rewrite (M_bind_Ok _ _ _ _ _ (get_task_run 16 t w Ht)), Hd. cbn [user_process_message following_user].
  change (get_data_as _ _) with (Some (mkStateMsg IDLE)). cbn [sm_state].
  change (state_of_byte IDLE) with IDLE.
  destruct (mailbox_room_publish 16 (state_ack 16 IDLE) w b Hv Hwf Hf Hon) as (mb & Hb & _);
    [by apply state_ack_wf|done|by eexists| |].
  { intros p a _ Ha. unfold has_room. specialize (Hroom p a Ha). lia. }
  pose proof (transition_view 16 IDLE w b t Hv Hwf Hf Ht ltac:(lia)) as Htr. rewrite Hb in Htr.
  destruct Htr as (w' & Hrun & _ & Hom).
  destruct (only_mail_name _ _ 16 _ Hom (with_task_lookup _ _ _)) as (t' & Ht' & _ & _ & ? & ? & ? & _).
  by exists w', t'.
Qed.

Lemma loaded_mail p a : bus_mail (quiet_bus loaded_task) !! p = Some a -> p = 16 /\ a = message_queue loaded_task.
Proof. cbn. by intros [<- <-]%lookup_singleton_Some. Qed.

(** The queue holds the request and the task's own announcement, and has room
    for the answer to the request. *)
Lemma loaded_pending : pending_return 1 16 IsUserTask (quiet_bus loaded_task).
Proof.
  assert (Hfollow : forall s, Forall (handler_returns 1 16 IsUserTask) [pack 32 (VStateMsg (mkStateMsg IDLE)); state_ack 16 s]).
  { intros s. repeat constructor; [apply following_returns|]. intros w b t _ _ _ _ Ht Hd. exists w, t. split_and!; try done.
    cbn [process_message dynamic_dispatch]. unfold dispatch. by rewrite (M_bind_Ok _ _ _ _ _ (get_task_run 16 t w Ht)), Hd. }
  destruct (bus_publish_room (quiet_bus loaded_task) (state_ack 16 STOPPED) (quiet_wf _)) as (mb & Hb & Hmb).
  - by apply state_ack_wf.
  - done.
  - right. by eexists.
  - intros p a _ [-> ->]%loaded_mail. unfold has_room. cbn. lia.
  - assert (Hmail : forall p a, mb !! p = Some a -> p = 16 /\ a = received (state_ack 16 STOPPED) (message_queue loaded_task)).
    { intros p a. rewrite Hmb. unfold posted. case_decide as Hp.
      - intros (a0 & [-> ->]%loaded_mail & ->)%fmap_Some. done.
      - intros [-> _]%loaded_mail. destruct Hp. cbn. apply list_elem_of_here. }
    eexists _, _. split; [exact Hb|]. split; [cbn [bus_mail]; by rewrite Hmb|]. split; [|apply Hfollow].
    split; intros p a [-> ->]%Hmail; [done|right; cbn; lia].
Qed.

Lemma stop_terminates_witness :
  exists w' t', stop 5 16 (quiet_world loaded_task) = Ok (true, w') /\ tasks w' !! 16 = Some t' /\
    running t' = false /\ queue_thread t' = Unjoinable /\ periodic_thread t' = Unjoinable.
Proof.
  assert (Hf : fresh (quiet_bus loaded_task) 1) by (by intros p a [-> ->]%loaded_mail).
  assert (He : ends_within 3 (clock (quiet_world loaded_task)) (periodic_thread loaded_task))
    by (intros n; exists 3%nat; split; [lia|]; cbn; lia).
  destruct (stop_terminates 3 1 16 loaded_task (quiet_world loaded_task) (quiet_bus loaded_task)
    (dispatch_transition 16 STOPPED _ _ (with_task_lookup _ _ _)) following_clock loaded_view (quiet_wf _) Hf ltac:(lia)
    eq_refl eq_refl (or_intror eq_refl) He loaded_pending) as (w' & t' & H1 & H2 & H3 & H4 & H5 & _).
  exists w', t'. split_and!; assumption.
Defined.
