(* ===== verification/Rounds.v ===== *)
(** * Rounds: message threads that take turns in any order

    What a protocol needs to succeed under every schedule of some message
    threads: an invariant that every turn keeps, and a measure that every turn
    lowers unless its thread has to wait. Then no schedule goes wrong, and as
    many rounds as the measure says, of any order, bring it to zero. The
    measure of the protocols here counts the turns for the requests and the
    answers that are under way. *)

From S2P Require Import Prelude Msg Heap QueueSpec Logger World Broker TaskBase StateManager HeartBeat System Handshake.
#[local] Open Scope Z_scope.

Section rounds.
Context {Q : Type} `{QueueImpl Q} `{UserTasks Q}.
Implicit Types (t : Task Q) (w : World Q) (d : Derived).

(** ** Schedules *)

(** Turns of the message threads of the tasks [l]. *)
Fixpoint schedule (l : list addr) : M Q unit :=
  match l with
  | [] => mret tt
  | p :: l' => _ ← run_step p; schedule l'
  end.

Lemma schedule_app l1 l2 w w1 : schedule l1 w = Ok (tt, w1) -> schedule (l1 ++ l2) w = schedule l2 w1.
Proof.
  revert w. induction l1 as [|p l1 IH]; intros w; cbn [schedule app]; [by intros [= <-]|].
  intros (r & w2 & Hr & Hl)%M_bind_inv. rewrite (M_bind_Ok _ _ _ _ _ Hr). by apply IH.
Qed.

Section threads.
Context (threads : list addr).

(** A round gives every thread a turn, and maybe more. *)
Definition round (l : list addr) : Prop := forall p, p ∈ l <-> p ∈ threads.

(** [I w n]: [w] is on the way, with [n] turns left. *)
Context (I : World Q -> nat -> Prop).
Context (Hturn : forall w n p, I w n -> p ∈ threads ->
  run_step p w = Ok (Waiting, w) \/ exists w' n', run_step p w = Ok (Progress, w') /\ I w' n' /\ (n' < n)%nat).
Context (Hrest : forall w n, I w n -> (forall p, p ∈ threads -> run_step p w = Ok (Waiting, w)) -> n = 0%nat).

(** No schedule of these threads goes wrong, and one that leaves the measure as
    it was has met waiting threads only. *)
Lemma schedule_keeps l w n :
  I w n -> Forall (fun p => p ∈ threads) l ->
  exists w' n', schedule l w = Ok (tt, w') /\ I w' n' /\ (n' <= n)%nat /\
    ((n' < n)%nat \/ Forall (fun p => run_step p w = Ok (Waiting, w)) l).
Proof.
  intros Hw Hl. revert w n Hw. induction Hl as [|p l Hp Hl IH]; intros w n Hw.
  { exists w, n. split; [done|]. split; [done|]. split; [done|]. by right. }
  cbn [schedule]. destruct (Hturn w n p Hw Hp) as [Hrun|(w1 & n1 & Hrun & Hw1 & Hlt)].
  - destruct (IH w n Hw) as (w' & n' & Hs & Hw' & Hle & Hor). exists w', n'. rewrite (M_bind_Ok _ _ _ _ _ Hrun).
    split; [done|]. split; [done|]. split; [done|]. destruct Hor as [?|?]; [by left|right; by constructor].
  - destruct (IH w1 n1 Hw1) as (w' & n' & Hs & Hw' & Hle & _). exists w', n'. rewrite (M_bind_Ok _ _ _ _ _ Hrun).
    split; [done|]. split; [done|]. split; [lia|]. left. lia.
Qed.

Lemma rounds_finish rounds w n :
  I w n -> Forall round rounds -> (n <= length rounds)%nat ->
  exists w', schedule (concat rounds) w = Ok (tt, w') /\ I w' 0.
Proof.
  intros Hw Hl. revert w n Hw. induction Hl as [|l rounds Hl Hls IH]; intros w n Hw Hle.
  { cbn [length] in Hle. exists w. by replace 0%nat with n by lia. }
  destruct (schedule_keeps l w n Hw) as (w1 & n1 & Hr1 & Hw1 & Hle1 & Hor).
  { apply Forall_forall. intros p Hp. by apply Hl. }
  destruct (IH w1 n1 Hw1) as (w' & Hr & Hw').
  { cbn [length] in Hle. destruct Hor as [Hlt|Hall]; [lia|]. rewrite Forall_forall in Hall.
    assert (n = 0%nat); [|lia]. apply (Hrest w n Hw). intros p Hp. by apply Hall, Hl. }
  exists w'. cbn [concat]. by rewrite (schedule_app _ _ _ _ Hr1).
Qed.
End threads.

(** All threads get their turns, and often enough for [ps] to be asked and to
    answer. *)
Definition fair (this : addr) (ps : list addr) (rounds : list (list addr)) : Prop :=
  Forall (round (this :: ps)) rounds /\ (5 * length ps + 1 <= length rounds)%nat.

(** ** The turns that are left *)

Definition in_loop (th : thread) : Prop := th = InDequeue \/ th = LoopHead.

Definition head w (p : addr) : nat :=
  match status w p with Some (_, _, LoopHead, _, _) => 1 | _ => 0 end.

Lemma head_le w p : (head w p <= 1)%nat.
Proof. unfold head. repeat case_match; auto. Qed.

(** A request costs its handler's turn and the turn to the next wait, and the
    answer as many. *)
Definition to_do w (threads : list addr) (asked : gset addr) (answers : nat) : nat :=
  4 * size asked + 2 * answers + total (head w) threads.

(** One thread's place changes. *)
Lemma heads_swap threads w w' p :
  NoDup threads -> p ∈ threads -> (forall q, p <> q -> status w' q = status w q) ->
  (total (head w') threads + head w p = total (head w) threads + head w' p)%nat.
Proof.
  intros Hnd Hp Hs. apply total_swap; [done|done|]. intros q _ Hq. unfold head. by rewrite Hs by (by apply not_eq_sym).
Qed.

Lemma size_remove (A : gset addr) p : p ∈ A -> size A = S (size (A ∖ {[p]})).
Proof.
  intros Hp. rewrite size_difference by set_solver. rewrite size_singleton.
  assert (size A <> 0)%nat; [|lia]. intros He%size_empty_inv. set_solver.
Qed.

(** There is room for one more answer. *)
Lemma answers_room (ps P : list addr) p : NoDup P -> P ⊆ ps -> p ∈ ps -> (p ∉ P) -> (length P < length ps)%nat.
Proof.
  intros Hnd Hsub Hp HpP. assert (Hs : p :: P ⊆+ ps).
  { apply NoDup_submseteq; [by constructor|]. intros q [->|Hq]%elem_of_cons; [done|by apply Hsub]. }
  apply submseteq_length in Hs. cbn in Hs. lia.
Qed.

Lemma to_do_rest w threads (A : gset addr) n :
  (forall p, p ∉ A) -> n = 0%nat -> (forall p, p ∈ threads -> head w p = 0%nat) -> to_do w threads A n = 0%nat.
Proof.
  intros HA -> Hh. unfold to_do. assert (A = ∅) as -> by (apply set_eq; set_solver). rewrite size_empty.
  assert (total (head w) threads = 0%nat) as ->; [by apply total_0, Forall_forall|done].
Qed.

(** A turn that finds nothing to take. *)
Lemma vacant_turn p w b c pt d a :
  bus_view w b -> status w p = Some (c, true, InDequeue, pt, d) -> bus_mail b !! p = Some a ->
  aq_items a = [] -> aq_closed a = false -> run_step p w = Ok (Waiting, w).
Proof.
  intros (_ & _ & Hm) (t & Ht & _ & _ & Hth & _ & _)%status_Some Ha Hi Hc.
  destruct (mailboxes_task w _ p a Hm Ha) as (t' & Ht' & Hv). rewrite Ht in Ht'. injection Ht' as <-.
  destruct (run_step_dequeue p t w a Ht Hth Hv) as (q & _ & ->). unfold aq_dequeue. by rewrite Hi, Hc.
Qed.

(** A queue of messages of one priority gives the oldest. *)
Lemma oldest_dequeue a m l :
  aq_items a = m :: l -> Forall (fun m' => msg_lt m m' = false) l ->
  aq_dequeue a = (Returns (Some m), mkAqueue l (aq_capacity a) (aq_closed a) (match l with [] => 0 | _ => aq_ticks a end)).
Proof.
  intros Hi Hl. unfold aq_dequeue. rewrite Hi. pose proof (pop_best_split msg_lt [] m l) as Hb. cbn [app] in Hb.
  rewrite Hb; [done|by intros y Hy%elem_of_nil|]. by apply Forall_forall.
Qed.

(** A turn that changes the place, and perhaps the state, of one thread. *)
Lemma carried_turn this p w b w' b' r r' :
  clock w' = clock w -> status w p = Some r -> (forall q, status w' q = if decide (p = q) then Some r' else status w q) ->
  r'.1.2 = r.1.2 -> p = this \/ r'.2 = r.2 ->
  (forall q, aq_capacity <$> bus_mail b' !! q = aq_capacity <$> bus_mail b !! q) -> pruned b b' -> carried this w b w' b'.
Proof.
  intros Hc Hst Hs Hpt Hd Hcap Hpr. split_and!; try done.
  - intros q. rewrite !status_periodic, Hs. case_decide as Hq; [|done]. subst q. rewrite Hst. cbn. by rewrite Hpt.
  - intros q Hne. rewrite !status_derived, Hs. case_decide as Hq; [|done]. subst q. rewrite Hst. cbn. destruct Hd; congruence.
Qed.

(** What a turn of [p] does to the measure. *)
Lemma to_do_turn w w' threads (A A' : gset addr) n n' p c r th th' pt d c' r' pt' d' :
  NoDup threads -> p ∈ threads -> status w p = Some (c, r, th, pt, d) ->
  (forall q, status w' q = if decide (p = q) then Some (c', r', th', pt', d') else status w q) ->
  th = LoopHead /\ th' = InDequeue /\ A' = A /\ n' = n \/
  th = InDequeue /\ th' = LoopHead /\ (4 * size A' + 2 * n' + 2 = 4 * size A + 2 * n)%nat ->
  (to_do w' threads A' n' < to_do w threads A n)%nat.
Proof.
  intros Hnd Hp Hst Hs Hor. unfold to_do.
  pose proof (heads_swap threads w w' p Hnd Hp ltac:(intros q Hq; by rewrite Hs, decide_False)) as Hh.
  unfold head in Hh at 2 4. rewrite Hst, Hs, decide_True in Hh by done.
  destruct Hor as [(-> & -> & -> & ->)|(-> & -> & Hm)]; lia.
Qed.
End rounds.
