(* ===== verification/Schedules.v ===== *)
(** * Schedules: a demand under every schedule of the threads

    While the state manager waits, the message threads of its own and of the
    registered tasks take their turns in any order: acknowledgements pile up
    in the state manager's queue while it is busy, tasks answer late, threads
    look for messages that are not there. No such schedule goes wrong, and
    every schedule that does not neglect a thread leads to the success of the
    demand. *)

From S2P Require Import Prelude Msg Heap QueueSpec Logger World Broker TaskBase StateManager HeartBeat System Handshake Rounds.
#[local] Open Scope Z_scope.

Section schedules.
Context {Q : Type} `{QueueImpl Q} `{UserTasks Q}.
Implicit Types (t : Task Q) (w : World Q) (s : StateManager) (d : Derived).

(** ** The wave of answers *)

Section wave.
Context (this : addr) (x : TaskState) (ps : list addr) (w0 : World Q) (b0 : bus).
Context (Hthis : 0 < this < 2 ^ 64) (Hx : 0 <= x < 2 ^ 8) (Hps : NoDup ps).
Context (Hin : forall p, p ∈ ps -> 0 < p < 2 ^ 64 /\ p <> this).

Abbreviation ack := (fun p => state_ack p x).

(** A demand on its way: the tasks [asked] have the request in their queues,
    the state manager has the acknowledgements of [pending] in its own, and
    the acknowledgements of all others are recorded; what the turns leave
    alone is as it was in [w0] and [b0]. *)
Record wave w (b : bus) s (asked : gset addr) (pending : list addr) : Prop := {
  wv_ready : bus_ready this w b;
  wv_fresh : fresh b (1 + Z.of_nat (size asked));
  wv_size : Z.of_nat (size asked) + 1 < 2 ^ 32;
  wv_manager : exists c th pt a, status w this = Some (c, true, th, pt, IsStateManager s) /\ in_loop th /\
    bus_mail b !! this = Some a /\ aq_items a = ack <$> pending /\ (length ps <= aq_capacity a)%nat /\ aq_closed a = false;
  wv_task p : p ∈ ps -> exists c th pt d a, status w p = Some (c, true, th, pt, d) /\ in_loop th /\ follows this p x d /\
    bus_mail b !! p = Some a /\ aq_closed a = false /\
    aq_items a = (if decide (p ∈ asked) then [state_request this x] else []) /\ ((p ∉ asked) -> c = x);
  wv_asked p : p ∈ asked -> p ∈ ps;
  wv_nodup : NoDup pending;
  wv_pending p : p ∈ pending -> p ∈ ps /\ p ∉ asked;
  wv_sorted : pm_sorted (task_states s);
  wv_target : target_state s = Some x;
  wv_keys p : p ∈ (task_states s).*1 <-> p ∈ ps;
  wv_recorded p : p ∈ ps -> (p ∉ asked) -> (p ∉ pending) -> pm_find p (task_states s) = Some x;
  wv_carried : carried this w0 b0 w b;
  wv_calm q a : bus_mail b !! q = Some a -> (q = this -> pending = []) ->
    aq_ticks a = 0 \/ exists a0, bus_mail b0 !! q = Some a0 /\ aq_ticks a = aq_ticks a0
}.

Definition left_to_do w (A : gset addr) (P : list addr) : nat := to_do w (this :: ps) A (length P).

Lemma threads_nodup : NoDup (this :: ps).
Proof. constructor; [|done]. intros Hp. by destruct (Hin this Hp). Qed.

Lemma thread_cases p : p ∈ this :: ps <-> p = this \/ p ∈ ps.
Proof. apply elem_of_cons. Qed.

Lemma acks_dequeue p l a :
  aq_items a = ack <$> (p :: l) ->
  exists z, aq_dequeue a = (Returns (Some (state_ack p x)), mkAqueue (ack <$> l) (aq_capacity a) (aq_closed a) z) /\
    (l = [] -> z = 0) /\ (z = 0 \/ z = aq_ticks a).
Proof.
  intros Hi. rewrite (oldest_dequeue a (state_ack p x) (ack <$> l)); [|done|].
  - eexists. split; [done|]. destruct l; (split; [done|]); [by left|by right].
  - apply Forall_fmap, Forall_true. intros q. unfold msg_lt. cbn. lia.
Qed.

(** The turn from the head of the loop into the wait. *)
Lemma wave_loop p w b s A P c pt d :
  wave w b s A P -> p ∈ this :: ps -> status w p = Some (c, true, LoopHead, pt, d) ->
  exists w', run_step p w = Ok (Progress, w') /\ wave w' b s A P /\ (left_to_do w' A P < left_to_do w A P)%nat.
Proof.
  intros Hw Hp Hst. pose proof (wv_ready _ _ _ _ _ Hw) as (Hv & Hwf & Hf & Hon & Hack).
  destruct (loop_turn p w b c pt d Hv Hst) as (w' & Hrun & Hv' & Hc & Hs). exists w'. split; [done|]. split.
  - destruct Hw as [_ Hfr Hsz (cm & th & ptm & a & Hsm & Hth & Hm) Htask Has Hnd Hpe Hso Htg Hk Hr Hca Hcalm].
    split; try done.
    + destruct (decide (p = this)) as [->|Hne]; [|exists cm, th, ptm, a; by rewrite Hs, decide_False].
      rewrite Hst in Hsm. injection Hsm as <- <- <- ->. exists c, InDequeue, pt, a. rewrite Hs, decide_True by done.
      split; [done|]. split; [by left|done].
    + intros q Hq. destruct (Htask q Hq) as (cq & thq & ptq & dq & aq & Hsq & Hthq & Hrest).
      destruct (decide (p = q)) as [->|Hne]; [|exists cq, thq, ptq, dq, aq; by rewrite Hs, decide_False].
      rewrite Hst in Hsq. injection Hsq as <- <- <- <-. exists c, InDequeue, pt, d, aq. rewrite Hs, decide_True by done.
      split; [done|]. split; [by left|done].
    + eapply carried_trans; [exact Hca|]. by apply (carried_turn this p _ _ _ _ _ _ Hc Hst Hs); [|right| |apply pruned_refl].
  - eapply (to_do_turn w w' (this :: ps)); [apply threads_nodup|done|done|exact Hs|by left].
Qed.
(** A task handles the request. *)
Lemma wave_answer p w b s A P c pt d :
  wave w b s A P -> p ∈ ps -> p ∈ A -> status w p = Some (c, true, InDequeue, pt, d) ->
  exists w' b', run_step p w = Ok (Progress, w') /\ wave w' b' s (A ∖ {[p]}) (P ++ [p]) /\
    (left_to_do w' (A ∖ {[p]}) (P ++ [p]) < left_to_do w A P)%nat.
Proof.
  intros Hw Hp HA Hst. destruct (Hin p Hp) as [Hrange Hne]. pose proof (size_remove A p HA) as Hsize.
  destruct Hw as [(Hv & Hwf & Hf & Hon & Hack) Hfr Hsz (cm & th & ptm & a0 & Hsm & Hth & Ha0 & Hi0 & Hcap & Hop0)
    Htask Has Hnd Hpe Hso Htg Hk Hr Hca Hcalm].
  destruct (Htask p Hp) as (c1 & th1 & pt1 & d1 & a & Hst1 & _ & Hfol & Ha & Hop & Hi & _).
  rewrite Hst in Hst1. injection Hst1 as <- <- <- <-. rewrite decide_True in Hi by done.
  assert (Hroom : has_room a0).
  { unfold has_room. rewrite Hi0, length_fmap.
    pose proof (answers_room ps P p Hnd (fun q Hq => proj1 (Hpe q Hq)) Hp (fun Hq => proj2 (Hpe p Hq) HA)). lia. }
  destruct (user_turn this p x w b c pt d a a0 _ Hv Hwf Hf Hon Hrange Hne Hack Hfol Hst Ha (single_dequeue a _ Hi) Ha0 Hroom)
    as (w' & b' & Hrun & Hv' & Hwf' & Hon' & Hack' & Hck & Hpr & Hs & Hm).
  assert (Hfr' : fresh b' (1 + Z.of_nat (size (A ∖ {[p]})))).
  { intros q z. rewrite Hm. case_decide; [intros [= <-]; cbn; lia|].
    case_decide; [intros [= <-]; cbn; specialize (Hfr this a0 Ha0); lia|]. intros Hz. specialize (Hfr q z Hz). lia. }
  exists w', b'. split; [done|]. split.
  - split; try done.
    + split_and!; try done. intros q z Hz. specialize (Hfr' q z Hz). lia.
    + lia.
    + exists cm, th, ptm, (received (state_ack p x) a0). rewrite Hs, decide_False by done.
      rewrite Hm, decide_False, decide_True by (done || by apply not_eq_sym). split_and!; try done.
      cbn. by rewrite Hi0, fmap_app.
    + intros q Hq. destruct (decide (q = p)) as [->|Hqp].
      * exists x, LoopHead, pt, d. eexists. rewrite Hs, decide_True by done. rewrite Hm, decide_True by done.
        split; [done|]. split; [by right|]. split_and!; [done|done|done|cbn; by rewrite decide_False by set_solver|done].
      * destruct (Htask q Hq) as (cq & thq & ptq & dq & aq & H1 & H2 & H3 & H4 & H5 & H6 & H7).
        exists cq, thq, ptq, dq, aq. rewrite Hs, decide_False by (by apply not_eq_sym).
        rewrite Hm, !decide_False by (done || by apply Hin). split_and!; try done.
        -- rewrite H6. destruct (decide (q ∈ A)); [rewrite decide_True by set_solver|rewrite decide_False by set_solver]; done.
        -- intros Hq'. apply H7. set_solver.
    + intros q Hq. apply Has. set_solver.
    + apply NoDup_app. split_and!; [done| |apply NoDup_singleton]. intros q Hq ->%list_elem_of_singleton. by apply (Hpe p).
    + intros q [Hq| ->%list_elem_of_singleton]%elem_of_app; [destruct (Hpe q Hq); set_solver|set_solver].
    + intros q Hq HqA HqP. apply not_elem_of_app in HqP as [HqP Hqp%not_elem_of_cons]. apply Hr; [done| |done]. set_solver.
    + eapply carried_trans; [exact Hca|]. apply (carried_turn this p _ _ _ _ _ _ Hck Hst Hs); [done|by right| |done].
      intros q. rewrite Hm. case_decide as Hq; [by rewrite Hq, Ha|]. case_decide as Hq'; [by rewrite Hq', Ha0|done].
    + intros q z. rewrite Hm. case_decide as Hq; [intros [= <-] _; by left|]. case_decide as Hq'.
      * intros _ HP. specialize (HP Hq'). by destruct P.
      * intros Hz _. by apply (Hcalm q z Hz).
  - eapply (to_do_turn w w' (this :: ps)); [apply threads_nodup|by apply thread_cases; right|done|exact Hs|right].
    rewrite length_app. cbn [length]. split_and!; [done|done|lia].
Qed.

(** The state manager handles the oldest acknowledgement. *)
Lemma wave_record p w b s A P c pt :
  wave w b s A (p :: P) -> status w this = Some (c, true, InDequeue, pt, IsStateManager s) ->
  let s' := set_task_states (pm_assign p x (task_states s)) s in
  exists w' b', run_step this w = Ok (Progress, w') /\ wave w' b' s' A P /\ (left_to_do w' A P < left_to_do w A (p :: P))%nat.
Proof.
  intros Hw Hst s'.
  destruct Hw as [(Hv & Hwf & Hf & Hon & Hack) Hfr Hsz (cm & th & ptm & a0 & Hsm & Hth & Ha0 & Hi0 & Hcap & Hop0)
    Htask Has Hnd Hpe Hso Htg Hk Hr Hca Hcalm].
  rewrite Hst in Hsm. injection Hsm as <- <- <-. apply NoDup_cons in Hnd as [HpP Hnd].
  destruct (Hpe p (list_elem_of_here _ _)) as [Hp HpA]. destruct (Hin p Hp) as [Hrange Hne].
  destruct (acks_dequeue p P a0 Hi0) as (z1 & Hdq & Hz0 & Hz1). set (a1 := mkAqueue _ _ _ _) in Hdq.
  destruct (manager_turn this p x w b c pt s a0 a1 x Hv Hx) as (w' & Hrun & Hv' & Hck & Hs); try done.
  { unfold nullptr. lia. } { by apply Hk. }
  { intros q Hq%Hk. apply status_live. destruct (Htask q Hq) as (? & ? & ? & ? & ? & -> & _). by eexists. }
  assert (Hfr' : fresh (set_mail this a1 b) (1 + Z.of_nat (size A))).
  { apply set_mail_fresh; [|done]. unfold a1. cbn. specialize (Hfr this a0 Ha0). lia. }
  exists w', (set_mail this a1 b). split; [done|]. split.
  - split; try done.
    + split_and!; try done. intros q z Hz. specialize (Hfr' q z Hz). lia.
    + exists c, LoopHead, pt, a1. rewrite Hs, decide_True by done. rewrite set_mail_lookup, decide_True by done.
      split; [done|]. split; [by right|]. by split_and!.
    + intros q Hq. destruct (Htask q Hq) as (cq & thq & ptq & dq & aq & H1 & H2 & H3 & H4 & H5 & H6 & H7).
      assert (q <> this) by (by apply Hin). exists cq, thq, ptq, dq, aq.
      rewrite Hs, decide_False by (by apply not_eq_sym). by rewrite set_mail_lookup, decide_False.
    + intros q Hq. apply Hpe. by apply list_elem_of_further.
    + by apply pm_assign_sorted.
    + intros q. cbn. rewrite pm_assign_keys, Hk. split; [by intros [->|]|by right].
    + intros q Hq HqA HqP. cbn. rewrite pm_assign_find by done. case_decide as Hpq; [done|].
      apply Hr; [done|done|]. intros [->|]%elem_of_cons; done.
    + eapply carried_trans; [exact Hca|]. apply (carried_turn this this _ _ _ _ _ _ Hck Hst Hs); [done|by left| |by intros i q].
      intros q. rewrite set_mail_lookup. case_decide as Hq; [by rewrite Hq, Ha0|done].
    + intros q z. rewrite set_mail_lookup. case_decide as Hq; [|intros Hz _; by apply (Hcalm q z Hz)].
      intros [= <-] HP. left. by apply Hz0, HP.
  - eapply (to_do_turn w w' (this :: ps)); [apply threads_nodup|apply list_elem_of_here|done|exact Hs|right].
    cbn [length]. split_and!; [done|done|lia].
Qed.
(** A thread with nothing to do waits, any other turn makes progress. *)
Lemma wave_turn p w b s A P :
  wave w b s A P -> p ∈ this :: ps ->
  (run_step p w = Ok (Waiting, w) /\ head w p = 0%nat /\ (p ∉ A) /\ (p = this -> P = [])) \/
  exists w' b' s' A' P', run_step p w = Ok (Progress, w') /\ wave w' b' s' A' P' /\ (left_to_do w' A' P' < left_to_do w A P)%nat.
Proof.
  intros Hw Hp. pose proof Hp as [->|Hp']%thread_cases.
  - destruct (wv_manager _ _ _ _ _ Hw) as (c & th & pt & a & Hst & [->| ->] & Ha & Hi & _ & Hop).
    + destruct P as [|q P].
      * left. split; [eapply vacant_turn; [by apply Hw|done..]|]. split; [by unfold head; rewrite Hst|]. split; [|done].
        intros HA%(wv_asked _ _ _ _ _ Hw). by destruct (Hin this HA).
      * right. destruct (wave_record q w b s A P c pt Hw Hst) as (w' & b' & Hrun & Hw' & Hd). by eexists w', b', _, A, P.
    + right. destruct (wave_loop this w b s A P c pt _ Hw Hp Hst) as (w' & Hrun & Hw' & Hd). by exists w', b, s, A, P.
  - destruct (wv_task _ _ _ _ _ Hw p Hp') as (c & th & pt & d & a & Hst & [->| ->] & _ & Ha & Hop & Hi & _).
    + destruct (decide (p ∈ A)) as [HA|HA].
      * right. destruct (wave_answer p w b s A P c pt d Hw Hp' HA Hst) as (w' & b' & Hrun & Hw' & Hd). by eexists w', b', s, _, _.
      * left. split; [eapply vacant_turn; [by apply Hw|done..]|]. split; [by unfold head; rewrite Hst|]. split; [done|].
        intros ->. by destruct (Hin this Hp').
    + right. destruct (wave_loop p w b s A P c pt d Hw Hp Hst) as (w' & Hrun & Hw' & Hd). by exists w', b, s, A, P.
Qed.

(** The wave as an invariant with a measure. *)
Definition surges w (n : nat) : Prop := exists b s A P, wave w b s A P /\ left_to_do w A P = n.

Lemma surges_turn w n p :
  surges w n -> p ∈ this :: ps ->
  run_step p w = Ok (Waiting, w) \/ exists w' n', run_step p w = Ok (Progress, w') /\ surges w' n' /\ (n' < n)%nat.
Proof.
  intros (b & s & A & P & Hw & <-) Hp. destruct (wave_turn p w b s A P Hw Hp) as [[Hrun _]|(w' & b' & s' & A' & P' & Hrun & Hw' & Hlt)];
    [by left|]. right. exists w'. eexists. split; [done|]. split; [by exists b', s', A', P'|done].
Qed.

Lemma surges_rest w n : surges w n -> (forall p, p ∈ this :: ps -> run_step p w = Ok (Waiting, w)) -> n = 0%nat.
Proof.
  intros (b & s & A & P & Hw & <-) Hwait.
  assert (Hsp : forall p, p ∈ this :: ps -> head w p = 0%nat /\ (p ∉ A) /\ (p = this -> P = [])).
  { intros p Hp. destruct (wave_turn p w b s A P Hw Hp) as [[_ ?]|(w' & b' & s' & A' & P' & Hrun & _)]; [done|].
    by rewrite (Hwait p Hp) in Hrun. }
  apply to_do_rest.
  - intros p HA. pose proof (wv_asked _ _ _ _ _ Hw p HA) as Hp. by destruct (Hsp p (proj2 (thread_cases p) (or_intror Hp))) as (_ & ? & _).
  - destruct (Hsp this (list_elem_of_here _ _)) as (_ & _ & HP). by rewrite (HP eq_refl).
  - intros p Hp. by apply Hsp.
Qed.

Lemma surges_schedule l w b s A P :
  wave w b s A P -> Forall (fun p => p ∈ this :: ps) l ->
  exists w' b' s' A' P', schedule l w = Ok (tt, w') /\ wave w' b' s' A' P'.
Proof.
  intros Hw Hl. destruct (schedule_keeps (this :: ps) surges surges_turn l w (left_to_do w A P)) as (w' & n' & Hrun & Hw' & _); [|done|].
  - by exists b, s, A, P.
  - destruct Hw' as (b' & s' & A' & P' & Hw' & _). by exists w', b', s', A', P'.
Qed.

Lemma surges_rounds rounds w b s A P :
  wave w b s A P -> Forall (round (this :: ps)) rounds -> (left_to_do w A P <= length rounds)%nat ->
  exists w' b' s' A' P', schedule (concat rounds) w = Ok (tt, w') /\ wave w' b' s' A' P' /\ left_to_do w' A' P' = 0%nat.
Proof.
  intros Hw Hr Hle.
  destruct (rounds_finish (this :: ps) surges surges_turn surges_rest rounds w (left_to_do w A P)) as (w' & Hrun & Hw'); [|done|done|].
  - by exists b, s, A, P.
  - destruct Hw' as (b' & s' & A' & P' & Hw' & Hz). by exists w', b', s', A', P'.
Qed.

(** A demand whose wait the wave fills. *)
Lemma wave_demand w b s w1 s1 A P :
  demand_begin this x w = Ok (tt, w1) -> task_states s1 = task_states s -> wave w1 b s1 A P ->
  all_in_state x (task_states s) = false ->
  forall others w2, others w1 = Ok (tt, w2) -> demand_state_transition this x others w = demand_end this x w2.
Proof using Type.
  intros R1 Hts Hw1 Hnot others w2 Ho. destruct (wv_manager _ _ _ _ _ Hw1) as (c & th & pt & a & (t & Ht & _ & _ & _ & _ & Hd)%status_Some & _).
  unfold demand_state_transition. rewrite (M_bind_Ok _ _ _ _ _ R1), (M_bind_Ok _ _ _ _ _ (all_tasks_in_state_run this x w1 t s1 Ht Hd)).
  by rewrite Hts, Hnot, (M_bind_Ok _ _ _ _ _ Ho).
Qed.

(** With nothing left to do all threads wait and all answers are recorded. *)
Lemma wave_over w b s A P :
  ps <> [] -> wave w b s A P -> left_to_do w A P = 0%nat ->
  manager_waits this w b s /\ all_in_state x (task_states s) = true /\
  (forall k, k < 2 ^ 32 -> fresh b0 k -> fresh b k) /\
  forall p, p ∈ ps -> pm_find p (task_states s) = Some x /\ task_waits this x w b [] p /\
    current_state <$> tasks w !! p = Some x.
Proof.
  intros Hnil Hw Hz. unfold left_to_do, to_do in Hz.
  assert (HA : A = ∅) by (apply leibniz_equiv, size_empty_inv; lia). assert (HP : P = []) by (apply length_zero_iff_nil; lia).
  assert (Hheads : forall p, p ∈ this :: ps -> head w p = 0%nat) by (apply Forall_forall, total_0; lia).
  subst A P. destruct Hw as [_ _ _ (c & th & pt & a & Hst & Hth & Ha & Hi & Hcap & Hop) Htask _ _ _ Hso _ Hk Hr _ Hcalm].
  assert (Hrec : forall p, p ∈ ps -> pm_find p (task_states s) = Some x).
  { intros p Hp. apply Hr; [done|set_solver|by apply not_elem_of_nil]. }
  split; [|split; [|split]].
  - pose proof (Hheads this (list_elem_of_here _ _)) as Hh. unfold head in Hh. rewrite Hst in Hh.
    destruct Hth as [->| ->]; [|done]. exists c, pt, a. split_and!; [done..|]. destruct ps; [done|cbn in Hcap; lia].
  - apply all_in_state_spec; [done|]. intros p Hp%Hk. by apply Hrec.
  - intros k Hlt Hf q z Hq. destruct (Hcalm q z Hq) as [->|(a0 & Ha0 & ->)]; [done|lia|by apply (Hf q)].
  - intros p Hp. split; [by apply Hrec|]. destruct (Htask p Hp) as (cp & thp & ptp & d & ap & Hsp & Hthp & Hfol & Hap & Hcp & Hip & Hc).
    pose proof (Hheads p (proj2 (thread_cases p) (or_intror Hp))) as Hh. unfold head in Hh. rewrite Hsp in Hh.
    assert (HpA : (p ∉ (∅ : gset addr))) by set_solver. rewrite decide_False in Hip by done. rewrite (Hc HpA) in Hsp.
    split; [|by apply status_Some in Hsp as (t & -> & <- & _)]. destruct Hthp as [->| ->]; [|done]. by exists x, ptp, d, ap.
Qed.
End wave.

(** ** From the broadcast to the answer *)

(** A state manager and tasks that the demand for [x] finds ready: between
    two messages, subscribed, with room for the request and the answers. *)
Record demandable (this : addr) (x : TaskState) w (b : bus) s : Prop := {
  dm_ready : bus_ready this w b;
  dm_fresh : fresh b (Z.of_nat (length (task_states s)) + 2);
  dm_count : Z.of_nat (length (task_states s)) + 2 < 2 ^ 32;
  dm_this : 0 < this < 2 ^ 64;
  dm_state : 0 <= x < 2 ^ 8;
  dm_sorted : pm_sorted (task_states s);
  dm_manager : exists th, in_loop th /\ manager_at th this w b s;
  dm_capacity : forall a, bus_mail b !! this = Some a -> (length (task_states s) <= aq_capacity a)%nat;
  dm_room : subscribers_room b (state_request this x);
  dm_unsubscribed : this ∉ default [] (bus_subs b !! Z.to_nat Type_StateMsg);
  dm_tasks : forall p, p ∈ (task_states s).*1 -> 0 < p < 2 ^ 64 /\ p <> this /\
    (p ∈ default [] (bus_subs b !! Z.to_nat Type_StateMsg)) /\ exists th, in_loop th /\ task_at th this x w b [] p
}.

(** The broadcast starts the wave. *)
Lemma wave_start this x w b s :
  demandable this x w b s -> let ps := (task_states s).*1 in
  exists w1 b1 s1, demand_begin this x w = Ok (tt, w1) /\ task_states s1 = task_states s /\ carried this w b w1 b1 /\
    (forall k, fresh b (k + 1) -> fresh b1 k) /\
    wave this x ps w1 b1 w1 b1 s1 (list_to_set ps) [] /\ (left_to_do this ps w1 (list_to_set ps) [] <= 5 * length ps + 1)%nat.
Proof.
  intros [Hb Hfr Hsz Hthis Hx Hso (th & Hth & Hm) Hcap Hroom Hnsub Hreg] ps.
  assert (Hnd : NoDup ps) by (by apply pm_sorted_NoDup).
  assert (Hlen : length (task_states s) = length ps) by (by unfold ps; rewrite length_fmap). rewrite Hlen in *.
  destruct (broadcast_run th this x w b s Hb) as (w1 & b1 & Hrun & Hb1 & Hm1 & _ & Hca & Hfr1 & Hw1); try done.
  { intros q z Hz. specialize (Hfr q z Hz). lia. }
  assert (Hsize : size (list_to_set ps : gset addr) = length ps) by (by apply size_list_to_set).
  exists w1, b1, (set_sm_current_state x (set_target_state x s)). do 4 (split; [done|]). split.
  - destruct Hm1 as (c & pt & a & Hst & Ha & Hi & Hop & _). pose proof Hca as (_ & _ & _ & Hcp & _). split; try done.
    + rewrite Hsize. apply Hfr1. intros q z Hz. specialize (Hfr q z Hz). lia.
    + lia.
    + exists c, th, pt, a. split_and!; try done. specialize (Hcp this). rewrite Ha in Hcp.
      destruct (bus_mail b !! this) as [a0|] eqn:Ha0; [|done]. injection Hcp as ->. by apply Hcap.
    + intros p Hp. destruct (Hreg p Hp) as (_ & Hne & Hsub & thp & Hthp & Hat).
      destruct (Hw1 thp p Hne Hsub Hat) as (cp & ptp & d & ap & Hsp & Hfol & Hap & Hip & Hop').
      assert (HpA : p ∈ (list_to_set ps : gset addr)) by (by apply elem_of_list_to_set).
      exists cp, thp, ptp, d, ap. rewrite decide_True by done. by split_and!.
    + intros p. by rewrite elem_of_list_to_set.
    + constructor.
    + intros p Hp. by apply elem_of_nil in Hp.
    + intros p Hp HpA. destruct HpA. by apply elem_of_list_to_set.
    + intros q z Hz _. right. by exists z.
  - unfold left_to_do, to_do. rewrite Hsize. cbn [length].
    pose proof (total_bound (head w1) (this :: ps) (head_le w1)) as Hbound. cbn [length] in Hbound. lia.
Qed.

(** The whole demand. *)
Lemma demand_run rounds this x w b s :
  demandable this x w b s -> all_in_state x (task_states s) = false -> fair this (task_states s).*1 rounds ->
  exists w' b' s', demand_state_transition this x (schedule (concat rounds)) w = Ok (true, w') /\
    bus_ready this w' b' /\ manager_waits this w' b' s' /\ carried this w b w' b' /\
    target_state s' = Some x /\ pm_sorted (task_states s') /\
    (forall p, p ∈ (task_states s').*1 <-> p ∈ (task_states s).*1) /\
    (forall k, k < 2 ^ 32 -> fresh b (k + 1) -> fresh b' k) /\
    forall p, p ∈ (task_states s).*1 -> pm_find p (task_states s') = Some x /\
      task_waits this x w' b' [] p /\ current_state <$> tasks w' !! p = Some x.
Proof.
  intros Hd Hnot [Hr Hlen]. set (ps := (task_states s).*1) in *.
  assert (Hnd : NoDup ps) by (by apply pm_sorted_NoDup, Hd).
  assert (Hin : forall p, p ∈ ps -> 0 < p < 2 ^ 64 /\ p <> this) by (intros p Hp; by destruct (dm_tasks _ _ _ _ _ Hd p Hp) as (? & ? & _)).
  destruct (wave_start this x w b s Hd) as (w1 & b1 & s1 & R1 & Hts & C1 & F1 & W1 & Hdo).
  destruct (surges_rounds this x ps w1 b1 (dm_this _ _ _ _ _ Hd) (dm_state _ _ _ _ _ Hd) Hnd Hin rounds w1 b1 s1 _ _ W1 Hr)
    as (w2 & b2 & s2 & A2 & P2 & R2 & W2 & Hz); [by etrans|].
  assert (Hnil : ps <> []) by (unfold ps; intros He%fmap_nil_inv; by rewrite He in Hnot).
  destruct (wave_over this x ps w1 b1 (dm_this _ _ _ _ _ Hd) (dm_state _ _ _ _ _ Hd) Hnd Hin w2 b2 s2 A2 P2 Hnil W2 Hz) as (M2 & Hall & F2 & Hrest).
  exists w2, b2, s2. split; [|split; [apply W2|split; [done|split; [|split; [apply W2|split; [apply W2|split; [apply W2|split; [|done]]]]]]]].
  - rewrite (wave_demand this x ps w1 b1 w b1 s w1 s1 _ _ R1 Hts W1 Hnot _ _ R2).
    destruct (waiting_manager _ this w2 b2 s2 M2) as (t & Ht & Hder). by eapply demand_end_success.
  - eapply carried_trans; [exact C1|apply W2].
  - intros k Hk Hf. by apply F2, F1.
Qed.

(** ** Property *)

End schedules.

(** ** Witness: the state manager and the user task of Handshake.v *)

#[local] Existing Instance following_user.

Definition rest_rounds : list (list addr) := [[16; 32]; [16; 32; 16]; [32; 32; 16]; [32; 16]; [16; 32; 32]; [32; 16]].

Lemma rest_fair : fair 16 [32] rest_rounds.
Proof.
  split; [|cbn; lia]. unfold rest_rounds, round. repeat apply Forall_cons_2; [..|apply Forall_nil_2]; intros p; set_solver.
Qed.

Lemma rest_demandable x : 0 <= x < 2 ^ 8 -> demandable 16 x rest_world rest_bus rest_manager.
Proof.
  intros Hx. split; try done.
  - apply rest_ready.
  - intros p a ->%rest_mail. cbn. lia.
  - repeat constructor.
  - exists InDequeue. split; [by left|]. exists NOT_STARTED, Unjoinable, (aq_new 4). split_and!; [done..|cbn; lia].
  - intros a ->%rest_mail. cbn. lia.
  - intros p a _ ->%rest_mail. unfold has_room. cbn. lia.
  - cbn. by intros ?%list_elem_of_singleton.
  - cbn [rest_manager task_states fmap list_fmap fst]. intros p ->%list_elem_of_singleton.
    split; [lia|]. split; [done|]. split; [apply list_elem_of_here|]. exists InDequeue. split; [by left|].
    exists NOT_STARTED, Unjoinable, IsUserTask, (aq_new 4). split_and!; [done|by apply user_follows|done..].
Qed.

