(* ===== verification/Shutdown.v ===== *)
(** * Shutdown: from the demand STOPPED to the last joined thread

    [StateManager::shutdown] demands STOPPED, stops the registered tasks one
    after the other and then itself. The theorem composes the demand under
    every fair schedule with the joins: every thread of every one of these
    tasks is joined, within a number of turns that depends on the clock alone. *)

From S2P Require Import Prelude Msg Heap QueueSpec Logger World Broker TaskBase StateManager HeartBeat System Handshake Stopping Rounds Schedules.
#[local] Open Scope Z_scope.

Section shutdown.
Context {Q : Type} `{QueueImpl Q} `{UserTasks Q}.
Implicit Types (t : Task Q) (w : World Q) (s : StateManager) (d : Derived).

(** ** Joining idle threads *)

(** Once back at the head of the loop, the message thread of a stopped task
    ends and is joined. *)
Lemma join_queue_back fuel p t w :
  tasks w !! p = Some t -> running t = false -> queue_thread t = LoopHead ->
  join_queue_thread (S fuel) p w = Ok (true, with_task p (set_queue_thread Unjoinable t) w).
Proof.
  intros Ht Hr Hth. rewrite (join_queue_step fuel p t w Ht) by (by left).
  rewrite (M_bind_Ok _ _ _ _ _ (run_step_head p t w Ht Hth)), Hr.
  rewrite (join_queue_finished fuel p (set_queue_thread Finished t)) by (done || apply with_task_lookup).
  by rewrite with_task_twice.
Qed.

(** From the wait on a queue that has just been shut down and is empty. *)
Lemma join_queue_empty fuel p t w a :
  tasks w !! p = Some t -> running t = false -> queue_thread t = InDequeue ->
  q_view (message_queue t) a -> aq_closed a = true -> aq_items a = [] ->
  exists q, q_view q (mkAqueue [] (aq_capacity a) true 0) /\
    join_queue_thread (S (S fuel)) p w = Ok (true, with_task p (set_queue_thread Unjoinable (set_message_queue q t)) w).
Proof.
  intros Ht Hr Hth Hv Hc Hi. destruct (run_step_dequeue p t w a Ht Hth Hv) as (q & Hq & Hrun).
  unfold aq_dequeue in Hq, Hrun. rewrite Hi, Hc in Hq, Hrun. cbn in Hq, Hrun. exists q. split; [done|].
  rewrite (join_queue_step _ p t w Ht) by (by right). set (w1 := with_task p (set_message_queue q t) w) in *.
  assert (Hstep : run_step p w = Ok (Progress, with_task p (set_queue_thread LoopHead (set_message_queue q t)) w1)).
  { rewrite Hrun, (M_bind_Ok _ _ w1 tt w1 eq_refl).
    by rewrite (M_bind_Ok _ _ _ _ _ (modify_task_with p _ _ w1 (with_task_lookup _ _ _))). }
  rewrite (M_bind_Ok _ _ _ _ _ Hstep), (join_queue_back fuel p _ _ (with_task_lookup _ _ _)) by done.
  unfold w1. by rewrite !with_task_twice.
Qed.


(** ** Stopping a task that waits *)

(** [stop] up to the joins, from the outcome of the transition. *)
Lemma stop_request_run p t w w2 t2 :
  tasks w !! p = Some t -> running t = true ->
  transition_to_state p STOPPED (with_task p (set_running false t) w) = Ok (tt, w2) -> tasks w2 !! p = Some t2 ->
  stop_request p w = Ok (true, with_task p (set_message_queue (q_notify_shutdown (message_queue t2)) t2) w2).
Proof.
  intros Ht Hr Htr Ht2. unfold stop_request, is_running.
  rewrite (M_bind_Ok _ _ w true w) by (by rewrite (M_bind_Ok _ _ _ _ _ (get_task_run p t w Ht)), Hr).
  rewrite (M_bind_Ok _ _ _ _ _ (modify_task_with p _ t w Ht)), (M_bind_Ok _ _ _ _ _ Htr).
  by rewrite (M_bind_Ok _ _ _ _ _ (get_task_run p t2 w2 Ht2)).
Qed.

(** [p] waits on an empty queue, and is no state manager. *)
Definition stoppable (K : nat) (this : addr) w (b : bus) (p : addr) : Prop :=
  0 < p < 2 ^ 64 /\ p <> this /\
  exists c pt d a, status w p = Some (c, true, InDequeue, pt, d) /\ (forall s, d <> IsStateManager s) /\
    ends_within K (clock w) pt /\ bus_mail b !! p = Some a /\ aq_items a = [].

(** [p] is no state manager, and its periodic thread, if it has one, wakes up
    within [K] looks at the clock. *)
Definition joinable_soon (K : nat) w (p : addr) : Prop :=
  exists c r th pt d, status w p = Some (c, r, th, pt, d) /\ (forall s, d <> IsStateManager s) /\ ends_within K (clock w) pt.

(** [p] is stopped and has no thread. *)
Definition stopped w (p : addr) : Prop := exists d, status w p = Some (STOPPED, false, Unjoinable, Unjoinable, d).

(** Its transition is announced to the state manager, and its queue closed. *)
Lemma stop_request_waiting K this p w b a0 :
  bus_ready this w b -> stoppable K this w b p -> bus_mail b !! this = Some a0 -> has_room a0 ->
  exists w' b' pt d a, stop_request p w = Ok (true, w') /\ bus_view w' b' /\ bus_wf b' /\ bus_on b' = true /\
    default [] (bus_subs b' !! Z.to_nat Type_StateAckMsg) = [this] /\
    (forall i, default [] (bus_subs b' !! i) ⊆ default [] (bus_subs b !! i)) /\ clock w' = clock w /\ ends_within K (clock w) pt /\
    (forall y, status w' y = if decide (p = y) then Some (STOPPED, false, InDequeue, pt, d) else status w y) /\
    bus_mail b !! p = Some a /\ bus_mail b' !! p = Some (aq_close a) /\ aq_items a = [] /\
    bus_mail b' !! this = Some (received (state_ack p STOPPED) a0) /\
    (forall q, q <> p -> q <> this -> bus_mail b' !! q = bus_mail b !! q).
Proof.
  intros (Hv & Hwf & Hf & Hon & Hack)
    (Hp & Hne & c & pt & d & a & (t & Ht & Hc & Hr & Hth & Hpt & Hd)%status_Some & Hno & He & Ha & Hi) Ha0 Hroom.
  destruct (publish_to_one this (state_ack p STOPPED) b a0 Hwf (state_ack_wf p STOPPED ltac:(lia)) Hon)
    as (b2 & Hpub & Hwf2 & Hon2 & Hack2 & Hsub2 & Hmb); [right; by eexists|done..|].
  set (t1 := set_running false t). set (w1 := with_task p t1 w).
  assert (Hv1 : bus_view w1 b) by by apply (bus_view_fields w b p t).
  pose proof (transition_view p STOPPED w1 b t1 Hv1 Hwf Hf (with_task_lookup _ _ _) Hp) as Htr. rewrite Hpub in Htr.
  destruct Htr as (w2 & Htr & (Hv2on & Hv2s & Hm2) & Hom).
  destruct (only_mail_name _ _ p _ Hom (with_task_lookup _ _ _)) as (t2 & Ht2 & _ & Hs2 & Hr2 & Hq2 & Hp2 & _ & Hd2).
  cbn in Hs2, Hr2, Hq2, Hp2, Hd2. rewrite Hth in Hq2. rewrite Hpt in Hp2. rewrite Hd in Hd2.
  assert (Ha2 : bus_mail b2 !! p = Some a) by (by rewrite Hmb, decide_False).
  destruct (mailboxes_task w2 _ p a Hm2 Ha2) as (t2' & Ht2' & Hva). rewrite Ht2 in Ht2'. injection Ht2' as <-.
  set (t3 := set_message_queue (q_notify_shutdown (message_queue t2)) t2).
  exists (with_task p t3 w2), (set_mail p (aq_close a) b2), pt, d, a. split_and!; try done.
  - apply (stop_request_run p t w w2 t2 Ht Hr); [|done]. fold t1 w1. rewrite (dispatch_transition p STOPPED w1 t1 (with_task_lookup _ _ _)).
    change (derived t1) with (derived t). rewrite Hd. destruct d as [s|h|]; [by destruct (Hno s)|exact Htr|exact Htr].
  - split; [exact Hv2on|]. split; [exact Hv2s|]. apply (mailboxes_update w2); try done. by apply q_notify_shutdown_ok.
  - intros i. exact (pruned_subs _ _ i Hsub2).
  - exact (clock_transition p STOPPED w1 tt w2 Htr).
  - intros y. unfold w1 in Hom. rewrite status_with_task. cbn. rewrite Hs2, Hr2, Hq2, Hp2, Hd2.
    case_decide; [done|]. rewrite (status_mail _ _ y Hom). by rewrite with_task_twice, status_with_task, decide_False.
  - by rewrite set_mail_lookup, decide_True.
  - by rewrite set_mail_lookup, decide_False, Hmb, decide_True by (done || by apply not_eq_sym).
  - intros y Hy1 Hy2. by rewrite set_mail_lookup, decide_False, Hmb, decide_False.
Qed.

(** The joins of a task that is not running and whose closed queue is empty. *)
Lemma joins_waiting K fuel p w b c pt d a :
  bus_view w b -> status w p = Some (c, false, InDequeue, pt, d) -> bus_mail b !! p = Some a -> aq_closed a = true ->
  aq_items a = [] -> ends_within K (clock w) pt -> (K + 2 <= fuel)%nat ->
  exists w', (j ← join_queue_thread fuel p; if (j : bool) then join_periodic_thread fuel p else mret false) w = Ok (true, w') /\
    bus_view w' (set_mail p (mkAqueue [] (aq_capacity a) true 0) b) /\ clock w' = clock w /\
    forall y, status w' y = if decide (p = y) then Some (c, false, Unjoinable, Unjoinable, d) else status w y.
Proof.
  intros (Hvon & Hvs & Hm) (t & Ht & Hc & Hr & Hth & Hpt & Hd)%status_Some Ha Hcl Hi He Hk.
  destruct (mailboxes_task w _ p a Hm Ha) as (t' & Ht' & Hva). rewrite Ht in Ht'. injection Ht' as <-.
  destruct fuel as [|[|fuel]]; [lia..|].
  destruct (join_queue_empty fuel p t w a Ht Hr Hth Hva Hcl Hi) as (q & Hq & Hj).
  set (t4 := set_queue_thread Unjoinable (set_message_queue q t)) in *. set (w4 := with_task p t4 w) in *.
  destruct (join_periodic_run K (S (S fuel)) p t4 w4 (with_task_lookup _ _ _)) as (w5 & Hjp & Ht5 & Hb5 & Hc5);
    [done|by change (periodic_thread t4) with (periodic_thread t); rewrite Hpt|lia|].
  exists w5. split; [by rewrite (M_bind_Ok _ _ _ _ _ Hj)|]. split; [|split; [done|]].
  - unfold bus_view. rewrite Hb5. split_and!; [done|done|].
    apply (mailboxes_tasks (with_task p (set_periodic_thread Unjoinable t4) w4)); [exact Ht5|].
    unfold w4. rewrite with_task_twice. rewrite <- (with_task_twice p (set_message_queue q t)).
    apply (mailboxes_fields _ _ p (set_message_queue q t)); [apply with_task_lookup|done|]. by apply (mailboxes_update w).
  - intros y. transitivity (status (with_task p (set_periodic_thread Unjoinable t4) w4) y); [unfold status; by rewrite Ht5|].
    unfold w4. rewrite with_task_twice, status_with_task. cbn. by rewrite Hc, Hr, Hd.
Qed.

Lemma stop_waiting K fuel this p w b a0 :
  bus_ready this w b -> stoppable K this w b p -> (K + 2 <= fuel)%nat ->
  bus_mail b !! this = Some a0 -> has_room a0 ->
  exists w' b', stop fuel p w = Ok (true, w') /\ bus_view w' b' /\ bus_wf b' /\ bus_on b' = true /\
    default [] (bus_subs b' !! Z.to_nat Type_StateAckMsg) = [this] /\
    (forall i, default [] (bus_subs b' !! i) ⊆ default [] (bus_subs b !! i)) /\
    clock w' = clock w /\ stopped w' p /\ (forall q, q <> p -> status w' q = status w q) /\
    (exists a', bus_mail b' !! p = Some a' /\ aq_items a' = [] /\ aq_ticks a' = 0 /\ aq_capacity <$> bus_mail b !! p = Some (aq_capacity a')) /\
    bus_mail b' !! this = Some (received (state_ack p STOPPED) a0) /\
    (forall q, q <> p -> q <> this -> bus_mail b' !! q = bus_mail b !! q).
Proof.
  intros Hb Hp Hk Ha0 Hroom. destruct (stop_request_waiting K this p w b a0 Hb Hp Ha0 Hroom)
    as (w1 & b1 & pt & d & a & Hreq & Hv1 & Hwf1 & Hon1 & Hack1 & Hsub1 & Hc1 & He & Hst1 & Ha & Ha1 & Hi & Hm1 & Hout1).
  assert (Hs1 : status w1 p = Some (STOPPED, false, InDequeue, pt, d)) by (by rewrite Hst1, decide_True).
  assert (Hne : p <> this) by (by destruct Hp as (_ & ? & _)). rewrite <- Hc1 in He.
  destruct (joins_waiting K fuel p w1 b1 _ _ _ _ Hv1 Hs1 Ha1 eq_refl Hi He Hk) as (w2 & Hj & Hv2 & Hc2 & Hst2).
  eexists w2, _. split; [unfold stop; by rewrite (M_bind_Ok _ _ _ _ _ Hreq)|]. split; [exact Hv2|]. split_and!; try done.
  - by rewrite Hc2.
  - exists d. by rewrite Hst2, decide_True.
  - intros y Hy. by rewrite Hst2, Hst1, !decide_False by (by apply not_eq_sym).
  - eexists. rewrite set_mail_lookup, decide_True, Ha by done. by split_and!.
  - by rewrite set_mail_lookup, decide_False by (by apply not_eq_sym).
  - intros y Hy1 Hy2. rewrite set_mail_lookup, decide_False by done. by apply Hout1.
Qed.

(** ** Stopping the registered tasks, one after the other *)

Lemma stoppable_frame K this w b w' b' p :
  status w' p = status w p -> bus_mail b' !! p = bus_mail b !! p -> clock w' = clock w ->
  stoppable K this w b p -> stoppable K this w' b' p.
Proof.
  intros Hs Hm Hc (Hp & Hne & c & pt & d & a & ? & ? & ? & ? & ?). split; [done|]. split; [done|].
  exists c, pt, d, a. by rewrite Hs, Hm, Hc.
Qed.

Lemma stop_each_run K fuel this pairs w b a0 :
  bus_ready this w b -> fresh b (Z.of_nat (length pairs) + 1) -> Z.of_nat (length pairs) + 1 < 2 ^ 32 ->
  NoDup pairs.*1 -> (forall p, p ∈ pairs.*1 -> stoppable K this w b p) -> (K + 2 <= fuel)%nat ->
  bus_mail b !! this = Some a0 -> (length (aq_items a0) + length pairs <= aq_capacity a0)%nat ->
  exists w' b' a', stop_each fuel pairs w = Ok (true, w') /\ bus_ready this w' b' /\
    (forall i, default [] (bus_subs b' !! i) ⊆ default [] (bus_subs b !! i)) /\
    clock w' = clock w /\ bus_mail b' !! this = Some a' /\
    (forall p, p ∈ pairs.*1 -> stopped w' p /\
       exists a, bus_mail b' !! p = Some a /\ aq_items a = [] /\ aq_capacity <$> bus_mail b !! p = Some (aq_capacity a)) /\
    (forall q, (q ∉ pairs.*1) -> status w' q = status w q) /\
    (forall q, (q ∉ pairs.*1) -> q <> this -> bus_mail b' !! q = bus_mail b !! q).
Proof.
  revert w b a0. induction pairs as [|[p x] pairs IH]; intros w b a0 Hb Hf Hlt Hnd Hst Hk Ha0 Hcap.
  { exists w, b, a0. cbn [fmap list_fmap stop_each]. split_and!; try done. intros p Hp. by apply elem_of_nil in Hp. }
  cbn [fmap list_fmap fst] in *. apply NoDup_cons in Hnd as [Hp Hnd]. cbn [length] in *.
  destruct (stop_waiting K fuel this p w b a0 Hb) as (w1 & b1 & R1 & V1 & Wf1 & On1 & Ack1 & Sub1 & C1 & St1 & Out1 & Own1 & Mgr1 & Mail1);
    [apply Hst, list_elem_of_here|done|done|unfold has_room; lia|].
  destruct (Hst p (list_elem_of_here _ _)) as (_ & Hne & _).
  destruct Own1 as (a1 & Ha1 & Hi1 & Ht1 & Hc1).
  assert (Hf1 : fresh b1 (Z.of_nat (length pairs) + 1)).
  { intros q z Hz. destruct (decide (q = p)) as [->|Hq1]; [rewrite Ha1 in Hz; injection Hz as <-; lia|].
    destruct (decide (q = this)) as [->|Hq2]; [|rewrite Mail1 in Hz by done; specialize (Hf q z Hz); lia].
    rewrite Mgr1 in Hz. injection Hz as <-. specialize (Hf this a0 Ha0). cbn. lia. }
  assert (Hb1 : bus_ready this w1 b1) by (split_and!; try done; intros q z Hz; specialize (Hf1 q z Hz); lia).
  destruct (IH w1 b1 (received (state_ack p STOPPED) a0) Hb1 Hf1) as (w' & b' & a' & R & B & Sub & C & A & In & Out & Mail);
    [lia|done| |done|done|cbn; rewrite length_app; cbn; lia|].
  { intros q Hq. assert (Hqp : q <> p) by (by intros ->). assert (Hsq : stoppable K this w b q) by (by apply Hst, list_elem_of_further).
    pose proof Hsq as (_ & Hqt & _). apply (stoppable_frame K this w b); [by apply Out1|by apply Mail1|done|done]. }
  exists w', b', a'. split; [cbn [stop_each]; by rewrite (M_bind_Ok _ _ _ _ _ R1)|]. split; [done|].
  split; [intros i q Hq; by apply Sub1, Sub|]. split; [congruence|]. split; [done|]. split_and!.
  - intros q [->|Hq]%elem_of_cons.
    + split; [destruct St1 as [d Hd]; exists d; by rewrite Out|]. exists a1. by rewrite Mail.
    + destruct (In q Hq) as [Hs (a & Ha & Hi & Hc)]. split; [done|]. exists a. split; [done|]. split; [done|].
      assert (Hqp : q <> p) by (by intros ->). destruct (Hst q (list_elem_of_further _ _ _ Hq)) as (_ & Hqt & _).
      by rewrite <- Mail1.
  - intros q [Hq1 Hq2]%not_elem_of_cons. by rewrite Out, Out1.
  - intros q [Hq1 Hq2]%not_elem_of_cons Hq3. by rewrite Mail, Mail1.
Qed.

(** ** Stopping the state manager *)

(** Its handler returns once a target is set, whatever the message. *)
Lemma manager_process this m w t s target :
  tasks w !! this = Some t -> derived t = IsStateManager s -> registered_live w s -> target_state s = Some target ->
  exists s' w', process_message this m w = Ok (tt, w') /\ tasks w' = <[this := with_sm s' t]> (tasks w) /\ clock w' = clock w.
Proof.
  intros Ht Hd Hlive Htg. cbn [process_message dynamic_dispatch]. unfold dispatch.
  rewrite (M_bind_Ok _ _ _ _ _ (get_task_run this t w Ht)), Hd. unfold StateManager_process_message. case_decide.
  - destruct (handle_acknowledgment_run this m w t s target Ht Hd Hlive Htg) as (r & w' & Hrun & _ & Ht' & _).
    eexists _, w'. rewrite (M_bind_Ok _ _ _ _ _ Hrun). split; [done|]. split; [exact Ht'|].
    exact (clock_handle_ack this m w r w' Hrun).
  - exists s. eexists. rewrite (log_as_run this t _ _ w Ht). split; [done|]. split; [|done].
    symmetry. apply insert_id. etrans; [exact Ht|]. destruct t; cbn in *. by subst.
Qed.

(** The join of its message thread, with or without messages left. *)
Lemma manager_joins fuel this t w a s target :
  tasks w !! this = Some t -> running t = false -> queue_thread t = InDequeue -> derived t = IsStateManager s ->
  registered_live w s -> target_state s = Some target -> q_view (message_queue t) a -> aq_closed a = true ->
  exists q s' w', join_queue_thread (S (S fuel)) this w = Ok (true, w') /\
    tasks w' = <[this := set_queue_thread Unjoinable (with_sm s' (set_message_queue q t))]> (tasks w) /\ clock w' = clock w.
Proof.
  intros Ht Hr Hth Hd Hlive Htg Hv Hc. destruct (pop_best msg_lt (aq_items a)) as [[m r]|] eqn:Hp.
  - destruct (run_step_dequeue this t w a Ht Hth Hv) as (q & _ & Hrun). unfold aq_dequeue in Hrun. rewrite Hp in Hrun. cbn in Hrun.
    rewrite (join_queue_step _ this t w Ht) by (by right). set (w1 := with_task this (set_message_queue q t) w) in *.
    destruct (manager_process this m w1 (set_message_queue q t) s target) as (s' & w2 & Hproc & Ht2 & Hc2);
      [apply with_task_lookup|done|intros y Hy; by apply with_task_live, Hlive|done|].
    set (t2 := with_sm s' (set_message_queue q t)) in *.
    assert (Hl2 : tasks w2 !! this = Some t2) by (rewrite Ht2; apply lookup_insert_eq).
    assert (Hstep : run_step this w = Ok (Progress, with_task this (set_queue_thread LoopHead t2) w2)).
    { rewrite Hrun, (M_bind_Ok _ _ w1 tt w2 Hproc). by rewrite (M_bind_Ok _ _ _ _ _ (modify_task_with this _ t2 w2 Hl2)). }
    rewrite (M_bind_Ok _ _ _ _ _ Hstep), (join_queue_back fuel this _ _ (with_task_lookup _ _ _)) by done.
    rewrite with_task_twice. eexists q, s', _. split; [done|]. split; [|done].
    unfold with_task. cbn. rewrite Ht2. unfold w1, with_task. cbn. by rewrite !insert_insert_eq.
  - apply pop_best_None in Hp. destruct (join_queue_empty fuel this t w a Ht Hr Hth Hv Hc Hp) as (q & _ & Hj).
    exists q, s. eexists. split; [exact Hj|]. split; [|done]. unfold with_task. cbn. f_equal. destruct t; cbn in *. by subst.
Qed.

Lemma stop_manager K fuel this w b c pt s target a0 :
  bus_ready this w b -> 0 < this < 2 ^ 64 -> status w this = Some (c, true, InDequeue, pt, IsStateManager s) ->
  target_state s = Some target -> registered_live w s -> ends_within K (clock w) pt -> (K + 2 <= fuel)%nat ->
  bus_mail b !! this = Some a0 -> (this ∉ default [] (bus_subs b !! Z.to_nat Type_StateMsg)) ->
  subscribers_room b (state_request this STOPPED) ->
  exists w' s', stop fuel this w = Ok (true, w') /\
    status w' this = Some (c, false, Unjoinable, Unjoinable, IsStateManager s') /\
    forall q, q <> this -> status w' q = status w q.
Proof.
  intros (Hv & Hwf & Hf & Hon & Hack) Hthis (t & Ht & Hc & Hr & Hth & Hpt & Hd)%status_Some Htg Hlive He Hk Ha0 Hnsub Hroom.
  destruct (bus_publish_room b (state_request this STOPPED) Hwf (state_request_wf this STOPPED ltac:(lia)) Hon) as (mb & Hpub & Hmb);
    [right; by exists a0|done|].
  set (t1 := set_running false t). set (w1 := with_task this t1 w).
  assert (Hv1 : bus_view w1 b) by by apply (bus_view_fields w b this t).
  pose proof (sm_transition_view this STOPPED w1 b t1 s Hv1 Hwf Hf (with_task_lookup _ _ _) Hd Hthis) as Htr. rewrite Hpub in Htr.
  destruct Htr as (w2 & Htr & (_ & _ & Hm2) & Hom). set (s1 := set_sm_current_state STOPPED s) in *.
  destruct (only_mail_lookup _ _ this _ Hom (with_task_lookup _ _ _)) as [q2 Ht2]. set (t2 := set_message_queue q2 _) in Ht2.
  assert (Ha2 : mb !! this = Some a0) by (rewrite Hmb; unfold posted; by rewrite decide_False).
  destruct (mailboxes_task w2 _ this a0 Hm2 Ha2) as (t2' & Ht2' & Hva). rewrite Ht2 in Ht2'. injection Ht2' as <-.
  set (t3 := set_message_queue (q_notify_shutdown (message_queue t2)) t2). set (w3 := with_task this t3 w2).
  assert (Hreq : stop_request this w = Ok (true, w3)).
  { apply (stop_request_run this t w w2 t2 Ht Hr); [|done]. fold t1 w1. rewrite (dispatch_transition this STOPPED w1 t1 (with_task_lookup _ _ _)).
    change (derived t1) with (derived t). by rewrite Hd. }
  destruct fuel as [|[|fuel]]; [lia..|].
  destruct (manager_joins fuel this t3 w3 (aq_close a0) s1 target) as (q & s' & w4 & Hj & Ht4 & Hc4);
    [apply with_task_lookup|done|done|done| |done|by apply q_notify_shutdown_ok|done|].
  { intros y Hy. apply with_task_live, (only_mail_live _ _ _ Hom), with_task_live, with_task_live. by apply Hlive. }
  set (t4 := set_queue_thread Unjoinable _) in Ht4.
  assert (Hl4 : tasks w4 !! this = Some t4) by (rewrite Ht4; apply lookup_insert_eq).
  assert (Hclk : clock w4 = clock w) by (rewrite Hc4; exact (clock_sm_transition this STOPPED w1 tt w2 Htr)).
  destruct (join_periodic_run K (S (S fuel)) this t4 w4 Hl4) as (w5 & Hjp & Ht5 & _);
    [done|by rewrite Hclk; change (periodic_thread t4) with (periodic_thread t); rewrite Hpt|lia|].
  exists w5, s'. split; [unfold stop; by rewrite (M_bind_Ok _ _ _ _ _ Hreq), (M_bind_Ok _ _ _ _ _ Hj)|].
  split; [unfold status; rewrite Ht5, lookup_insert_eq; cbn; by rewrite Hc|].
  intros y Hy. assert (this <> y) by (by apply not_eq_sym). transitivity (status w2 y).
  - unfold status. rewrite Ht5, lookup_insert_ne, Ht4, lookup_insert_ne by done. unfold w3, with_task. cbn. by rewrite lookup_insert_ne.
  - rewrite (status_mail _ _ y Hom). unfold w1. by rewrite with_task_twice, status_with_task, decide_False.
Qed.
(** ** The whole shutdown *)

(** Only registered tasks listen for state requests. *)
Definition only_registered (b : bus) s : Prop :=
  forall q, q ∈ default [] (bus_subs b !! Z.to_nat Type_StateMsg) -> is_Some (bus_mail b !! q) -> q ∈ (task_states s).*1.

(** The demand leaves every registered task to be stopped. *)
Lemma stoppable_after K this w b w' b' p :
  0 < p < 2 ^ 64 -> p <> this -> joinable_soon K w p -> carried this w b w' b' -> task_waits this STOPPED w' b' [] p ->
  stoppable K this w' b' p.
Proof.
  intros Hp Hne (c & rn & th & pt & d & Hs & Hno & He) (Hc & Hpt & Hd & _) (c' & pt' & d' & a' & Hs' & _ & Ha' & Hi' & _).
  split; [done|]. split; [done|]. specialize (Hpt p). specialize (Hd p Hne).
  rewrite !status_periodic, Hs, Hs' in Hpt. rewrite !status_derived, Hs, Hs' in Hd. cbn in Hpt, Hd.
  injection Hpt as ->. injection Hd as ->. exists c', pt, d, a'. by rewrite Hc.
Qed.

(** Every registered mailbox has room for one more request at the end. *)
Lemma room_after this b b1 b2 w w1 s :
  carried this w b w1 b1 -> only_registered b s -> subscribers_room b (state_request this STOPPED) ->
  (this ∉ default [] (bus_subs b !! Z.to_nat Type_StateMsg)) ->
  (forall i, default [] (bus_subs b2 !! i) ⊆ default [] (bus_subs b1 !! i)) ->
  (forall p, p ∈ (task_states s).*1 -> exists a, bus_mail b2 !! p = Some a /\ aq_items a = [] /\
     aq_capacity <$> bus_mail b1 !! p = Some (aq_capacity a)) ->
  (forall q, (q ∉ (task_states s).*1) -> q <> this -> bus_mail b2 !! q = bus_mail b1 !! q) ->
  subscribers_room b2 (state_request this STOPPED).
Proof.
  intros (_ & _ & _ & Hcap & Hsub1) Hreg Hroom Hnsub Hsub2 Hin Hout q a Hq Ha.
  change (get_type _) with Type_StateMsg in Hq. apply Hsub2, (pruned_subs _ _ _ Hsub1) in Hq as Hq0.
  destruct (decide (q ∈ (task_states s).*1)) as [Hk|Hk].
  - destruct (Hin q Hk) as (a' & Ha' & Hi' & Hc'). rewrite Ha in Ha'. injection Ha' as <-. rewrite Hcap in Hc'.
    destruct (bus_mail b !! q) as [a0|] eqn:Ha0; [|done]. injection Hc' as Hc'.
    specialize (Hroom q a0 Hq0 Ha0). unfold has_room in *. rewrite Hi'. cbn. lia.
  - exfalso. apply Hk, Hreg; [done|]. rewrite Hout in Ha; [|done|by intros ->]. specialize (Hcap q). rewrite Ha in Hcap.
    destruct (bus_mail b !! q); [by eexists|done].
Qed.

Lemma shutdown_run K fuel rounds this w b s :
  demandable this STOPPED w b s -> all_in_state STOPPED (task_states s) = false -> only_registered b s ->
  (forall p, p ∈ (task_states s).*1 -> joinable_soon K w p) ->
  (forall t, tasks w !! this = Some t -> ends_within K (clock w) (periodic_thread t)) -> (K + 2 <= fuel)%nat ->
  fair this (task_states s).*1 rounds ->
  exists w', shutdown fuel this (schedule (concat rounds)) w = Ok (true, w') /\
    (forall p, p ∈ (task_states s).*1 -> stopped w' p) /\
    exists c s', status w' this = Some (c, false, Unjoinable, Unjoinable, IsStateManager s').
Proof.
  intros Hready Hnot Honly Hreg Hend Hk Hfair.
  pose proof Hready as [Hb Hf Hlt Hthis _ Hs (th & _ & Hm) Hcap Hroom Hnsub Htasks].
  destruct (waiting_manager _ this w b s Hm) as (t & Ht & Hd). specialize (Hend t Ht).
  pose proof (log_as_run this t INFO "shutting down tasks..." w Ht) as Hlog. set (w0 := logged _ _ _ w) in *.
  destruct (demand_run rounds this STOPPED w0 b s) as
    (w1 & b1 & s1 & Hdem & B1 & M1 & K1 & Tg1 & S1 & Keys & F1 & In1); [|done..|].
  { by destruct Hready as [? ? ? ? ? ? ? ? ? ? ?]. }
  assert (Hperm : (task_states s1).*1 ≡ₚ (task_states s).*1) by (apply NoDup_Permutation; [by apply pm_sorted_NoDup..|exact Keys]).
  assert (Hlen : length (task_states s1) = length (task_states s)).
  { apply Permutation_length in Hperm. by rewrite !length_fmap in Hperm. }
  destruct M1 as (cm & ptm & am & Sm & Am & Im & _ & _). pose proof K1 as (Kc & Kp & _ & Ka & _).
  assert (Hcapm : (length (task_states s) <= aq_capacity am)%nat).
  { specialize (Ka this). rewrite Am in Ka. destruct (bus_mail b !! this) as [a|] eqn:Ha; [|done]. injection Ka as ->. by apply Hcap. }
  assert (Hptm : ptm = periodic_thread t).
  { specialize (Kp this). rewrite status_periodic, Sm in Kp. change (tasks w0) with (tasks w) in Kp. rewrite Ht in Kp. by injection Kp. }
  assert (Hst1 : forall p, p ∈ (task_states s1).*1 -> stoppable K this w1 b1 p).
  { intros p Hp%Keys. destruct (Htasks p Hp) as (? & ? & _). destruct (In1 p Hp) as (_ & Hw & _).
    by apply (stoppable_after K this w0 b); [..|apply Hreg| |]. }
  destruct (stop_each_run K fuel this (task_states s1) w1 b1 am B1) as
    (w2 & b2 & a2 & R2 & B2 & Sub2 & C2 & A2 & In2 & Out2 & Mail2); rewrite ?Hlen, ?Im; try done.
  { apply F1; [lia|]. intros p a Ha. specialize (Hf p a Ha). lia. } { lia. } { by apply pm_sorted_NoDup. }
  assert (Hself : this ∉ (task_states s1).*1) by (intros Hin; by destruct (Hst1 this Hin) as (_ & ? & _)).
  destruct (stop_manager K fuel this w2 b2 cm ptm s1 STOPPED a2) as (w3 & s3 & R3 & S3 & Out3); try done.
  { by rewrite Out2. }
  { intros p Hp. destruct (In2 p Hp) as [[d Hd2] _]. apply status_live. by eexists. }
  { by rewrite C2, Kc, Hptm. }
  { intros Hin. by apply Sub2, (pruned_subs _ _ _ (proj2 (proj2 (proj2 (proj2 K1))))) in Hin. }
  { apply (room_after this b b1 b2 w0 w1 s); try done.
    - intros p Hp. apply In2. by apply Keys.
    - intros q Hq. apply Mail2. by rewrite Keys. }
  exists w3. split_and!.
  - unfold shutdown. rewrite (M_bind_Ok _ _ _ _ _ Hlog), (M_bind_Ok _ _ _ _ _ Hdem), (M_bind_Ok _ _ w1 tt w1 eq_refl).
    apply status_Some in Sm as (tm & Htm & _ & _ & _ & _ & Hdm).
    by rewrite (M_bind_Ok _ _ _ _ _ (get_sm_run this tm s1 w1 Htm Hdm)), (M_bind_Ok _ _ _ _ _ R2).
  - intros p Hp. destruct (In2 p) as [[d Hst] _]; [by apply Keys|]. exists d.
    rewrite Out3; [done|]. intros ->. by apply Hself, Keys.
  - by exists cm, s3.
Qed.

(** ** Property *)

(** C13. Shutdown ends every thread: with the registered tasks between two
    messages and following requests, and all message threads taking turns in
    rounds of any order while it waits, [shutdown] gets the demand STOPPED
    acknowledged, stops and joins each registered task and then itself, and
    returns; afterwards every registered task is in STOPPED, not running and
    without threads, and the state manager is not running and without threads.
    Each join takes at most [K + 2] turns of the joined thread, where [K]
    bounds how many looks at the clock a sleep of a periodic thread lasts. *)
Theorem shutdown_stops_all K fuel rounds this w b s :
  demandable this STOPPED w b s -> all_in_state STOPPED (task_states s) = false -> only_registered b s ->
  (forall p, p ∈ (task_states s).*1 -> joinable_soon K w p) ->
  (forall t, tasks w !! this = Some t -> ends_within K (clock w) (periodic_thread t)) -> (K + 2 <= fuel)%nat ->
  fair this (task_states s).*1 rounds ->
  exists w', shutdown fuel this (schedule (concat rounds)) w = Ok (true, w') /\
    (forall p, p ∈ (task_states s).*1 -> stopped w' p) /\
    exists c s', status w' this = Some (c, false, Unjoinable, Unjoinable, IsStateManager s').
Proof. apply shutdown_run. Qed.
End shutdown.

(** ** Witness: the state manager and the user task of Handshake.v *)

#[local] Existing Instance following_user.

Lemma shutdown_stops_all_witness :
  exists w', shutdown 2 16 (schedule (concat rest_rounds)) rest_world = Ok (true, w') /\ stopped w' 32 /\
    exists c s', status w' 16 = Some (c, false, Unjoinable, Unjoinable, IsStateManager s').
Proof.
  destruct (shutdown_stops_all 0 2 rest_rounds 16 rest_world rest_bus rest_manager) as (w' & Hrun & Hst & Hm).
  - apply rest_demandable. unfold STOPPED. lia.
  - done.
  - intros q Hq _. cbn in Hq. by apply list_elem_of_singleton in Hq as ->; apply list_elem_of_here.
  - cbn [rest_manager task_states fmap list_fmap fst]. intros p ->%list_elem_of_singleton.
    by exists NOT_STARTED, true, InDequeue, Unjoinable, IsUserTask.
  - cbn. by intros t [= <-].
  - lia.
  - apply rest_fair.
  - exists w'. split; [exact Hrun|]. split; [apply Hst, list_elem_of_here|exact Hm].
Defined.
