(* ===== verification/Lifecycle.v ===== *)
(** * Lifecycle: from the creation of the tasks to the end of their threads

    [StateManager::initialize], a demand for RUNNING and
    [StateManager::shutdown], one after the other, for a state manager with
    any number of registered tasks that follow its requests, under every fair
    schedule of their message threads. The threads that [initialize] starts go to
    their first wait while the state manager waits for the acknowledgements of
    IDLE. *)

From S2P Require Import Prelude Msg Heap QueueSpec Logger World Broker TaskBase StateManager HeartBeat System Handshake Stopping.
From S2P Require Import Rounds Schedules Shutdown.
#[local] Open Scope Z_scope.

Section lifecycle.
Context {Q : Type} `{QueueImpl Q} `{UserTasks Q}.
Implicit Types (t : Task Q) (w : World Q) (s : StateManager) (d : Derived).

(** ** [initialize] *)

Lemma mailboxes_queues w w' mb :
  (forall p, message_queue <$> tasks w' !! p = message_queue <$> tasks w !! p) -> mailboxes w mb -> mailboxes w' mb.
Proof.
  intros Hq Hm p. specialize (Hm p). specialize (Hq p).
  destruct (tasks w' !! p) as [t'|], (tasks w !! p) as [t|]; try done.
  injection Hq as Hq. inversion Hm as [u a Hv|]; subst; constructor. by rewrite Hq.
Qed.

(** ** At rest: nothing is queued, and every message thread is at [th] *)

Record rest_task (th : thread) (K : nat) (this : addr) w (b : bus) (p : addr) : Prop := {
  rest_range : 0 < p < 2 ^ 64;
  rest_other : p <> this;
  rest_subscribed : p ∈ default [] (bus_subs b !! Z.to_nat Type_StateMsg);
  rest_status : exists c pt d a, status w p = Some (c, true, th, pt, d) /\ (forall s, d <> IsStateManager s) /\
    (forall x, 0 <= x < 2 ^ 8 -> follows this p x d) /\ ends_within K (clock w) pt /\
    bus_mail b !! p = Some a /\ aq_items a = [] /\ aq_closed a = false /\ (0 < aq_capacity a)%nat
}.

Record at_rest (th : thread) (K : nat) (this : addr) w (b : bus) s : Prop := {
  rest_bus_ready : bus_ready this w b;
  rest_this : 0 < this < 2 ^ 64;
  rest_manager_at : exists c pt a, status w this = Some (c, true, th, pt, IsStateManager s) /\ ends_within K (clock w) pt /\
    bus_mail b !! this = Some a /\ aq_items a = [] /\ aq_closed a = false /\ (0 < aq_capacity a)%nat /\
    (length (task_states s) <= aq_capacity a)%nat;
  rest_registry : pm_sorted (task_states s);
  rest_unsubscribed : this ∉ default [] (bus_subs b !! Z.to_nat Type_StateMsg);
  rest_only : only_registered b s;
  rest_tasks : forall p, p ∈ (task_states s).*1 -> rest_task th K this w b p
}.

Lemma rest_room th K this w b s x : at_rest th K this w b s -> subscribers_room b (state_request this x).
Proof.
  intros [_ _ _ _ _ Honly Hps] q a Hq Ha. change (get_type _) with Type_StateMsg in Hq.
  destruct (Hps q) as [_ _ _ (c & pt & d & a' & _ & _ & _ & _ & Ha' & Hi & _ & Hc)]; [apply Honly; [done|by eexists]|].
  rewrite Ha in Ha'. injection Ha' as <-. unfold has_room. by rewrite Hi.
Qed.

Lemma rest_manager th K this w b s : at_rest th K this w b s -> manager_at th this w b s.
Proof. intros [_ _ (c & pt & a & Hs & _ & Ha & Hi & Hop & Hc & _) _ _ _ _]. by exists c, pt, a. Qed.

Lemma rest_at th K this x w b s p :
  at_rest th K this w b s -> 0 <= x < 2 ^ 8 -> p ∈ (task_states s).*1 -> task_at th this x w b [] p.
Proof.
  intros Hr Hx Hp. destruct (rest_tasks _ _ _ _ _ _ Hr p Hp) as [_ _ _ (c & pt & d & a & Hs & _ & Hf & _ & Ha & Hi & Hop & _)].
  exists c, pt, d, a. split; [done|]. split; [by apply Hf|done].
Qed.

(** Registries with the same tasks list them in the same order. *)
Lemma same_keys s s' :
  pm_sorted (task_states s) -> pm_sorted (task_states s') -> (forall p, p ∈ (task_states s').*1 <-> p ∈ (task_states s).*1) ->
  (task_states s').*1 = (task_states s).*1.
Proof.
  intros Hs Hs' Hk. apply (StronglySorted_unique_strong Z.lt); [intros; lia|done|done|].
  apply NoDup_Permutation; [by apply pm_sorted_NoDup..|exact Hk].
Qed.

(** What a handshake leaves of the rest. *)
Lemma rest_after th K this x w b s w' b' s' :
  at_rest th K this w b s -> carried this w b w' b' -> bus_ready this w' b' -> manager_waits this w' b' s' ->
  pm_sorted (task_states s') -> (task_states s').*1 = (task_states s).*1 ->
  (forall p, p ∈ (task_states s).*1 -> task_waits this x w' b' [] p) -> at_rest InDequeue K this w' b' s'.
Proof.
  intros [_ Hthis (c & pt & a & St & He & Ha & _ & _ & _ & Hlen) Hs Hnsub Honly Hps] (Hc & Hpt & Hdr & Hcap & Hpr) Hb
    (c' & pt' & a' & St' & Ha' & Hi' & Hop' & Hc') Hs' Hk Hw.
  assert (Hlive : forall q, is_Some (bus_mail b' !! q) <-> is_Some (bus_mail b !! q)).
  { intros q. split; apply same_capacity_live; by rewrite Hcap. }
  split; [done|done| |done| | |].
  - exists c', pt', a'. assert (Hpp : pt' = pt).
    { specialize (Hpt this). rewrite !status_periodic, St, St' in Hpt. by injection Hpt. }
    assert (Hll : length (task_states s') = length (task_states s)) by (by rewrite <- !(length_fmap fst), Hk).
    specialize (Hcap this). rewrite Ha, Ha' in Hcap. injection Hcap as Hcap.
    rewrite <- Hpp in He. rewrite Hc, Hll. split_and!; try done. by rewrite Hcap.
  - intros Hin. by apply Hnsub, Hpr.
  - intros q Hq Hl. rewrite Hk. apply Honly; [by apply Hpr|by apply Hlive].
  - intros p Hp. rewrite Hk in Hp. destruct (Hps p Hp) as [Hr Hne Hsub (cp & ptp & d & ap & Sp & Hno & Hf & Hep & Hap & _ & _ & Hcp)].
    destruct (Hw p Hp) as (cp' & ptp' & d' & ap' & Sp' & _ & Hap' & Hip' & Hop2).
    specialize (Hpt p). specialize (Hdr p Hne). specialize (Hcap p). rewrite !status_periodic, Sp, Sp' in Hpt.
    rewrite !status_derived, Sp, Sp' in Hdr. rewrite Hap, Hap' in Hcap. cbn in *. injection Hpt as ->. injection Hdr as ->. injection Hcap as Hcap.
    split; [done|done|by apply Hpr; [|by eexists]|]. exists cp', ptp, d, ap'. rewrite Hc, Hcap. by split_and!.
Qed.

(** *** A demand *)

Definition recorded (x : TaskState) s : Prop := forall p, p ∈ (task_states s).*1 -> pm_find p (task_states s) = Some x.

Lemma rest_demandable_at th K this x w b s :
  in_loop th -> at_rest th K this w b s -> 0 <= x < 2 ^ 8 -> fresh b (Z.of_nat (length (task_states s)) + 2) ->
  Z.of_nat (length (task_states s)) + 2 < 2 ^ 32 -> demandable this x w b s.
Proof.
  intros Hth Hr Hx Hf Hlt. pose proof Hr as [Hb Hthis (c & pt & a & St & He & Ha & _ & _ & _ & Hlen) Hs Hnsub _ Hps]. split; try done.
  - exists th. split; [done|]. by apply (rest_manager th K).
  - intros a' Ha'. rewrite Ha in Ha'. by injection Ha' as <-.
  - by apply (rest_room th K this w b s).
  - intros p Hp. destruct (Hps p Hp) as [? ? ? _]. do 3 (split; [done|]). exists th. split; [done|]. by apply (rest_at th K this x w b s).
Qed.

Lemma rest_demand th K rounds this x w b s :
  in_loop th -> at_rest th K this w b s -> fresh b (Z.of_nat (length (task_states s)) + 2) ->
  Z.of_nat (length (task_states s)) + 2 < 2 ^ 32 -> 0 <= x < 2 ^ 8 ->
  all_in_state x (task_states s) = false -> fair this (task_states s).*1 rounds ->
  exists w' b' s', demand_state_transition this x (schedule (concat rounds)) w = Ok (true, w') /\
    at_rest InDequeue K this w' b' s' /\ (task_states s').*1 = (task_states s).*1 /\ recorded x s' /\
    forall k, k < 2 ^ 32 -> fresh b (k + 1) -> fresh b' k.
Proof.
  intros Hth Hr Hf Hlt Hx Hnot Hfair. pose proof (rest_registry _ _ _ _ _ _ Hr) as Hs.
  destruct (demand_run rounds this x w b s (rest_demandable_at th K this x w b s Hth Hr Hx Hf Hlt) Hnot Hfair)
    as (w' & b' & s' & Hrun & Hb & Hm & Hc & _ & Hs' & Hk & Hfr & Hall).
  pose proof (same_keys s s' Hs Hs' Hk) as Hkeys. exists w', b', s'. split; [done|]. split; [|split; [done|split; [|done]]].
  - apply (rest_after th K this x w b s); try done. intros p Hp. by destruct (Hall p Hp) as (_ & ? & _).
  - intros p Hp. rewrite Hkeys in Hp. by destruct (Hall p Hp) as (? & _).
Qed.

Lemma recorded_other x y s : pm_sorted (task_states s) -> recorded x s -> y <> x -> task_states s <> [] -> all_in_state y (task_states s) = false.
Proof.
  intros Hs Hr Hne Hnil. apply not_true_is_false. intros Hall. rewrite all_in_state_spec in Hall by done.
  destruct (task_states s) as [|[p z] l] eqn:Heq; [done|].
  assert (Hp : p ∈ (task_states s).*1) by (rewrite Heq; apply list_elem_of_here).
  specialize (Hr p Hp). rewrite Heq in Hr, Hp. specialize (Hall p Hp). congruence.
Qed.

(** *** [initialize] *)

(** The state manager and its tasks have been created and not started. *)
Record created (this : addr) w (b : bus) s : Prop := {
  created_manager : exists t a, tasks w !! this = Some t /\ derived t = IsStateManager s /\ startable t /\
    bus_mail b !! this = Some a /\ aq_items a = [] /\ aq_closed a = false /\ (0 < aq_capacity a)%nat /\
    (length (task_states s) <= aq_capacity a)%nat;
  created_registry : pm_sorted (task_states s);
  created_unsubscribed : this ∉ default [] (bus_subs b !! Z.to_nat Type_StateMsg);
  created_only : only_registered b s;
  created_tasks : forall p, p ∈ (task_states s).*1 -> 0 < p < 2 ^ 64 /\ p <> this /\
    (p ∈ default [] (bus_subs b !! Z.to_nat Type_StateMsg)) /\
    exists t a, tasks w !! p = Some t /\ startable t /\ (forall s, derived t <> IsStateManager s) /\
      (forall x, 0 <= x < 2 ^ 8 -> follows this p x (derived t)) /\
      bus_mail b !! p = Some a /\ aq_items a = [] /\ aq_closed a = false /\ (0 < aq_capacity a)%nat
}.

Lemma started_status w p t t' K clk :
  tasks w !! p = Some t' -> started t t' ->
  exists pt, status w p = Some (current_state t, true, LoopHead, pt, derived t) /\ ends_within K clk pt.
Proof.
  intros Ht (Hr & Hq & Hp & _ & Hc & _ & Hd). exists (periodic_thread t'). split.
  - unfold status. rewrite Ht. cbn. by rewrite Hr, Hq, Hc, Hd.
  - rewrite Hp. by case_decide.
Qed.

(** The threads have been started: all at the heads of their loops. *)
Lemma initialize_starts K this others w b s :
  bus_ready this w b -> 0 < this < 2 ^ 64 -> created this w b s ->
  exists w1, at_rest LoopHead K this w1 b s /\ StateManager_initialize this others w =
    (ok ← demand_state_transition this IDLE others;
     if (ok : bool) then mret tt
     else log_as this LOG_ERROR "Timeout while waiting for tasks to transition to IDLE during initialization") w1.
Proof.
  intros (Hv & Hb) Hthis [(t & a0 & Ht & Hd & Hst & Ha0 & Hi0 & Hop0 & Hcap0 & Hlen) Hs Hnsub Honly Hps].
  assert (Hself : this ∉ (task_states s).*1) by (intros Hin; by destruct (Hps this Hin) as (_ & ? & _)).
  destruct (initialize_starts_all this others w t s Ht Hd Hst Hs Hself) as (w1 & Hrun & Hbr & Hc1 & Hin & Hout).
  { intros p Hp. destruct (Hps p Hp) as (_ & _ & _ & u & a & Hu & Hsu & _). by exists u. }
  assert (Hq : forall p, message_queue <$> tasks w1 !! p = message_queue <$> tasks w !! p).
  { intros p. destruct (decide (p ∈ this :: (task_states s).*1)) as [Hp|[Hp1 Hp2]%not_elem_of_cons]; [|by rewrite Hout].
    apply elem_of_cons in Hp. destruct (Hin p Hp) as (u & u' & -> & -> & (_ & _ & _ & _ & _ & Hqu & _)). cbn. by rewrite Hqu. }
  exists w1. split; [split; try done|exact Hrun].
  - split; [|exact Hb]. destruct Hv as (? & ? & Hm). unfold bus_view. rewrite Hbr. split_and!; [done|done|]. by apply (mailboxes_queues w).
  - destruct (Hin this) as (u & u' & Hu & Hu' & Hstu); [by left|]. rewrite Ht in Hu. injection Hu as <-.
    destruct (started_status w1 this t u' K (clock w1) Hu' Hstu) as (pt & Sm & He). rewrite Hd in Sm. by exists (current_state t), pt, a0.
  - intros p Hp. destruct (Hps p Hp) as (Hr & Hne & Hsub & u & a & Hu & _ & Hno & Hfol & Ha & Hi & Hop & Hca). split; try done.
    destruct (Hin p) as (v & u' & Hv' & Hu' & Hstu); [by right|]. rewrite Hu in Hv'. injection Hv' as <-.
    destruct (started_status w1 p u u' K (clock w1) Hu' Hstu) as (pt & Sp & He). by exists (current_state u), pt, (derived u), a.
Qed.

Lemma rest_initialize K rounds this w b s :
  bus_ready this w b -> fresh b (Z.of_nat (length (task_states s)) + 2) -> Z.of_nat (length (task_states s)) + 2 < 2 ^ 32 ->
  0 < this < 2 ^ 64 -> created this w b s -> all_in_state IDLE (task_states s) = false -> fair this (task_states s).*1 rounds ->
  exists w' b' s', StateManager_initialize this (schedule (concat rounds)) w = Ok (tt, w') /\
    at_rest InDequeue K this w' b' s' /\ (task_states s').*1 = (task_states s).*1 /\ recorded IDLE s' /\
    forall k, k < 2 ^ 32 -> fresh b (k + 1) -> fresh b' k.
Proof.
  intros Hb Hf Hlt Hthis Hnew Hnot Hfair.
  destruct (initialize_starts K this (schedule (concat rounds)) w b s Hb Hthis Hnew) as (w1 & Hr & Hrun).
  destruct (rest_demand LoopHead K rounds this IDLE w1 b s) as (w' & b' & s' & R & Hr' & ?); try done; [by right|].
  exists w', b', s'. split; [by rewrite Hrun, (M_bind_Ok _ _ _ _ _ R)|done].
Qed.

(** *** Demands, one after the other *)

Fixpoint demands (this : addr) (xs : list (TaskState * list (list addr))) : M Q bool :=
  match xs with
  | [] => mret true
  | (x, rounds) :: xs' =>
      ok ← demand_state_transition this x (schedule (concat rounds));
      if (ok : bool) then demands this xs' else mret false
  end.

(** Every state differs from the one before it, the last from STOPPED. *)
Fixpoint changes (x : TaskState) (xs : list TaskState) : Prop :=
  match xs with
  | [] => x <> STOPPED
  | y :: ys => 0 <= y < 2 ^ 8 /\ y <> x /\ changes y ys
  end.

Lemma rest_demands xs K this x w b s ps :
  at_rest InDequeue K this w b s -> (task_states s).*1 = ps -> ps <> [] -> recorded x s -> changes x xs.*1 ->
  Forall (fair this ps) xs.*2 ->
  forall k, k + Z.of_nat (length xs) < 2 ^ 32 -> Z.of_nat (length ps) + 2 <= k -> fresh b (k + Z.of_nat (length xs)) ->
  exists w' b' s' y, demands this xs w = Ok (true, w') /\ at_rest InDequeue K this w' b' s' /\ (task_states s').*1 = ps /\
    recorded y s' /\ y <> STOPPED /\ fresh b' k.
Proof.
  revert x w b s. induction xs as [|[y rounds] ys IH]; intros x w b s Hr Hps Hnil Hrec Hch Hfair k Hk Hk2 Hf.
  { exists w, b, s, x. rewrite Z.add_0_r in Hf. by split_and!. }
  destruct Hch as (Hy & Hne & Hch). cbn [length] in Hk, Hf. cbn [fmap list_fmap] in Hfair. apply Forall_cons in Hfair as [Hfr Hfair].
  assert (Hnot : all_in_state y (task_states s) = false).
  { apply (recorded_other x); [by apply Hr|done|done|]. intros Hn. by rewrite Hn in Hps. }
  assert (Hlen : length (task_states s) = length ps) by (by rewrite <- Hps, length_fmap).
  destruct (rest_demand InDequeue K rounds this y w b s) as (w1 & b1 & s1 & R1 & Hr1 & Hps1 & Hrec1 & Hf1);
    rewrite ?Hlen, ?Hps; try done; [by left| |lia|].
  { intros p z Hz. specialize (Hf p z Hz). lia. }
  destruct (IH y w1 b1 s1 Hr1 ltac:(congruence) Hnil Hrec1 Hch Hfair k) as (w' & b' & s' & z & R & Hrest); [lia|done| |].
  { apply Hf1; [lia|]. by replace (k + Z.of_nat (length ys) + 1) with (k + Z.of_nat (S (length ys))) by lia. }
  exists w', b', s', z. split; [|done]. cbn [demands]. rewrite (M_bind_Ok _ _ w true w1); done.
Qed.

(** *** [shutdown] *)

Lemma rest_shutdown K fuel rounds this w b s :
  at_rest InDequeue K this w b s -> fresh b (Z.of_nat (length (task_states s)) + 2) ->
  Z.of_nat (length (task_states s)) + 2 < 2 ^ 32 -> all_in_state STOPPED (task_states s) = false -> (K + 2 <= fuel)%nat ->
  fair this (task_states s).*1 rounds ->
  exists w', shutdown fuel this (schedule (concat rounds)) w = Ok (true, w') /\
    (forall p, p ∈ (task_states s).*1 -> stopped w' p) /\
    exists c s', status w' this = Some (c, false, Unjoinable, Unjoinable, IsStateManager s').
Proof.
  intros Hr Hf Hlt Hnot Hk Hfair. pose proof Hr as [_ _ (c & pt & a & Sm & He & _) _ _ Honly Hps].
  apply (shutdown_run K fuel rounds this w b s); try done.
  - apply (rest_demandable_at InDequeue K); try done. by left.
  - intros p Hp. destruct (Hps p Hp) as [_ _ _ (cp & ptp & d & ap & Sp & Hno & _ & Hep & _)].
    by exists cp, true, InDequeue, ptp, d.
  - intros t Ht. apply status_Some in Sm as (t' & Ht' & _ & _ & _ & Hpt & _). rewrite Ht in Ht'. injection Ht' as <-. by rewrite Hpt.
Qed.

(** ** Property *)

(** A program's use of the state manager, with the rounds of turns of the
    message threads during its waits: [initialize], demands for the states
    [xs], [shutdown]. *)
Definition lifecycle (fuel : nat) (this : addr) (r0 : list (list addr)) (xs : list (TaskState * list (list addr)))
    (r1 : list (list addr)) : M Q bool :=
  _ ← StateManager_initialize this (schedule (concat r0));
  ok ← demands this xs;
  if (ok : bool) then shutdown fuel this (schedule (concat r1)) else mret false.

(** C12. The lifecycle completes: with a state manager and any positive number
    of registered tasks, created and not started, that follow requests and are
    subscribed to them, and with rounds of turns in any order during every
    wait, [initialize] starts all threads and gets IDLE acknowledged, every
    demand for a state other than the one before succeeds, and [shutdown] gets
    STOPPED acknowledged and joins every thread, with two turns of each; in the
    end every registered task is in STOPPED without threads, and the state
    manager has no threads. *)
Theorem lifecycle_completes fuel this w b s r0 xs r1 :
  bus_ready this w b -> 0 < this < 2 ^ 64 -> created this w b s -> task_states s <> [] ->
  all_in_state IDLE (task_states s) = false -> changes IDLE xs.*1 -> (2 <= fuel)%nat ->
  Forall (fair this (task_states s).*1) (r0 :: r1 :: xs.*2) ->
  let n := Z.of_nat (length (task_states s)) + Z.of_nat (length xs) + 3 in n < 2 ^ 32 -> fresh b n ->
  exists w', lifecycle fuel this r0 xs r1 w = Ok (true, w') /\
    (forall p, p ∈ (task_states s).*1 -> stopped w' p) /\
    exists c s', status w' this = Some (c, false, Unjoinable, Unjoinable, IsStateManager s').
Proof.
  intros Hb Hthis Hnew Hnil Hnot Hch Hfuel [Hr0 [Hr1 Hrs]%Forall_cons]%Forall_cons n Hn Hf. unfold n in *.
  destruct (rest_initialize 0 r0 this w b s Hb) as (w1 & b1 & s1 & R1 & Hrest1 & Hps1 & Hrec1 & Hf1); try done.
  { intros p a Ha. specialize (Hf p a Ha). lia. } { lia. }
  destruct (rest_demands xs 0 this IDLE w1 b1 s1 (task_states s).*1 Hrest1 Hps1) with (k := Z.of_nat (length (task_states s)) + 2)
    as (w2 & b2 & s2 & y & R2 & Hrest2 & Hps2 & Hrec2 & Hy & Hf2); try done.
  { by destruct (task_states s). } { lia. } { by rewrite length_fmap. }
  { apply Hf1; [lia|]. intros p a Ha. specialize (Hf p a Ha). lia. }
  assert (Hlen : length (task_states s2) = length (task_states s)) by (by rewrite <- !(length_fmap fst), Hps2).
  destruct (rest_shutdown 0 fuel r1 this w2 b2 s2 Hrest2) as (w3 & R3 & Hstop & Hm); rewrite ?Hlen, ?Hps2; try done; [lia| |].
  { apply (recorded_other y); [by apply Hrest2|done|congruence|]. intros Hn2. rewrite Hn2 in Hps2. by destruct (task_states s). }
  rewrite Hps2 in Hstop. exists w3. split; [|done]. unfold lifecycle. by rewrite (M_bind_Ok _ _ _ _ _ R1), (M_bind_Ok _ _ _ _ _ R2).
Qed.
End lifecycle.

(** ** Witness: a state manager and two user tasks on reference queues *)

#[local] Existing Instance following_user.

Definition new_task (nm : string) (der : Derived) : Task aqueue :=
  mkTask nm NOT_STARTED false Unjoinable Unjoinable 0 (aq_new 4) der.
Definition new_registry : StateManager := mkStateManager [(32, NOT_STARTED); (48, NOT_STARTED)] None None nullptr.
Definition new_world : World aqueue :=
  mkWorld {[16 := new_task "StateManager" (IsStateManager new_registry); 32 := new_task "A" IsUserTask; 48 := new_task "B" IsUserTask]}
    (mkBroker true [[32; 48]; [16]; []; []]) Logger_new (fun n => mkClockReading (Z.of_nat n) 0 0) 0 (1, 1).
Definition new_bus : bus := mkBus true [[32; 48]; [16]; []; []] {[16 := aq_new 4; 32 := aq_new 4; 48 := aq_new 4]}.

Lemma new_mail p a : bus_mail new_bus !! p = Some a -> a = aq_new 4.
Proof. cbn. by intros [[_ <-]|[_ [[_ <-]|[_ [_ <-]%lookup_singleton_Some]]%lookup_insert_Some]]%lookup_insert_Some. Qed.

Lemma new_mailboxes : mailboxes new_world (bus_mail new_bus).
Proof.
  intros p. unfold new_world, new_bus. cbn [tasks bus_mail].
  destruct (decide (p = 16)) as [->|H1]; [rewrite !lookup_insert_eq; by repeat constructor|].
  rewrite !lookup_insert_ne by (by apply not_eq_sym).
  destruct (decide (p = 32)) as [->|H2]; [rewrite !lookup_insert_eq; by repeat constructor|].
  rewrite !lookup_insert_ne by (by apply not_eq_sym).
  destruct (decide (p = 48)) as [->|H3]; [rewrite !lookup_singleton_eq; by repeat constructor|].
  rewrite !lookup_singleton_ne by (by apply not_eq_sym). constructor.
Qed.

Lemma new_ready : bus_ready 16 new_world new_bus.
Proof.
  split; [split; [done|split; [done|apply new_mailboxes]]|]. split; [split; [done|]|split; [|done]].
  - repeat constructor; set_solver.
  - intros p a ->%new_mail. cbn. lia.
Qed.

Lemma new_created : created 16 new_world new_bus new_registry.
Proof.
  assert (Hkeys : forall p, p ∈ [32; 48] -> p = 32 \/ p = 48) by (intros p Hp; set_solver).
  split.
  - exists (new_task "StateManager" (IsStateManager new_registry)), (aq_new 4). split_and!; try done; cbn; lia.
  - repeat constructor.
  - intros [|]%Hkeys; done.
  - by intros q Hq _.
  - intros p Hp. apply Hkeys in Hp as Hp'. split; [destruct Hp'; subst; lia|]. split; [destruct Hp'; by subst|]. split; [exact Hp|].
    destruct Hp' as [-> | ->]; eexists _, (aq_new 4); (split; [reflexivity|]);
      split_and!; try done; try (cbn; lia); intros x Hx; by apply user_follows.
Qed.

(** Rounds in which the state manager's thread comes first, or last. *)
Definition new_rounds (manager_first : bool) : list (list addr) :=
  replicate 11 (if manager_first then [16; 48; 32; 48] else [32; 48; 16]).

Lemma new_fair b : fair 16 [32; 48] (new_rounds b).
Proof. split; [|by destruct b]. apply Forall_replicate. intros p. destruct b; set_solver. Qed.

Definition new_demands : list (TaskState * list (list addr)) :=
  [(RUNNING, new_rounds false); (IDLE, new_rounds true); (RUNNING, new_rounds true)].

Lemma lifecycle_completes_witness :
  exists w', lifecycle 2 16 (new_rounds true) new_demands (new_rounds false) new_world = Ok (true, w') /\
    stopped w' 32 /\ stopped w' 48 /\ exists c s', status w' 16 = Some (c, false, Unjoinable, Unjoinable, IsStateManager s').
Proof.
  destruct (lifecycle_completes 2 16 new_world new_bus new_registry (new_rounds true) new_demands (new_rounds false))
    as (w' & Hrun & Hst & Hm).
  - apply new_ready.
  - lia.
  - apply new_created.
  - done.
  - done.
  - cbn. unfold RUNNING, IDLE, STOPPED. lia.
  - lia.
  - repeat apply Forall_cons_2; [apply new_fair..|apply Forall_nil_2].
  - done.
  - intros p a ->%new_mail. cbn. lia.
  - exists w'. split_and!; [exact Hrun|apply Hst..|exact Hm]; [apply list_elem_of_here|apply list_elem_of_further, list_elem_of_here].
Defined.
