(* ===== verification/Network.v ===== *)
(** * Network: the messages of both protocols, on their way at the same time

    An abstract picture of a state manager, a heartbeat task and the user
    tasks registered and monitored: what each queue holds, which state each
    task is in, what the state manager has on record and what the heartbeat
    task knows of everybody's answers. A turn of a message thread is a step
    of this picture; so are a broadcast and a round of heartbeats. The
    invariants say that no request and no answer is lost: records and
    acknowledgements under way make up the states the tasks are in, and what
    a task owes is a heartbeat in its queue or an answer in the heartbeat
    task's. Traffic shows that the program's turns are these steps. *)

From stdpp Require Import functions.
From S2P Require Import Prelude Msg QueueSpec World StateManager HeartBeat.
#[local] Open Scope Z_scope.

(** ** The picture *)

(** A message in the queue of a registered task: a request for a state, a
    heartbeat, an answer to one. *)
Inductive item := ToState (x : TaskState) | Beat (id ts : Z) | BeatAck (p : addr) (id ts at_ms : Z).

Record network := mkNetwork {
  box : addr -> list item;
  ack_queue : list (addr * TaskState);
  own_state : addr -> TaskState;
  known_state : addr -> TaskState;
  beat_status : addr -> TaskStatus;
  busy : addr -> bool  (* between a message and the next wait *)
}.

Definition states (l : list item) : list TaskState := l ≫= fun i => match i with ToState y => [y] | _ => [] end.
Definition beats (l : list item) : list Z := l ≫= fun i => match i with Beat id _ => [id] | _ => [] end.
Definition beat_acks (p : addr) (l : list item) : list Z :=
  l ≫= fun i => match i with BeatAck q id _ _ => if decide (q = p) then [id] else [] | _ => [] end.

Lemma states_app l1 l2 : states (l1 ++ l2) = states l1 ++ states l2.
Proof. apply bind_app. Qed.
Lemma beats_app l1 l2 : beats (l1 ++ l2) = beats l1 ++ beats l2.
Proof. apply bind_app. Qed.
Lemma beat_acks_app p l1 l2 : beat_acks p (l1 ++ l2) = beat_acks p l1 ++ beat_acks p l2.
Proof. apply bind_app. Qed.

(** What a queue says of a message in its middle. *)
Lemma states_cons i l : states (i :: l) = match i with ToState y => [y] | _ => [] end ++ states l.
Proof. done. Qed.
Lemma beats_cons i l : beats (i :: l) = match i with Beat id _ => [id] | _ => [] end ++ beats l.
Proof. done. Qed.
Lemma beat_acks_cons p i l :
  beat_acks p (i :: l) = match i with BeatAck q id _ _ => if decide (q = p) then [id] else [] | _ => [] end ++ beat_acks p l.
Proof. done. Qed.

Lemma beat_acks_one p q id ts at_ms : length (beat_acks p [BeatAck q id ts at_ms]) = if decide (q = p) then 1%nat else 0%nat.
Proof. cbn. by case_decide. Qed.

Create Rewrite HintDb network.
#[export] Hint Rewrite states_app beats_app beat_acks_app states_cons beats_cons beat_acks_cons length_app : network.

Lemma fn_at {A B} `{EqDecision A} (f : A -> B) p v q : (<[p := v]> f : A -> B) q = if decide (p = q) then v else f q.
Proof. done. Qed.

Section network.
Context (sm hb : addr) (us : list addr).
Implicit Types N : network.

Abbreviation regs := (hb :: us).
Abbreviation threads := (sm :: regs).

(** A turn of the message thread of a task. Requests are taken in the order
    they came, answers and heartbeats may overtake them. *)
Inductive net_turn : addr -> network -> network -> Prop :=
  | nt_loop p q k s r b u : p ∈ threads -> u p = true ->
      net_turn p (mkNetwork q k s r b u) (mkNetwork q k s r b (<[p := false]> u))
  | nt_state p l1 y l2 q k s r b u : p ∈ regs -> u p = false -> q p = l1 ++ ToState y :: l2 -> states l1 = [] ->
      net_turn p (mkNetwork q k s r b u)
        (mkNetwork (<[p := l1 ++ l2]> q) (k ++ [(p, y)]) (<[p := y]> s) r b (<[p := true]> u))
  | nt_echo p l1 id ts l2 at_ms q k s r b u : p ∈ us -> u p = false -> q p = l1 ++ Beat id ts :: l2 ->
      net_turn p (mkNetwork q k s r b u)
        (mkNetwork (<[hb := q hb ++ [BeatAck p id ts at_ms]]> (<[p := l1 ++ l2]> q)) k s r b (<[p := true]> u))
  | nt_answered p l1 id ts at_ms l2 time_ns q k s r b u :
      p ∈ us -> u hb = false -> q hb = l1 ++ BeatAck p id ts at_ms :: l2 ->
      net_turn hb (mkNetwork q k s r b u)
        (mkNetwork (<[hb := l1 ++ l2]> q) k s r (<[p := acknowledged time_ns (b p)]> b) (<[hb := true]> u))
  | nt_record p y q k s r b u : p ∈ regs -> u sm = false ->
      net_turn sm (mkNetwork q ((p, y) :: k) s r b u) (mkNetwork q k s (<[p := y]> r) b (<[sm := true]> u)).

(** The broadcast of a request. *)
Definition broadcast (x : TaskState) N : network :=
  mkNetwork (fun p => if decide (p ∈ regs) then box N p ++ [ToState x] else box N p)
    (ack_queue N) (own_state N) (known_state N) (beat_status N) (busy N).

(** A round of heartbeats: each user task that owes no answer gets one. *)
Definition pulse N N' : Prop :=
  ack_queue N' = ack_queue N /\ own_state N' = own_state N /\ known_state N' = known_state N /\ busy N' = busy N /\
  (forall p, (p ∉ us) -> box N' p = box N p /\ beat_status N' p = beat_status N p) /\
  forall p, p ∈ us ->
    if awaiting_response (beat_status N p) then box N' p = box N p /\ beat_status N' p = beat_status N p
    else exists id ts time_ns, 0 <= id < 2 ^ 32 /\ 0 <= ts < 2 ^ 64 /\ box N' p = box N p ++ [Beat id ts] /\
      beat_status N' p = mkTaskStatus true id time_ns (last_response_time (beat_status N p)).

(** ** What is true of it at any time *)

(** The state a task is in when it has done what its queue asks for. *)
Definition heading N (p : addr) : TaskState := foldl (fun _ y => y) (own_state N p) (states (box N p)).

(** What the state manager will have on record of a task. *)
Definition told N (p : addr) : TaskState :=
  foldl (fun c r => if decide (r.1 = p) then r.2 else c) (known_state N p) (ack_queue N).

(** The heartbeats of a task that are under way, there or back. *)
Definition outstanding N (p : addr) : list Z := beats (box N p) ++ beat_acks p (box N hb).

Definition user_item (i : item) : Prop :=
  match i with ToState y => 0 <= y < 2 ^ 8 | Beat id ts => 0 <= id < 2 ^ 32 /\ 0 <= ts < 2 ^ 64 | BeatAck _ _ _ _ => False end.
Definition hb_item (i : item) : Prop :=
  match i with ToState y => 0 <= y < 2 ^ 8 | Beat _ _ => False | BeatAck p _ _ _ => p ∈ us end.

Record net_ok N : Prop := {
  no_told p : p ∈ regs -> told N p = own_state N p;
  no_beats p : p ∈ us ->
    outstanding N p = if awaiting_response (beat_status N p) then [last_heartbeat_id (beat_status N p)] else [];
  no_user p : p ∈ us -> Forall user_item (box N p);
  no_hb : Forall hb_item (box N hb);
  no_acks : Forall (fun r => r.1 ∈ regs /\ 0 <= r.2 < 2 ^ 8) (ack_queue N)
}.

(** Requests in a queue; heartbeats and answers of one task, weighed by the
    turns they take; threads between a message and their wait. *)
Definition asked N (p : addr) : nat := length (states (box N p)).
Definition echoing N (p : addr) : nat := (4 * length (beats (box N p)) + 2 * length (beat_acks p (box N hb)))%nat.
Definition busy_threads N : nat := total (fun p => if busy N p then 1 else 0)%nat threads.

(** The capacities are enough for all that is under way. *)
Record fits (cap : addr -> nat) N : Prop := {
  ft_user p : p ∈ us -> (asked N p + 1 <= cap p)%nat;
  ft_hb : (asked N hb + length us <= cap hb)%nat;
  ft_sm : (total (asked N) regs + length (ack_queue N) <= cap sm)%nat
}.

(** Turns that are left: two for each message, and as many for its answer. *)
Definition turns_left N : nat :=
  (4 * total (asked N) regs + 2 * length (ack_queue N) + total (echoing N) us + busy_threads N)%nat.

(** The turns for the requests that are under way; and an upper bound of all
    turns left, whatever heartbeats are sent meanwhile. *)
Definition requests N : nat := (4 * total (asked N) regs + 2 * length (ack_queue N))%nat.
Definition workload N : nat := (requests N + 5 * length us + 2)%nat.

Context (Hus : NoDup us) (Hhb : hb ∉ us) (Hsm : sm ∉ regs).

Lemma regs_nodup : NoDup regs.
Proof. by constructor. Qed.

Lemma all_threads_nodup : NoDup threads.
Proof. constructor; [done|apply regs_nodup]. Qed.

Lemma user_is_reg p : p ∈ us -> p ∈ regs.
Proof. apply list_elem_of_further. Qed.

Lemma user_not_hb p : p ∈ us -> hb <> p.
Proof. by intros Hp <-. Qed.

(** *** Turns keep the invariant *)

Lemma net_turn_heading p N N' q : net_turn p N N' -> heading N' q = heading N q.
Proof.
  intros Hturn. destruct Hturn as [p q' k s r b u Hp Hu|p l1 y l2 q' k s r b u Hp Hu Hq Hl1
    |p l1 id ts l2 at_ms q' k s r b u Hp Hu Hq|p l1 id ts at_ms l2 tm q' k s r b u Hp Hu Hq|p y q' k s r b u Hp Hu];
    unfold heading; cbn [box own_state]; rewrite ?fn_at; [done|..|done].
  - case_decide as Hpq; [rewrite <- Hpq, Hq|done]. autorewrite with network. by rewrite Hl1.
  - destruct (decide (hb = q)) as [Hh|Hh].
    + autorewrite with network. by rewrite app_nil_r, Hh.
    + case_decide as Hpq; [rewrite <- Hpq, Hq; by autorewrite with network|done].
  - case_decide as Hh; [rewrite <- Hh, Hq; by autorewrite with network|done].
Qed.

Lemma net_turn_told p N N' : net_turn p N N' ->
  (forall q, q ∈ regs -> told N q = own_state N q) -> forall q, q ∈ regs -> told N' q = own_state N' q.
Proof.
  intros Hturn Hok q Hq. specialize (Hok q Hq). revert Hok. destruct Hturn as [p q' k s r b u Hp Hu|p l1 y l2 q' k s r b u Hp Hu Hi Hl1
    |p l1 id ts l2 at_ms q' k s r b u Hp Hu Hi|p l1 id ts at_ms l2 tm q' k s r b u Hp Hu Hi|p y q' k s r b u Hp Hu];
    unfold told; cbn [ack_queue known_state own_state foldl fst snd]; [done| |done..|].
  - rewrite foldl_app. cbn [foldl fst snd]. rewrite fn_at. by case_decide.
  - by rewrite fn_at.
Qed.

Lemma net_turn_outstanding p N N' : net_turn p N N' ->
  (forall q, q ∈ us -> outstanding N q = if awaiting_response (beat_status N q) then [last_heartbeat_id (beat_status N q)] else []) ->
  forall q, q ∈ us -> outstanding N' q = if awaiting_response (beat_status N' q) then [last_heartbeat_id (beat_status N' q)] else [].
Proof.
  intros Hturn Hok q Hq. pose proof (Hok q Hq) as Hoq. pose proof (user_not_hb q Hq) as Hne. revert Hok Hoq.
  destruct Hturn as [p q' k s r b u Hp Hu|p l1 y l2 q' k s r b u Hp Hu Hi Hl1
    |p l1 id ts l2 at_ms q' k s r b u Hp Hu Hi|p l1 id ts at_ms l2 tm q' k s r b u Hp Hu Hi|p y q' k s r b u Hp Hu];
    unfold outstanding; cbn [box beat_status]; rewrite ?fn_at; intros Hok Hoq; [done|..|done].
  - rewrite <- Hoq. f_equal; (case_decide as Hpq; [rewrite <- Hpq, Hi; by autorewrite with network|done]).
  - rewrite (decide_False (P := hb = q)), (decide_True (P := hb = hb)) by done. autorewrite with network.
    case_decide as Hpq; [subst q|cbn [app]; by rewrite app_nil_r].
    rewrite Hi in Hoq. autorewrite with network in Hoq. cbn [app] in Hoq. rewrite <- app_assoc in Hoq. cbn [app] in Hoq.
    apply app_cons_at_most_one in Hoq as (-> & Hl1 & -> & [Hl2 Ha]%app_nil). by rewrite beats_app, Hl1, Hl2, Ha.
  - rewrite (decide_False (P := hb = q)), (decide_True (P := hb = hb)) by done. rewrite Hi in Hoq. autorewrite with network in Hoq.
      autorewrite with network.
    case_decide as Hpq; [subst q|done]. cbn [app] in Hoq. rewrite app_assoc in Hoq. 
    apply app_cons_at_most_one in Hoq as (_ & [Hb Hl1]%app_nil & _ & Hl2). by rewrite Hb, Hl1, Hl2.
Qed.

Lemma Forall_middle {A} (P : A -> Prop) l1 x l2 : Forall P (l1 ++ x :: l2) -> P x /\ Forall P (l1 ++ l2).
Proof using Type. rewrite !Forall_app, Forall_cons. tauto. Qed.

Lemma net_turn_ok p N N' : net_turn p N N' -> net_ok N -> net_ok N'.
Proof.
  intros Hturn [Ht Hb Hu Hh Ha].
  pose proof (net_turn_told p N N' Hturn Ht) as Ht'. pose proof (net_turn_outstanding p N N' Hturn Hb) as Hb'.
  split; [done..| | |]; clear Ht Hb Ht' Hb'.
  all: destruct Hturn as [p q' k s r b u Hp Hbu|p l1 y l2 q' k s r b u Hp Hbu Hi Hl1
    |p l1 id ts l2 at_ms q' k s r b u Hp Hbu Hi|p l1 id ts at_ms l2 tm q' k s r b u Hp Hbu Hi|p y q' k s r b u Hp Hbu];
    cbn [box ack_queue] in *; try done; rewrite ?fn_at.
  - intros q Hq. rewrite fn_at. case_decide as Hpq; [|by apply Hu]. specialize (Hu q Hq). rewrite <- Hpq, Hi in Hu.
    by apply Forall_middle in Hu as [_ ?].
  - intros q Hq. rewrite !fn_at, decide_False by (by apply user_not_hb). case_decide as Hpq; [|by apply Hu].
    specialize (Hu q Hq). rewrite <- Hpq, Hi in Hu. by apply Forall_middle in Hu as [_ ?].
  - intros q Hq. rewrite fn_at, decide_False by (by apply user_not_hb). by apply Hu.
  - case_decide as Hpq; [|done]. rewrite <- Hpq, Hi in Hh. by apply Forall_middle in Hh as [_ ?].
  - rewrite decide_True by done. by apply Forall_app_2; [|by apply Forall_singleton].
  - rewrite decide_True by done. rewrite Hi in Hh. by apply Forall_middle in Hh as [_ ?].
  - apply Forall_app_2; [done|]. constructor; [|done]. cbn. split; [done|]. apply elem_of_cons in Hp as [->|Hp].
    + rewrite Hi in Hh. by apply Forall_middle in Hh as [? _].
    + specialize (Hu p Hp). rewrite Hi in Hu. by apply Forall_middle in Hu as [? _].
  - by apply Forall_cons in Ha as [_ ?].
Qed.

(** *** Turns use up what is under way *)

(** What a measure of lists loses when a message is taken out of a queue, and
    gains when one is put in. *)
Lemma taken_out {A} (f : list item -> list A) (Hf : forall l1 l2, f (l1 ++ l2) = f l1 ++ f l2) (boxes : addr -> list item) p l1 i l2 q :
  boxes p = l1 ++ i :: l2 ->
  length (f (boxes q)) = ((if decide (p = q) then length (f [i]) else 0) + length (f ((<[p := l1 ++ l2]> boxes : addr -> list item) q)))%nat.
Proof using Type.
  intros Hi. rewrite fn_at. case_decide as Hpq; [|done]. rewrite <- Hpq, Hi. change (i :: l2) with ([i] ++ l2).
  rewrite !Hf, !length_app. lia.
Qed.

Lemma put_in {A} (f : list item -> list A) (Hf : forall l1 l2, f (l1 ++ l2) = f l1 ++ f l2) (boxes : addr -> list item) p l i q :
  boxes p = l -> length (f ((<[p := l ++ [i]]> boxes : addr -> list item) q)) = (length (f (boxes q)) + if decide (p = q) then length (f [i]) else 0)%nat.
Proof using Type. intros <-. rewrite fn_at. case_decide as Hpq; [by rewrite <- Hpq, Hf, length_app|lia]. Qed.

(** A thread gets busy. *)
Lemma busy_sets u u' p :
  p ∈ threads -> u p = false -> u' p = true -> (forall q, p <> q -> u' q = u q) ->
  total (fun q => if u' q then 1 else 0)%nat threads = (1 + total (fun q => if u q : bool then 1 else 0)%nat threads)%nat.
Proof.
  intros Hp Hb Hb' Hu. apply (total_at _ _ threads p 1 all_threads_nodup Hp); [intros q _ Hq|]; [by rewrite Hu by (by apply not_eq_sym)|].
  by rewrite Hb, Hb'.
Qed.

(** Requests under way become acknowledgements, and these records;
    heartbeats become answers, and these go. *)
Lemma net_turn_counts p N N' : net_turn p N N' ->
  exists a e k, total (asked N) regs = (a + total (asked N') regs)%nat /\ total (echoing N) us = (e + total (echoing N') us)%nat /\
    (length (ack_queue N) + a = length (ack_queue N') + k)%nat /\
    (forall q, asked N' q <= asked N q)%nat /\
    ((a + e + k = 0 /\ busy_threads N = 1 + busy_threads N') \/ (2 * a + e + 2 * k = 2 /\ busy_threads N' = 1 + busy_threads N))%nat.
Proof.
  intros Hturn. destruct Hturn as [p q' k s r b u Hp Hbu|p l1 y l2 q' k s r b u Hp Hbu Hi Hl1
    |p l1 id ts l2 at_ms q' k s r b u Hp Hbu Hi|p l1 id ts at_ms l2 tm q' k s r b u Hp Hbu Hi|p y q' k s r b u Hp Hbu];
    unfold busy_threads, asked, echoing; cbn [busy box ack_queue].
  - exists 0%nat, 0%nat, 0%nat. do 4 (split; [done|]). left. split; [done|].
    apply (busy_sets _ _ p); [done|by rewrite fn_at, decide_True|done|intros q Hq; by rewrite fn_at, decide_False].
  - exists 1%nat, 0%nat, 0%nat. split; [|split; [|split; [|split; [|right; split; [done|]]]]].
    + apply (total_at _ _ regs p 1 regs_nodup Hp); [intros q _ Hq|]; rewrite (taken_out states states_app q' p _ _ _ _ Hi).
      * by rewrite decide_False by (by apply not_eq_sym).
      * by rewrite decide_True.
    + apply total_ext. intros q Hq. rewrite (taken_out beats beats_app q' p _ _ _ _ Hi), (taken_out (beat_acks q) (beat_acks_app q) q' p _ _ _ _ Hi).
      by repeat case_decide.
    + rewrite length_app. cbn. lia.
    + intros q. rewrite (taken_out states states_app q' p _ _ _ q Hi). lia.
    + apply (busy_sets _ _ p); [by apply list_elem_of_further|done|by rewrite fn_at, decide_True|intros q Hq; by rewrite fn_at, decide_False].
  - pose proof (user_not_hb p Hp) as Hpn. assert (Hh : (<[p := l1 ++ l2]> q' : addr -> list item) hb = q' hb) by (by rewrite fn_at, decide_False by (by apply not_eq_sym)).
    exists 0%nat, 2%nat, 0%nat. split; [|split; [|split; [done|split; [|right; split; [done|]]]]].
    + apply total_ext. intros q _. rewrite (put_in states states_app _ _ _ _ _ Hh), (taken_out states states_app q' p _ _ _ _ Hi).
      repeat case_decide; cbn; lia.
    + apply (total_at _ _ us p 2 Hus Hp).
      * intros q Hq Hqp. rewrite (put_in beats beats_app _ _ _ _ _ Hh), (put_in (beat_acks q) (beat_acks_app q) _ _ _ _ _ Hh),
          (taken_out beats beats_app q' p _ _ _ _ Hi), (taken_out (beat_acks q) (beat_acks_app q) q' p _ _ _ _ Hi).
        rewrite beat_acks_one. pose proof (user_not_hb q Hq). repeat case_decide; cbn; (lia || congruence).
      * rewrite (put_in beats beats_app _ _ _ _ _ Hh), (put_in (beat_acks p) (beat_acks_app p) _ _ _ _ _ Hh),
          (taken_out beats beats_app q' p _ _ _ _ Hi), (taken_out (beat_acks p) (beat_acks_app p) q' p _ _ _ _ Hi).
        rewrite beat_acks_one. repeat case_decide; cbn; (lia || congruence).
    + intros q. rewrite (put_in states states_app _ _ _ _ _ Hh), (taken_out states states_app q' p _ _ _ _ Hi).
      repeat case_decide; cbn; lia.
    + apply (busy_sets _ _ p); [by do 2 apply list_elem_of_further|done|by rewrite fn_at, decide_True|intros q Hq; by rewrite fn_at, decide_False].
  - exists 0%nat, 2%nat, 0%nat. split; [|split; [|split; [done|split; [|right; split; [done|]]]]].
    + apply total_ext. intros q _. rewrite (taken_out states states_app q' hb _ _ _ _ Hi). by case_decide.
    + apply (total_at _ _ us p 2 Hus Hp); [intros q Hq Hqp|];
        rewrite (taken_out beats beats_app q' hb _ _ _ _ Hi), (taken_out (beat_acks _) (beat_acks_app _) q' hb _ _ _ _ Hi), beat_acks_one;
        repeat case_decide; cbn; (lia || congruence).
    + intros q. rewrite (taken_out states states_app q' hb _ _ _ q Hi). lia.
    + apply (busy_sets _ _ hb); [by apply list_elem_of_further, list_elem_of_here|done|by rewrite fn_at, decide_True|intros q Hq;
      by rewrite fn_at, decide_False].
  - exists 0%nat, 0%nat, 1%nat. split; [done|split; [done|split; [cbn [length]; lia|split; [done|right; split; [done|]]]]].
    apply (busy_sets _ _ sm); [apply list_elem_of_here|done|by rewrite fn_at, decide_True|intros q Hq; by rewrite fn_at, decide_False].
Qed.

Lemma net_turn_left p N N' : net_turn p N N' -> (turns_left N' < turns_left N)%nat.
Proof. intros (a & e & k & Ha & He & Hk & _ & Hor)%net_turn_counts. unfold turns_left. lia. Qed.

Lemma net_turn_fits cap p N N' : net_turn p N N' -> fits cap N -> fits cap N'.
Proof.
  intros (a & e & k & Ha & He & Hk & Hle & Hor)%net_turn_counts [Hu Hh Hm]. split; [|pose proof (Hle hb); lia|lia].
  intros p' Hp. specialize (Hu p' Hp). specialize (Hle p'). lia.
Qed.

Lemma net_turn_requests p N N' : net_turn p N N' -> (requests N' <= requests N)%nat.
Proof. intros (a & e & k & Ha & He & Hk & _)%net_turn_counts. unfold requests. lia. Qed.

(** *** There is room *)

Lemma outstanding_one N p : net_ok N -> p ∈ us -> (length (beats (box N p)) + length (beat_acks p (box N hb)) <= 1)%nat.
Proof.
  intros Hok Hp. pose proof (no_beats _ Hok p Hp) as Ho. unfold outstanding in Ho. rewrite <- length_app, Ho.
  by destruct (awaiting_response _); cbn; lia.
Qed.

Lemma user_length N p : net_ok N -> p ∈ us -> length (box N p) = (asked N p + length (beats (box N p)))%nat.
Proof.
  intros Hok Hp. unfold asked. pose proof (no_user _ Hok p Hp) as Hl.
  induction Hl as [|i l Hi Hl IH]; [done|]. rewrite states_cons, beats_cons, !length_app. cbn [length]. destruct i; cbn [length user_item] in *;
      [lia..|done].
Qed.

Lemma hb_length N : net_ok N -> length (box N hb) = (asked N hb + total (fun p => length (beat_acks p (box N hb))) us)%nat.
Proof.
  intros Hok. unfold asked. pose proof (no_hb _ Hok) as Hl.
  induction Hl as [|i l Hi Hl IH]; [cbn; symmetry; by apply total_0, Forall_true|].
  rewrite states_cons, length_app. cbn [length]. rewrite IH. destruct i as [y|id ts|p id ts at_ms]; cbn [length hb_item] in *; [|done|].
  - change (total (fun p => length (beat_acks p (ToState y :: l))) us) with (total (fun p => length (beat_acks p l)) us). lia.
  - rewrite (total_at (fun q => length (beat_acks q (BeatAck p id ts at_ms :: l))) (fun q => length (beat_acks q l)) us p 1 Hus Hi); [lia|..].
    + intros q _ Hq. by rewrite beat_acks_cons, decide_False by (by apply not_eq_sym).
    + by rewrite beat_acks_cons, decide_True.
Qed.

(** For the answer a task is going to give, *)
Lemma room_for_answer cap N p l1 id ts l2 :
  net_ok N -> fits cap N -> p ∈ us -> box N p = l1 ++ Beat id ts :: l2 -> (length (box N hb) < cap hb)%nat.
Proof.
  intros Hok Hf Hp Hi. rewrite (hb_length N Hok).
  assert (total (fun q => length (beat_acks q (box N hb))) us < length us)%nat; [|pose proof (ft_hb _ _ Hf); lia].
  apply (total_room _ _ p); [|done|].
  - intros q Hq. pose proof (outstanding_one N q Hok Hq). lia.
  - pose proof (outstanding_one N p Hok Hp) as Ho. rewrite Hi, beats_app, beats_cons, !length_app in Ho. cbn [length] in Ho. lia.
Qed.

(** for an acknowledgement, *)
Lemma room_for_ack cap N p l1 y l2 :
  fits cap N -> p ∈ regs -> box N p = l1 ++ ToState y :: l2 -> (length (ack_queue N) < cap sm)%nat.
Proof.
  intros Hf Hp Hi. pose proof (ft_sm _ _ Hf). assert (asked N p <= total (asked N) regs)%nat.
  { apply list_elem_of_lookup in Hp as [i Hp]. by apply (total_lookup _ _ i). }
  assert (1 <= asked N p)%nat; [|lia]. unfold asked. rewrite Hi, states_app, states_cons, !length_app. cbn [length]. lia.
Qed.

(** and for a heartbeat. *)
Lemma room_for_beat cap N p :
  net_ok N -> fits cap N -> p ∈ us -> awaiting_response (beat_status N p) = false -> (length (box N p) < cap p)%nat.
Proof.
  intros Hok Hf Hp Haw. rewrite (user_length N p Hok Hp). pose proof (no_beats _ Hok p Hp) as Ho. unfold outstanding in Ho.
  rewrite Haw in Ho. apply app_nil in Ho as [-> _]. pose proof (ft_user _ _ Hf p Hp). cbn [length]. lia.
Qed.

(** *** Rounds of heartbeats *)

Lemma pulse_asked N N' p : pulse N N' -> asked N' p = asked N p.
Proof.
  intros (_ & _ & _ & _ & Hout & Hin). unfold asked. destruct (decide (p ∈ us)) as [Hp|Hp]; [|by destruct (Hout p Hp) as [-> _]].
  specialize (Hin p Hp). destruct (awaiting_response _); [by destruct Hin as [-> _]|].
  destruct Hin as (id & ts & tm & _ & _ & -> & _). by rewrite states_app, app_nil_r.
Qed.

Lemma pulse_hb N N' : pulse N N' -> box N' hb = box N hb.
Proof. intros (_ & _ & _ & _ & Hout & _). by destruct (Hout hb Hhb) as [-> _]. Qed.

Lemma pulse_heading N N' p : pulse N N' -> heading N' p = heading N p.
Proof.
  intros (_ & Ho & _ & _ & Hout & Hin). unfold heading. rewrite Ho. destruct (decide (p ∈ us)) as [Hp|Hp]; [|by destruct (Hout p Hp) as [-> _]].
  specialize (Hin p Hp). destruct (awaiting_response _); [by destruct Hin as [-> _]|].
  destruct Hin as (id & ts & tm & _ & _ & -> & _). by rewrite states_app, app_nil_r.
Qed.

Lemma pulse_ok N N' : pulse N N' -> net_ok N -> net_ok N'.
Proof.
  intros Hpu [Ht Hb Hu Hh Ha]. pose proof (pulse_hb _ _ Hpu) as Hbox. destruct Hpu as (Hk & Ho & Hr & _ & Hout & Hin).
  split.
  - intros p Hp. unfold told. rewrite Hk, Ho, Hr. by apply Ht.
  - intros p Hp. specialize (Hb p Hp). specialize (Hin p Hp). unfold outstanding in *. rewrite Hbox.
    destruct (awaiting_response (beat_status N p)) eqn:Haw; [destruct Hin as [-> ->]; by rewrite Haw|].
    destruct Hin as (id & ts & tm & _ & _ & -> & ->). apply app_nil in Hb as [Hb ->]. by rewrite beats_app, Hb.
  - intros p Hp. specialize (Hu p Hp). specialize (Hin p Hp). destruct (awaiting_response _); [by destruct Hin as [-> _]|].
    destruct Hin as (id & ts & tm & Hid & Hts & -> & _). by apply Forall_app_2; [|by apply Forall_singleton].
  - by rewrite Hbox.
  - by rewrite Hk.
Qed.

Lemma pulse_fits cap N N' : pulse N N' -> fits cap N -> fits cap N'.
Proof.
  intros Hpu [Hu Hh Hm]. split.
  - intros p Hp. rewrite (pulse_asked _ _ p Hpu). by apply Hu.
  - by rewrite (pulse_asked _ _ hb Hpu).
  - rewrite (total_ext (asked N') (asked N)) by (intros p _; by apply pulse_asked). by destruct Hpu as (-> & _).
Qed.

Lemma pulse_requests N N' : pulse N N' -> requests N' = requests N.
Proof.
  intros Hpu. unfold requests. rewrite (total_ext (asked N') (asked N)) by (intros p _; by apply pulse_asked). by destruct Hpu as (-> & _).
Qed.

(** What is under way is limited: no task has more than one heartbeat. *)
Lemma turns_left_bound N :
  net_ok N -> (turns_left N <= workload N)%nat.
Proof.
  intros Hok. unfold workload, requests, turns_left, busy_threads.
  assert (total (echoing N) us <= 4 * length us)%nat.
  { transitivity (total (fun _ => 4%nat) us).
    - apply total_le. intros p Hp. pose proof (outstanding_one N p Hok Hp). unfold echoing. lia.
    - clear. induction us as [|p l IH]; [done|]. rewrite total_cons. cbn [length]. lia. }
  pose proof (total_bound (fun p => if busy N p then 1 else 0)%nat threads) as Hb. cbn [length] in Hb.
  specialize (Hb ltac:(intros p; destruct (busy N p); lia)). lia.
Qed.

(** *** The broadcast *)

Lemma broadcast_box x N p : box (broadcast x N) p = if decide (p ∈ regs) then box N p ++ [ToState x] else box N p.
Proof. done. Qed.

Lemma broadcast_heading x N p : p ∈ regs -> heading (broadcast x N) p = x.
Proof. intros Hp. unfold heading. by rewrite broadcast_box, decide_True, states_app, foldl_app by done. Qed.

Lemma broadcast_asked x N p : p ∈ regs -> asked (broadcast x N) p = (asked N p + 1)%nat.
Proof. intros Hp. unfold asked. by rewrite broadcast_box, decide_True, states_app, length_app by done. Qed.

Lemma broadcast_ok x N : 0 <= x < 2 ^ 8 -> net_ok N -> net_ok (broadcast x N).
Proof.
  intros Hx [Ht Hb Hu Hh Ha]. split; [exact Ht| | | |exact Ha].
  - intros p Hp. unfold outstanding. rewrite !broadcast_box, !decide_True by (apply list_elem_of_here || by apply user_is_reg).
    rewrite beats_app, beat_acks_app, !app_nil_r. by apply Hb.
  - intros p Hp. rewrite broadcast_box, decide_True by (by apply user_is_reg). apply Forall_app_2; [by apply Hu|by apply Forall_singleton].
  - rewrite broadcast_box, decide_True by apply list_elem_of_here. apply Forall_app_2; [done|by apply Forall_singleton].
Qed.

Lemma room_for_request cap x N p :
  net_ok N -> fits cap (broadcast x N) -> p ∈ regs -> (length (box N p) < cap p)%nat.
Proof.
  intros Hok Hf [->|Hp]%elem_of_cons.
  - rewrite (hb_length N Hok). pose proof (ft_hb _ _ Hf) as Hh. rewrite broadcast_asked in Hh by apply list_elem_of_here.
    assert (total (fun p => length (beat_acks p (box N hb))) us <= length us)%nat; [|lia].
    transitivity (total (fun _ => 1%nat) us); [apply total_le; intros p Hp; pose proof (outstanding_one N p Hok Hp); lia|].
    apply total_bound. done.
  - rewrite (user_length N p Hok Hp). pose proof (ft_user _ _ Hf p Hp) as Hu. rewrite broadcast_asked in Hu by (by apply user_is_reg).
    pose proof (outstanding_one N p Hok Hp). lia.
Qed.

(** *** Nothing under way *)

Record settled N : Prop := {
  se_box p : p ∈ regs -> box N p = [];
  se_acks : ack_queue N = [];
  se_busy p : p ∈ threads -> busy N p = false;
  se_own p : p ∈ regs -> own_state N p = heading N p;
  se_known p : p ∈ regs -> known_state N p = heading N p;
  se_answered p : p ∈ us -> awaiting_response (beat_status N p) = false
}.

Lemma turns_left_settled N : net_ok N -> turns_left N = 0%nat -> settled N.
Proof.
  intros Hok Hz. unfold turns_left in Hz. assert (Ha : ack_queue N = []) by (apply length_zero_iff_nil; lia).
  assert (Hs : forall p, p ∈ regs -> asked N p = 0%nat) by (apply Forall_forall, total_0; lia).
  assert (He : forall p, p ∈ us -> echoing N p = 0%nat) by (apply Forall_forall, total_0; lia).
  assert (Hbu : forall p, p ∈ threads -> (if busy N p then 1 else 0)%nat = 0%nat) by (apply Forall_forall, total_0; unfold busy_threads in Hz; lia).
  assert (Hbox : forall p, p ∈ regs -> box N p = []).
  { intros p [->|Hp]%elem_of_cons; apply length_zero_iff_nil.
    - rewrite (hb_length N Hok), (Hs hb) by apply list_elem_of_here. apply total_0, Forall_forall.
      intros p Hp. specialize (He p Hp). unfold echoing in He. lia.
    - rewrite (user_length N p Hok Hp), (Hs p) by (by apply user_is_reg). specialize (He p Hp). unfold echoing in He. lia. }
  assert (Hown : forall p, p ∈ regs -> heading N p = own_state N p) by (intros p Hp; unfold heading; by rewrite Hbox).
  split; [done..| | | |].
  - intros p Hp. specialize (Hbu p Hp). by destruct (busy N p).
  - intros p Hp. by rewrite Hown.
  - intros p Hp. rewrite Hown, <- (no_told _ Hok p Hp) by done. unfold told. by rewrite Ha.
  - intros p Hp. pose proof (no_beats _ Hok p Hp) as Ho. unfold outstanding in Ho.
    rewrite !Hbox in Ho by (apply list_elem_of_here || by apply user_is_reg). by destruct (awaiting_response _).
Qed.

Lemma nothing_left N :
  ack_queue N = [] -> (forall p, p ∈ regs -> box N p = []) -> (forall p, p ∈ threads -> busy N p = false) -> turns_left N = 0%nat.
Proof.
  intros Ha Hbox Hbu. unfold turns_left, busy_threads. rewrite Ha. cbn [length].
  assert (total (asked N) regs = 0%nat) as ->.
  { apply total_0, Forall_forall. intros p Hp. unfold asked. by rewrite (Hbox p Hp). }
  assert (total (echoing N) us = 0%nat) as ->.
  { apply total_0, Forall_forall. intros p Hp. unfold echoing. rewrite (Hbox hb (list_elem_of_here _ _)).
    by rewrite (Hbox p (user_is_reg p Hp)). }
  assert (total (fun p => if busy N p then 1 else 0)%nat threads = 0%nat) as ->; [|done].
  apply total_0, Forall_forall. intros p Hp. by rewrite (Hbu p Hp).
Qed.

(** ** Moving on *)

(** A turn of [p] that takes the message at the head of the queue; [None] when
    the thread has to wait. The times are whatever the clock shows. *)
Definition net_next (at_ms time_ns : Z) (p : addr) N : option network :=
  let '(mkNetwork q k s r b u) := N in
  if u p then Some (mkNetwork q k s r b (<[p := false]> u))
  else if decide (p = sm) then
    match k with
    | [] => None
    | (p', y) :: k' => Some (mkNetwork q k' s (<[p' := y]> r) b (<[sm := true]> u))
    end
  else
    match q p with
    | [] => None
    | ToState y :: l => Some (mkNetwork (<[p := l]> q) (k ++ [(p, y)]) (<[p := y]> s) r b (<[p := true]> u))
    | Beat id ts :: l => Some (mkNetwork (<[hb := q hb ++ [BeatAck p id ts at_ms]]> (<[p := l]> q)) k s r b (<[p := true]> u))
    | BeatAck p' id ts ms :: l =>
        Some (mkNetwork (<[hb := l]> q) k s r (<[p' := acknowledged time_ns (b p')]> b) (<[hb := true]> u))
    end.

Lemma net_next_turn at_ms time_ns p N N' :
  net_ok N -> p ∈ threads -> net_next at_ms time_ns p N = Some N' -> net_turn p N N'.
Proof.
  intros Hok Hp. destruct N as [q k s r b u] eqn:HN. cbn [net_next]. destruct (u p) eqn:Hu; [intros [= <-]; by apply nt_loop|].
  case_decide as Hps.
  - subst p. destruct k as [|[p' y] k]; [done|]. intros [= <-]. apply nt_record; [|done].
    pose proof (no_acks _ Hok) as Ha. by apply Forall_cons in Ha as [[? _] _].
  - assert (Hpr : p ∈ regs) by (by apply elem_of_cons in Hp as [->|?]). destruct (q p) as [|i l] eqn:Hq; [done|].
    assert (Hitem : if decide (p = hb) then hb_item i else user_item i).
    { case_decide as Hph; [pose proof (no_hb _ Hok) as Hh; cbn in Hh; rewrite Hph in Hq; rewrite Hq in Hh; by apply Forall_cons in Hh as [? _]|].
      apply elem_of_cons in Hpr as [Hpr|Hpr]; [done|]. pose proof (no_user _ Hok p Hpr) as Hh. cbn in Hh. rewrite Hq in Hh.
        by apply Forall_cons in Hh as [? _]. }
    destruct i as [y|id ts|p' id ts ms]; intros [= <-].
    + by apply (nt_state p [] y l).
    + case_decide as Hph; [done|]. apply (nt_echo p [] id ts l); [|done..]. by apply elem_of_cons in Hpr as [?|?].
    + case_decide as Hph; [|done]. subst p. by apply (nt_answered p' [] id ts ms l).
Qed.

Lemma net_progress N :
  net_ok N -> turns_left N <> 0%nat -> exists p N', p ∈ threads /\ net_next 0 0 p N = Some N'.
Proof.
  intros Hok Hleft. destruct (decide (Exists (fun p => is_Some (net_next 0 0 p N)) threads)) as [Hex|Hno].
  { apply Exists_exists in Hex as (p & Hp & N' & HN). by exists p, N'. }
  destruct Hleft. rewrite <- Forall_Exists_neg, Forall_forall in Hno.
  assert (Hbusy : forall p, p ∈ threads -> busy N p = false).
  { intros p Hp. specialize (Hno p Hp). destruct N as [q k s r b u]. cbn in *. destruct (u p); [|done]. by destruct Hno. }
  apply nothing_left; [| |done].
  - specialize (Hno sm (list_elem_of_here _ _)). specialize (Hbusy sm (list_elem_of_here _ _)). destruct N as [q k s r b u]. cbn in *.
    rewrite Hbusy, decide_True in Hno by done. destruct k as [|[p' y] k]; [done|]. by destruct Hno.
  - intros p Hp. assert (Hpt : p ∈ threads) by (by apply list_elem_of_further). specialize (Hno p Hpt). specialize (Hbusy p Hpt).
    destruct N as [q k s r b u]. cbn in *. rewrite Hbusy, decide_False in Hno by (intros ->; by destruct Hsm).
    destruct (q p) as [|[y|id ts|p' id ts ms] l]; [done|by destruct Hno..].
Qed.

(** *** Steps of either kind *)

(** A turn of a message thread or a round of heartbeats. *)
Inductive net_step N N' : Prop :=
  | ns_turn p : net_turn p N N' -> net_step N N'
  | ns_pulse : pulse N N' -> net_step N N'.

Lemma net_step_keeps cap N N' : net_step N N' -> net_ok N -> fits cap N ->
  net_ok N' /\ fits cap N' /\ (forall p, heading N' p = heading N p) /\ (requests N' <= requests N)%nat.
Proof.
  intros [p Hturn|Hpu] Hok Hf.
  - split; [by eapply net_turn_ok|]. split; [by eapply net_turn_fits|]. split; [intros q; by eapply net_turn_heading|].
    by eapply net_turn_requests.
  - split; [by eapply pulse_ok|]. split; [by eapply pulse_fits|]. split; [intros q; by eapply pulse_heading|].
    by rewrite (pulse_requests N N' Hpu).
Qed.
End network.
