(* ===== verification/Demands.v ===== *)
(** * Demands: several demands at once

    Nothing keeps two threads from calling [demand_state_transition] of one
    state manager: [state_mutex] is free between the assignment of
    [target_state], the broadcast and the wait, and during the wait. Here any
    number of threads make demands over the network of Network.v: each sets
    [target_state], broadcasts, tests the records with the mutex held and
    sleeps until a notification, a time-out or a spurious wake-up; the state
    manager's message thread records acknowledgements without the mutex and
    notifies one sleeper when all records are as [target_state] says. *)

From stdpp Require Import functions.
From S2P Require Import Prelude Msg QueueSpec World StateManager HeartBeat Network.
#[local] Open Scope Z_scope.

(** ** The threads that make demands *)

(** Between two accesses to what is shared: before the assignment of
    [target_state], before the broadcast, before a test of the records, between
    a test that failed and the sleep (the mutex is held), asleep, returned. *)
Inductive stage := Announcing | Publishing | Testing | FallingAsleep | Asleep | Finished (success : bool).

#[export] Instance stage_eq_dec : EqDecision stage.
Proof. solve_decision. Defined.

Record demander := mkDemander { wanted : TaskState; at_stage : stage }.

(** [telling]: the message thread is between its loop over the records and
    [notify_one]. *)
Record scene := mkScene {
  net : network;
  sought : TaskState;
  telling : bool;
  demanders : list demander
}.

Section demands.
Context (sm hb : addr) (us : list addr).

Abbreviation regs := (hb :: us).
Abbreviation threads := (sm :: regs).

Definition all_known (x : TaskState) (N : network) : bool := forallb (fun p => bool_decide (known_state N p = x)) regs.

(** [state_mutex] is free. *)
Definition mutex_free (cs : list demander) : bool := forallb (fun c => negb (bool_decide (at_stage c = FallingAsleep))) cs.

(** Who wakes up: the end of the timeout and a spurious wake-up are not up to
    the threads. *)
Inductive impulse := ByThread | ByTimeout | Spurious.

(** One thread's access to what is shared; [p] is a message thread's turn. *)
Inductive demand_step : impulse -> scene -> scene -> Prop :=
  | ds_target N t b cs i x : cs !! i = Some (mkDemander x Announcing) -> mutex_free cs = true ->
      demand_step ByThread (mkScene N t b cs) (mkScene N x b (<[i := mkDemander x Publishing]> cs))
  | ds_publish N t b cs i x : cs !! i = Some (mkDemander x Publishing) ->
      demand_step ByThread (mkScene N t b cs) (mkScene (broadcast hb us x N) t b (<[i := mkDemander x Testing]> cs))
  | ds_test N t b cs i x : cs !! i = Some (mkDemander x Testing) -> mutex_free cs = true ->
      demand_step ByThread (mkScene N t b cs)
        (mkScene N t b (<[i := mkDemander x (if all_known x N then Finished true else FallingAsleep)]> cs))
  | ds_sleep N t b cs i x : cs !! i = Some (mkDemander x FallingAsleep) ->
      demand_step ByThread (mkScene N t b cs) (mkScene N t b (<[i := mkDemander x Asleep]> cs))
  | ds_timeout N t b cs i x : cs !! i = Some (mkDemander x Asleep) -> mutex_free cs = true ->
      demand_step ByTimeout (mkScene N t b cs) (mkScene N t b (<[i := mkDemander x (Finished (all_known x N))]> cs))
  | ds_spurious N t b cs i x : cs !! i = Some (mkDemander x Asleep) ->
      demand_step Spurious (mkScene N t b cs) (mkScene N t b (<[i := mkDemander x Testing]> cs))
  | ds_turn p N N' t b cs : net_turn sm hb us p N N' -> (p = sm -> b = false) ->
      demand_step ByThread (mkScene N t b cs)
        (mkScene N' t (if decide (p = sm) then busy N' sm && all_known t N' else b) cs)
  | ds_notify N t cs i x : cs !! i = Some (mkDemander x Asleep) ->
      demand_step ByThread (mkScene N t true cs) (mkScene N t false (<[i := mkDemander x Testing]> cs))
  | ds_notify_nobody N t cs : Forall (fun c => at_stage c <> Asleep) cs ->
      demand_step ByThread (mkScene N t true cs) (mkScene N t false cs).

(** [n] steps, of which [k] are spurious wake-ups. *)
Inductive demands_run : scene -> nat -> nat -> scene -> Prop :=
  | demands_none S : demands_run S 0 0 S
  | demands_more S n k S1 c S2 : demands_run S n k S1 -> demand_step c S1 S2 ->
      demands_run S (1 + n) (k + if c is Spurious then 1 else 0) S2.

Definition start_demands (t0 : TaskState) (N : network) (xs : list TaskState) : scene :=
  mkScene N t0 false ((fun x => mkDemander x Announcing) <$> xs).

(** Only the end of a timeout or a spurious wake-up can move anybody. *)
Definition resting (S : scene) : Prop := forall S', ~ demand_step ByThread S S'.

Context (Hus : NoDup us) (Hhb : hb ∉ us) (Hsm : sm ∉ regs).

Abbreviation ok := (net_ok hb us).
Abbreviation left_over := (turns_left sm hb us).

(** ** Every run ends *)

Definition stage_cost (c : demander) : nat :=
  match at_stage c with
  | Announcing => 5 + 16 * (1 + length us)
  | Publishing => 4 + 16 * (1 + length us)
  | Testing => 3
  | FallingAsleep => 2
  | Asleep => 1
  | Finished _ => 0
  end.

Definition steps_left (S : scene) : nat :=
  (4 * left_over (net S) + (if telling S then 3 else 0) + total stage_cost (demanders S))%nat.

Lemma broadcast_left x N : left_over (broadcast hb us x N) = (4 * (1 + length us) + left_over N)%nat.
Proof.
  unfold turns_left. rewrite (total_ext (asked (broadcast hb us x N)) (fun p => asked N p + 1)%nat) by (intros p; apply broadcast_asked).
  rewrite total_succ. cbn [length ack_queue broadcast].
  assert (total (echoing hb (broadcast hb us x N)) us = total (echoing hb N) us) as ->; [|unfold busy_threads; cbn [busy broadcast]; lia].
  apply total_ext. intros p Hp. unfold echoing. rewrite !broadcast_box, !decide_True by (apply list_elem_of_here || by apply list_elem_of_further).
  by rewrite beats_app, beat_acks_app, !app_nil_r.
Qed.

Lemma stage_change cs i x st st' : cs !! i = Some (mkDemander x st) ->
  (total stage_cost (<[i := mkDemander x st']> cs) + stage_cost (mkDemander x st) = total stage_cost cs + stage_cost (mkDemander x st'))%nat.
Proof using Type. intros Hi. pose proof (total_update stage_cost cs i (mkDemander x st) (mkDemander x st') Hi). lia. Qed.

Lemma demand_step_left c S S' : demand_step c S S' -> (steps_left S' + 1 <= steps_left S + if c is Spurious then 3 else 0)%nat.
Proof.
  intros Hstep. unfold steps_left. destruct Hstep as [N t b cs i x Hi Hm|N t b cs i x Hi|N t b cs i x Hi Hm|N t b cs i x Hi|N t b cs i x Hi Hm
    |N t b cs i x Hi|p N N' t b cs Hturn Hb|N t cs i x Hi|N t cs Hall]; cbn [net telling demanders].
  7: { pose proof (net_turn_left sm hb us Hus Hhb Hsm p N N' Hturn). repeat case_match; lia. }
  7: { pose proof (stage_change cs i x _ Testing Hi) as Ht. cbn in Ht. lia. }
  7: lia.
  all: match goal with Hi : ?l !! ?j = Some (mkDemander ?y _) |- context [mkDemander ?y ?st] => pose proof (stage_change l j y _ st Hi) as Ht end;
    rewrite ?broadcast_left; try case_match; cbn [stage_cost at_stage] in Ht; lia.
Qed.

Lemma demands_run_left S n k S' : demands_run S n k S' -> (n + steps_left S' <= steps_left S + 3 * k)%nat.
Proof.
  induction 1 as [S|S n k S1 c S2 Hrun IH Hstep]; [lia|]. pose proof (demand_step_left c S1 S2 Hstep). destruct c; lia.
Qed.

Lemma start_left t0 N xs : steps_left (start_demands t0 N xs) = (4 * left_over N + length xs * (21 + 16 * length us))%nat.
Proof.
  unfold steps_left, start_demands. cbn [net telling demanders].
  assert (total stage_cost ((fun x => mkDemander x Announcing) <$> xs) = length xs * (21 + 16 * length us))%nat as ->; [|lia].
  induction xs as [|x xs IH]; [done|]. rewrite fmap_cons, total_cons, IH. cbn [stage_cost at_stage length]. lia.
Qed.

(** ** Where the tasks are heading *)

Definition published (c : demander) : bool := match at_stage c with Announcing | Publishing => false | _ => true end.

(** The last broadcast decides. *)
Definition decided (N : network) (cs : list demander) : Prop :=
  Forall (fun c => published c = false) cs \/
  exists i c, cs !! i = Some c /\ published c = true /\ forall p, p ∈ regs -> heading N p = wanted c.

Record demands_inv (xs : list TaskState) (S : scene) : Prop := {
  di_ok : ok (net S);
  di_wanted : wanted <$> demanders S = xs;
  di_decided : decided (net S) (demanders S)
}.

Lemma decided_change N cs i x st st' :
  cs !! i = Some (mkDemander x st) -> published (mkDemander x st') = published (mkDemander x st) ->
  decided N cs -> decided N (<[i := mkDemander x st']> cs).
Proof using Type.
  intros Hi Hp [Hno|(j & c & Hj & Hc & Hh)].
  - left. apply Forall_insert; [done|]. rewrite Hp. by apply (Forall_lookup_1 _ _ _ _ Hno Hi).
  - right. destruct (decide (i = j)) as [<-|Hij].
    + exists i, (mkDemander x st'). rewrite list_lookup_insert_eq by (by eapply lookup_lt_Some). simplify_eq.
      rewrite Hp. done.
    + exists j, c. by rewrite list_lookup_insert_ne.
Qed.

Lemma wanted_change (cs : list demander) i x st st' :
  cs !! i = Some (mkDemander x st) -> wanted <$> <[i := mkDemander x st']> cs = wanted <$> cs.
Proof using Type.
  intros Hi. rewrite list_fmap_insert. apply list_insert_id. by rewrite list_lookup_fmap, Hi.
Qed.

Lemma demands_inv_step xs c S S' :
  Forall (fun x => 0 <= x < 2 ^ 8) xs -> demands_inv xs S -> demand_step c S S' -> demands_inv xs S'.
Proof.
  intros Hxs [Hok Hw Hd] Hstep. destruct Hstep as [N t b cs i x Hi Hm|N t b cs i x Hi|N t b cs i x Hi Hm|N t b cs i x Hi|N t b cs i x Hi Hm
    |N t b cs i x Hi|p N N' t b cs Hturn Hb|N t cs i x Hi|N t cs Hall]; cbn [net demanders] in *.
  2: { split; cbn [net demanders]; [|by rewrite <- Hw; eapply wanted_change|].
    - apply broadcast_ok; [|done]. apply (Forall_lookup_1 (fun x => 0 <= x < 2 ^ 8) xs i); [done|]. by rewrite <- Hw, list_lookup_fmap, Hi.
    - right. exists i, (mkDemander x Testing). rewrite list_lookup_insert_eq by (by eapply lookup_lt_Some). split_and!; [done..|].
      intros p Hp. by apply broadcast_heading. }
  6: { split; cbn [net demanders]; [by eapply net_turn_ok|done|]. destruct Hd as [Hd|(i & c & Hi & Hc & Hh)]; [by left|]. right. exists i, c.
    split_and!; [done..|]. intros q Hq. rewrite <- (Hh q Hq). by eapply net_turn_heading. }
  7: by split.
  all: split; cbn [net demanders]; [done|by rewrite <- Hw; eapply wanted_change|].
  all: eapply decided_change; [done| |done]; by try case_match.
Qed.

Lemma demands_inv_run xs S n k S' :
  Forall (fun x => 0 <= x < 2 ^ 8) xs -> demands_inv xs S -> demands_run S n k S' -> demands_inv xs S'.
Proof. intros Hxs Hinv Hrun. induction Hrun; eauto using demands_inv_step. Qed.

Lemma demands_inv_start xs t0 N : ok N -> demands_inv xs (start_demands t0 N xs).
Proof using Type.
  intros Hok. split; cbn [net demanders start_demands]; [done| |].
  - rewrite <- list_fmap_compose. apply list_fmap_id.
  - left. apply Forall_fmap, Forall_true. done.
Qed.

(** ** At rest *)

Lemma mutex_free_forall cs : mutex_free cs = true <-> Forall (fun c => at_stage c <> FallingAsleep) cs.
Proof using Type.
  unfold mutex_free. rewrite <- Is_true_true, forallb_True, !Forall_forall. split; intros Hall c Hc; specialize (Hall c Hc).
  - intros Hf. by rewrite Hf in Hall.
  - by rewrite bool_decide_false.
Qed.

(** Nobody but a clock has anything to do. *)
Lemma resting_waits S : ok (net S) -> resting S ->
  telling S = false /\ left_over (net S) = 0%nat /\
  Forall (fun c => at_stage c = Asleep \/ exists b, at_stage c = Finished b) (demanders S).
Proof.
  destruct S as [N t b cs]. cbn [net telling demanders]. intros Hok Hrest.
  assert (Hmutex : mutex_free cs = true).
  { apply mutex_free_forall, Forall_lookup. intros i [x st] Hi Hf. cbn in Hf. subst st. by destruct (Hrest _ (ds_sleep N t b cs i x Hi)). }
  assert (Hb : b = false).
  { destruct b; [|done]. destruct (decide (Exists (fun c => at_stage c = Asleep) cs)) as [Hex|Hno].
    - apply Exists_exists in Hex as ([x st] & Hc & Hst). cbn in Hst. subst st. apply list_elem_of_lookup in Hc as [i Hi].
      by destruct (Hrest _ (ds_notify N t cs i x Hi)).
    - apply Forall_Exists_neg in Hno. by destruct (Hrest _ (ds_notify_nobody N t cs Hno)). }
  split_and!; [done| |].
  - destruct (decide (left_over N = 0%nat)) as [|Hleft]; [done|].
    destruct (net_progress sm hb us Hsm N Hok Hleft) as (p & N' & Hp & HN). apply (net_next_turn sm hb us) in HN; [|done..].
    by destruct (Hrest _ (ds_turn p N N' t b cs HN (fun _ => Hb))).
  - apply Forall_lookup. intros i [x st] Hi. cbn [at_stage]. destruct st; [..|by left|by right; eexists]; exfalso.
    + by destruct (Hrest _ (ds_target N t b cs i x Hi Hmutex)).
    + by destruct (Hrest _ (ds_publish N t b cs i x Hi)).
    + by destruct (Hrest _ (ds_test N t b cs i x Hi Hmutex)).
    + by destruct (Hrest _ (ds_sleep N t b cs i x Hi)).
Qed.

Lemma waits_resting S : left_over (net S) = 0%nat -> telling S = false ->
  Forall (fun c => at_stage c = Asleep \/ exists b, at_stage c = Finished b) (demanders S) -> resting S.
Proof.
  intros Hleft Htell Hall S' Hstep. remember ByThread as c eqn:Hc. destruct Hstep; cbn [net telling demanders] in *; try done.
  1-4: match goal with Hi : _ !! _ = Some _ |- _ => destruct (Forall_lookup_1 _ _ _ _ Hall Hi) as [?|[? ?]]; done end.
  match goal with Ht : net_turn _ _ _ _ _ _ |- _ => pose proof (net_turn_left sm hb us Hus Hhb Hsm _ _ _ Ht); lia end.
Qed.

Lemma settled_known x y N : settled sm hb us N -> (forall p, p ∈ regs -> heading N p = y) -> all_known x N = bool_decide (x = y).
Proof using Type.
  intros Hset Hh. assert (Hk : forall p, p ∈ regs -> known_state N p = y) by (intros p Hp; by rewrite (se_known _ _ _ _ Hset), Hh).
  unfold all_known. destruct (bool_decide_reflect (x = y)) as [->|Hne].
  - apply Is_true_true, forallb_True, Forall_forall. intros p Hp. by rewrite bool_decide_true by (by apply Hk).
  - apply not_true_iff_false. rewrite <- Is_true_true, forallb_True. intros Hall%Forall_cons. destruct Hall as [Hhb' _].
    rewrite (Hk hb (list_elem_of_here _ _)), bool_decide_false in Hhb' by (by apply not_eq_sym). done.
Qed.

(** ** A way to rest that wakes nobody up *)

Definition nobody_sleeps (cs : list demander) : Prop := Forall (fun c => at_stage c <> Asleep) cs.

(** The message threads do all they have to; what is notified meanwhile
    reaches nobody. *)
Lemma run_dry (P : network -> Prop) t cs :
  (forall p N N', P N -> net_turn sm hb us p N N' ->
    P N' /\ (nobody_sleeps cs \/ (p = sm -> busy N' sm && all_known t N' = false))) ->
  forall N, ok N -> P N -> exists N', rtc (demand_step ByThread) (mkScene N t false cs) (mkScene N' t false cs) /\
    ok N' /\ left_over N' = 0%nat /\ forall p, heading N' p = heading N p.
Proof.
  intros Hquiet N. remember (left_over N) as m eqn:Hm. revert N Hm. induction (lt_wf m) as [m _ IH]. intros N -> Hok HP.
  destruct (decide (left_over N = 0%nat)) as [Hz|Hleft]; [exists N; split_and!; [apply rtc_refl|done..]|].
  destruct (net_progress sm hb us Hsm N Hok Hleft) as (p & N1 & Hp & HN). apply (net_next_turn sm hb us) in HN; [|done..].
  destruct (Hquiet p N N1 HP HN) as [HP1 Hb]. pose proof (net_turn_left sm hb us Hus Hhb Hsm _ _ _ HN) as Hlt.
  destruct (IH _ Hlt N1 eq_refl) as (N' & Hrun & Hok' & Hz & Hh); [by eapply net_turn_ok|done|].
  exists N'. split_and!; [|done..|intros q; by rewrite Hh, (net_turn_heading sm hb us p N N1 q HN)].
  pose proof (ds_turn p N N1 t false cs HN (fun _ => eq_refl)) as Hstep. eapply rtc_l; [exact Hstep|].
  destruct (decide (p = sm)) as [Hps|_]; [|exact Hrun].
  destruct (busy N1 sm && all_known t N1) eqn:Htell; [|exact Hrun].
  eapply rtc_l; [|exact Hrun]. apply ds_notify_nobody. destruct Hb as [Hb|Hb]; [done|]. specialize (Hb Hps). congruence.
Qed.

(** All that is under way asks for [x] or says so. *)
Definition only (x : TaskState) (N : network) : Prop :=
  (forall p, p ∈ regs -> Forall (eq x) (states (box N p))) /\ Forall (fun r => r.2 = x) (ack_queue N).

Lemma only_turn x p N N' : only x N -> net_turn sm hb us p N N' -> only x N'.
Proof.
  intros [Hb Ha] Hturn. destruct Hturn as [p q k s r b u Hp Hu|p l1 y l2 q k s r b u Hp Hu Hi Hl1
    |p l1 id ts l2 at_ms q k s r b u Hp Hu Hi|p l1 id ts at_ms l2 tm q k s r b u Hp Hu Hi|p y q k s r b u Hp Hu];
    unfold only; cbn [box ack_queue] in *; [done|..|by apply Forall_cons in Ha as [_ ?]].
  - pose proof (Hb p Hp) as Hbp. rewrite Hi in Hbp. autorewrite with network in Hbp. rewrite Hl1 in Hbp. apply Forall_cons in Hbp as [<- Hl2].
    split; [|by apply Forall_app_2; [|by apply Forall_singleton]].
    intros q' Hq'. rewrite fn_at. case_decide; [|by apply Hb]. by rewrite states_app, Hl1.
  - split; [|done]. intros q' Hq'. specialize (Hb q' Hq') as Hbq. rewrite !fn_at. case_decide as Hh.
    + rewrite Hh. autorewrite with network. by rewrite app_nil_r.
    + case_decide as Hpq; [|done]. rewrite <- Hpq, Hi in Hbq. by autorewrite with network in *.
  - split; [|done]. intros q' Hq'. specialize (Hb q' Hq') as Hbq. rewrite fn_at.
    case_decide as Hpq; [|done]. rewrite <- Hpq, Hi in Hbq. by autorewrite with network in *.
Qed.

(** After a record of [x] not everybody is on record in another state. *)
Lemma only_unnoticed x t p N N' : only x N -> t <> x -> net_turn sm hb us p N N' -> p = sm -> busy N' sm && all_known t N' = false.
Proof.
  intros [_ Ha] Htx Hturn Hps. destruct Hturn as [p q k s r b u Hp Hu|p l1 y l2 q k s r b u Hp Hu Hi Hl1
    |p l1 id ts l2 at_ms q k s r b u Hp Hu Hi|p l1 id ts at_ms l2 tm q k s r b u Hp Hu Hi|p y q k s r b u Hp Hu];
    cbn [busy ack_queue] in *.
  - by rewrite Hps, fn_lookup_insert.
  - rewrite Hps in Hp. by destruct Hsm.
  - rewrite Hps in Hp. by destruct Hsm; apply list_elem_of_further.
  - destruct Hsm. rewrite <- Hps. apply list_elem_of_here.
  - apply Forall_cons in Ha as [Hy _]. cbn in Hy. apply andb_false_iff. right. apply not_true_iff_false.
    unfold all_known. rewrite <- Is_true_true, forallb_True, Forall_forall. intros Hall. specialize (Hall p Hp).
    cbn [known_state] in Hall. rewrite fn_lookup_insert, bool_decide_false in Hall; [done|congruence].
Qed.

(** The steps of the threads alone are runs. *)
Lemma threads_run S S' : rtc (demand_step ByThread) S S' -> exists n, demands_run S n 0 S'.
Proof using Type.
  revert S'. apply rtc_ind_r; [exists 0%nat; constructor|]. intros S1 S2 _ Hstep [n Hn].
  exists (1 + n)%nat. by apply (demands_more S n 0 S1 ByThread S2).
Qed.

(** All have their answer or wait for a clock, and one demand has prevailed. *)
Lemma resting_answers xs S : demands_inv xs S -> xs <> [] -> resting S ->
  exists y, y ∈ xs /\ settled sm hb us (net S) /\ (forall p, p ∈ regs -> heading (net S) p = y) /\
    forall i c, demanders S !! i = Some c -> (exists b, at_stage c = Finished b) \/
      at_stage c = Asleep /\ mutex_free (demanders S) = true /\ all_known (wanted c) (net S) = bool_decide (wanted c = y).
Proof.
  intros [Hok Hw Hd] Hne Hrest. destruct (resting_waits S Hok Hrest) as (Htell & Hz & Hall).
  pose proof (turns_left_settled sm hb us Hus (net S) Hok Hz) as Hset. destruct Hd as [Hno|(i & c & Hi & Hc & Hh)].
  { destruct xs as [|x xs]; [done|]. destruct (demanders S) as [|c cs]; [done|]. apply Forall_cons in Hno as [Hno _].
    apply Forall_cons in Hall as [Hc _]. unfold published in Hno. by destruct Hc as [Hc|[b Hc]]; rewrite Hc in Hno. }
  exists (wanted c). split_and!; [|done|done|].
  - rewrite <- Hw. apply list_elem_of_fmap. exists c. split; [done|by eapply list_elem_of_lookup_2].
  - intros j c' Hj. destruct (Forall_lookup_1 _ _ _ _ Hall Hj) as [Ha|Hf]; [right|by left]. split; [done|].
    split; [|by apply (settled_known (wanted c') (wanted c))].
    apply mutex_free_forall, Forall_forall. intros c2 [Hc2|[b Hc2]]%(proj1 (Forall_forall _ _) Hall) Hf; congruence.
Qed.

(** ** Properties *)

(** However many threads demand states at the same time, with the requests
    and heartbeats that are already under way: every run of all threads
    is over after a number of steps that is bounded but for spurious wake-ups,
    and then all tasks are, and are on record, in one of the demanded states,
    nothing is under way, and every demand has returned or sleeps; one that
    sleeps will at the end of its timeout answer true exactly if the
    state it demanded is the one that came about. *)
Theorem concurrent_demands_end t0 N xs n k S :
  ok N -> xs <> [] -> Forall (fun x => 0 <= x < 2 ^ 8) xs -> demands_run (start_demands t0 N xs) n k S ->
  (n <= 4 * left_over N + length xs * (21 + 16 * length us) + 3 * k)%nat /\
  (resting S -> exists y, y ∈ xs /\ settled sm hb us (net S) /\
    (forall p, p ∈ regs -> own_state (net S) p = y /\ known_state (net S) p = y) /\
    forall i c, demanders S !! i = Some c -> (exists b, at_stage c = Finished b) \/
      at_stage c = Asleep /\ demand_step ByTimeout S (mkScene (net S) (sought S) (telling S)
        (<[i := mkDemander (wanted c) (Finished (bool_decide (wanted c = y)))]> (demanders S)))).
Proof.
  intros Hok Hne Hxs Hrun. split; [pose proof (demands_run_left _ _ _ _ Hrun) as Hn; rewrite start_left in Hn; lia|].
  intros Hrest. pose proof (demands_inv_run xs _ _ _ _ Hxs (demands_inv_start xs t0 N Hok) Hrun) as Hinv.
  destruct (resting_answers xs S Hinv Hne Hrest) as (y & Hy & Hset & Hh & Hall). exists y. split_and!; [done|done|..].
  - intros p Hp. by rewrite (se_own _ _ _ _ Hset), (se_known _ _ _ _ Hset), Hh.
  - intros i c Hi. destruct (Hall i c Hi) as [Hf|(Ha & Hm & Hk)]; [by left|right]. split; [done|]. rewrite <- Hk.
    destruct S as [N' t b cs], c as [x st]. cbn in *. subst st. by apply ds_timeout.
Qed.

(** C31. Two demands that cross: one thread sets [target_state] to [x], another
    sets it to [y] and broadcasts [y], and only then the first broadcasts [x].
    Whatever was under way, there is a run of the threads after
    which every task is, and is on record, in the state [x] the first thread
    demanded, but it has not been notified, since [target_state] says [y]:
    it sleeps, and no thread has anything left to do. *)
Theorem crossed_demands_oversleep t0 N x y :
  ok N -> 0 <= x < 2 ^ 8 -> 0 <= y < 2 ^ 8 -> x <> y -> exists N',
  let S := mkScene N' y false [mkDemander x Asleep; mkDemander y (Finished true)] in
    rtc (demand_step ByThread) (start_demands t0 N [x; y]) S /\ settled sm hb us N' /\
    (forall p, p ∈ regs -> own_state N' p = x /\ known_state N' p = x) /\ resting S.
Proof.
  intros Hok Hx Hy Hxy.
  destruct (run_dry (fun _ => True) y [mkDemander x Publishing; mkDemander y Testing]) with (N := broadcast hb us y N)
    as (N1 & Hrun1 & Hok1 & Hz1 & Hh1); [|by apply broadcast_ok|done|].
  { intros p N1 N2 _ _. split; [done|]. left. by repeat constructor. }
  pose proof (turns_left_settled sm hb us Hus N1 Hok1 Hz1) as Hset1.
  assert (Hk : forall z, all_known z N1 = bool_decide (z = y)).
  { intros z. apply (settled_known z y N1 Hset1). intros p Hp. rewrite Hh1. by apply broadcast_heading. }
  destruct (run_dry (only x) y [mkDemander x Asleep; mkDemander y (Finished true)]) with (N := broadcast hb us x N1)
    as (N2 & Hrun2 & Hok2 & Hz2 & Hh2); [|by apply broadcast_ok| |].
  { intros p M M' HM Hturn. split; [by eapply only_turn|]. right. by apply (only_unnoticed x y p M M'). }
  { split; [|cbn [ack_queue broadcast]; by rewrite (se_acks _ _ _ _ Hset1)]. intros p Hp. rewrite broadcast_box, decide_True by done.
    rewrite (se_box _ _ _ _ Hset1 p Hp). by repeat constructor. }
  pose proof (turns_left_settled sm hb us Hus N2 Hok2 Hz2) as Hset2. exists N2. split_and!; [|done| |].
  - eapply rtc_l; [by apply (ds_target N t0 false _ 0)|]. eapply rtc_l; [by apply (ds_target N x false _ 1)|].
    eapply rtc_l; [by apply (ds_publish N y false _ 1)|]. etransitivity; [exact Hrun1|].
    eapply rtc_l; [by apply (ds_test N1 y false _ 1)|]. rewrite Hk, bool_decide_true by done.
    eapply rtc_l; [by apply (ds_publish N1 y false _ 0)|].
    eapply rtc_l; [by apply (ds_test (broadcast hb us x N1) y false _ 0)|].
    change (all_known x (broadcast hb us x N1)) with (all_known x N1). rewrite Hk, bool_decide_false by done.
    eapply rtc_l; [by apply (ds_sleep (broadcast hb us x N1) y false _ 0)|]. exact Hrun2.
  - intros p Hp. by rewrite (se_own _ _ _ _ Hset2), (se_known _ _ _ _ Hset2), Hh2, broadcast_heading.
  - apply waits_resting; [done..|]. cbn [demanders]. constructor; [by left|]. constructor; [right; by eexists|done].
Qed.
End demands.

(** ** Witnesses *)

(** A user task that has a request and a heartbeat in its queue. *)
Definition under_way : network :=
  mkNetwork (fun p => if decide (p = 64) then [ToState STOPPED; Beat 7 100] else []) [] (fun _ => IDLE) (fun _ => IDLE)
    (fun _ => mkTaskStatus true 7 0 0) (fun _ => false).

Lemma under_way_ok : net_ok 48 [64] under_way.
Proof. split; [done| | |done|done]; intros p ->%list_elem_of_singleton; [done|]. by repeat constructor. Qed.

Lemma one_hb : 48 ∉ [64].
Proof. by intros ?%list_elem_of_singleton. Qed.

Lemma one_sm : 16 ∉ [48; 64].
Proof. intros [?|?%list_elem_of_singleton]%elem_of_cons; done. Qed.

Lemma concurrent_demands_end_witness :
  exists n S, demands_run 16 48 [64] (start_demands NOT_STARTED under_way [RUNNING]) n 0 S /\ (n <= 69)%nat /\
    resting 16 48 [64] S /\ exists y, y ∈ [RUNNING] /\ settled 16 48 [64] (net S).
Proof.
  destruct (run_dry 16 48 [64] (NoDup_singleton 64) one_hb one_sm (fun _ => True) RUNNING [mkDemander RUNNING Testing])
    with (N := broadcast 48 [64] RUNNING under_way) as (N1 & Hrun & Hok & Hz & Hh).
  { intros p N1 N2 _ _. split; [done|]. left. by repeat constructor. }
  { by apply broadcast_ok; [|apply under_way_ok]. }
  { done. }
  destruct (threads_run 16 48 [64] (start_demands NOT_STARTED under_way [RUNNING]) (mkScene N1 RUNNING false [mkDemander RUNNING (Finished true)])) as [n Hn].
  { eapply rtc_l; [by apply (ds_target 16 48 [64] under_way NOT_STARTED false _ 0)|].
    eapply rtc_l; [by apply (ds_publish 16 48 [64] under_way RUNNING false _ 0)|]. etransitivity; [exact Hrun|].
    apply rtc_once. pose proof (ds_test 16 48 [64] N1 RUNNING false [mkDemander RUNNING Testing] 0 RUNNING eq_refl eq_refl) as Ht.
    rewrite (settled_known 16 48 [64] RUNNING RUNNING N1) in Ht; [done| |].
    - by apply turns_left_settled; [apply NoDup_singleton|..].
    - intros p Hp. rewrite Hh. by apply broadcast_heading. }
  assert (Hrest : resting 16 48 [64] (mkScene N1 RUNNING false [mkDemander RUNNING (Finished true)])).
  { apply waits_resting; [apply NoDup_singleton|apply one_hb|apply one_sm|done..|]. constructor; [right; by eexists|done]. }
  destruct (concurrent_demands_end 16 48 [64] (NoDup_singleton 64) one_hb one_sm NOT_STARTED under_way [RUNNING] n 0 _ under_way_ok
    ltac:(done) ltac:(by repeat constructor) Hn) as [Hle Hend].
  eexists n, _. split_and!; [exact Hn|exact Hle|exact Hrest|]. destruct (Hend Hrest) as (y & Hy & Hset & _). by exists y.
Defined.

Lemma crossed_demands_oversleep_witness :
  exists N', let S := mkScene N' STOPPED false [mkDemander IDLE Asleep; mkDemander STOPPED (Finished true)] in
    rtc (demand_step 16 48 [64] ByThread) (start_demands NOT_STARTED under_way [IDLE; STOPPED]) S /\ settled 16 48 [64] N' /\
    (forall p, p ∈ [48; 64] -> own_state N' p = IDLE /\ known_state N' p = IDLE) /\ resting 16 48 [64] S.
Proof.
  exact (crossed_demands_oversleep 16 48 [64] (NoDup_singleton 64) one_hb one_sm NOT_STARTED under_way IDLE STOPPED under_way_ok
    ltac:(done) ltac:(done) ltac:(done)).
Defined.
