(* ===== verification/Polling.v ===== *)
(** * Polling: a heartbeat from its sending to its acknowledgement

    The protocol of a heartbeat across all components: the heartbeat task puts
    a message into the queue of each monitored task, the tasks' threads answer
    when they get their turns, the heartbeat task's own thread records the
    answers as they come, and the next check for timeouts finds nobody. The
    threads' turns are those of TaskBase.v. *)

From S2P Require Import Prelude Msg Heap QueueSpec Logger World Broker TaskBase StateManager HeartBeat System Handshake Rounds.
#[local] Open Scope Z_scope.

(** ** The loops of the heartbeat task leave states, flags and threads *)

Section threads.
Context {Q : Type} `{QueueImpl Q}.
Implicit Types (t : Task Q) (w : World Q).

Definition threads_of (p : addr) w : option (TaskState * bool * thread * thread) :=
  (fun t => (current_state t, running t, queue_thread t, periodic_thread t)) <$> tasks w !! p.

Abbreviation same_threads q := (leaves (Q := Q) (threads_of q)).

Lemma threads_with_task q p t t' w :
  tasks w !! p = Some t ->
  (current_state t', running t', queue_thread t', periodic_thread t') = (current_state t, running t, queue_thread t, periodic_thread t) ->
  threads_of q (with_task p t' w) = threads_of q w.
Proof.
  intros Ht Heq. unfold threads_of, with_task. cbn. destruct (decide (p = q)) as [<-|Hne].
  - rewrite lookup_insert_eq, Ht. cbn. by rewrite Heq.
  - by rewrite lookup_insert_ne.
Qed.

Lemma threads_modify_hb q p f : same_threads q (modify_hb p f).
Proof.
  intros w a w' (h & w1 & [-> (t & Ht & _)]%get_hb_inv & (t' & Ht' & ->)%modify_task_inv)%M_bind_inv.
  by apply (threads_with_task q p t').
Qed.

Lemma threads_deliver q p m : same_threads q (deliver_message p m).
Proof.
  unfold deliver_message, get_name, log_entry. apply leaves_bind; [case_decide; keep|]. intros nm.
  apply leaves_bind; [keep|]. intros _ w a w' (t & w1 & [-> Ht]%get_task_inv & (u & w2 & Hu & [= _ <-])%M_bind_inv)%M_bind_inv.
  unfold lift in Hu. destruct (q_enqueue (message_queue t) m); cbn in Hu; [|done]. injection Hu as -> <-.
  by apply (threads_with_task q p t).
Qed.

Lemma threads_log_as q p l m : same_threads q (log_as p l m).
Proof. unfold log_as, get_name, log_entry. keep. Qed.

Lemma threads_get_hb q p : same_threads q (get_hb p).
Proof. intros w a w' [-> _]%get_hb_inv. done. Qed.

Lemma threads_send_loop q p pairs : same_threads q (send_loop p pairs).
Proof.
  induction pairs as [|[k st] pairs IH]; cbn [send_loop]; [keep|]. apply leaves_bind; [|intros; exact IH].
  pose proof (threads_modify_hb q). pose proof (threads_deliver q). pose proof (threads_get_hb q).
  apply leaves_if; [keep|]. unfold generate_heartbeat_id. keep.
Qed.

Lemma threads_ack_loop q p sender ack pairs : same_threads q (ack_loop p sender ack pairs).
Proof.
  induction pairs as [|[k st] pairs IH]; cbn [ack_loop]; [keep|]. apply leaves_decide; [|exact IH].
  pose proof (threads_modify_hb q). pose proof (threads_log_as q). destruct ack as [a|]; [|keep].
  apply leaves_decide; [|keep]. unfold get_name. keep.
Qed.

Lemma threads_handle_ack q p m : same_threads q (HeartBeat_handle_acknowledgment p m).
Proof.
  unfold HeartBeat_handle_acknowledgment. pose proof (threads_get_hb q). pose proof (threads_ack_loop q). keep.
Qed.
End threads.

Section polling.
Context {Q : Type} `{QueueImpl Q} `{UserTasks Q}.
Implicit Types (t : Task Q) (w : World Q) (h : HeartBeat) (st : TaskStatus) (d : Derived).

Lemma status_intro w p x h : threads_of p w = Some x -> hb_at p w h -> status w p = Some (x, IsHeartBeat h).
Proof. unfold threads_of, status. intros Hx (t & Ht & Hd). rewrite Ht in Hx |- *. cbn in *. injection Hx as <-. by rewrite Hd. Qed.

Lemma status_threads w p x d : status w p = Some (x, d) -> threads_of p w = Some x.
Proof. unfold status, threads_of. destruct (tasks w !! p); cbn; [|done]. by intros [= <- _]. Qed.

(** The bus a polling round needs: the heartbeat task is the only subscriber
    of heartbeat acknowledgements. *)
Definition poll_ready (this : addr) w (b : bus) : Prop :=
  bus_view w b /\ bus_wf b /\ fresh b 1 /\ bus_on b = true /\
  default [] (bus_subs b !! Z.to_nat Type_HeartbeatAckMsg) = [this].

(** The heartbeat task's message thread waits with an empty, open queue. *)
Definition poller_waits (this : addr) w (b : bus) h : Prop :=
  exists c pt a, status w this = Some (c, true, InDequeue, pt, IsHeartBeat h) /\
    bus_mail b !! this = Some a /\ aq_items a = [] /\ aq_closed a = false.

(** The handler of [p] answers heartbeats with [handle_heartbeat]. *)
Definition echoes (p : addr) d : Prop :=
  forall w t sender hb, tasks w !! p = Some t -> derived t = d ->
    process_message p (pack sender (VHeartbeatMsg hb)) w = handle_heartbeat p hb w.

(** [p] waits in [dequeue], and has the messages [ms] in its open queue. *)
Definition polled_waits w (b : bus) (ms : list Msg) (p : addr) : Prop :=
  exists c pt d a, status w p = Some (c, true, InDequeue, pt, d) /\ echoes p d /\
    bus_mail b !! p = Some a /\ aq_items a = ms /\ aq_closed a = false.

Definition heartbeat_ack (p : addr) (id ts at_ms : Z) : Msg := pack p (VHeartbeatAckMsg (mkHeartbeatAckMsg id ts at_ms)).

(** *** The monitored task's turn *)

Lemma handle_heartbeat_view p hb w b t :
  bus_view w b -> bus_wf b -> fresh b 1 -> tasks w !! p = Some t -> 0 < p < 2 ^ 64 ->
  0 <= unique_id hb < 2 ^ 32 -> 0 <= timestamp hb < 2 ^ 64 ->
  let m := heartbeat_ack p (unique_id hb) (timestamp hb) (u64 (duration_cast_ms (steady_ns (clock w (ticks w))))) in
  msg_wf m /\
  match bus_publish b m with
  | Ok b' => exists w', handle_heartbeat p hb w = Ok (tt, w') /\ bus_view w' b' /\ only_mail w w'
  | Err e => handle_heartbeat p hb w = Err e
  end.
Proof.
  intros Hv Hwf Hf Ht Hp Hid Hts m.
  assert (Hm : msg_wf m) by (apply pack_wf; [lia|]; cbn; split_and!; try lia; apply u64_range). split; [done|].
  unfold handle_heartbeat. rewrite (M_bind_Ok _ _ w _ (tick w) eq_refl), (M_bind_Ok _ _ _ _ _ (lift_Msg_new _ _ _)).
  rewrite (safe_publish_live p _ (tick w) t) by (done || (unfold nullptr; lia)).
  exact (publish_view m (tick w) b Hv Hm (proj2 Hwf) (fresh_one b Hf)).
Qed.

Lemma echo_turn this p n ts sender w b a0 c pt d a a1 :
  poll_ready this w b -> 0 < p < 2 ^ 64 -> p <> this -> 0 <= n < 2 ^ 32 -> 0 <= ts < 2 ^ 64 ->
  status w p = Some (c, true, InDequeue, pt, d) -> echoes p d -> bus_mail b !! p = Some a ->
  aq_dequeue a = (Returns (Some (pack sender (VHeartbeatMsg (mkHeartbeatMsg n ts)))), a1) -> bus_mail b !! this = Some a0 -> has_room a0 ->
  exists w' b' at_ms, run_step p w = Ok (Progress, w') /\ bus_view w' b' /\ bus_wf b' /\ bus_on b' = true /\
    default [] (bus_subs b' !! Z.to_nat Type_HeartbeatAckMsg) = [this] /\ clock w' = clock w /\ pruned b b' /\
    (forall q, status w' q = if decide (p = q) then Some (c, true, LoopHead, pt, d) else status w q) /\
    (forall q, bus_mail b' !! q =
       if decide (q = p) then Some a1
       else if decide (q = this) then Some (received (heartbeat_ack p n ts at_ms) a0) else bus_mail b !! q).
Proof.
  intros (Hv & Hwf & Hf & Hon & Hack) Hp Hne Hid Hts (t & Ht & Hc & Hr & Hth & Hpt & Hd)%status_Some Hecho Ha Hdq Ha0 Hroom.
  destruct (take_turn p w b t a _ _ Hv Ht Hth Ha Hdq) as (q & Hv1 & ->).
  set (b1 := set_mail p a1 b) in *.
  set (t1 := set_message_queue q t). set (w1 := with_task p t1 w) in *.
  assert (Hf1 : fresh b1 1) by (by apply (dequeue_fresh p a _ a1 b 1 Ha Hdq)).
  destruct (handle_heartbeat_view p (mkHeartbeatMsg n ts) w1 b1 t1 Hv1 Hwf Hf1 (with_task_lookup _ _ _) Hp Hid Hts) as [Hm Htr].
  cbn [unique_id timestamp] in Hm, Htr. set (m := heartbeat_ack p n ts _) in *.
  destruct (publish_to_one this m b1 a0 Hwf Hm Hon) as (b2 & Hpub & Wf2 & On2 & Ack2 & Sub2 & Mail2);
    [right; exists a1; etrans; [apply (set_mail_lookup p a1 b p)|by apply decide_True]
    |exact Hack|by rewrite (set_mail_lookup p a1 b), decide_False by (by apply not_eq_sym)|done|].
  rewrite Hpub in Htr. destruct Htr as (w2 & Hrun & Hv2 & Hom).
  rewrite (M_bind_Ok _ _ w1 tt w2) by (by rewrite (Hecho w1 t1 _ _ (with_task_lookup _ _ _) Hd)).
  destruct (only_mail_lookup _ _ p _ Hom (with_task_lookup _ _ _)) as [q2 Ht2].
  rewrite (M_bind_Ok _ _ _ _ _ (modify_task_with p _ _ w2 Ht2)).
  eexists _, b2, _. split; [done|]. split; [by apply (bus_view_fields w2 _ p _ _ Ht2)|].
  split; [done|]. split; [done|]. split; [exact Ack2|]. split; [exact (clock_handle_heartbeat _ _ w1 tt w2 Hrun)|]. split; [|split].
  - apply (pruned_trans b b1); [|by intros i y|done]. intros y Hy. unfold b1. rewrite set_mail_lookup. case_decide; [by eexists|done].
  - intros y. rewrite status_with_task. cbn. rewrite Hc, Hr, Hpt, Hd.
    case_decide as Hy; [done|]. rewrite (status_mail _ _ y Hom). unfold w1. by rewrite !status_with_task, !decide_False.
  - intros y. rewrite Mail2. unfold b1. rewrite set_mail_lookup.
    destruct (decide (y = this)) as [->|Hy]; [by rewrite decide_False by (by apply not_eq_sym)|done].
Qed.

(** *** The heartbeat task's turn *)

Lemma status_except l w w' q : mail_except l w w' -> (q ∉ l) -> status w' q = status w q.
Proof.
  intros Hm Hq. specialize (Hm q Hq). unfold status.
  inversion Hm as [t t' Heq H1 H2|H1 H2]; [|done]. by rewrite Heq.
Qed.

Lemma poller_turn this p n ts at_ms w b h st a0 a1 c pt :
  bus_view w b -> hb_wf this h -> (forall k, k ∈ (monitored_tasks h).*1 -> is_Some (bus_mail b !! k)) ->
  status w this = Some (c, true, InDequeue, pt, IsHeartBeat h) ->
  bus_mail b !! this = Some a0 -> aq_dequeue a0 = (Returns (Some (heartbeat_ack p n ts at_ms)), a1) ->
  pm_find p (monitored_tasks h) = Some st -> last_heartbeat_id st = n ->
  exists w' time_ns, run_step this w = Ok (Progress, w') /\
    bus_view w' (set_mail this a1 b) /\ clock w' = clock w /\
    forall q, status w' q =
      if decide (this = q) then Some (c, true, LoopHead, pt, IsHeartBeat (assign_status p (acknowledged time_ns st) h)) else status w q.
Proof.
  intros Hv Hwf Hlive (t & Ht & Hc & Hr & Hth & Hpt & Hd)%status_Some Ha0 Hi Hst Hid.
  destruct (take_turn this w b t a0 _ _ Hv Ht Hth Ha0 Hi) as (q & Hv1 & ->).
  set (t1 := set_message_queue q t). set (w1 := with_task this t1 w) in *. set (b1 := set_mail this a1 b) in *.
  assert (Hh1 : hb_at this w1 h) by (exists t1; split; [apply with_task_lookup|done]).
  assert (Hl1 : forall k, k ∈ (monitored_tasks h).*1 -> is_Some (bus_mail b1 !! k)).
  { intros k Hk. cbn. destruct (decide (k = this)) as [->|Hk']; [rewrite lookup_insert_eq; by eexists|].
    rewrite lookup_insert_ne by (by apply not_eq_sym). by apply Hlive. }
  destruct (ack_loop_run this p (mkHeartbeatAckMsg n ts at_ms) (monitored_tasks h) w1 h (bus_mail b1) (proj2 (proj2 Hv1)) Hh1
    (hb_wf_sorted _ _ Hwf) Hl1) as (w2 & h2 & Hrun & Hm2 & Hh2 & He2 & Hb2 & Heq).
  rewrite Hst in Heq. cbn [orig_unique_id] in Heq. rewrite decide_True in Heq by done.
  set (time_ns := steady_ns (clock w1 (ticks w1))) in *.
  assert (Hack : HeartBeat_handle_acknowledgment this (heartbeat_ack p n ts at_ms) w1 = Ok (tt, w2))
    by (unfold HeartBeat_handle_acknowledgment; by rewrite (M_bind_Ok _ _ _ _ _ (hb_at_run _ _ _ Hh1))).
  assert (Hproc : process_message this (heartbeat_ack p n ts at_ms) w1 = Ok (tt, w2)).
  { cbn [process_message dynamic_dispatch]. unfold dispatch.
    rewrite (M_bind_Ok _ _ _ _ _ (get_task_run this t1 w1 (with_task_lookup _ _ _))).
    change (derived t1) with (derived t). rewrite Hd. unfold HeartBeat_process_message. by rewrite decide_False, decide_True. }
  assert (Hs2 : status w2 this = Some (c, true, InDequeue, pt, IsHeartBeat h2)).
  { apply status_intro; [|done]. rewrite (threads_handle_ack this _ _ _ _ _ Hack). unfold threads_of, w1.
    rewrite with_task_lookup. cbn. by rewrite Hc, Hr, Hth, Hpt. }
  rewrite (M_bind_Ok _ _ _ _ _ Hproc). apply status_Some in Hs2 as (t2 & Ht2 & Hc2 & Hr2 & Hth2 & Hpt2 & Hd2).
  rewrite (M_bind_Ok _ _ _ _ _ (modify_task_with this _ t2 w2 Ht2)).
  eexists _, time_ns. split; [done|]. split; [|split; [exact (clock_handle_ack_hb _ _ w1 tt w2 Hack)|]].
  - apply (bus_view_fields w2 b1 this t2); [done|done|]. destruct Hv1 as (Hon1 & Hs1 & _). unfold bus_view. rewrite Hb2. by split_and!.
  - intros y. rewrite status_with_task. cbn. rewrite Hc2, Hr2, Hpt2, Hd2, Heq. case_decide as Hy; [done|].
    rewrite (status_except _ _ _ y He2) by (intros Hx%list_elem_of_singleton; by apply Hy). unfold w1. by rewrite status_with_task, decide_False.
Qed.

(** ** The wave of answers *)

(** [p] has been sent the heartbeat its status says, and has not taken it yet. *)
Definition was_polled (this : addr) w (b : bus) h (p : addr) : Prop :=
  exists ts st, 0 <= ts < 2 ^ 64 /\ pm_find p (monitored_tasks h) = Some st /\ 0 <= last_heartbeat_id st < 2 ^ 32 /\
    polled_waits w b [pack this (VHeartbeatMsg (mkHeartbeatMsg (last_heartbeat_id st) ts))] p.

Lemma assign_status_keeps_wf this p st st' h :
  hb_wf this h -> pm_find p (monitored_tasks h) = Some st -> hb_wf this (assign_status p st' h).
Proof.
  intros [Hs Hself Hid] Hp. split; [by apply pm_assign_sorted| |done]. cbn. rewrite pm_assign_keys. intros [<-|Hin]; [|done].
  apply pm_find_None in Hself. congruence.
Qed.

Section wave.
Context (this : addr) (ps : list addr) (ids : addr -> Z).
Context (Hthis : 0 < this < 2 ^ 64) (Hps : NoDup ps) (Hin : forall p, p ∈ ps -> 0 < p < 2 ^ 64 /\ p <> this).

(** An answer: its sender, and the times it repeats and reports. *)
Definition answer : Type := addr * Z * Z.
Definition answerer (r : answer) : addr := r.1.1.
Definition answer_msg (r : answer) : Msg := heartbeat_ack r.1.1 (ids r.1.1) r.1.2 r.2.

(** A round on its way: the tasks of [A] have their heartbeats in their
    queues, the heartbeat task has the answers [P] in its own, and the answers
    of all others are recorded. *)
Record poll_wave w (b : bus) h (A : gset addr) (P : list answer) : Prop := {
  pw_ready : poll_ready this w b;
  pw_fresh : fresh b (1 + Z.of_nat (size A));
  pw_size : Z.of_nat (size A) + 1 < 2 ^ 32;
  pw_wf : hb_wf this h;
  pw_poller : exists c th pt a, status w this = Some (c, true, th, pt, IsHeartBeat h) /\ in_loop th /\
    bus_mail b !! this = Some a /\ aq_items a = answer_msg <$> P /\ (length ps <= aq_capacity a)%nat /\ aq_closed a = false;
  pw_task p : p ∈ ps -> exists c th pt d a ts, status w p = Some (c, true, th, pt, d) /\ in_loop th /\ echoes p d /\
    bus_mail b !! p = Some a /\ aq_closed a = false /\ 0 <= ts < 2 ^ 64 /\
    aq_items a = (if decide (p ∈ A) then [pack this (VHeartbeatMsg (mkHeartbeatMsg (ids p) ts))] else []);
  pw_asked p : p ∈ A -> p ∈ ps;
  pw_nodup : NoDup (answerer <$> P);
  pw_pending p : p ∈ answerer <$> P -> p ∈ ps /\ p ∉ A;
  pw_keys p : p ∈ (monitored_tasks h).*1 <-> p ∈ ps;
  pw_status p : p ∈ ps -> 0 <= ids p < 2 ^ 32 /\ exists st, pm_find p (monitored_tasks h) = Some st /\
    last_heartbeat_id st = ids p /\ ((p ∉ A) -> (p ∉ answerer <$> P) -> awaiting_response st = false)
}.

Definition answers_to_do w (A : gset addr) (P : list answer) : nat := to_do w (this :: ps) A (length P).

Lemma pollers_nodup : NoDup (this :: ps).
Proof. constructor; [|done]. intros Hp. by destruct (Hin this Hp). Qed.

Lemma answers_dequeue r P a :
  aq_items a = answer_msg <$> (r :: P) ->
  exists z, aq_dequeue a = (Returns (Some (answer_msg r)), mkAqueue (answer_msg <$> P) (aq_capacity a) (aq_closed a) z) /\
    (z = 0 \/ z = aq_ticks a).
Proof.
  intros Hi. rewrite (oldest_dequeue a (answer_msg r) (answer_msg <$> P)); [|done|].
  - eexists. split; [done|]. destruct P; [by left|by right].
  - apply Forall_fmap, Forall_true. intros q. unfold msg_lt. cbn. lia.
Qed.

(** The turn from the head of the loop into the wait. *)
Lemma poll_loop p w b h A P c pt d :
  poll_wave w b h A P -> p ∈ this :: ps -> status w p = Some (c, true, LoopHead, pt, d) ->
  exists w', run_step p w = Ok (Progress, w') /\ poll_wave w' b h A P /\ (answers_to_do w' A P < answers_to_do w A P)%nat.
Proof.
  intros Hw Hp Hst. pose proof (pw_ready _ _ _ _ _ Hw) as (Hv & Hwf & Hf & Hon & Hack).
  destruct (loop_turn p w b c pt d Hv Hst) as (w' & Hrun & Hv' & _ & Hs). exists w'. split; [done|]. split.
  - destruct Hw as [_ Hfr Hsz Hh (cm & th & ptm & a & Hsm & Hth & Hm) Htask Has Hnd Hpe Hk Hr]. split; try done.
    + destruct (decide (p = this)) as [->|Hne]; [|exists cm, th, ptm, a; by rewrite Hs, decide_False].
      rewrite Hst in Hsm. injection Hsm as <- <- <- ->. exists c, InDequeue, pt, a. rewrite Hs, decide_True by done.
      split; [done|]. split; [by left|done].
    + intros q Hq. destruct (Htask q Hq) as (cq & thq & ptq & dq & aq & tsq & Hsq & Hthq & Hrest).
      destruct (decide (p = q)) as [->|Hne]; [|exists cq, thq, ptq, dq, aq, tsq; by rewrite Hs, decide_False].
      rewrite Hst in Hsq. injection Hsq as <- <- <- <-. exists c, InDequeue, pt, d, aq, tsq. rewrite Hs, decide_True by done.
      split; [done|]. split; [by left|done].
  - eapply (to_do_turn w w' (this :: ps)); [apply pollers_nodup|done|done|exact Hs|by left].
Qed.

(** A task answers its heartbeat. *)
Lemma poll_answer p w b h A P c pt d :
  poll_wave w b h A P -> p ∈ ps -> p ∈ A -> status w p = Some (c, true, InDequeue, pt, d) ->
  exists w' b' r, run_step p w = Ok (Progress, w') /\ poll_wave w' b' h (A ∖ {[p]}) (P ++ [r]) /\
    (answers_to_do w' (A ∖ {[p]}) (P ++ [r]) < answers_to_do w A P)%nat.
Proof.
  intros Hw Hp HA Hst. destruct (Hin p Hp) as [Hrange Hne]. pose proof (size_remove A p HA) as Hsize.
  destruct Hw as [Hb Hfr Hsz Hh (cm & th & ptm & a0 & Hsm & Hth & Ha0 & Hi0 & Hcap & Hop0) Htask Has Hnd Hpe Hk Hr].
  destruct (Htask p Hp) as (c1 & th1 & pt1 & d1 & a & ts & Hst1 & _ & Hecho & Ha & Hop & Hts & Hi).
  rewrite Hst in Hst1. injection Hst1 as <- <- <- <-. rewrite decide_True in Hi by done. destruct (Hr p Hp) as [Hid _].
  assert (HpP : p ∉ answerer <$> P) by (intros Hq; by destruct (Hpe p Hq)).
  assert (Hroom : has_room a0).
  { unfold has_room. rewrite Hi0, length_fmap. pose proof (answers_room ps _ p Hnd (fun q Hq => proj1 (Hpe q Hq)) Hp HpP) as Hlt.
    rewrite length_fmap in Hlt. lia. }
  destruct (echo_turn this p (ids p) ts this w b a0 c pt d a _ Hb Hrange Hne Hid Hts Hst Hecho Ha (single_dequeue a _ Hi) Ha0 Hroom)
    as (w' & b' & at_ms & Hrun & Hv' & Hwf' & Hon' & Hack' & _ & _ & Hs & Hm).
  assert (Hfr' : fresh b' (1 + Z.of_nat (size (A ∖ {[p]})))).
  { intros q z. rewrite Hm. case_decide; [intros [= <-]; cbn; lia|].
    case_decide; [intros [= <-]; cbn; specialize (Hfr this a0 Ha0); lia|]. intros Hz. specialize (Hfr q z Hz). lia. }
  exists w', b', (p, ts, at_ms). split; [done|]. split.
  - split; rewrite ?fmap_app; try done.
    + split_and!; try done. intros q z Hz. specialize (Hfr' q z Hz). lia.
    + lia.
    + exists cm, th, ptm, (received (heartbeat_ack p (ids p) ts at_ms) a0). rewrite Hs, decide_False by done.
      rewrite Hm, decide_False, decide_True by (done || by apply not_eq_sym). split_and!; try done. cbn. by rewrite Hi0.
    + intros q Hq. destruct (decide (q = p)) as [->|Hqp].
      * exists c, LoopHead, pt, d. eexists _, ts. rewrite Hs, decide_True by done. rewrite Hm, decide_True by done.
        split; [done|]. split; [by right|]. split; [done|]. split; [done|]. split; [done|]. split; [done|].
        cbn. by rewrite decide_False by set_solver.
      * destruct (Htask q Hq) as (cq & thq & ptq & dq & aq & tsq & H1 & H2 & H3 & H4 & H5 & H6 & H7).
        exists cq, thq, ptq, dq, aq, tsq. rewrite Hs, decide_False by (by apply not_eq_sym).
        rewrite Hm, !decide_False by (done || by apply Hin). do 6 (split; [done|]). rewrite H7.
        destruct (decide (q ∈ A)); [rewrite decide_True by set_solver|rewrite decide_False by set_solver]; done.
    + intros q Hq. apply Has. set_solver.
    + apply NoDup_app. split_and!; [done| |apply NoDup_singleton]. intros q Hq ->%list_elem_of_singleton. done.
    + intros q [Hq| ->%list_elem_of_singleton]%elem_of_app; [destruct (Hpe q Hq); set_solver|cbn; set_solver].
    + intros q Hq. destruct (Hr q Hq) as (Hidq & st & Hst' & Hl & Haw). split; [done|]. exists st. split; [done|]. split; [done|].
      intros HqA [HqP Hqp%not_elem_of_cons]%not_elem_of_app. apply Haw; [|done]. cbn in Hqp. set_solver.
  - eapply (to_do_turn w w' (this :: ps)); [apply pollers_nodup|by apply list_elem_of_further|done|exact Hs|right].
    rewrite length_app. cbn [length]. split_and!; [done|done|lia].
Qed.

(** The heartbeat task records the oldest answer. *)
Lemma poll_record r w b h A P c pt :
  poll_wave w b h A (r :: P) -> status w this = Some (c, true, InDequeue, pt, IsHeartBeat h) ->
  exists w' b' h', run_step this w = Ok (Progress, w') /\ poll_wave w' b' h' A P /\
    (answers_to_do w' A P < answers_to_do w A (r :: P))%nat.
Proof.
  intros Hw Hst.
  destruct Hw as [Hb Hfr Hsz Hh (cm & th & ptm & a0 & Hsm & Hth & Ha0 & Hi0 & Hcap & Hop0) Htask Has Hnd Hpe Hk Hr].
  rewrite Hst in Hsm. injection Hsm as <- <- <-. cbn [fmap list_fmap] in Hnd, Hpe. apply NoDup_cons in Hnd as [HpP Hnd].
  destruct r as [[p ts] at_ms]. cbn [answerer fst] in *. destruct (Hpe p (list_elem_of_here _ _)) as [Hp HpA].
  destruct (Hin p Hp) as [Hrange Hne]. destruct (Hr p Hp) as (Hid & st & Hfind & Hl & _). pose proof Hb as (Hv & Hwf & Hf & Hon & Hack).
  destruct (answers_dequeue (p, ts, at_ms) P a0 Hi0) as (z1 & Hdq & Hz1). set (a1 := mkAqueue _ _ _ _) in Hdq.
  destruct (poller_turn this p (ids p) ts at_ms w b h st a0 a1 c pt Hv Hh) as (w' & time_ns & Hrun & Hv' & _ & Hs); try done.
  { intros q Hq%Hk. destruct (Htask q Hq) as (? & ? & ? & ? & a & ? & _ & _ & _ & Ha & _). by exists a. }
  assert (Hfr' : fresh (set_mail this a1 b) (1 + Z.of_nat (size A))).
  { apply set_mail_fresh; [|done]. unfold a1. cbn. specialize (Hfr this a0 Ha0). lia. }
  set (h' := assign_status p (acknowledged time_ns st) h) in *. exists w', (set_mail this a1 b), h'. split; [done|]. split.
  - split; try done.
    + split_and!; try done. intros q z Hz. specialize (Hfr' q z Hz). lia.
    + by apply (assign_status_keeps_wf this p st).
    + exists c, LoopHead, pt, a1. rewrite Hs, decide_True by done. rewrite set_mail_lookup, decide_True by done.
      split; [done|]. split; [by right|]. by split_and!.
    + intros q Hq. destruct (Htask q Hq) as (cq & thq & ptq & dq & aq & tsq & Hrest).
      assert (q <> this) by (by apply Hin). exists cq, thq, ptq, dq, aq, tsq.
      rewrite Hs, decide_False by (by apply not_eq_sym). by rewrite set_mail_lookup, decide_False.
    + intros q Hq. apply Hpe. by apply list_elem_of_further.
    + intros q. cbn. rewrite pm_assign_keys, Hk. split; [by intros [->|]|by right].
    + intros q Hq. destruct (Hr q Hq) as (Hidq & st' & Hfind' & Hl' & Haw). split; [done|]. cbn. rewrite pm_assign_find by apply Hh.
      case_decide as Hpq; [subst q; by exists (acknowledged time_ns st)|]. exists st'. split; [done|]. split; [done|].
      intros HqA HqP. apply Haw; [done|]. intros [->|]%elem_of_cons; done.
  - eapply (to_do_turn w w' (this :: ps)); [apply pollers_nodup|apply list_elem_of_here|done|exact Hs|right].
    cbn [length]. split_and!; [done|done|lia].
Qed.

Lemma poll_turn p w b h A P :
  poll_wave w b h A P -> p ∈ this :: ps ->
  (run_step p w = Ok (Waiting, w) /\ head w p = 0%nat /\ (p ∉ A) /\ (p = this -> P = [])) \/
  exists w' b' h' A' P', run_step p w = Ok (Progress, w') /\ poll_wave w' b' h' A' P' /\
    (answers_to_do w' A' P' < answers_to_do w A P)%nat.
Proof.
  intros Hw Hp. pose proof Hp as [->|Hp']%elem_of_cons.
  - destruct (pw_poller _ _ _ _ _ Hw) as (c & th & pt & a & Hst & [->| ->] & Ha & Hi & _ & Hop).
    + destruct P as [|r P].
      * left. split; [eapply vacant_turn; [by apply Hw|done..]|]. split; [by unfold head; rewrite Hst|]. split; [|done].
        intros HA%(pw_asked _ _ _ _ _ Hw). by destruct (Hin this HA).
      * right. destruct (poll_record r w b h A P c pt Hw Hst) as (w' & b' & h' & Hrun & Hw' & Hd). by exists w', b', h', A, P.
    + right. destruct (poll_loop this w b h A P c pt _ Hw Hp Hst) as (w' & Hrun & Hw' & Hd). by exists w', b, h, A, P.
  - destruct (pw_task _ _ _ _ _ Hw p Hp') as (c & th & pt & d & a & ts & Hst & [->| ->] & _ & Ha & Hop & _ & Hi).
    + destruct (decide (p ∈ A)) as [HA|HA].
      * right. destruct (poll_answer p w b h A P c pt d Hw Hp' HA Hst) as (w' & b' & r & Hrun & Hw' & Hd). by eexists w', b', h, _, _.
      * left. split; [eapply vacant_turn; [by apply Hw|done..]|]. split; [by unfold head; rewrite Hst|]. split; [done|].
        intros ->. by destruct (Hin this Hp').
    + right. destruct (poll_loop p w b h A P c pt d Hw Hp Hst) as (w' & Hrun & Hw' & Hd). by exists w', b, h, A, P.
Qed.

(** The round as an invariant with a measure. *)
Definition polls w (n : nat) : Prop := exists b h A P, poll_wave w b h A P /\ answers_to_do w A P = n.

Lemma polls_turn w n p :
  polls w n -> p ∈ this :: ps ->
  run_step p w = Ok (Waiting, w) \/ exists w' n', run_step p w = Ok (Progress, w') /\ polls w' n' /\ (n' < n)%nat.
Proof.
  intros (b & h & A & P & Hw & <-) Hp. destruct (poll_turn p w b h A P Hw Hp) as [[Hrun _]|(w' & b' & h' & A' & P' & Hrun & Hw' & Hlt)];
    [by left|]. right. exists w'. eexists. split; [done|]. split; [by exists b', h', A', P'|done].
Qed.

Lemma polls_rest w n : polls w n -> (forall p, p ∈ this :: ps -> run_step p w = Ok (Waiting, w)) -> n = 0%nat.
Proof.
  intros (b & h & A & P & Hw & <-) Hwait.
  assert (Hsp : forall p, p ∈ this :: ps -> head w p = 0%nat /\ (p ∉ A) /\ (p = this -> P = [])).
  { intros p Hp. destruct (poll_turn p w b h A P Hw Hp) as [[_ ?]|(w' & b' & h' & A' & P' & Hrun & _)]; [done|].
    by rewrite (Hwait p Hp) in Hrun. }
  apply to_do_rest.
  - intros p HA. pose proof (pw_asked _ _ _ _ _ Hw p HA) as Hp. by destruct (Hsp p (list_elem_of_further _ _ _ Hp)) as (_ & ? & _).
  - destruct (Hsp this (list_elem_of_here _ _)) as (_ & _ & HP). by rewrite (HP eq_refl).
  - intros p Hp. by apply Hsp.
Qed.

(** At the end everybody has been answered for, and all threads wait. *)
Lemma polls_over w :
  polls w 0 -> exists b h, poll_ready this w b /\ hb_wf this h /\ poller_waits this w b h /\
    (forall p, p ∈ (monitored_tasks h).*1 <-> p ∈ ps) /\
    forall p, p ∈ ps -> polled_waits w b [] p /\ exists st, pm_find p (monitored_tasks h) = Some st /\
      last_heartbeat_id st = ids p /\ awaiting_response st = false.
Proof.
  intros (b & h & A & P & Hw & Hz). unfold answers_to_do, to_do in Hz. exists b, h.
  assert (HA : A = ∅) by (apply leibniz_equiv, size_empty_inv; lia). assert (HP : P = []) by (apply length_zero_iff_nil; lia).
  assert (Hheads : forall p, p ∈ this :: ps -> head w p = 0%nat) by (apply Forall_forall, total_0; lia).
  subst A P. destruct Hw as [Hb _ _ Hh (c & th & pt & a & Hst & Hth & Ha & Hi & _ & Hop) Htask _ _ _ Hk Hr].
  do 2 (split; [done|]). split; [|split; [done|]].
  - pose proof (Hheads this (list_elem_of_here _ _)) as Hh'. unfold head in Hh'. rewrite Hst in Hh'.
    destruct Hth as [->| ->]; [|done]. by exists c, pt, a.
  - intros p Hp. assert (HpA : (p ∉ (∅ : gset addr))) by set_solver. split.
    + destruct (Htask p Hp) as (cp & thp & ptp & d & ap & ts & Hsp & Hthp & Hecho & Hap & Hcp & _ & Hip).
      pose proof (Hheads p (list_elem_of_further _ _ _ Hp)) as Hh'. unfold head in Hh'. rewrite Hsp in Hh'.
      rewrite decide_False in Hip by done. destruct Hthp as [->| ->]; [|done]. by exists cp, ptp, d, ap.
    + destruct (Hr p Hp) as (_ & st & Hfind & Hl & Haw). exists st. split; [done|]. split; [done|]. apply Haw; [done|apply not_elem_of_nil].
Qed.
End wave.

(** ** The whole round *)

Lemma check_on_time this time_ns pairs w h :
  hb_at this w h -> (forall p st, (p, st) ∈ pairs -> timed_out time_ns (response_timeout_ms h) st = false) ->
  check_loop this time_ns pairs w = Ok (tt, w).
Proof.
  intros Hh. induction pairs as [|[p st] pairs IH]; intros Hp; [done|]. cbn [check_loop].
  rewrite (M_bind_Ok _ _ _ _ _ (hb_at_run _ _ _ Hh)), (Hp p st) by (by left).
  rewrite (M_bind_Ok _ _ w tt w eq_refl). apply IH. intros q st' Hq. apply (Hp q). by right.
Qed.

Lemma poller_hb_at this w b h : poller_waits this w b h -> hb_at this w h.
Proof. intros (? & ? & ? & (t & Ht & _ & _ & _ & _ & Hd)%status_Some & _). by exists t. Qed.
(** The broadcast of a round: every monitored task has its heartbeat waiting. *)
Lemma send_heartbeat_run this w b h :
  poll_ready this w b -> fresh b 2 -> hb_wf this h -> 0 < this < 2 ^ 64 -> poller_waits this w b h ->
  (forall p st, (p, st) ∈ monitored_tasks h -> awaiting_response st = false) ->
  (forall p, p ∈ (monitored_tasks h).*1 -> polled_waits w b [] p /\ forall a, bus_mail b !! p = Some a -> (0 < aq_capacity a)%nat) ->
  exists w1 b1 h1, send_heartbeat this w = Ok (tt, w1) /\ poll_ready this w1 b1 /\ hb_wf this h1 /\ poller_waits this w1 b1 h1 /\
    bus_mail b1 !! this = bus_mail b !! this /\ (forall k, fresh b (k + 1) -> fresh b1 k) /\
    (forall k, k ∈ (monitored_tasks h1).*1 <-> k ∈ (monitored_tasks h).*1) /\
    (forall p, p ∈ (monitored_tasks h).*1 -> was_polled this w1 b1 h1 p) /\
    (forall p id, (p, id) ∈ send_ids (next_heartbeat_id h) (monitored_tasks h) ->
       exists st, pm_find p (monitored_tasks h1) = Some st /\ last_heartbeat_id st = id).
Proof.
  intros (Hv & Hwf & Hf & Hon & Hack) Hf2 Hh Hthis (c & pt & a0 & Sm & Ha0 & Hi0 & Hop0) Hidle Hps. pose proof Hh as [Hs Hself Hid].
  assert (Hat : hb_at this w h) by (apply (poller_hb_at this w b h); by exists c, pt, a0). destruct Hv as (Hvon & Hvs & Hm).
  destruct (send_loop_run this (monitored_tasks h) w h (bus_mail b) Hm Hat Hthis Hs (pm_sorted_NoDup _ Hs) Hself Hid)
    as (w1 & h1 & mb1 & Hrun & Hm1 & Hat1 & He1 & Hb1 & Hs1 & Heq & Hout & Hin).
  { intros p st Hp _. destruct (Hps p) as [(? & ? & ? & a & _ & _ & Ha & Hi & _) Hcap]; [apply list_elem_of_fmap; by exists (p, st)|].
    exists a. split; [done|]. specialize (Hcap a Ha). unfold has_room. rewrite Hi. specialize (Hf2 p a Ha). cbn. lia. }
  set (ids := send_ids (next_heartbeat_id h) (monitored_tasks h)) in *.
  assert (Hsent : forall p, p ∈ ids.*1 <-> p ∈ (monitored_tasks h).*1).
  { intros p. unfold ids. rewrite send_ids_keys. split; [intros (st & Hst & _); apply list_elem_of_fmap; by exists (p, st)|].
    intros ([p' st] & -> & Hst)%list_elem_of_fmap. exists st. split; [done|by apply (Hidle p')]. }
  assert (Hself' : this ∉ ids.*1) by (by rewrite Hsent).
  assert (Hfind1 : forall k, is_Some (pm_find k (monitored_tasks h1)) <-> is_Some (pm_find k (monitored_tasks h))).
  { intros k. destruct (decide (k ∈ ids.*1)) as [Hk|Hk]; [|by destruct (Hout k Hk) as [_ ->]].
    apply list_elem_of_fmap in Hk as ([k' id] & -> & Hk). cbn [fst]. destruct (Hin k' id Hk) as (a & st & tm & _ & Hst & _ & _ & ->).
    split; intros _; [|by eexists]. exists st. by apply pm_find_elem. }
  set (b1 := mkBus (bus_on b) (bus_subs b) mb1).
  exists w1, b1, h1. split; [unfold send_heartbeat; by rewrite (M_bind_Ok _ _ _ _ _ (hb_at_run _ _ _ Hat))|]. split_and!.
  - split; [unfold bus_view; rewrite Hb1; by split_and!|]. split; [done|]. split; [|done]. intros p z Hz. cbn in Hz.
    destruct (decide (p ∈ ids.*1)) as [Hk|Hk]; [|destruct (Hout p Hk) as [E _]; rewrite E in Hz; by apply (Hf p)].
    apply list_elem_of_fmap in Hk as ([k' id] & -> & Hk). destruct (Hin k' id Hk) as (a & st & tm & Ha & _ & _ & Hb & _).
    cbn [fst] in Hz. rewrite Hb in Hz. injection Hz as <-. specialize (Hf2 k' a Ha). cbn. lia.
  - split; [done| |rewrite Heq; apply u32_range]. rewrite <- pm_find_None. destruct (Hout this Hself') as [_ ->]. by apply pm_find_None.
  - exists c, pt, a0. split; [|split; [|done]].
    + apply status_intro; [|done]. rewrite (threads_send_loop this _ _ _ _ _ Hrun). by eapply status_threads.
    + cbn. by destruct (Hout this Hself') as [-> _].
  - cbn. by destruct (Hout this Hself') as [-> _].
  - intros k Hk p z Hz. cbn in Hz. destruct (decide (p ∈ ids.*1)) as [Hpi|Hpi].
    + apply list_elem_of_fmap in Hpi as ([k' id] & -> & Hid'). destruct (Hin k' id Hid') as (a & st & tm & Ha & _ & _ & Hb & _).
      cbn [fst] in Hz. rewrite Hb in Hz. injection Hz as <-. specialize (Hk k' a Ha). cbn. lia.
    + destruct (Hout p Hpi) as [E _]. rewrite E in Hz. specialize (Hk p z Hz). lia.
  - intros k. by rewrite <- !pm_find_is_Some.
  - intros p Hp. pose proof Hp as Hp'. apply Hsent in Hp' as ([p' id] & -> & Hk)%list_elem_of_fmap. cbn [fst] in *.
    destruct (Hin p' id Hk) as (a & st & tm & Ha & Hst & _ & Hb & Hf'). destruct (Hps p' Hp) as [(c' & pt' & d' & a' & Ss & Ec & Ha' & Hi' & Hop') _].
    exists (u64 (duration_cast_ms tm)), (mkTaskStatus true id tm (last_response_time st)).
    assert (Hidr : 0 <= id < 2 ^ 32).
    { assert (Hid' : id ∈ ids.*2) by (apply list_elem_of_fmap; by exists (p', id)). unfold ids in Hid'.
      rewrite send_ids_snd in Hid' by done. apply list_elem_of_fmap in Hid' as (n & -> & _). apply u32_range. }
    split; [apply u64_range|]. split; [done|]. split; [done|]. exists c', pt', d'. eexists. split; [|split; [done|split; [exact Hb|]]].
    + rewrite (status_except _ _ _ p' He1); [done|]. intros ->%list_elem_of_singleton. by apply Hself.
    + rewrite Ha in Ha'. injection Ha' as <-. cbn. by rewrite Hi'.
  - intros p id Hk. destruct (Hin p id Hk) as (a & st & tm & _ & _ & _ & _ & Hf'). eexists. by split.
Qed.

(** The heartbeats are out: the wave begins. *)
Lemma poll_start this w b h :
  let ps := (monitored_tasks h).*1 in
  poll_ready this w b -> fresh b (Z.of_nat (length ps) + 2) -> Z.of_nat (length ps) + 2 < 2 ^ 32 ->
  hb_wf this h -> 0 < this < 2 ^ 64 -> poller_waits this w b h ->
  (forall a, bus_mail b !! this = Some a -> (length ps <= aq_capacity a)%nat) ->
  (forall p st, (p, st) ∈ monitored_tasks h -> awaiting_response st = false) ->
  (forall p, p ∈ ps -> 0 < p < 2 ^ 64 /\ polled_waits w b [] p /\
     forall a, bus_mail b !! p = Some a -> (0 < aq_capacity a)%nat) ->
  exists w1 b1 h1 ids, send_heartbeat this w = Ok (tt, w1) /\ poll_wave this ps ids w1 b1 h1 (list_to_set ps) [] /\
    (answers_to_do this ps w1 (list_to_set ps) [] <= 5 * length ps + 1)%nat /\
    forall p id, (p, id) ∈ send_ids (next_heartbeat_id h) (monitored_tasks h) -> p ∈ ps /\ ids p = id.
Proof.
  intros ps Hb Hf Hlt Hh Hthis Hm Hcap Hidle Hps.
  destruct (send_heartbeat_run this w b h Hb) as (w1 & b1 & h1 & R1 & B1 & Wf1 & M1 & E1 & F1 & K1 & Ask1 & Id1); try done.
  { intros q z Hz. specialize (Hf q z Hz). lia. } { intros p Hp. apply Hps, Hp. }
  assert (Hnd : NoDup ps) by apply pm_sorted_NoDup, Hh.
  assert (Hsize : size (list_to_set ps : gset addr) = length ps) by (by apply size_list_to_set).
  exists w1, b1, h1, (fun p => default 0 (last_heartbeat_id <$> pm_find p (monitored_tasks h1))). split; [done|]. split; [|split].
  - destruct M1 as (c & pt & a & Sm & Ha & Hi & Hop). split; try done.
    + rewrite Hsize. apply F1. intros q z Hz. specialize (Hf q z Hz). lia.
    + lia.
    + exists c, InDequeue, pt, a. rewrite E1 in Ha. split; [done|]. split; [by left|]. rewrite E1. split_and!; try done. by apply Hcap.
    + intros p Hp. destruct (Ask1 p Hp) as (ts & st & Hts & Hfind & _ & (cp & ptp & d & ap & Sp & Hecho & Hap & Hip & Hop')).
      exists cp, InDequeue, ptp, d, ap, ts. rewrite Hfind, decide_True by set_solver.
      do 2 (split; [done || by left|]). cbn. by do 3 (split; [done|]).
    + intros p. by rewrite elem_of_list_to_set.
    + constructor.
    + intros p Hp. by apply elem_of_nil in Hp.
    + intros p Hp. destruct (Ask1 p Hp) as (ts & st & _ & -> & Hid & _). split; [done|]. exists st. split; [done|]. split; [done|].
      intros HpA. destruct HpA. by apply elem_of_list_to_set.
  - unfold answers_to_do, to_do. rewrite Hsize. cbn [length].
    pose proof (total_bound (head w1) (this :: ps) (head_le w1)) as Hbound. cbn [length] in Hbound. lia.
  - intros p id Hk. destruct (Id1 p id Hk) as (st & -> & <-). split; [|done].
    assert (Hk' : p ∈ (send_ids (next_heartbeat_id h) (monitored_tasks h)).*1) by (apply list_elem_of_fmap; by exists (p, last_heartbeat_id st)).
    apply send_ids_keys in Hk' as (st' & Hst' & _). apply list_elem_of_fmap. by exists (p, st').
Qed.

Lemma check_marks_none this w b h clk n :
  poller_waits this w b h -> (forall p st, (p, st) ∈ monitored_tasks h -> awaiting_response st = false) ->
  let w'' := mkWorld (tasks w) (broker w) (logger w) clk n (this_thread w) in check_for_timeouts this w'' = Ok (tt, tick w'').
Proof.
  intros Hm Hidle w''. unfold check_for_timeouts. rewrite (M_bind_Ok _ _ w'' (clk n) (tick w'') eq_refl).
  assert (Hat : hb_at this (tick w'') h) by exact (poller_hb_at this w b h Hm).
  rewrite (M_bind_Ok _ _ _ _ _ (hb_at_run _ _ _ Hat)). apply (check_on_time this _ _ _ h Hat).
  intros p st Hst. unfold timed_out. by rewrite (Hidle p st Hst).
Qed.

(** C15. A task that answers is not marked, under whatever schedule: in a round
    in which every monitored task has nothing to answer, waits on an empty
    queue and answers heartbeats, and the heartbeat task's queue has room for
    an answer of each, each gets a heartbeat with an id of its own, and
    whatever turns the message threads of these tasks take, in whatever order,
    none goes wrong; if they take turns in at least five rounds per task and
    one more, every thread at least once in each, every status shows the id
    of the round as answered, all these threads wait on empty queues again,
    and a check for timeouts, whenever it comes, marks nobody and changes
    nothing but the clock's count of readings. *)
Theorem polled_tasks_stay this w b h :
  let ps := (monitored_tasks h).*1 in
  poll_ready this w b -> fresh b (Z.of_nat (length ps) + 2) -> Z.of_nat (length ps) + 2 < 2 ^ 32 ->
  hb_wf this h -> 0 < this < 2 ^ 64 -> poller_waits this w b h ->
  (forall a, bus_mail b !! this = Some a -> (length ps <= aq_capacity a)%nat) ->
  (forall p st, (p, st) ∈ monitored_tasks h -> awaiting_response st = false) ->
  (forall p, p ∈ ps -> 0 < p < 2 ^ 64 /\ polled_waits w b [] p /\
     forall a, bus_mail b !! p = Some a -> (0 < aq_capacity a)%nat) ->
  (forall l, Forall (fun p => p ∈ this :: ps) l -> exists w', (_ ← send_heartbeat this; schedule l) w = Ok (tt, w')) /\
  (forall rounds, fair this ps rounds ->
     exists w' b' h', (_ ← send_heartbeat this; schedule (concat rounds)) w = Ok (tt, w') /\ poll_ready this w' b' /\
       hb_wf this h' /\ poller_waits this w' b' h' /\
       (forall p, p ∈ ps -> polled_waits w' b' [] p) /\
       (forall p id, (p, id) ∈ send_ids (next_heartbeat_id h) (monitored_tasks h) -> exists sent_ns answered_ns,
          pm_find p (monitored_tasks h') = Some (mkTaskStatus false id sent_ns answered_ns)) /\
       (forall clk n, let w'' := mkWorld (tasks w') (broker w') (logger w') clk n (this_thread w') in
          check_for_timeouts this w'' = Ok (tt, tick w''))).
Proof.
  intros ps Hb Hf Hlt Hh Hthis Hm Hcap Hidle Hps.
  assert (Hnd : NoDup ps) by apply pm_sorted_NoDup, Hh.
  assert (Hin : forall p, p ∈ ps -> 0 < p < 2 ^ 64 /\ p <> this).
  { intros p Hp. split; [by apply Hps|]. intros ->. by apply (hb_wf_self _ _ Hh). }
  destruct (poll_start this w b h Hb Hf Hlt Hh Hthis Hm Hcap Hidle Hps) as (w1 & b1 & h1 & ids & R1 & W1 & Hdo & Hids).
  assert (Hpolls : polls this ps ids w1 (answers_to_do this ps w1 (list_to_set ps) [])) by (by exists b1, h1, (list_to_set ps), []).
  split.
  - intros l Hl. destruct (schedule_keeps (this :: ps) (polls this ps ids) (polls_turn this ps ids Hthis Hnd Hin) l w1 _ Hpolls Hl)
      as (w2 & _ & R2 & _). exists w2. by rewrite (M_bind_Ok _ _ _ _ _ R1).
  - intros rounds [Hr Hlen].
    destruct (rounds_finish (this :: ps) (polls this ps ids) (polls_turn this ps ids Hthis Hnd Hin)
      (polls_rest this ps ids Hthis Hnd Hin) rounds w1 _ Hpolls Hr) as (w2 & R2 & Hover); [by etrans|].
    destruct (polls_over this ps ids Hthis Hnd Hin w2 Hover) as (b2 & h2 & B2 & Wf2 & M2 & K2 & In2).
    exists w2, b2, h2. split; [by rewrite (M_bind_Ok _ _ _ _ _ R1)|]. do 3 (split; [done|]). split; [|split].
    + intros p Hp. by apply In2.
    + intros p id Hk. destruct (Hids p id Hk) as [Hp <-]. destruct (In2 p Hp) as (_ & [aw lid sent ans] & Hfind & Hl & Haw).
      cbn in Hl, Haw. subst. by exists sent, ans.
    + intros clk n. apply (check_marks_none this w2 b2 h2 clk n M2). intros p st Hst.
      apply pm_find_elem in Hst; [|apply Wf2]. assert (Hp : p ∈ ps) by (apply K2, pm_find_is_Some; by exists st).
      destruct (In2 p Hp) as (_ & st' & Hst' & _ & Haw). congruence.
Qed.
End polling.

(** ** Witness: a heartbeat task and one user task on reference queues *)

#[local] Instance answering_user : UserTasks aqueue := {
  user_process_message this m :=
    match get_data_as AHeartbeatMsg m with
    | Some hb => handle_heartbeat this hb
    | None => mret tt
    end;
  user_periodic_task_process _ := mret tt
}.

Definition quiet_poller : HeartBeat := mkHeartBeat [(32, mkTaskStatus false 0 0 5)] nullptr 3 1 ERROR.
Definition poll_world : World aqueue :=
  mkWorld {[16 := waiting_task "HeartBeat" (IsHeartBeat quiet_poller); 32 := waiting_task "A" IsUserTask]}
    (mkBroker true [[]; []; []; [16]]) Logger_new (fun n => mkClockReading (Z.of_nat n) 0 0) 0 (1, 1).
Definition poll_bus : bus := mkBus true [[]; []; []; [16]] {[16 := aq_new 4; 32 := aq_new 4]}.

Lemma poll_mail p a : bus_mail poll_bus !! p = Some a -> a = aq_new 4.
Proof. exact (rest_mail p a). Qed.

Lemma poll_world_ready : poll_ready 16 poll_world poll_bus.
Proof.
  split; [split; [done|split; [done|]]|].
  - intros p. unfold poll_world, poll_bus. cbn [tasks bus_mail].
    destruct (decide (p = 16)) as [->|H1]; [rewrite !lookup_insert_eq; by repeat constructor|].
    rewrite !lookup_insert_ne by (by apply not_eq_sym).
    destruct (decide (p = 32)) as [->|H2]; [rewrite !lookup_singleton_eq; by repeat constructor|].
    rewrite !lookup_singleton_ne by (by apply not_eq_sym). constructor.
  - split; [split; [done|]|split; [|done]].
    + repeat constructor; apply not_elem_of_nil.
    + intros p a ->%poll_mail. cbn. lia.
Qed.

Lemma answering_echoes p : echoes p IsUserTask.
Proof.
  intros w t sender hb Ht Hd. cbn [process_message dynamic_dispatch]. unfold dispatch.
  by rewrite (M_bind_Ok _ _ _ _ _ (get_task_run p t w Ht)), Hd.
Qed.

Definition poll_rounds : list (list addr) := [[32; 16]; [16; 16; 32]; [32; 16]; [16; 32; 32]; [32; 16]; [16; 32]].

Lemma poll_fair : fair 16 [32] poll_rounds.
Proof.
  split; [|cbn; lia]. unfold poll_rounds, round. repeat apply Forall_cons_2; [..|apply Forall_nil_2]; intros p; set_solver.
Qed.

Lemma polled_tasks_stay_witness :
  (exists w', (_ ← send_heartbeat 16; schedule [16; 16; 32]) poll_world = Ok (tt, w')) /\
  exists w' h', (_ ← send_heartbeat 16; schedule (concat poll_rounds)) poll_world = Ok (tt, w') /\ hb_at 16 w' h' /\
    exists sent_ns answered_ns, pm_find 32 (monitored_tasks h') = Some (mkTaskStatus false 1 sent_ns answered_ns).
Proof.
  destruct (polled_tasks_stay 16 poll_world poll_bus quiet_poller) as [Hany Hrounds].
  - apply poll_world_ready.
  - intros p a ->%poll_mail. cbn. lia.
  - cbn. lia.
  - split; [repeat constructor|cbn; by intros ?%list_elem_of_singleton|cbn; lia].
  - lia.
  - exists NOT_STARTED, Unjoinable, (aq_new 4). by split_and!.
  - intros a ->%poll_mail. cbn. lia.
  - intros p st [= -> ->]%list_elem_of_singleton. done.
  - cbn. intros p ->%list_elem_of_singleton. split; [lia|]. split; [|intros a ->%poll_mail; cbn; lia].
    exists NOT_STARTED, Unjoinable, IsUserTask, (aq_new 4). split_and!; [done|apply answering_echoes|done..].
  - split; [apply Hany; repeat constructor; set_solver|].
    destruct (Hrounds poll_rounds poll_fair) as (w' & b' & h' & Hrun & _ & _ & Hm & _ & Hids & _).
    exists w', h'. split; [exact Hrun|]. split; [by apply (poller_hb_at 16 w' b')|]. apply Hids. apply list_elem_of_here.
Defined.
