(* ===== verification/Traffic.v ===== *)
(** * Traffic: the turns of the program are the steps of the network

    A state manager, a heartbeat task and user tasks with their queues, seen
    as a network of Network.v, and the refinement: every turn of a message
    thread, of whichever task, is a step of the network or a wait on an empty
    queue, none goes wrong, and rounds of turns in any order bring whatever is
    under way to its end. *)

From stdpp Require Import functions.
From S2P Require Import Prelude Msg Heap QueueSpec Logger World Broker TaskBase StateManager HeartBeat System Handshake Rounds Network Polling.
#[local] Open Scope Z_scope.

Section traffic.
Context {Q : Type} `{QueueImpl Q} `{UserTasks Q}.
Implicit Types (w : World Q) (b : bus) (s : StateManager) (h : HeartBeat) (d : Derived) (N : network).

Context (sm hb : addr) (us : list addr) (cap : addr -> nat) (limit_ms : Z).

Abbreviation regs := (hb :: us).
Abbreviation threads := (sm :: regs).

(** ** What the network is a picture of *)

Definition item_msg (i : item) : Msg :=
  match i with
  | ToState y => state_request sm y
  | Beat id ts => pack hb (VHeartbeatMsg (mkHeartbeatMsg id ts))
  | BeatAck p id ts at_ms => heartbeat_ack p id ts at_ms
  end.

Definition ack_msg (r : addr * TaskState) : Msg := state_ack r.1 r.2.

Definition held N (p : addr) : list Msg := if decide (p = sm) then ack_msg <$> ack_queue N else item_msg <$> box N p.

(** The handler of a user task follows requests and answers heartbeats. *)
Definition responds (p : addr) d : Prop := (forall y, 0 <= y < 2 ^ 8 -> follows sm p y d) /\ echoes p d.

(** The objects and the states they are in. *)
Inductive role s h N : addr -> TaskState -> Derived -> Prop :=
  | role_manager c : role s h N sm c (IsStateManager s)
  | role_poller c : c = own_state N hb -> role s h N hb c (IsHeartBeat h)
  | role_user p c d : p ∈ us -> responds p d -> c = own_state N p -> role s h N p c d.

Definition spot (u : bool) : thread := if u then LoopHead else InDequeue.

(** The object at [p] runs, its message thread at [spot u], its open queue
    holding [ms]. *)
Definition at_work w b (p : addr) (c : TaskState) (u : bool) d (ms : list Msg) : Prop :=
  exists pt a, status w p = Some (c, true, spot u, pt, d) /\ bus_mail b !! p = Some a /\
    aq_items a = ms /\ aq_capacity a = cap p /\ aq_closed a = false.

Record shows w b s h N : Prop := {
  sh_view : bus_view w b;
  sh_wf : bus_wf b;
  sh_on : bus_on b = true;
  sh_acks : default [] (bus_subs b !! Z.to_nat Type_StateAckMsg) = [sm];
  sh_beat_acks : default [] (bus_subs b !! Z.to_nat Type_HeartbeatAckMsg) = [hb];
  sh_thread p : p ∈ threads -> exists c d, role s h N p c d /\ at_work w b p c (busy N p) d (held N p);
  sh_sorted : pm_sorted (task_states s);
  sh_keys p : p ∈ (task_states s).*1 <-> p ∈ regs;
  sh_known p : p ∈ regs -> pm_find p (task_states s) = Some (known_state N p);
  sh_target : is_Some (target_state s);
  sh_monitor : hb_wf hb h;
  sh_monitored p : p ∈ (monitored_tasks h).*1 <-> p ∈ us;
  sh_status p : p ∈ us -> pm_find p (monitored_tasks h) = Some (beat_status N p);
  sh_limit : response_timeout_ms h = limit_ms;
  sh_times p : p ∈ us -> awaiting_response (beat_status N p) = true ->
    exists n, last_heartbeat_time (beat_status N p) = steady_ns (clock w n)
}.

Context (Hsm : 0 < sm < 2 ^ 64) (Hhb : 0 < hb < 2 ^ 64) (Hne : sm <> hb).
Context (Hus : NoDup us) (Hin : forall p, p ∈ us -> 0 < p < 2 ^ 64 /\ p <> sm /\ p <> hb).

Lemma users_not_hb : hb ∉ us.
Proof. intros Hp. by destruct (Hin hb Hp) as (_ & _ & ?). Qed.

Lemma sm_not_reg : sm ∉ regs.
Proof. intros [->|Hp]%elem_of_cons; [done|]. by destruct (Hin sm Hp) as (_ & ? & _). Qed.

Lemma reg_range p : p ∈ regs -> 0 < p < 2 ^ 64 /\ p <> sm.
Proof. intros [->|Hp]%elem_of_cons; [split; [done|by apply not_eq_sym]|]. by destruct (Hin p Hp) as (? & ? & _). Qed.

Lemma held_reg N p : p ∈ regs -> held N p = item_msg <$> box N p.
Proof. intros Hp. unfold held. rewrite decide_False; [done|]. by apply reg_range. Qed.

Lemma held_sm N : held N sm = ack_msg <$> ack_queue N.
Proof. unfold held. by rewrite decide_True. Qed.

(** ** The next message *)

Lemma box_dequeue a l :
  aq_items a = item_msg <$> l -> l <> [] ->
  exists l1 i l2 a1, l = l1 ++ i :: l2 /\ aq_dequeue a = (Returns (Some (item_msg i)), a1) /\
    aq_items a1 = item_msg <$> (l1 ++ l2) /\ aq_capacity a1 = aq_capacity a /\ aq_closed a1 = aq_closed a /\
    forall y, i = ToState y -> states l1 = [].
Proof.
  intros Hi Hl. unfold aq_dequeue. rewrite Hi.
  destruct (pop_best msg_lt (item_msg <$> l)) as [[m r]|] eqn:Hp; [|by apply pop_best_None, fmap_nil_inv in Hp].
  destruct (pop_best_Some _ _ _ _ Hp) as (k1 & k2 & Hk & -> & Hb & _).
  apply fmap_app_inv in Hk as (l1 & l' & -> & Hk & ->). symmetry in Hk. apply fmap_cons_inv in Hk as (i & l2 & -> & -> & ->).
  exists l1, i, l2. eexists. split; [done|]. split; [done|]. split; [by rewrite fmap_app|]. do 2 (split; [done|]). intros y ->.
  assert (Hn : forall z, ToState z ∉ l1).
  { intros z Hz. specialize (Hb (item_msg (ToState z)) ltac:(apply list_elem_of_fmap; by exists (ToState z))).
    revert Hb. unfold msg_lt. cbn. lia. }
  clear -Hn. induction l1 as [|i l1 IH]; [done|]. rewrite states_cons, IH.
  - destruct i as [z| |]; [|done..]. destruct (Hn z). apply list_elem_of_here.
  - intros z Hz. apply (Hn z). by apply list_elem_of_further.
Qed.

(** ** Turns *)

(** A turn of [p] that is a step of the network. *)
Definition turned (p : addr) w b s N : Prop :=
  exists w' b' s' h' N', run_step p w = Ok (Progress, w') /\ net_turn sm hb us p N N' /\ shows w' b' s' h' N' /\
    clock w' = clock w /\ pruned b b' /\ target_state s' = target_state s /\
    forall k, 0 <= k -> k + 1 < 2 ^ 32 -> fresh b (k + 1) -> fresh b' k.

(** Whom a turn does not concern. *)
Lemma thread_other s h N s' h' N' w b w' b' p :
  (exists c d, role s h N p c d /\ at_work w b p c (busy N p) d (held N p)) ->
  (p = sm -> s' = s) -> (p = hb -> h' = h) -> own_state N' p = own_state N p -> busy N' p = busy N p -> held N' p = held N p ->
  status w' p = status w p -> bus_mail b' !! p = bus_mail b !! p ->
  exists c d, role s' h' N' p c d /\ at_work w' b' p c (busy N' p) d (held N' p).
Proof.
  intros (c & d & Hrole & Hat) Hs Hh Ho Hu Hl Hst Hm. exists c, d. rewrite Hu, Hl. split.
  - destruct Hrole as [c|c Hc|p c d Hp Hr Hc]; [rewrite <- Hs by done|rewrite <- Hh by done|]; constructor; congruence.
  - unfold at_work. by rewrite Hst, Hm.
Qed.

(** Who is sent a message by it. *)
Lemma thread_receives m s h N s' h' N' w b w' b' p :
  (exists c d, role s h N p c d /\ at_work w b p c (busy N p) d (held N p)) ->
  (p = sm -> s' = s) -> (p = hb -> h' = h) -> own_state N' p = own_state N p -> busy N' p = busy N p -> held N' p = held N p ++ [m] ->
  status w' p = status w p -> bus_mail b' !! p = received m <$> bus_mail b !! p ->
  exists c d, role s' h' N' p c d /\ at_work w' b' p c (busy N' p) d (held N' p).
Proof.
  intros (c & d & Hrole & pt & a & Hst & Ha & Hi & Hcap & Hop) Hs Hh Ho Hu Hl Hst' Hm. exists c, d. rewrite Hu, Hl. split.
  - destruct Hrole as [c|c Hc|p c d Hp Hr Hc]; [rewrite <- Hs by done|rewrite <- Hh by done|]; constructor; congruence.
  - exists pt, (received m a). rewrite Hst', Hm, Ha. cbn. by rewrite Hi.
Qed.

(** Into the wait. *)
Lemma loop_turned p w b s h N : shows w b s h N -> p ∈ threads -> busy N p = true -> turned p w b s N.
Proof.
  intros Hw Hp Hbusy. destruct (sh_thread _ _ _ _ _ Hw p Hp) as (c & d & Hrole & pt & a & Hst & Ha & Hi & Hcap & Hop).
  rewrite Hbusy in Hst. cbn [spot] in Hst.
  destruct (loop_turn p w b c pt d (sh_view _ _ _ _ _ Hw) Hst) as (w' & Hrun & Hv' & Hc & Hs).
  destruct N as [q k so r st u]. exists w', b, s, h. eexists. split; [done|]. split; [by apply nt_loop|].
  split; [|split_and!; [done|apply pruned_refl|done|intros k' _ _ Hf q' z Hz; specialize (Hf q' z Hz); lia]].
  destruct Hw as [Hv Hwf Hon Ha1 Ha2 Hth Hso Hk Hkn Htg Hmo Hmd Hsta Hli Hti]. split; try done.
  - intros p' Hp'. destruct (decide (p = p')) as [<-|Hpp].
    + exists c, d. split; [by destruct Hrole; constructor|]. exists pt, a. rewrite Hs, decide_True by done.
      cbn [busy]. rewrite fn_at, decide_True by done. by split_and!.
    + apply (thread_other s h (mkNetwork q k so r st u) s h _ w b); try done; [by apply Hth| |]; [|by rewrite Hs, decide_False].
      cbn [busy]. by rewrite fn_at, decide_False.
  - intros p' Hp' Haw. rewrite Hc. by apply Hti.
Qed.

(** The one subscriber of a type stays the one. *)
Lemma pruned_single b b' i x :
  bus_wf b' -> pruned b b' -> default [] (bus_subs b !! i) = [x] -> is_Some (bus_mail b !! x) -> default [] (bus_subs b' !! i) = [x].
Proof.
  intros Hwf Hp Hx Hl. pose proof (bus_list_NoDup b' i Hwf) as Hnd.
  assert (Hin' : forall q, q ∈ default [] (bus_subs b' !! i) <-> q = x).
  { intros q. destruct (Hp i q) as [H1 H2]. rewrite Hx in H1, H2. split; [by intros Hq%H1%list_elem_of_singleton|].
    intros ->. apply H2; [apply list_elem_of_here|done]. }
  destruct (default [] (bus_subs b' !! i)) as [|y [|z l]].
  - by destruct (proj1 (elem_of_nil x) (proj2 (Hin' x) eq_refl)).
  - by rewrite (proj1 (Hin' y)) by apply list_elem_of_here.
  - apply NoDup_cons in Hnd as [Hy _]. destruct Hy. rewrite (proj1 (Hin' y)) by apply list_elem_of_here.
    rewrite <- (proj1 (Hin' z)) by (apply list_elem_of_further, list_elem_of_here). apply list_elem_of_here.
Qed.

Lemma shows_mail w b s h N p : shows w b s h N -> p ∈ threads -> is_Some (bus_mail b !! p).
Proof. intros Hw Hp. destruct (sh_thread _ _ _ _ _ Hw p Hp) as (c & d & _ & pt & a & _ & Ha & _). by eexists. Qed.

Lemma shows_live w b s h N p : shows w b s h N -> p ∈ threads -> is_Some (tasks w !! p).
Proof. intros Hw Hp. destruct (sh_thread _ _ _ _ _ Hw p Hp) as (c & d & _ & pt & a & Hst & _). apply status_live. by eexists. Qed.

(** One message out of one queue and one into another: nothing overflows. *)
Lemma moved_fresh b b' p r a a0 a1 m m' k :
  bus_mail b !! p = Some a -> bus_mail b !! r = Some a0 -> aq_dequeue a = (Returns (Some m), a1) ->
  (forall q, bus_mail b' !! q = if decide (q = p) then Some a1 else if decide (q = r) then Some (received m' a0) else bus_mail b !! q) ->
  0 <= k -> k + 1 < 2 ^ 32 -> fresh b (k + 1) -> fresh b' k.
Proof.
  intros Ha Ha0 Hd Hm Hk Hlt Hf q z. rewrite Hm. case_decide; [intros [= <-]|case_decide; [intros [= <-]|intros Hz; specialize (Hf q z Hz); lia]].
  - specialize (Hf p a Ha). destruct (dequeue_ticks a m a1 Hd); lia.
  - specialize (Hf r a0 Ha0). cbn. lia.
Qed.

(** The state of a registered task. *)
Lemma role_reg s h N p c d : role s h N p c d -> p ∈ regs -> c = own_state N p.
Proof. intros [c'|c' Hc|p' c' d' Hp' _ Hc] Hp; [by destruct (sm_not_reg Hp)|done..]. Qed.

Lemma role_follows s h N p c d y : role s h N p c d -> p ∈ regs -> 0 <= y < 2 ^ 8 -> follows sm p y d.
Proof.
  intros [c'|c' Hc|p' c' d' Hp' [Hf _] Hc] Hp Hy; [by destruct (sm_not_reg Hp)|by apply heart_beat_follows|by apply Hf].
Qed.

(** A task follows a request. *)
Lemma state_turned p w b s h N l1 y l2 :
  shows w b s h N -> fresh b 1 -> p ∈ regs -> busy N p = false -> 0 <= y < 2 ^ 8 ->
  (length (ack_queue N) < cap sm)%nat -> box N p = l1 ++ ToState y :: l2 -> states l1 = [] ->
  (exists a a1, bus_mail b !! p = Some a /\ aq_dequeue a = (Returns (Some (state_request sm y)), a1) /\
     aq_items a1 = item_msg <$> (l1 ++ l2) /\ aq_capacity a1 = cap p /\ aq_closed a1 = false) ->
  turned p w b s N.
Proof.
  intros Hw Hf Hp Hbusy Hy Hroom Hbox Hl1 (a & a1 & Ha & Hdq & Hi1 & Hc1 & Hop1). destruct (reg_range p Hp) as [Hrange Hnp].
  destruct (sh_thread _ _ _ _ _ Hw p (list_elem_of_further _ _ _ Hp)) as (c & d & Hrole & pt & a' & Hst & Ha' & _).
  rewrite Hbusy in Hst. assert (a' = a) as -> by congruence.
  destruct (sh_thread _ _ _ _ _ Hw sm (list_elem_of_here _ _)) as (cm & dm & Hrm & ptm & a0 & Hstm & Ha0 & Hi0 & Hcap0 & Hop0).
  rewrite held_sm in Hi0.
  destruct (user_turn sm p y w b c pt d a a0 a1 (sh_view _ _ _ _ _ Hw) (sh_wf _ _ _ _ _ Hw) Hf (sh_on _ _ _ _ _ Hw) Hrange Hnp
    (sh_acks _ _ _ _ _ Hw) (role_follows _ _ _ _ _ _ y Hrole Hp Hy) Hst Ha Hdq Ha0) as (w' & b' & Hrun & Hv' & Hwf' & Hon' & Hack' & Hck & Hpr & Hs & Hm).
  { unfold has_room. by rewrite Hi0, length_fmap, Hcap0. }
  pose proof (pruned_single b b' _ hb Hwf' Hpr (sh_beat_acks _ _ _ _ _ Hw)
    (shows_mail _ _ _ _ _ hb Hw ltac:(apply list_elem_of_further, list_elem_of_here))) as Hback'.
  destruct N as [q k so r st u]. cbn [box busy ack_queue] in *.
  exists w', b', s, h. eexists. split; [done|]. split; [by apply nt_state|].
  split; [|split_and!; [done..|by intros k' Hk; apply (moved_fresh b b' p sm a a0 a1 _ _ k' Ha Ha0 Hdq Hm)]].
  destruct Hw as [Hv Hwf Hon Ha1 Ha2 Hth Hso Hk Hkn Htg Hmo Hmd Hsta Hli Hti]. split; try done.
  - intros p' Hp'. destruct (decide (p' = p)) as [->|Hpp]; [|destruct (decide (p' = sm)) as [->|Hpm]].
    + exists y, d. split; [by destruct Hrole as [c'|c' Hc'|p' c' d' Hp'' Hr' Hc']; [destruct (sm_not_reg Hp)|constructor..]; cbn [own_state];
      rewrite ?fn_at, ?decide_True|].
      exists pt, a1. rewrite Hs, decide_True by done. rewrite Hm, decide_True by done. cbn [busy]. rewrite fn_at, decide_True by done.
      split_and!; try done. rewrite held_reg by done. cbn [box]. by rewrite fn_at, decide_True.
    + apply (thread_receives (state_ack p y) s h (mkNetwork q k so r st u) s h _ w b); try done; [by apply Hth|..].
      * cbn [own_state]. by rewrite fn_at, decide_False.
      * cbn [busy]. by rewrite fn_at, decide_False.
      * rewrite !held_sm. cbn [ack_queue]. by rewrite fmap_app.
      * by rewrite Hs, decide_False.
      * by rewrite Hm, decide_False, decide_True, Ha0 by (done || by apply not_eq_sym).
    + apply (thread_other s h (mkNetwork q k so r st u) s h _ w b); try done; [by apply Hth|..].
      * cbn [own_state]. by rewrite fn_at, decide_False by (by apply not_eq_sym).
      * cbn [busy]. by rewrite fn_at, decide_False by (by apply not_eq_sym).
      * assert (Hr : p' ∈ regs) by (by apply elem_of_cons in Hp' as [->|?]). rewrite !held_reg by done. cbn [box].
        by rewrite fn_at, decide_False by (by apply not_eq_sym).
      * by rewrite Hs, decide_False by (by apply not_eq_sym).
      * by rewrite Hm, !decide_False.
  - intros p' Hp' Haw. rewrite Hck. by apply Hti.
Qed.

(** A task answers a heartbeat. *)
Lemma echo_turned p w b s h N l1 id ts l2 :
  shows w b s h N -> fresh b 1 -> p ∈ us -> busy N p = false -> 0 <= id < 2 ^ 32 -> 0 <= ts < 2 ^ 64 ->
  (length (box N hb) < cap hb)%nat -> box N p = l1 ++ Beat id ts :: l2 ->
  (exists a a1, bus_mail b !! p = Some a /\ aq_dequeue a = (Returns (Some (item_msg (Beat id ts))), a1) /\
     aq_items a1 = item_msg <$> (l1 ++ l2) /\ aq_capacity a1 = cap p /\ aq_closed a1 = false) ->
  turned p w b s N.
Proof.
  intros Hw Hf Hp Hbusy Hid Hts Hroom Hbox (a & a1 & Ha & Hdq & Hi1 & Hc1 & Hop1).
  assert (Hpr : p ∈ regs) by (by apply list_elem_of_further). destruct (Hin p Hp) as (Hrange & Hnp & Hnh).
  destruct (sh_thread _ _ _ _ _ Hw p (list_elem_of_further _ _ _ Hpr)) as (c & d & Hrole & pt & a' & Hst & Ha' & _).
  rewrite Hbusy in Hst. assert (a' = a) as -> by congruence.
  assert (Hresp : responds p d) by (destruct Hrole as [c'|c' Hc'|p' c' d' Hp'' Hr' Hc']; [by destruct (sm_not_reg Hpr)|by destruct users_not_hb|done]).
  destruct (sh_thread _ _ _ _ _ Hw hb ltac:(apply list_elem_of_further, list_elem_of_here)) as (cm & dm & Hrm & ptm & a0 & Hstm & Ha0 & Hi0 & Hcap0 & Hop0).
  rewrite held_reg in Hi0 by apply list_elem_of_here.
  destruct (echo_turn hb p id ts hb w b a0 c pt d a a1) as (w' & b' & at_ms & Hrun & Hv' & Hwf' & Hon' & Hack' & Hck & Hprn & Hs & Hm); try done.
  { split; [apply Hw|]. split; [apply Hw|]. split; [done|]. split; apply Hw. }
  { apply Hresp. } { unfold has_room. by rewrite Hi0, length_fmap, Hcap0. }
  pose proof (pruned_single b b' _ sm Hwf' Hprn (sh_acks _ _ _ _ _ Hw) (shows_mail _ _ _ _ _ sm Hw (list_elem_of_here _ _))) as Hback'.
  destruct N as [q k so r st u]. cbn [box busy ack_queue] in *.
  exists w', b', s, h. eexists. split; [done|]. split; [by apply (nt_echo sm hb us p l1 id ts l2 at_ms)|].
  split; [|split_and!; [done..|by intros k' Hk; apply (moved_fresh b b' p hb a a0 a1 _ _ k' Ha Ha0 Hdq Hm)]].
  destruct Hw as [Hv Hwf Hon Ha1 Ha2 Hth Hso Hk Hkn Htg Hmo Hmd Hsta Hli Hti]. split; try done.
  - intros p' Hp'. destruct (decide (p' = p)) as [->|Hpp]; [|destruct (decide (p' = hb)) as [->|Hph]].
    + exists c, d. split; [destruct Hrole as [c'|c' Hc'|p' c' d' Hp'' Hr' Hc']; [by destruct (sm_not_reg Hpr)|by constructor..]|].
      exists pt, a1. rewrite Hs, decide_True by done. rewrite Hm, decide_True by done. cbn [busy]. rewrite fn_at, decide_True by done.
      split_and!; try done. rewrite held_reg by done. cbn [box]. rewrite fn_at, decide_False by (by apply not_eq_sym). by rewrite fn_at, decide_True.
    + apply (thread_receives (heartbeat_ack p id ts at_ms) s h (mkNetwork q k so r st u) s h _ w b); try done; [by apply Hth|..].
      * cbn [busy]. by rewrite fn_at, decide_False by (by apply not_eq_sym).
      * rewrite !held_reg by apply list_elem_of_here. cbn [box]. by rewrite fn_at, decide_True, fmap_app.
      * by rewrite Hs, decide_False.
      * by rewrite Hm, decide_False, decide_True, Ha0 by (done || by apply not_eq_sym).
    + apply (thread_other s h (mkNetwork q k so r st u) s h _ w b); try done; [by apply Hth|..].
      * cbn [busy]. by rewrite fn_at, decide_False by (by apply not_eq_sym).
      * unfold held. case_decide; [done|]. cbn [box]. by rewrite !fn_at, !decide_False by (by apply not_eq_sym).
      * by rewrite Hs, decide_False by (by apply not_eq_sym).
      * by rewrite Hm, !decide_False.
  - intros p' Hp' Haw. rewrite Hck. by apply Hti.
Qed.

(** A message goes out of one queue and nothing comes in. *)
Lemma taken_fresh b p a m a1 k :
  bus_mail b !! p = Some a -> aq_dequeue a = (Returns (Some m), a1) -> 0 <= k -> k + 1 < 2 ^ 32 -> fresh b (k + 1) -> fresh (set_mail p a1 b) k.
Proof.
  intros Ha Hd Hk Hlt Hf. apply (dequeue_fresh p a m a1 b k Ha Hd); [lia|]. intros q z Hz. specialize (Hf q z Hz). lia.
Qed.

(** The heartbeat task takes note of an answer. *)
Lemma answered_turned w b s h N l1 p id ts at_ms l2 :
  shows w b s h N -> p ∈ us -> busy N hb = false -> last_heartbeat_id (beat_status N p) = id ->
  box N hb = l1 ++ BeatAck p id ts at_ms :: l2 ->
  (exists a a1, bus_mail b !! hb = Some a /\ aq_dequeue a = (Returns (Some (item_msg (BeatAck p id ts at_ms))), a1) /\
     aq_items a1 = item_msg <$> (l1 ++ l2) /\ aq_capacity a1 = cap hb /\ aq_closed a1 = false) ->
  turned hb w b s N.
Proof.
  intros Hw Hp Hbusy Hid Hbox (a & a1 & Ha & Hdq & Hi1 & Hc1 & Hop1).
  assert (Hht : hb ∈ threads) by (apply list_elem_of_further, list_elem_of_here).
  destruct (sh_thread _ _ _ _ _ Hw hb Hht) as (c & d & Hrole & pt & a' & Hst & Ha' & _).
  rewrite Hbusy in Hst. assert (a' = a) as -> by congruence.
  assert (Hd : d = IsHeartBeat h /\ c = own_state N hb).
  { inversion Hrole as [c'|c' Hc'|p' c' d' Hp'' Hr' Hc']; [by destruct Hne|done|by destruct users_not_hb]. }
  destruct Hd as [-> ->].
  destruct (poller_turn hb p id ts at_ms w b h (beat_status N p) a a1 (own_state N hb) pt) as (w' & tm & Hrun & Hv' & Hck & Hs); try done;
      [apply Hw..| |by apply Hw|].
  { intros q Hq%(sh_monitored _ _ _ _ _ Hw). apply (shows_mail w b s h N q Hw). by do 2 apply list_elem_of_further. }
  destruct N as [q k so r st u]. cbn [box busy ack_queue beat_status own_state] in *.
  exists w', (set_mail hb a1 b), s, (assign_status p (acknowledged tm (st p)) h). eexists. split; [done|].
  split; [by apply (nt_answered sm hb us p l1 id ts at_ms l2 tm)|].
  split; [|split_and!; [done|by intros i q'|done|by intros k'; apply (taken_fresh b hb a (item_msg (BeatAck p id ts at_ms)))]].
  destruct Hw as [Hv Hwf Hon Ha1 Ha2 Hth Hso Hk Hkn Htg Hmo Hmd Hsta Hli Hti]. split; try done.
  - intros p' Hp'. destruct (decide (p' = hb)) as [->|Hpp].
    + eexists _, _. split; [by apply role_poller|]. exists pt, a1. rewrite Hs, decide_True by done. rewrite set_mail_lookup, decide_True by done.
      cbn [busy]. rewrite fn_at, decide_True by done. split_and!; try done. rewrite held_reg by apply list_elem_of_here. cbn [box].
      by rewrite fn_at, decide_True.
    + apply (thread_other s h (mkNetwork q k so r st u) s _ _ w b); try done; [by apply Hth|..].
      * cbn [busy]. by rewrite fn_at, decide_False by (by apply not_eq_sym).
      * unfold held. case_decide; [done|]. cbn [box]. by rewrite fn_at, decide_False by (by apply not_eq_sym).
      * by rewrite Hs, decide_False by (by apply not_eq_sym).
      * by rewrite set_mail_lookup, decide_False.
  - apply (assign_status_keeps_wf hb p (st p)); [done|]. by apply Hsta.
  - intros p'. cbn. rewrite pm_assign_keys, Hmd. split; [by intros [->|]|by right].
  - intros p' Hp'. cbn [assign_status set_monitored monitored_tasks beat_status]. rewrite pm_assign_find, fn_at by apply Hmo.
    case_decide as Hpp; [done|]. by apply Hsta.
  - intros p' Hp' Haw. cbn [beat_status] in *. rewrite fn_at in Haw |- *. case_decide; [done|]. rewrite Hck. by apply Hti.
Qed.

(** The state manager takes note of an acknowledgement. *)
Lemma record_turned w b s h N p y k :
  shows w b s h N -> p ∈ regs -> 0 <= y < 2 ^ 8 -> busy N sm = false -> ack_queue N = (p, y) :: k -> turned sm w b s N.
Proof.
  intros Hw Hp Hy Hbusy Hk. destruct (reg_range p Hp) as [Hrange Hnp].
  destruct (sh_thread _ _ _ _ _ Hw sm (list_elem_of_here _ _)) as (c & d & Hrole & pt & a & Hst & Ha & Hi & Hcap & Hop).
  rewrite Hbusy in Hst. rewrite held_sm, Hk in Hi.
  assert (Hd : d = IsStateManager s).
  { inversion Hrole as [c'|c' Hc'|p' c' d' Hp'' Hr' Hc']; [done|by destruct Hne|]. by destruct (Hin sm Hp'') as (_ & ? & _). }
  subst d. destruct (sh_target _ _ _ _ _ Hw) as [target Htg0].
  pose proof (oldest_dequeue a (state_ack p y) (fmap (M := list) ack_msg k) Hi) as Hdq. set (a1 := mkAqueue _ _ _ _) in Hdq.
  assert (Hdq' : aq_dequeue a = (Returns (Some (state_ack p y)), a1)).
  { apply Hdq. apply Forall_fmap, Forall_true. intros r. unfold msg_lt. cbn. lia. }
  destruct (manager_turn sm p y w b c pt s a a1 target) as (w' & Hrun & Hv' & Hck & Hs); try done; [apply Hw|unfold nullptr; lia|by apply Hw| |].
  { intros q Hq%(sh_keys _ _ _ _ _ Hw). apply (shows_live w b s h N q Hw). by apply list_elem_of_further. }
  destruct N as [q k0 so r st u]. cbn [box busy ack_queue beat_status own_state] in *. subst k0.
  exists w', (set_mail sm a1 b), (set_task_states (pm_assign p y (task_states s)) s), h. eexists. split; [done|].
  split; [by apply (nt_record sm hb us p y)|].
  split; [|split_and!; [done|by intros i q'|done|by intros k'; apply (taken_fresh b sm a (state_ack p y))]].
  destruct Hw as [Hv Hwf Hon Ha1 Ha2 Hth Hso Hks Hkn Htg Hmo Hmd Hsta Hli Hti]. split; try done.
  - intros p' Hp'. destruct (decide (p' = sm)) as [->|Hpp].
    + eexists _, _. split; [by apply role_manager|]. exists pt, a1. rewrite Hs, decide_True by done. rewrite set_mail_lookup, decide_True by done.
      cbn [busy]. rewrite fn_at, decide_True by done. split_and!; try done. by rewrite held_sm.
    + apply (thread_other s h (mkNetwork q ((p, y) :: k) so r st u) _ h _ w b); try done; [by apply Hth|..].
      * cbn [busy]. by rewrite fn_at, decide_False by (by apply not_eq_sym).
      * unfold held. by rewrite !decide_False.
      * by rewrite Hs, decide_False by (by apply not_eq_sym).
      * by rewrite set_mail_lookup, decide_False.
  - by apply pm_assign_sorted.
  - intros p'. cbn. rewrite pm_assign_keys, Hks. split; [by intros [->|]|by right].
  - intros p' Hp'. cbn [set_task_states task_states known_state]. rewrite pm_assign_find, fn_at by done. case_decide as Hpp; [done|by apply Hkn].
  - intros p' Hp' Haw. rewrite Hck. by apply Hti.
Qed.

(** ** Every turn is a step of the network or a wait *)

Abbreviation ok := (net_ok hb us).
Abbreviation roomy := (fits sm hb us cap).
Abbreviation left_over := (turns_left sm hb us).

Lemma waits_turn p w b s h N :
  shows w b s h N -> p ∈ threads -> busy N p = false -> held N p = [] -> run_step p w = Ok (Waiting, w).
Proof.
  intros Hw Hp Hbusy Hl. destruct (sh_thread _ _ _ _ _ Hw p Hp) as (c & d & _ & pt & a & Hst & Ha & Hi & _ & Hop).
  rewrite Hbusy in Hst. rewrite Hl in Hi. by apply (vacant_turn p w b c pt d a (sh_view _ _ _ _ _ Hw)).
Qed.

Lemma box_turned p w b s h N :
  shows w b s h N -> ok N -> roomy N -> fresh b 1 -> p ∈ regs -> busy N p = false -> box N p <> [] -> turned p w b s N.
Proof.
  intros Hw Hok Hfits Hf Hp Hbusy Hbox. destruct (sh_thread _ _ _ _ _ Hw p (list_elem_of_further _ _ _ Hp)) as (c & d & Hrole & pt & a & Hst & Ha & Hi & Hcap & Hop).
  rewrite held_reg in Hi by done. destruct (box_dequeue a (box N p) Hi Hbox) as (l1 & i & l2 & a1 & Hl & Hdq & Hi1 & Hc1 & Hop1 & Hfirst).
  assert (Hq : exists a a1, bus_mail b !! p = Some a /\ aq_dequeue a = (Returns (Some (item_msg i)), a1) /\
     aq_items a1 = item_msg <$> (l1 ++ l2) /\ aq_capacity a1 = cap p /\ aq_closed a1 = false) by (exists a, a1; split_and!; congruence).
  assert (Hitem : if decide (p = hb) then hb_item us i else user_item i).
  { case_decide as Hph; [subst p; pose proof (no_hb _ _ _ Hok) as Hh; rewrite Hl in Hh; by apply Forall_middle in Hh as [? _]|].
    apply elem_of_cons in Hp as [->|Hp]; [done|]. pose proof (no_user _ _ _ Hok p Hp) as Hh. rewrite Hl in Hh. by apply Forall_middle in Hh as [? _]. }
  destruct i as [y|id ts|q id ts at_ms].
  - assert (Hy : 0 <= y < 2 ^ 8) by (by case_decide). apply (state_turned p w b s h N l1 y l2); try done; [|by apply (Hfirst y)].
    by apply (room_for_ack sm hb us cap N p l1 y l2).
  - case_decide as Hph; [done|]. assert (Hpu : p ∈ us) by (by apply elem_of_cons in Hp as [->|?]). destruct Hitem as [Hid Hts].
    apply (echo_turned p w b s h N l1 id ts l2); try done. by apply (room_for_answer sm hb us Hus cap N p l1 id ts l2).
  - case_decide as Hph; [|done]. subst p. apply (answered_turned w b s h N l1 q id ts at_ms l2); try done.
    pose proof (no_beats _ _ _ Hok q Hitem) as Ho. unfold outstanding in Ho.
    rewrite Hl, beat_acks_app, beat_acks_cons, decide_True, app_assoc in Ho by done. cbn [app] in Ho.
    by apply app_cons_at_most_one in Ho as (_ & _ & -> & _).
Qed.

Lemma traffic_turn p w b s h N :
  shows w b s h N -> ok N -> roomy N -> fresh b 1 -> p ∈ threads ->
  (run_step p w = Ok (Waiting, w) /\ busy N p = false /\ held N p = []) \/ turned p w b s N.
Proof.
  intros Hw Hok Hfits Hf Hp. destruct (busy N p) eqn:Hbusy; [right; by apply (loop_turned p w b s h)|].
  destruct (decide (held N p = [])) as [Hl|Hl]; [left; split; [by eapply waits_turn|done]|right].
  apply elem_of_cons in Hp as [->|Hp].
  - rewrite held_sm in Hl. destruct (ack_queue N) as [|[p y] k] eqn:Hk; [done|]. pose proof (no_acks _ _ _ Hok) as Ha. rewrite Hk in Ha.
    apply Forall_cons in Ha as [[Hp Hy] _]. by apply (record_turned w b s h N p y k).
  - rewrite held_reg in Hl by done. apply (box_turned p w b s h N); try done. intros Hb. by rewrite Hb in Hl.
Qed.

(** *** As an invariant with a measure *)

(** Everything under way leads the registered tasks to the states [goal]; the
    queues' counters last for the turns that are left and [more]. *)
Definition traffic (goal : addr -> TaskState) (more : nat) w (n : nat) : Prop :=
  exists b s h N, shows w b s h N /\ ok N /\ roomy N /\ left_over N = n /\ (forall p, p ∈ regs -> heading N p = goal p) /\
    fresh b (Z.of_nat (n + more) + 1) /\ Z.of_nat (n + more) + 1 < 2 ^ 32.

Lemma traffic_step goal more w n p :
  traffic goal more w n -> p ∈ threads ->
  run_step p w = Ok (Waiting, w) \/ exists w' n', run_step p w = Ok (Progress, w') /\ traffic goal more w' n' /\ (n' < n)%nat.
Proof.
  intros (b & s & h & N & Hw & Hok & Hfits & <- & Hgoal & Hf & Hlt) Hp.
  destruct (traffic_turn p w b s h N Hw Hok Hfits) as [(Hrun & _)|(w' & b' & s' & h' & N' & Hrun & Hturn & Hw' & _ & _ & _ & Hf')];
    [by apply (fresh_le b (Z.of_nat (left_over N + more) + 1)); [lia|]|done|by left|right].
  pose proof (net_turn_left sm hb us Hus users_not_hb sm_not_reg p N N' Hturn) as Hleft.
  exists w', (left_over N'). split; [done|]. split; [|done]. exists b', s', h', N'. split; [done|].
  split; [by apply (net_turn_ok sm hb us users_not_hb p N)|]. split; [by apply (net_turn_fits sm hb us Hus users_not_hb sm_not_reg cap p N)|].
  split; [done|]. split; [|split; [|lia]].
  - intros q Hq. rewrite (net_turn_heading sm hb us p N N' q Hturn). by apply Hgoal.
  - apply (fresh_le _ (Z.of_nat (left_over N + more))); [lia|]. by apply Hf'; [lia..|].
Qed.

Lemma traffic_rest goal more w n :
  traffic goal more w n -> (forall p, p ∈ threads -> run_step p w = Ok (Waiting, w)) -> n = 0%nat.
Proof.
  intros (b & s & h & N & Hw & Hok & Hfits & <- & Hgoal & Hf & Hlt) Hwait.
  assert (Hall : forall p, p ∈ threads -> busy N p = false /\ held N p = []).
  { intros p Hp. destruct (traffic_turn p w b s h N Hw Hok Hfits) as [(_ & ?)|(w' & b' & s' & h' & N' & Hrun & _)];
      [by apply (fresh_le b (Z.of_nat (left_over N + more) + 1)); [lia|]|done|done|]. by rewrite (Hwait p Hp) in Hrun. }
  assert (Hbox : forall p, p ∈ regs -> box N p = []).
  { intros p Hp. destruct (Hall p (list_elem_of_further _ _ _ Hp)) as [_ Hl]. rewrite held_reg in Hl by done. by apply fmap_nil_inv in Hl. }
  apply nothing_left; [|done|intros p Hp; by apply Hall].
  destruct (Hall sm (list_elem_of_here _ _)) as [_ Hl]. rewrite held_sm in Hl. by apply fmap_nil_inv in Hl.
Qed.

(** At the end everything has arrived. *)
Lemma traffic_over goal more w :
  traffic goal more w 0 -> exists b s h N, shows w b s h N /\ settled sm hb us N /\ (forall p, p ∈ regs -> heading N p = goal p) /\
    fresh b (Z.of_nat more + 1).
Proof.
  intros (b & s & h & N & Hw & Hok & Hfits & Hz & Hgoal & Hf & _). exists b, s, h, N. split; [done|].
  split; [by apply turns_left_settled|]. by split.
Qed.
End traffic.
