(* ===== verification/Monitored.v ===== *)
(** * Monitored: demands while heartbeats go round

    The periodic thread of the heartbeat task takes turns too: it looks for
    overdue answers and, in RUNNING, sends heartbeats to the tasks that owe
    none. When its check finds no answer overdue such a turn is a round
    of heartbeats of the network or changes nothing there. So a state manager
    can make a demand while messages of both protocols are under way and more
    heartbeats are sent, under every schedule. *)

From stdpp Require Import functions.
From S2P Require Import Prelude Msg Heap QueueSpec Logger World Broker TaskBase StateManager HeartBeat System Handshake Rounds Network Polling Traffic.
#[local] Open Scope Z_scope.

(** ** When heartbeats were sent *)

Section times.
Context {Q : Type} `{QueueImpl Q}.
Implicit Types (w : World Q) (h : HeartBeat) (st : TaskStatus).

(** The clock has shown the times at which the awaited answers were asked for. *)
Definition timed (clk : nat -> clock_reading) h : Prop :=
  forall p st, pm_find p (monitored_tasks h) = Some st -> awaiting_response st = true -> exists n, last_heartbeat_time st = steady_ns (clk n).

Definition class_of (p : addr) w : option Derived := derived <$> tasks w !! p.

Lemma class_hb p w h : hb_at p w h <-> class_of p w = Some (IsHeartBeat h).
Proof.
  unfold hb_at, class_of. split; [by intros (t & -> & <-)|]. destruct (tasks w !! p) as [t|]; cbn; [|done]. intros [= Ht]. by exists t.
Qed.

Lemma class_deliver q p m : leaves (Q := Q) (class_of q) (deliver_message p m).
Proof.
  unfold deliver_message, get_name, log_entry. apply leaves_bind; [case_decide; keep|]. intros nm.
  apply leaves_bind; [keep|]. intros _ w a w' (t & w1 & [-> Ht]%get_task_inv & (u & w2 & Hu & [= _ <-])%M_bind_inv)%M_bind_inv.
  unfold lift in Hu. destruct (q_enqueue (message_queue t) m) as [q'|]; cbn in Hu; [|done]. injection Hu as -> <-.
  unfold class_of, with_task. cbn. destruct (decide (p = q)) as [<-|Hne]; [by rewrite lookup_insert_eq, Ht|by rewrite lookup_insert_ne].
Qed.

Lemma modify_hb_class p f w w' h : hb_at p w h -> modify_hb p f w = Ok (tt, w') -> hb_at p w' (f h).
Proof.
  intros Hh (h1 & w1 & [-> (t & Ht & Hd)]%get_hb_inv & (t' & Ht' & ->)%modify_task_inv)%M_bind_inv.
  destruct Hh as (t0 & Ht0 & Hd0). assert (h1 = h) as -> by congruence. eexists. split; [apply lookup_insert_eq|done].
Qed.

Lemma send_loop_timed this pairs w w' h :
  hb_at this w h -> pm_sorted (monitored_tasks h) -> timed (clock w) h -> send_loop this pairs w = Ok (tt, w') ->
  exists h', hb_at this w' h' /\ timed (clock w) h'.
Proof.
  revert w h. induction pairs as [|[p st] pairs IH]; intros w h Hh Hs Ht; cbn [send_loop]; [intros [= <-]; by exists h|].
  intros (u & w1 & Hone & Hrest)%M_bind_inv. destruct u. destruct (awaiting_response st); [injection Hone as <-; by apply (IH w h)|].
  apply M_bind_inv in Hone as (c & w2 & [= <- <-] & Hone).
  apply M_bind_inv in Hone as (id & w3 & Hid & Hone).
  apply M_bind_inv in Hone as (m & w4 & Hmsg & Hone). rewrite lift_Msg_new in Hmsg. injection Hmsg as _ <-.
  apply M_bind_inv in Hone as (u & w5 & Hmod & Hdel). destruct u.
  apply M_bind_inv in Hid as (h0 & w6 & [-> _]%get_hb_inv & Hid). apply M_bind_inv in Hid as (u & w7 & Hnext & Hid). destruct u.
  injection Hid as _ <-.
  assert (Hh7 : hb_at this w7 (set_next_id (u32 (next_heartbeat_id h0 + 1)) h)) by exact (modify_hb_class this _ (tick w) w7 h Hh Hnext).
  pose proof (modify_hb_class _ _ _ _ _ Hh7 Hmod) as Hh5. set (h5 := assign_status p _ _) in Hh5.
  assert (Hh1 : hb_at this w1 h5) by (apply class_hb; rewrite (class_deliver this _ _ _ _ _ Hdel); by apply class_hb).
  assert (Hc : clock w1 = clock w).
  { rewrite (clock_deliver _ _ _ _ _ Hdel), (clock_modify_hb _ _ _ _ _ Hmod). exact (clock_modify_hb _ _ _ _ _ Hnext). }
  rewrite <- Hc. apply (IH w1 h5); [done|by apply pm_assign_sorted| |done]. rewrite Hc. intros q st' Hq Haw. revert Hq.
  unfold h5. cbn. rewrite pm_assign_find by done. case_decide; [|intros Hq; by apply (Ht q)]. intros [= <-]. cbn. by eexists.
Qed.
End times.

Section monitored.
Context {Q : Type} `{QueueImpl Q} `{UserTasks Q}.
Implicit Types (w : World Q) (b : bus) (s : StateManager) (h : HeartBeat) (d : Derived) (N : network).

Context (sm hb : addr) (us : list addr) (cap : addr -> nat) (limit_ms : Z).
Context (Hsm : 0 < sm < 2 ^ 64) (Hhb : 0 < hb < 2 ^ 64) (Hne : sm <> hb).
Context (Hus : NoDup us) (Hin : forall p, p ∈ us -> 0 < p < 2 ^ 64 /\ p <> sm /\ p <> hb).

Abbreviation regs := (hb :: us).
Abbreviation threads := (sm :: regs).
Abbreviation shows := (shows sm hb us cap limit_ms).
Abbreviation ok := (net_ok hb us).
Abbreviation roomy := (fits sm hb us cap).

Lemma held_user N p : p ∈ regs -> held sm hb N p = item_msg sm hb <$> box N p.
Proof. exact (held_reg sm hb us Hhb Hne Hin N p). Qed.

(** ** A round of heartbeats *)

Lemma shows_hb w b s h N : shows w b s h N -> hb_at hb w h /\ exists c pt, status w hb = Some (c, true, spot (busy N hb), pt, IsHeartBeat h).
Proof.
  intros Hw. destruct (sh_thread _ _ _ _ _ _ _ _ _ _ Hw hb) as (c & d & Hrole & pt & a & Hst & _); [apply list_elem_of_further, list_elem_of_here|].
  assert (Hd : d = IsHeartBeat h).
  { inversion Hrole as [c'|c' Hc'|p' c' d' Hp Hr Hc']; [by destruct Hne|done|]. by destruct (Hin hb Hp) as (_ & _ & ?). }
  subst d. split; [|by exists c, pt]. apply status_Some in Hst as (t & Ht & _ & _ & _ & _ & Hd). by exists t.
Qed.

Lemma shows_monitored w b s h N p st :
  shows w b s h N -> (p, st) ∈ monitored_tasks h <-> p ∈ us /\ st = beat_status N p.
Proof.
  intros Hw. rewrite <- pm_find_elem by apply Hw. split.
  - intros Hf. assert (Hp : p ∈ us) by (apply (sh_monitored _ _ _ _ _ _ _ _ _ _ Hw), pm_find_is_Some; by exists st).
    split; [done|]. rewrite (sh_status _ _ _ _ _ _ _ _ _ _ Hw p Hp) in Hf. congruence.
  - intros [Hp ->]. by apply (sh_status _ _ _ _ _ _ _ _ _ _ Hw).
Qed.

Lemma send_ids_range n pairs p id : 0 <= n < 2 ^ 32 -> (p, id) ∈ send_ids n pairs -> 0 <= id < 2 ^ 32.
Proof.
  intros Hn Hp. assert (Hid : id ∈ (send_ids n pairs).*2) by (apply list_elem_of_fmap; by exists (p, id)).
  rewrite send_ids_snd in Hid by done. apply list_elem_of_fmap in Hid as (i & -> & _). apply u32_range.
Qed.

(** The picture after a round in which [ids] are sent and [h1] is the
    heartbeat task's new state. *)
Definition pulsed (ids : list (addr * Z)) h1 N : network :=
  let st p := if decide (p ∈ us) then default (beat_status N p) (pm_find p (monitored_tasks h1)) else beat_status N p in
  mkNetwork
    (fun p => if decide (p ∈ ids.*1)
              then box N p ++ [Beat (last_heartbeat_id (st p)) (u64 (duration_cast_ms (last_heartbeat_time (st p))))]
              else box N p)
    (ack_queue N) (own_state N) (known_state N) st (busy N).

(** What the round does to queues and statuses. *)
Record round_sent b h N (ids : list (addr * Z)) h1 (mb1 : gmap addr aqueue) : Prop := {
  rs_ids p : p ∈ ids.*1 <-> p ∈ us /\ awaiting_response (beat_status N p) = false;
  rs_sent p id : (p, id) ∈ ids -> 0 <= id < 2 ^ 32 /\ exists tm a, bus_mail b !! p = Some a /\
    mb1 !! p = Some (received (heartbeat hb id tm) a) /\
    beat_status (pulsed ids h1 N) p = mkTaskStatus true id tm (last_response_time (beat_status N p));
  rs_kept p : (p ∉ ids.*1) -> mb1 !! p = bus_mail b !! p /\ beat_status (pulsed ids h1 N) p = beat_status N p /\
    box (pulsed ids h1 N) p = box N p;
  rs_status p : p ∈ us -> pm_find p (monitored_tasks h1) = Some (beat_status (pulsed ids h1 N) p);
  rs_keys p : p ∈ (monitored_tasks h1).*1 <-> p ∈ us
}.

Lemma send_round w b s h N :
  shows w b s h N -> ok N -> roomy N -> fresh b 1 ->
  exists w1 h1 mb1, send_loop hb (monitored_tasks h) w = Ok (tt, w1) /\ mailboxes w1 mb1 /\ hb_at hb w1 h1 /\
    mail_except [hb] w w1 /\ broker w1 = broker w /\ pm_sorted (monitored_tasks h1) /\
    response_timeout_ms h1 = response_timeout_ms h /\ 0 <= next_heartbeat_id h1 < 2 ^ 32 /\
    round_sent b h N (send_ids (next_heartbeat_id h) (monitored_tasks h)) h1 mb1.
Proof.
  intros Hw Hok Hfits Hf. destruct (shows_hb _ _ _ _ _ Hw) as [Hat _].
  destruct (sh_view _ _ _ _ _ _ _ _ _ _ Hw) as (_ & _ & Hm). destruct (sh_monitor _ _ _ _ _ _ _ _ _ _ Hw) as [Hs Hself Hid].
  pose proof (fun p st => shows_monitored w b s h N p st Hw) as Hmon.
  destruct (send_loop_run hb (monitored_tasks h) w h (bus_mail b) Hm Hat Hhb Hs (pm_sorted_NoDup _ Hs) Hself Hid)
    as (w1 & h1 & mb1 & Hrun & Hm1 & Hat1 & He1 & Hb1 & Hs1 & Heq & Hout & Hsent).
  { intros p st [Hp ->]%Hmon Haw.
    destruct (sh_thread _ _ _ _ _ _ _ _ _ _ Hw p) as (c & d & _ & pt & a & _ & Ha & Hi & Hcap & _); [by do 2 apply list_elem_of_further|].
    exists a. split; [done|]. split; [|specialize (Hf p a Ha); lia]. unfold has_room.
    rewrite Hi, Hcap, held_user, length_fmap by (by apply list_elem_of_further). by apply (room_for_beat sm hb us). }
  exists w1, h1, mb1. set (ids := send_ids (next_heartbeat_id h) (monitored_tasks h)) in *.
  do 6 (split; [done|]). split; [by rewrite Heq|]. split; [rewrite Heq; apply u32_range|].
  assert (Hids : forall p, p ∈ ids.*1 <-> p ∈ us /\ awaiting_response (beat_status N p) = false).
  { intros p. unfold ids. rewrite send_ids_keys. split; [by intros (st & [Hp ->]%Hmon & Haw)|].
    intros [Hp Haw]. exists (beat_status N p). by rewrite Hmon. }
  assert (Hstat : forall p, p ∈ us -> pm_find p (monitored_tasks h1) = Some (beat_status (pulsed ids h1 N) p)).
  { intros p Hp. cbn [pulsed beat_status]. rewrite decide_True by done. destruct (decide (p ∈ ids.*1)) as [Hi|Hi].
    - apply list_elem_of_fmap in Hi as ([p' id] & -> & Hi). cbn [fst]. by destruct (Hsent p' id Hi) as (a & st & tm & _ & _ & _ & _ & ->).
    - destruct (Hout p Hi) as [_ ->]. by rewrite (sh_status _ _ _ _ _ _ _ _ _ _ Hw). }
  split; [done| | |done|].
  - intros p id Hp. assert (Hpu : p ∈ us) by (apply Hids, list_elem_of_fmap; by exists (p, id)).
    split; [by apply (send_ids_range (next_heartbeat_id h) (monitored_tasks h) p)|].
    destruct (Hsent p id Hp) as (a & st & tm & Ha & [_ ->]%Hmon & _ & Hmb & Hfind). exists tm, a. split; [done|]. split; [done|].
    rewrite (Hstat p Hpu) in Hfind. congruence.
  - intros p Hp. destruct (Hout p Hp) as [Hmb Hfind]. split; [done|]. cbn [pulsed beat_status box].
    rewrite (decide_False (P := p ∈ ids.*1)) by done. split; [|done]. case_decide as Hpu; [|done].
    by rewrite Hfind, (sh_status _ _ _ _ _ _ _ _ _ _ Hw).
  - intros p. rewrite <- (sh_monitored _ _ _ _ _ _ _ _ _ _ Hw p), <- !pm_find_is_Some. destruct (decide (p ∈ us)) as [Hp|Hp].
    + rewrite (Hstat p Hp), (sh_status _ _ _ _ _ _ _ _ _ _ Hw p Hp). split; by eexists.
    + assert (Hpi : p ∉ ids.*1) by (rewrite Hids; by intros [? _]). by destruct (Hout p Hpi) as [_ ->].
Qed.

(** A task that is sent a heartbeat. *)
Lemma pulsed_box b h N ids h1 mb1 p id tm :
  round_sent b h N ids h1 mb1 -> (p, id) ∈ ids ->
  beat_status (pulsed ids h1 N) p = mkTaskStatus true id tm (last_response_time (beat_status N p)) ->
  box (pulsed ids h1 N) p = box N p ++ [Beat id (u64 (duration_cast_ms tm))].
Proof.
  intros Hr Hp Hst. revert Hst. cbn [pulsed beat_status box].
  rewrite (decide_True (P := p ∈ ids.*1)) by (apply list_elem_of_fmap; by exists (p, id)). by intros ->.
Qed.

Lemma pulsed_pulse b h N ids h1 mb1 : round_sent b h N ids h1 mb1 -> pulse us N (pulsed ids h1 N).
Proof.
  intros Hr. do 4 (split; [done|]). split.
  - intros p Hp. assert (Hpi : p ∉ ids.*1) by (rewrite (rs_ids _ _ _ _ _ _ Hr); by intros [? _]).
    by destruct (rs_kept _ _ _ _ _ _ Hr p Hpi) as (_ & -> & ->).
  - intros p Hp. destruct (awaiting_response (beat_status N p)) eqn:Haw.
    + assert (Hpi : p ∉ ids.*1) by (rewrite (rs_ids _ _ _ _ _ _ Hr), Haw; by intros [_ ?]).
      by destruct (rs_kept _ _ _ _ _ _ Hr p Hpi) as (_ & -> & ->).
    + assert (Hpi : p ∈ ids.*1) by (by apply (rs_ids _ _ _ _ _ _ Hr)). apply list_elem_of_fmap in Hpi as ([p' id] & -> & Hpid).
      destruct (rs_sent _ _ _ _ _ _ Hr p' id Hpid) as (Hid & tm & a & _ & _ & Hst). exists id, (u64 (duration_cast_ms tm)), tm.
      split; [done|]. split; [apply u64_range|]. split; [|done]. by apply (pulsed_box b h N ids h1 mb1).
Qed.

Lemma pulsed_threads w b s h N w1 h1 mb1 ids :
  shows w b s h N -> round_sent b h N ids h1 mb1 -> hb_at hb w1 h1 -> mail_except [hb] w w1 ->
  threads_of hb w1 = threads_of hb w -> let b1 := mkBus (bus_on b) (bus_subs b) mb1 in
  forall p, p ∈ threads -> exists c d, role sm hb us s h1 (pulsed ids h1 N) p c d /\
    at_work cap w1 b1 p c (busy N p) d (held sm hb (pulsed ids h1 N) p).
Proof.
  intros Hw Hr Hat Hmail Hth b1 p Hp. destruct (sh_thread _ _ _ _ _ _ _ _ _ _ Hw p Hp) as (c & d & Hrole & pt & a & Hst & Ha & Hi & Hcap & Hop).
  destruct (decide (p = hb)) as [->|Hph].
  - exists c, (IsHeartBeat h1). split.
    + apply role_poller. inversion Hrole as [c'|c' Hc'|p' c' d' Hp' Hr' Hc']; [by destruct Hne|done|by destruct (Hin hb Hp') as (_ & _ & ?)].
    + assert (Hni : hb ∉ ids.*1) by (rewrite (rs_ids _ _ _ _ _ _ Hr); intros [Hb _]; by destruct (Hin hb Hb) as (_ & _ & ?)).
      destruct (rs_kept _ _ _ _ _ _ Hr hb Hni) as (Hmb & _ & Hbox). exists pt, a. split; [|split; [by cbn [bus_mail b1]; rewrite Hmb|]].
      * apply status_intro; [|done]. rewrite Hth. by eapply status_threads.
      * split; [|done]. rewrite held_user in Hi |- * by apply list_elem_of_here. by rewrite Hbox.
  - assert (Hst1 : status w1 p = status w p) by (by apply (status_except [hb]); [|intros Hx%list_elem_of_singleton]).
    assert (Hrole1 : role sm hb us s h1 (pulsed ids h1 N) p c d) by (destruct Hrole as [c'|c' Hc'|p' c' d' Hp' Hr' Hc'];
      [by constructor|done|by constructor]).
    exists c, d. split; [done|]. exists pt. destruct (decide (p ∈ ids.*1)) as [Hpi|Hpi].
    + pose proof Hpi as [Hpu _]%(rs_ids _ _ _ _ _ _ Hr). apply list_elem_of_fmap in Hpi as ([p' id] & -> & Hpid). cbn [fst] in *.
      destruct (rs_sent _ _ _ _ _ _ Hr p' id Hpid) as (_ & tm & a' & Ha' & Hmb & Hs'). assert (a' = a) as -> by congruence.
      exists (received (heartbeat hb id tm) a). rewrite Hst1. split_and!; [done|done| |done|done].
      rewrite held_user in Hi |- * by (by apply list_elem_of_further). cbn [received aq_items].
      by rewrite (pulsed_box b h N ids h1 mb1 p' id tm Hr Hpid Hs'), fmap_app, Hi.
    + destruct (rs_kept _ _ _ _ _ _ Hr p Hpi) as (Hmb & _ & Hbox). exists a. rewrite Hst1. split; [done|]. split; [by cbn [bus_mail b1]; rewrite Hmb|].
      split; [|done]. rewrite Hi. unfold held. by rewrite Hbox.
Qed.

Lemma send_shows w b s h N :
  shows w b s h N -> ok N -> roomy N -> fresh b 1 ->
  exists w1 b1 h1 N1, send_heartbeat hb w = Ok (tt, w1) /\ pulse us N N1 /\ shows w1 b1 s h1 N1 /\ clock w1 = clock w /\
    forall k, fresh b (k + 1) -> fresh b1 k.
Proof.
  intros Hw Hok Hfits Hf. destruct (shows_hb _ _ _ _ _ Hw) as [Hat _].
  destruct (send_round w b s h N Hw Hok Hfits Hf) as (w1 & h1 & mb1 & Hrun & Hm1 & Hat1 & He1 & Hb1 & Hs1 & Hto & Hid1 & Hr).
  set (ids := send_ids _ _) in Hr. pose proof (clock_send_loop _ _ _ _ _ Hrun) as Hck.
  pose proof (pulsed_threads w b s h N w1 h1 mb1 ids Hw Hr Hat1 He1 (threads_send_loop hb _ _ _ _ _ Hrun)) as Hth1.
  destruct (send_loop_timed hb (monitored_tasks h) w w1 h Hat) as (h1' & Hat1' & Htimed); [apply (sh_monitor _ _ _ _ _ _ _ _ _ _ Hw)| |done|].
  { intros p st Hp%pm_find_elem Haw; [|apply (sh_monitor _ _ _ _ _ _ _ _ _ _ Hw)]. apply (shows_monitored _ _ _ _ _ _ _ Hw) in Hp as [Hp ->].
    by apply (sh_times _ _ _ _ _ _ _ _ _ _ Hw). }
  assert (h1' = h1) as -> by (apply class_hb in Hat1, Hat1'; congruence).
  exists w1, (mkBus (bus_on b) (bus_subs b) mb1), h1, (pulsed ids h1 N).
  split; [unfold send_heartbeat; by rewrite (M_bind_Ok _ _ _ _ _ (hb_at_run _ _ _ Hat))|].
  split; [by apply (pulsed_pulse b h N ids h1 mb1)|]. split; [|split; [done|]].
  - destruct Hw as [(Hvon & Hvs & Hv) Hwf Hon Ha1 Ha2 Hth Hso Hk Hkn Htg Hmo Hmd Hsta Hli Hti]. split; try done.
    + split; [|split]; [by rewrite Hb1|by rewrite Hb1|done].
    + split; [done| |done]. rewrite (rs_keys _ _ _ _ _ _ Hr). intros Hb. by destruct (Hin hb Hb) as (_ & _ & ?).
    + apply Hr.
    + apply Hr.
    + by rewrite Hto.
    + intros p Hp Haw. rewrite Hck. by apply (Htimed p); [apply Hr|].
  - intros k Hk p z Hz. cbn [bus_mail] in Hz. destruct (decide (p ∈ ids.*1)) as [Hp|Hp].
    + apply list_elem_of_fmap in Hp as ([p' id] & -> & Hp). cbn [fst] in Hz.
      destruct (rs_sent _ _ _ _ _ _ Hr p' id Hp) as (_ & tm & a & Ha & Hmb & _). rewrite Hmb in Hz. injection Hz as <-.
      specialize (Hk p' a Ha). cbn. lia.
    + destruct (rs_kept _ _ _ _ _ _ Hr p Hp) as (Hmb & _). rewrite Hmb in Hz. specialize (Hk p z Hz). lia.
Qed.

(** ** A turn of the periodic thread *)

(** If the periodic thread is about to check, then at the reading of the clock
    the check will make, no answer is overdue. *)
Definition nothing_overdue w : Prop :=
  forall t h, tasks w !! hb = Some t -> derived t = IsHeartBeat h -> periodic_thread t = LoopHead ->
  forall p st, (p, st) ∈ monitored_tasks h -> timed_out (steady_ns (clock w (ticks w))) (response_timeout_ms h) st = false.

(** Another place of the periodic thread, another reading: the same picture. *)
Lemma shows_again w b s h N w' :
  shows w b s h N -> bus_view w' b -> clock w' = clock w ->
  (forall p, (fun r => (r.1.1, r.2)) <$> status w' p = (fun r => (r.1.1, r.2)) <$> status w p) -> shows w' b s h N.
Proof.
  intros [Hv Hwf Hon Ha1 Ha2 Hth Hso Hk Hkn Htg Hmo Hmd Hsta Hli Hti] Hv' Hck Hs. split; try done.
  - intros p Hp. destruct (Hth p Hp) as (c & d & Hrole & pt & a & Hst & Ha & Hrest). exists c, d. split; [done|].
    specialize (Hs p). rewrite Hst in Hs. destruct (status w' p) as [[[[[c' r'] th'] pt'] d']|] eqn:Hst'; [|done].
    cbn in Hs. injection Hs as -> -> -> ->. by exists pt', a.
  - intros p Hp Haw. rewrite Hck. by apply Hti.
Qed.

Lemma shows_periodic w b s h N t x : shows w b s h N -> tasks w !! hb = Some t -> shows (with_task hb (set_periodic_thread x t) w) b s h N.
Proof.
  intros Hw Ht. apply (shows_again w b s h N); [done| |done|].
  - apply (bus_view_fields w b hb t); [done|done|apply Hw].
  - intros p. rewrite status_with_task. case_decide as Hp; [|done]. subst p. unfold status. by rewrite Ht.
Qed.

Lemma shows_tick w b s h N : shows w b s h N -> shows (tick w) b s h N.
Proof. intros Hw. apply (shows_again w b s h N); [done|apply Hw|done..]. Qed.

Lemma check_shows w b s h N t :
  shows w b s h N -> tasks w !! hb = Some t -> derived t = IsHeartBeat h -> periodic_thread t = LoopHead -> nothing_overdue w ->
  check_for_timeouts hb w = Ok (tt, tick w).
Proof.
  intros Hw Ht Hd Hpt Hp. destruct (shows_hb _ _ _ _ _ (shows_tick _ _ _ _ _ Hw)) as [Hat _]. unfold check_for_timeouts.
  rewrite (M_bind_Ok _ _ w _ (tick w) eq_refl), (M_bind_Ok _ _ _ _ _ (hb_at_run _ _ _ Hat)).
  apply (check_on_time hb _ _ _ h Hat). by apply (Hp t h).
Qed.

Lemma periodic_shows w b s h N :
  shows w b s h N -> ok N -> roomy N -> fresh b 1 -> nothing_overdue w ->
  exists r w1 b1 h1 N1, run_periodic_step hb w = Ok (r, w1) /\ (N1 = N \/ pulse us N N1) /\ shows w1 b1 s h1 N1 /\ clock w1 = clock w /\
    forall k, fresh b (k + 1) -> fresh b1 k.
Proof.
  intros Hw Hok Hfits Hf Hp. destruct (shows_hb _ _ _ _ _ Hw) as [(t & Ht & Hd) (c & pt & Hst)].
  apply status_Some in Hst as (t' & Ht' & _ & Hr & _). assert (t' = t) as -> by congruence.
  assert (Hless : forall k, fresh b (k + 1) -> fresh b k) by (intros k Hk p z Hz; specialize (Hk p z Hz); lia).
  unfold run_periodic_step. rewrite (M_bind_Ok _ _ _ _ _ (get_task_run hb t w Ht)). destruct (periodic_thread t) as [| | |until_ns|] eqn:Hpt.
  1, 3, 5: exists Over, w, b, h, N; by split_and!; try left.
  - rewrite Hr.
    assert (Hproc : exists w1 b1 h1 N1, periodic_task_process hb w = Ok (tt, w1) /\ (N1 = N \/ pulse us N N1) /\ shows w1 b1 s h1 N1 /\
      clock w1 = clock w /\ forall k, fresh b (k + 1) -> fresh b1 k).
    { cbn [periodic_task_process dynamic_dispatch]. unfold dispatch. rewrite (M_bind_Ok _ _ _ _ _ (get_task_run hb t w Ht)), Hd.
      unfold HeartBeat_periodic_task_process, get_current_state. rewrite (M_bind_Ok _ _ _ _ _ (check_shows _ _ _ _ _ _ Hw Ht Hd Hpt Hp)).
      rewrite (M_bind_Ok _ _ (tick w) (current_state t) (tick w)) by (by rewrite (M_bind_Ok _ _ _ _ _ (get_task_run hb t (tick w) Ht))).
      case_decide.
      - destruct (send_shows (tick w) b s h N (shows_tick _ _ _ _ _ Hw) Hok Hfits Hf) as (w1 & b1 & h1 & N1 & Hrun & Hpu & Hw1 & Hck & Hf1).
        exists w1, b1, h1, N1. split_and!; try done. by right.
      - exists (tick w), b, h, N. split_and!; try done; [by left|by apply shows_tick]. }
    destruct Hproc as (w1 & b1 & h1 & N1 & Hrun & Hor & Hw1 & Hck & Hf1). rewrite (M_bind_Ok _ _ _ _ _ Hrun).
    rewrite (M_bind_Ok _ _ w1 _ (tick w1) eq_refl). pose proof (shows_tick _ _ _ _ _ Hw1) as Hw2.
    destruct (shows_hb _ _ _ _ _ Hw2) as [(t2 & Ht2 & _) _]. rewrite (M_bind_Ok _ _ _ _ _ (get_task_run hb t2 (tick w1) Ht2)).
    rewrite (M_bind_Ok _ _ _ _ _ (modify_task_with hb _ t2 (tick w1) Ht2)). exists Progress. eexists _, b1, h1, N1. split; [done|].
    split; [done|]. split; [by apply shows_periodic|]. by split.
  - rewrite (M_bind_Ok _ _ w _ (tick w) eq_refl). case_decide.
    + exists Waiting, (tick w), b, h, N. split_and!; try done; [by left|by apply shows_tick].
    + rewrite (M_bind_Ok _ _ _ _ _ (modify_task_with hb _ t (tick w) Ht)). exists Progress. eexists _, b, h, N. split; [done|].
      split; [by left|]. split; [by apply shows_periodic; [apply shows_tick|]|]. by split.
Qed.

(** ** Any turns, in any order *)

(** A turn of a message thread, or of a periodic thread. *)
Inductive activity := MessageTurn (p : addr) | PeriodicTurn (p : addr).

Definition act (e : activity) : M Q unit :=
  match e with
  | MessageTurn p => _ ← run_step p; mret tt
  | PeriodicTurn p => _ ← run_periodic_step p; mret tt
  end.

Fixpoint activities (l : list activity) : M Q unit :=
  match l with
  | [] => mret tt
  | e :: l' => _ ← act e; activities l'
  end.

(** The message threads of all, and the periodic thread of the heartbeat task. *)
Definition allowed (e : activity) : Prop :=
  match e with MessageTurn p => p ∈ threads | PeriodicTurn p => p = hb end.

(** Along the turns [l], whenever the heartbeat task checks, no answer is
    overdue. *)
Fixpoint on_time (l : list activity) w : Prop :=
  match l with
  | [] => True
  | e :: l' =>
      (e = PeriodicTurn hb -> nothing_overdue w) /\
      match act e w with Ok (_, w') => on_time l' w' | Err _ => True end
  end.

(** Under way to [goal], with queues whose counters last for [m] messages. *)
Definition flows (goal : addr -> TaskState) (work m : nat) w : Prop :=
  exists b s h N, shows w b s h N /\ ok N /\ roomy N /\ (forall p, p ∈ regs -> heading N p = goal p) /\
    (workload hb us N <= work)%nat /\ fresh b (Z.of_nat m + 1) /\ Z.of_nat m + 1 < 2 ^ 32.

(** Every activity is a step of the network or leaves it as it is. *)
Lemma act_shows e w b s h N :
  shows w b s h N -> ok N -> roomy N -> fresh b 1 -> allowed e -> (e = PeriodicTurn hb -> nothing_overdue w) ->
  exists w' b' s' h' N', act e w = Ok (tt, w') /\ (N' = N \/ net_step sm hb us N N') /\ shows w' b' s' h' N' /\ clock w' = clock w /\
    forall k, 0 <= k -> k + 1 < 2 ^ 32 -> fresh b (k + 1) -> fresh b' k.
Proof.
  intros Hw Hok Hfits Hf He Hp. destruct e as [p|p]; cbn [act allowed] in *.
  - destruct (traffic_turn sm hb us cap limit_ms Hsm Hhb Hne Hus Hin p w b s h N Hw Hok Hfits Hf He)
      as [(Hrun & _)|(w' & b' & s' & h' & N' & Hrun & Hturn & Hw' & Hck & _ & _ & Hf')]; rewrite (M_bind_Ok _ _ _ _ _ Hrun).
    + exists w, b, s, h, N. do 2 (split; [by try left|]). do 2 (split; [done|]). intros k _ _ Hk. apply (fresh_le _ (k + 1)); [lia|done].
    + exists w', b', s', h', N'. split; [done|]. split; [right; by apply (ns_turn _ _ _ _ _ p)|]. by split_and!.
  - subst p. destruct (periodic_shows w b s h N Hw Hok Hfits Hf (Hp eq_refl)) as (r & w1 & b1 & h1 & N1 & Hrun & Hor & Hw1 & Hck & Hf').
    rewrite (M_bind_Ok _ _ _ _ _ Hrun). exists w1, b1, s, h1, N1. split; [done|]. split; [|split_and!; [done..|intros k _ _; apply Hf']].
    destruct Hor as [->|Hpu]; [by left|right; by apply ns_pulse].
Qed.

Lemma flows_act goal work m e w :
  flows goal work (S m) w -> allowed e -> (e = PeriodicTurn hb -> nothing_overdue w) ->
  exists w', act e w = Ok (tt, w') /\ flows goal work m w'.
Proof.
  intros (b & s & h & N & Hw & Hok & Hfits & Hgoal & Hwork & Hf & Hlt) He Hp.
  destruct (act_shows e w b s h N Hw Hok Hfits) as (w' & b' & s' & h' & N' & Hrun & Hstep & Hw' & Hck & Hf'); [|done..|].
  { apply (fresh_le _ (Z.of_nat (S m) + 1)); [lia|done]. }
  assert (Hfm : fresh b' (Z.of_nat m + 1)) by (apply Hf'; [lia..|]; by replace (Z.of_nat m + 1 + 1) with (Z.of_nat (S m) + 1) by lia).
  exists w'. split; [done|]. exists b', s', h', N'. split; [done|]. destruct Hstep as [->|Hstep]; [by split_and!; try done; lia|].
  destruct (net_step_keeps sm hb us Hus (users_not_hb sm hb us Hin) (sm_not_reg sm hb us Hsm Hne Hin) cap N N' Hstep Hok Hfits)
    as (Hok' & Hfits' & Hhead & Hreq).
  do 2 (split; [done|]). split; [intros p Hpr; by rewrite Hhead, Hgoal|]. split; [unfold workload in *; lia|]. split; [done|lia].
Qed.

Lemma flows_activities goal work l m w :
  flows goal work (length l + m) w -> Forall allowed l -> on_time l w ->
  exists w', activities l w = Ok (tt, w') /\ flows goal work m w'.
Proof.
  intros Hw Hl. revert w Hw. induction Hl as [|e l He Hl IH]; intros w Hw; cbn [activities on_time]; [by exists w|]. intros [Hp Ht].
  destruct (flows_act goal work (length l + m) e w Hw He Hp) as (w1 & Hrun & Hw1). rewrite Hrun in Ht.
  rewrite (M_bind_Ok _ _ _ _ _ Hrun). by apply IH.
Qed.

(** A clock that never shows more than the limit between any two of its
    readings is enough for that. *)
Definition punctual (clk : nat -> clock_reading) : Prop :=
  forall i j, duration_cast_ms (steady_ns (clk j) - steady_ns (clk i)) <= limit_ms.

Lemma punctual_overdue w b s h N : shows w b s h N -> punctual (clock w) -> nothing_overdue w.
Proof.
  intros Hw Hp t h' Ht Hd _ p st Hin'. destruct (shows_hb _ _ _ _ _ Hw) as [(t0 & Ht0 & Hd0) _].
  assert (h' = h) as -> by congruence. apply (shows_monitored _ _ _ _ _ _ _ Hw) in Hin' as [Hpu ->]. unfold timed_out.
  destruct (awaiting_response (beat_status N p)) eqn:Haw; [|done]. cbn [andb]. apply bool_decide_eq_false.
  destruct (sh_times _ _ _ _ _ _ _ _ _ _ Hw p Hpu Haw) as [n ->]. rewrite (sh_limit _ _ _ _ _ _ _ _ _ _ Hw).
  specialize (Hp n (ticks w)). lia.
Qed.

Lemma punctual_on_time l w b s h N :
  shows w b s h N -> ok N -> roomy N -> punctual (clock w) -> Forall allowed l ->
  fresh b (Z.of_nat (length l) + 1) -> Z.of_nat (length l) + 1 < 2 ^ 32 -> on_time l w.
Proof.
  intros Hw Hok Hfits Hp Hl. revert w b s h N Hw Hok Hfits Hp.
  induction Hl as [|e l He Hl IH]; intros w b s h N Hw Hok Hfits Hp Hf Hlt; cbn [length on_time] in *; [done|].
  pose proof (punctual_overdue w b s h N Hw Hp) as Hn.
  destruct (act_shows e w b s h N Hw Hok Hfits) as (w1 & b1 & s1 & h1 & N1 & R1 & Hstep & Hw1 & Hck & Hf1); [|done..|].
  { apply (fresh_le _ (Z.of_nat (S (length l)) + 1)); [lia|done]. }
  rewrite R1. split; [done|].
  assert (Hkeep : ok N1 /\ roomy N1).
  { destruct Hstep as [->|Hstep]; [done|].
    by destruct (net_step_keeps sm hb us Hus (users_not_hb sm hb us Hin) (sm_not_reg sm hb us Hsm Hne Hin) cap N N1 Hstep Hok Hfits)
      as (? & ? & _). }
  destruct Hkeep as [Hok1 Hfits1]. apply (IH w1 b1 s1 h1 N1 Hw1 Hok1 Hfits1); [by rewrite Hck| |lia].
  apply Hf1; [lia..|]. by replace (Z.of_nat (length l) + 1 + 1) with (Z.of_nat (S (length l)) + 1) by lia.
Qed.

Lemma flows_rounds goal work rounds w :
  flows goal work work w -> Forall (round threads) rounds -> (work <= length rounds)%nat ->
  exists w' b' s' h' N', schedule (concat rounds) w = Ok (tt, w') /\ shows w' b' s' h' N' /\ settled sm hb us N' /\
    forall p, p ∈ regs -> heading N' p = goal p.
Proof.
  intros (b & s & h & N & Hw & Hok & Hfits & Hgoal & Hwork & Hf & Hlt) Hr Hlen.
  pose proof (turns_left_bound sm hb us N Hok) as Hbound.
  destruct (rounds_finish threads (traffic sm hb us cap limit_ms goal 0) (traffic_step sm hb us cap limit_ms Hsm Hhb Hne Hus Hin goal 0)
    (traffic_rest sm hb us cap limit_ms Hsm Hhb Hne Hus Hin goal 0) rounds w (turns_left sm hb us N)) as (w' & Hrun & Hw'); [|done|lia|].
  - exists b, s, h, N. do 5 (split; [done|]). split; [apply (fresh_le _ (Z.of_nat work + 1)); [lia|done]|lia].
  - destruct (traffic_over sm hb us cap limit_ms Hus goal 0 w' Hw') as (b' & s' & h' & N' & Hw2 & Hse & Hgo & _).
    by exists w', b', s', h', N'.
Qed.

(** What a settled picture says of the program. *)
Lemma settled_shows w b s h N p :
  shows w b s h N -> settled sm hb us N -> p ∈ regs ->
  current_state <$> tasks w !! p = Some (heading N p) /\ pm_find p (task_states s) = Some (heading N p) /\
  run_step p w = Ok (Waiting, w).
Proof.
  intros Hw Hse Hp. assert (Hpt : p ∈ threads) by (by apply list_elem_of_further). split; [|split].
  - destruct (sh_thread _ _ _ _ _ _ _ _ _ _ Hw p Hpt) as (c & d & Hrole & pt & a & Hst & _).
    assert (Hc : c = own_state N p) by (by apply (role_reg sm hb us Hsm Hne Hin s h N p c d)).
    apply status_Some in Hst as (t & -> & <- & _). cbn. by rewrite Hc, <- (se_own _ _ _ _ Hse p Hp).
  - rewrite <- (se_known _ _ _ _ Hse p Hp). by apply (sh_known _ _ _ _ _ _ _ _ _ _ Hw).
  - apply (waits_turn sm hb us cap limit_ms p w b s h N Hw Hpt); [by apply (se_busy _ _ _ _ Hse)|].
    by rewrite held_user, (se_box _ _ _ _ Hse).
Qed.

(** ** The broadcast of a demand *)

(** The registered tasks are subscribed to requests, the state manager is not,
    and whoever else is has room for one. *)
Definition audience b (x : TaskState) : Prop :=
  let l := default [] (bus_subs b !! Z.to_nat Type_StateMsg) in
  (forall p, p ∈ regs -> p ∈ l) /\ (sm ∉ l) /\ forall p a, p ∈ l -> (p ∉ regs) -> bus_mail b !! p = Some a -> has_room a.

Lemma audience_room w b s h N x :
  shows w b s h N -> ok N -> fits sm hb us cap (broadcast hb us x N) -> audience b x -> subscribers_room b (state_request sm x).
Proof.
  intros Hw Hok Hfits (Hl & Hsl & Ho) p a Hp Ha. destruct (decide (p ∈ regs)) as [Hpr|Hpr]; [|by apply (Ho p a)].
  destruct (sh_thread _ _ _ _ _ _ _ _ _ _ Hw p) as (c & d & _ & pt & a' & _ & Ha' & Hi & Hcap & _); [by apply list_elem_of_further|].
  assert (a' = a) as -> by congruence. unfold has_room. rewrite Hi, Hcap, held_user, length_fmap by done.
  by apply (room_for_request sm hb us Hus cap x N p).
Qed.

Lemma transition_shows w b s h N x :
  shows w b s h N -> ok N -> fits sm hb us cap (broadcast hb us x N) -> fresh b 1 -> audience b x ->
  exists w1 b1 s1, StateManager_transition_to_state sm x w = Ok (tt, w1) /\ task_states s1 = task_states s /\
    target_state s1 = target_state s /\ shows w1 b1 s1 h (broadcast hb us x N) /\ clock w1 = clock w /\ pruned b b1 /\
    forall k, fresh b (k + 1) -> fresh b1 k.
Proof.
  intros Hw Hok Hfits Hf Haud. pose proof (audience_room w b s h N x Hw Hok Hfits Haud) as Hroom. destruct Haud as (Hl & Hsl & _).
  pose proof Hw as [Hv Hwf Hon Ha1 Ha2 Hth Hso Hk Hkn Htg Hmo Hmd Hsta Hli Hti].
  destruct (Hth sm (list_elem_of_here _ _)) as (cm & dm & Hrm & ptm & a0 & Hsm0 & Ha0 & Hi0 & Hcap0 & Hop0).
  assert (Hdm : dm = IsStateManager s).
  { inversion Hrm as [c'|c' Hc'|p' c' d' Hp' Hr' Hc']; [done|by destruct Hne|by destruct (Hin sm Hp') as (_ & ? & _)]. }
  subst dm. pose proof Hsm0 as (t & Ht & Hc & Hr & Hqt & Hpt & Hd)%status_Some.
  destruct (bus_publish_room b (state_request sm x) Hwf (state_request_wf sm x ltac:(lia)) Hon) as (mb & Hpub & Hmb); [right; by exists a0|done|].
  pose proof (sm_transition_view sm x w b t s Hv Hwf Hf Ht Hd Hsm) as Hbegin. rewrite Hpub in Hbegin.
  destruct Hbegin as (w1 & R1 & V1 & Hom). set (s1 := set_sm_current_state x s) in *. set (b1 := mkBus true _ mb) in *.
  assert (S1 : forall q, status w1 q = if decide (sm = q) then Some (cm, true, spot (busy N sm), ptm, IsStateManager s1) else status w q).
  { intros q. rewrite (status_mail _ _ q Hom), status_with_task. cbn. by rewrite Hc, Hr, Hqt, Hpt. }
  assert (Hm : forall q, bus_mail b1 !! q = if decide (q ∈ default [] (bus_subs b !! Z.to_nat Type_StateMsg))
                                   then received (state_request sm x) <$> bus_mail b !! q else bus_mail b !! q) by exact Hmb.
  pose proof (clock_sm_transition _ _ _ _ _ R1) as Hck.
  exists w1, b1, s1. do 3 (split; [done|]). split; [|split; [done|split; [exact (bus_publish_pruned b _ _ Hpub)|]]].
  - split; try done.
    + exact (bus_publish_wf b _ _ Hwf Hpub).
    + cbn [bus_subs b1]. by rewrite list_lookup_insert_ne.
    + cbn [bus_subs b1]. by rewrite list_lookup_insert_ne.
    + intros p Hp. destruct (decide (p = sm)) as [->|Hps].
      * exists cm, (IsStateManager s1). split; [by constructor|]. exists ptm, a0. rewrite S1, decide_True by done.
        rewrite Hm, decide_False by done. split_and!; [done|done|by rewrite Hi0, !held_sm|done..].
      * assert (Hpr : p ∈ regs) by (by apply elem_of_cons in Hp as [->|?]).
        apply (thread_receives sm hb us cap (state_request sm x) s h N s1 h _ w b); try done; [by apply Hth|..].
        -- rewrite !held_user by done. cbn [broadcast box]. by rewrite decide_True, fmap_app.
        -- by rewrite S1, decide_False by (by apply not_eq_sym).
        -- by rewrite Hm, decide_True by (by apply Hl).
    + intros p Hp Haw. rewrite Hck. by apply Hti.
  - intros k Hf1 q z. rewrite Hm. case_decide; [|intros Hz; specialize (Hf1 q z Hz); lia].
    destruct (bus_mail b !! q) as [a|] eqn:Ha; cbn; [|done]. intros [= <-]. cbn. specialize (Hf1 q a Ha). lia.
Qed.

Lemma shows_manager w b s h N : shows w b s h N -> exists t, tasks w !! sm = Some t /\ derived t = IsStateManager s.
Proof.
  intros Hw. destruct (sh_thread _ _ _ _ _ _ _ _ _ _ Hw sm (list_elem_of_here _ _)) as (c & d & Hrole & pt & a & Hst & _).
  assert (Hd : d = IsStateManager s).
  { inversion Hrole as [c'|c' Hc'|p' c' d' Hp' Hr' Hc']; [done|by destruct Hne|by destruct (Hin sm Hp') as (_ & ? & _)]. }
  subst d. apply status_Some in Hst as (t & Ht & _ & _ & _ & _ & Hd). by exists t.
Qed.

(** The first part of a demand: [target_state] is set, with the mutex. *)
Definition demand_target (this : addr) (new_state : TaskState) : M Q unit :=
  _ ← log_as this INFO ("demanding transition to " +:+ task_state_to_string new_state);
  modify_sm this (set_target_state new_state).

Lemma demand_begin_target x w : demand_begin sm x w = (_ ← demand_target sm x; StateManager_transition_to_state sm x) w.
Proof using Type.
  unfold demand_begin, demand_target, mbind, M_bind. destruct (log_as _ _ _ w) as [[[] w1]|e]; reflexivity.
Qed.

Lemma shows_logged w b s h N l nm c : shows w b s h N -> shows (logged l nm c w) b s h N.
Proof. intros Hw. apply (shows_again w b s h N); [done|apply Hw|done..]. Qed.

Lemma shows_with_sm w b s h N t s' :
  shows w b s h N -> tasks w !! sm = Some t -> derived t = IsStateManager s -> task_states s' = task_states s ->
  is_Some (target_state s') -> shows (with_task sm (with_sm s' t) w) b s' h N.
Proof.
  intros [Hv Hwf Hon Ha1 Ha2 Hth Hso Hk Hkn Htg Hmo Hmd Hsta Hli Hti] Ht Hd Hts Htg'. split; rewrite ?Hts; try done.
  - by apply (bus_view_fields w b sm t).
  - intros p Hp. destruct (Hth p Hp) as (c & d & Hrole & pt & a & Hst & Hrest). destruct (decide (sm = p)) as [<-|Hpm].
    + exists c, (IsStateManager s'). split; [|exists pt, a; split; [|done]].
      * inversion Hrole as [c'|c' Hc'|p' c' d' Hp' Hr' Hc']; [constructor|by destruct Hne|by destruct (Hin sm Hp') as (_ & ? & _)].
      * rewrite status_with_task, decide_True by done. apply status_Some in Hst as (t' & Ht' & Hst'). simplify_eq.
        by destruct Hst' as (<- & <- & <- & <- & _).
    + exists c, d. split; [|exists pt, a; split; [|done]].
      * destruct Hrole; [done|by constructor..].
      * by rewrite status_with_task, decide_False.
Qed.

Lemma target_shows w b s h N x :
  shows w b s h N -> exists w1, demand_target sm x w = Ok (tt, w1) /\ shows w1 b (set_target_state x s) h N /\ clock w1 = clock w.
Proof.
  intros Hw. destruct (shows_manager w b s h N Hw) as (t & Ht & Hd). unfold demand_target.
  rewrite (M_bind_Ok _ _ _ _ _ (log_as_run sm t _ _ w Ht)). eexists. split; [by apply (modify_sm_run sm _ t s)|]. split; [|done].
  apply (shows_with_sm _ b s); [by apply shows_logged|done..|by eexists].
Qed.

Lemma broadcast_shows w b s h N x :
  shows w b s h N -> ok N -> fits sm hb us cap (broadcast hb us x N) -> fresh b 1 -> audience b x ->
  exists w1 b1 s1, demand_begin sm x w = Ok (tt, w1) /\ task_states s1 = task_states s /\ shows w1 b1 s1 h (broadcast hb us x N) /\
    clock w1 = clock w /\ forall k, fresh b (k + 1) -> fresh b1 k.
Proof.
  intros Hw Hok Hfits Hf Haud. destruct (target_shows w b s h N x Hw) as (w0 & R0 & Hw0 & Hck0).
  destruct (transition_shows w0 b _ h N x Hw0 Hok Hfits Hf Haud) as (w1 & b1 & s1 & R1 & Hts & _ & Hw1 & Hck1 & _ & Hf1).
  exists w1, b1, s1. rewrite demand_begin_target, (M_bind_Ok _ _ _ _ _ R0). split_and!; [done..|by rewrite Hck1|done].
Qed.

(** A demand has set messages for its state under way to all. *)
Lemma demand_flows w b s h N x m :
  shows w b s h N -> ok N -> fits sm hb us cap (broadcast hb us x N) -> 0 <= x < 2 ^ 8 -> audience b x ->
  all_in_state x (task_states s) = false -> fresh b (Z.of_nat m + 2) -> Z.of_nat m + 1 < 2 ^ 32 ->
  exists w1, demand_begin sm x w = Ok (tt, w1) /\ flows (fun _ => x) (workload hb us (broadcast hb us x N)) m w1 /\
    forall others w2, others w1 = Ok (tt, w2) -> demand_state_transition sm x others w = demand_end sm x w2.
Proof.
  intros Hw Hok Hfits Hx Haud Hnot Hf Hlt.
  destruct (broadcast_shows w b s h N x Hw Hok Hfits) as (w1 & b1 & s1 & R1 & Hts & Hw1 & Hck & Hf1); [by apply (fresh_le _ (Z.of_nat m + 2));
      [lia|]|done|].
  exists w1. split; [done|]. split.
  - exists b1, s1, h, (broadcast hb us x N). split; [done|]. split; [by apply broadcast_ok|]. split; [done|].
    split; [intros p Hpr; by apply broadcast_heading|]. split; [done|]. split; [|done].
    apply Hf1. by replace (Z.of_nat m + 1 + 1) with (Z.of_nat m + 2) by lia.
  - intros others w2 Ho. destruct (shows_manager _ _ _ _ _ Hw1) as (t & Ht & Hd). unfold demand_state_transition.
    rewrite (M_bind_Ok _ _ _ _ _ R1), (M_bind_Ok _ _ _ _ _ (all_tasks_in_state_run sm x w1 t s1 Ht Hd)).
    by rewrite Hts, Hnot, (M_bind_Ok _ _ _ _ _ Ho).
Qed.

(** On such a clock every check after the broadcast is in time. *)
Lemma punctual_demand w b s h N x l w1 :
  shows w b s h N -> ok N -> fits sm hb us cap (broadcast hb us x N) -> 0 <= x < 2 ^ 8 -> audience b x -> punctual (clock w) ->
  Forall allowed l -> fresh b (Z.of_nat (length l) + 2) -> Z.of_nat (length l) + 1 < 2 ^ 32 ->
  demand_begin sm x w = Ok (tt, w1) -> on_time l w1.
Proof.
  intros Hw Hok Hfits Hx Haud Hp Hl Hf Hlt Hrun.
  destruct (broadcast_shows w b s h N x Hw Hok Hfits) as (w2 & b2 & s2 & R2 & _ & Hw2 & Hck & Hf2);
    [by apply (fresh_le _ (Z.of_nat (length l) + 2)); [lia|]|done|].
  assert (w2 = w1) as -> by congruence. apply (punctual_on_time l w1 b2 s2 h (broadcast hb us x N)); try done.
  - by apply broadcast_ok.
  - by rewrite Hck.
  - apply Hf2. by replace (Z.of_nat (length l) + 1 + 1) with (Z.of_nat (length l) + 2) by lia.
Qed.

(** C11. The program refines the network: while no check of the heartbeat task
    finds an answer overdue and the queues have room, every sequence of turns of the message
    threads and of the heartbeat task's periodic thread runs without an error
    and is matched, turn by turn, by steps of the network (or none), ending
    in a world that shows the network's state; so no request, no heartbeat
    and no acknowledgement is lost or made up on the way, and every task is
    still heading for the same state. *)
Theorem program_refines_network w b s h N l :
  shows w b s h N -> ok N -> roomy N -> Forall allowed l -> on_time l w ->
  fresh b (Z.of_nat (length l) + 1) -> Z.of_nat (length l) + 1 < 2 ^ 32 ->
  exists w' b' s' h' N', activities l w = Ok (tt, w') /\ rtc (net_step sm hb us) N N' /\ shows w' b' s' h' N' /\
    ok N' /\ roomy N' /\ forall p, heading N' p = heading N p.
Proof.
  intros Hw Hok Hfits Hl. revert w b s h N Hw Hok Hfits.
  induction Hl as [|e l He Hl IH]; intros w b s h N Hw Hok Hfits Hp Hf Hlt; cbn [length activities on_time] in *.
  { exists w, b, s, h, N. split_and!; [done|apply rtc_refl|done..]. }
  destruct (act_shows e w b s h N Hw Hok Hfits) as (w1 & b1 & s1 & h1 & N1 & R1 & Hstep & Hw1 & Hck & Hf1);
    [by apply (fresh_le _ (Z.of_nat (S (length l)) + 1)); [lia|]|done|by destruct Hp|].
  rewrite R1 in Hp. destruct Hp as [_ Hp].
  assert (Hkeep : ok N1 /\ roomy N1 /\ (forall p, heading N1 p = heading N p) /\ rtc (net_step sm hb us) N N1).
  { destruct Hstep as [->|Hstep]; [split_and!; [done..|apply rtc_refl]|]. split_and!; [..|by apply rtc_once].
    all: by destruct (net_step_keeps sm hb us Hus (users_not_hb sm hb us Hin) (sm_not_reg sm hb us Hsm Hne Hin) cap N N1 Hstep Hok Hfits)
      as (? & ? & ? & ?). }
  destruct Hkeep as (Hok1 & Hfits1 & Hh1 & Hrtc1).
  destruct (IH w1 b1 s1 h1 N1 Hw1 Hok1 Hfits1) as (w2 & b2 & s2 & h2 & N2 & R2 & Hrtc2 & Hw2 & Hok2 & Hfits2 & Hh2).
  - done.
  - apply Hf1; [lia..|]. by replace (Z.of_nat (length l) + 1 + 1) with (Z.of_nat (S (length l)) + 1) by lia.
  - lia.
  - exists w2, b2, s2, h2, N2. rewrite (M_bind_Ok _ _ _ _ _ R1). split_and!; [done|by etransitivity|done..|].
    intros p. by rewrite Hh2, Hh1.
Qed.

(** Whatever is under way arrives: with a state manager, a heartbeat task
    and user tasks between any two turns, any requests, heartbeats, answers
    and acknowledgements in their queues, and room for what comes of them, no
    order of turns of all message threads and of the heartbeat task's periodic
    thread goes wrong, as long as no check finds an answer overdue; and after
    any such turns, rounds of the message threads, as many as the work under
    way, leave every registered task in the state its queue was heading for,
    recorded as such, with every message handled, every heartbeat sent on the
    way answered, and all message threads waiting. *)
Theorem traffic_settles w b s h N l :
  shows w b s h N -> ok N -> roomy N -> Forall allowed l -> on_time l w ->
  let m := (length l + workload hb us N)%nat in fresh b (Z.of_nat m + 1) -> Z.of_nat m + 1 < 2 ^ 32 ->
  (exists w', activities l w = Ok (tt, w')) /\
  (forall rounds, Forall (round threads) rounds -> (workload hb us N <= length rounds)%nat ->
     exists w' b' s' h' N', (_ ← activities l; schedule (concat rounds)) w = Ok (tt, w') /\
       shows w' b' s' h' N' /\ settled sm hb us N' /\
       forall p, p ∈ regs -> current_state <$> tasks w' !! p = Some (heading N p) /\
         pm_find p (task_states s') = Some (heading N p) /\ run_step p w' = Ok (Waiting, w')).
Proof.
  intros Hw Hok Hfits Hl Hp m Hf Hlt. set (work := workload hb us N) in *.
  assert (Hfl : flows (heading N) work (length l + work) w) by (exists b, s, h, N; by split_and!).
  destruct (flows_activities _ _ _ _ _ Hfl Hl Hp) as (w1 & R1 & Hw1). split; [by exists w1|]. intros rounds Hr Hlen.
  destruct (flows_rounds _ _ rounds w1 Hw1 Hr Hlen) as (w' & b' & s' & h' & N' & R2 & Hw' & Hse & Hgoal).
  exists w', b', s', h', N'. rewrite (M_bind_Ok _ _ _ _ _ R1). do 3 (split; [done|]). intros p Hpr.
  rewrite <- Hgoal by done. by apply (settled_shows w' b' s' h').
Qed.

End monitored.

(** ** Witness: a demand while a heartbeat is under way *)

#[local] Instance working_user : UserTasks aqueue := {
  user_process_message this m :=
    match get_data_as AStateMsg m, get_data_as AHeartbeatMsg m with
    | Some sm, _ => Task_transition_to_state this (state_of_byte (sm_state sm))
    | _, Some hb => handle_heartbeat this hb
    | _, _ => mret tt
    end;
  user_periodic_task_process _ := mret tt
}.

Definition first_beat : Msg := pack 48 (VHeartbeatMsg (mkHeartbeatMsg 1 0)).
Definition asked_queue : aqueue := mkAqueue [first_beat] 4 false 1.
Definition busy_manager : StateManager := mkStateManager [(32, RUNNING); (48, RUNNING)] (Some RUNNING) (Some RUNNING) 48.
Definition busy_poller : HeartBeat := mkHeartBeat [(32, mkTaskStatus true 1 0 0)] 16 3 2 ERROR.
Definition busy_world : World aqueue :=
  mkWorld {[16 := mkTask "StateManager" NOT_STARTED true InDequeue Unjoinable 0 (aq_new 4) (IsStateManager busy_manager);
            48 := mkTask "HeartBeat" RUNNING true InDequeue LoopHead 1000 (aq_new 4) (IsHeartBeat busy_poller);
            32 := mkTask "A" RUNNING true InDequeue Unjoinable 0 asked_queue IsUserTask]}
    (mkBroker true [[48; 32]; [16]; []; [48]]) Logger_new (fun _ => mkClockReading 0 0 0) 0 (1, 1).
Definition busy_bus : bus := mkBus true [[48; 32]; [16]; []; [48]] {[16 := aq_new 4; 48 := aq_new 4; 32 := asked_queue]}.
Definition busy_network : network :=
  mkNetwork (fun p => if decide (p = 32) then [Beat 1 0] else []) [] (fun _ => RUNNING) (fun _ => RUNNING)
    (fun _ => mkTaskStatus true 1 0 0) (fun _ => false).

Lemma busy_mail p a : bus_mail busy_bus !! p = Some a -> aq_ticks a <= 1 /\ aq_capacity a = 4%nat.
Proof.
  cbn. intros [[_ <-]|[_ [[_ <-]|[_ [_ <-]%lookup_singleton_Some]]%lookup_insert_Some]]%lookup_insert_Some; cbn; split; done || lia.
Qed.

Lemma busy_view : bus_view busy_world busy_bus.
Proof.
  split; [done|split; [done|]]. intros p. unfold busy_world, busy_bus. cbn [tasks bus_mail].
  destruct (decide (p = 16)) as [->|H1]; [rewrite !lookup_insert_eq; by repeat constructor|]. rewrite !(lookup_insert_ne _ 16) by (by apply not_eq_sym).
  destruct (decide (p = 48)) as [->|H2]; [rewrite !lookup_insert_eq; by repeat constructor|]. rewrite !(lookup_insert_ne _ 48) by (by apply not_eq_sym).
  destruct (decide (p = 32)) as [->|H3]; [rewrite !lookup_singleton_eq; by repeat constructor|].
  rewrite !lookup_singleton_ne by (by apply not_eq_sym). constructor.
Qed.

Lemma working_responds : responds 16 32 IsUserTask.
Proof.
  split.
  - intros y Hy w t Ht Hd. cbn [process_message dynamic_dispatch]. unfold dispatch.
    rewrite (M_bind_Ok _ _ _ _ _ (get_task_run 32 t w Ht)), Hd. cbn -[state_to_byte state_of_byte].
    unfold state_of_byte, state_to_byte. by rewrite u8_small.
  - intros w t sender hb Ht Hd. cbn [process_message dynamic_dispatch]. unfold dispatch.
    by rewrite (M_bind_Ok _ _ _ _ _ (get_task_run 32 t w Ht)), Hd.
Qed.

Lemma busy_shows : shows 16 48 [32] (fun _ => 4%nat) 3 busy_world busy_bus busy_manager busy_poller busy_network.
Proof.
  split; try done.
  - apply busy_view.
  - split; [done|]. repeat constructor; set_solver.
  - intros p [->|[->| ->%list_elem_of_singleton]%elem_of_cons]%elem_of_cons.
    + exists NOT_STARTED, (IsStateManager busy_manager). split; [by constructor|]. by exists Unjoinable, (aq_new 4).
    + exists RUNNING, (IsHeartBeat busy_poller). split; [by constructor|]. by exists LoopHead, (aq_new 4).
    + exists RUNNING, IsUserTask. split; [by constructor; [apply list_elem_of_here|apply working_responds|]|]. by exists Unjoinable, asked_queue.
  - repeat constructor; cbn; lia.
  - intros p. cbn. set_solver.
  - intros p [->| ->%list_elem_of_singleton]%elem_of_cons; done.
  - split; [repeat constructor|cbn; set_solver|cbn; lia].
  - intros p ->%list_elem_of_singleton. done.
  - intros p _ _. by exists 0%nat.
Qed.

Lemma busy_ok : net_ok 48 [32] busy_network.
Proof.
  split.
  - done.
  - intros p ->%list_elem_of_singleton. done.
  - intros p ->%list_elem_of_singleton. apply Forall_singleton. cbn. lia.
  - constructor.
  - constructor.
Qed.

Lemma busy_fits : fits 16 48 [32] (fun _ => 4%nat) busy_network /\ fits 16 48 [32] (fun _ => 4%nat) (broadcast 48 [32] IDLE busy_network).
Proof. split; (split; [intros p ->%list_elem_of_singleton; vm_compute; lia|vm_compute; lia|vm_compute; lia]). Qed.

Definition busy_activities : list activity := [PeriodicTurn 48; MessageTurn 32; MessageTurn 16; PeriodicTurn 48; MessageTurn 48; PeriodicTurn 48].
Definition busy_rounds : list (list addr) := replicate 15 [32; 16; 48; 32].

Lemma busy_allowed : Forall (allowed 16 48 [32]) busy_activities.
Proof. repeat constructor; set_solver. Qed.

Lemma busy_fair : Forall (round [16; 48; 32]) busy_rounds.
Proof. apply Forall_replicate. intros p. set_solver. Qed.

Lemma busy_audience x : audience 16 48 [32] busy_bus x.
Proof.
  unfold audience. assert (Hl : default [] (bus_subs busy_bus !! Z.to_nat Type_StateMsg) = [48; 32]) by reflexivity.
  rewrite Hl. split; [done|]. split; [|intros p a Hp Hn; done].
  by intros [?|[?|?%elem_of_nil]%elem_of_cons]%elem_of_cons.
Qed.

Lemma busy_fresh k : k < 2 ^ 32 - 1 -> fresh busy_bus k.
Proof. intros Hk p a [Ha _]%busy_mail. lia. Qed.

Lemma busy_punctual : punctual 3 (clock busy_world).
Proof. intros i j. vm_compute. by intros ?. Qed.

Lemma busy_users : NoDup [32] /\ forall p : addr, p ∈ [32] -> 0 < p < 2 ^ 64 /\ p <> 16 /\ p <> 48.
Proof. split; [apply NoDup_singleton|]. intros p ->%list_elem_of_singleton. lia. Qed.

Lemma busy_on_time : on_time 48 busy_activities busy_world.
Proof.
  apply (punctual_on_time 16 48 [32] (fun _ => 4%nat) 3 ltac:(lia) ltac:(lia) ltac:(done) (proj1 busy_users) (proj2 busy_users))
    with (b := busy_bus) (s := busy_manager) (h := busy_poller) (N := busy_network).
  - apply busy_shows.
  - apply busy_ok.
  - apply busy_fits.
  - apply busy_punctual.
  - apply busy_allowed.
  - apply busy_fresh. vm_compute. done.
  - vm_compute. done.
Qed.

Lemma busy_demand_on_time w1 : demand_begin 16 IDLE busy_world = Ok (tt, w1) -> on_time 48 busy_activities w1.
Proof.
  apply (punctual_demand 16 48 [32] (fun _ => 4%nat) 3 ltac:(lia) ltac:(lia) ltac:(done) (proj1 busy_users) (proj2 busy_users))
    with (b := busy_bus) (s := busy_manager) (h := busy_poller) (N := busy_network).
  - apply busy_shows.
  - apply busy_ok.
  - apply busy_fits.
  - unfold IDLE. lia.
  - apply busy_audience.
  - apply busy_punctual.
  - apply busy_allowed.
  - apply busy_fresh. vm_compute. done.
  - vm_compute. done.
Qed.

Lemma program_refines_network_witness :
  exists w' b' s' h' N', activities busy_activities busy_world = Ok (tt, w') /\ rtc (net_step 16 48 [32]) busy_network N' /\
    shows 16 48 [32] (fun _ => 4%nat) 3 w' b' s' h' N'.
Proof.
  destruct (program_refines_network 16 48 [32] (fun _ => 4%nat) 3 ltac:(lia) ltac:(lia) ltac:(done)) with
    (w := busy_world) (b := busy_bus) (s := busy_manager) (h := busy_poller) (N := busy_network) (l := busy_activities)
    as (w' & b' & s' & h' & N' & Hrun & Hsteps & Hw' & _).
  - apply NoDup_singleton.
  - intros p ->%list_elem_of_singleton. lia.
  - apply busy_shows.
  - apply busy_ok.
  - apply busy_fits.
  - apply busy_allowed.
  - apply busy_on_time.
  - apply busy_fresh. vm_compute. done.
  - vm_compute. done.
  - exists w', b', s', h', N'. exact (conj Hrun (conj Hsteps Hw')).
Defined.

Lemma traffic_settles_witness :
  exists w', (_ ← activities busy_activities; schedule (concat busy_rounds)) busy_world = Ok (tt, w') /\
    current_state <$> tasks w' !! 32 = Some RUNNING /\ run_step 32 w' = Ok (Waiting, w').
Proof.
  destruct (traffic_settles 16 48 [32] (fun _ => 4%nat) 3 ltac:(lia) ltac:(lia) ltac:(done)) with
    (w := busy_world) (b := busy_bus) (s := busy_manager) (h := busy_poller) (N := busy_network) (l := busy_activities)
    as (_ & Hrounds).
  - apply NoDup_singleton.
  - intros p ->%list_elem_of_singleton. lia.
  - apply busy_shows.
  - apply busy_ok.
  - apply busy_fits.
  - apply busy_allowed.
  - apply busy_on_time.
  - apply busy_fresh. vm_compute. done.
  - vm_compute. done.
  - destruct (Hrounds busy_rounds) as (w' & b' & s' & h' & N' & Hrun & _ & _ & Hall); [apply busy_fair|vm_compute; lia|].
    exists w'. split; [exact Hrun|]. destruct (Hall 32) as (Hc & _ & Hw); [apply list_elem_of_further, list_elem_of_here|]. exact (conj Hc Hw).
Defined.

