(* ===== verification/DemandCalls.v ===== *)
(** * DemandCalls: the program's pieces of several demands

    [demand_state_transition] cut where a thread may lose its turn, for any
    number of threads that are inside it, together with the message threads of
    the state manager, the heartbeat task and the user tasks: the pieces are
    those of StateManager.v, and the notification is made when
    [handle_acknowledgment] answers that it would. Every such move is a step
    of the scene of Demands.v, and none goes wrong; so what is shown there of
    demands at the same time holds of the program. *)

From stdpp Require Import functions.
From S2P Require Import Prelude Msg Heap QueueSpec Logger World Broker TaskBase StateManager HeartBeat System Handshake Rounds Network Polling Traffic.
From S2P Require Import Monitored Demands.
#[local] Open Scope Z_scope.

(** A move: of a thread that demands, the end of its timeout, a spurious
    wake-up, a turn of a message thread, a notification that wakes a thread. *)
Inductive move := CallerMoves (i : nat) | TimeoutEnds (i : nat) | WakesUp (i : nat) | ThreadTurns (p : addr) | Notifies (i : nat).

Definition made_by (e : move) : impulse :=
  match e with TimeoutEnds _ => ByTimeout | WakesUp _ => Spurious | _ => ByThread end.

(** ** The moves *)

Section moves.
Context {Q : Type} `{QueueImpl Q} `{UserTasks Q}.
Implicit Types (w : World Q).

Context (sm : addr).

(** Whether the next turn of the state manager's message thread gets as far
    as [notify_one]. *)
Definition notified w : bool :=
  match tasks w !! sm with
  | Some t =>
      match queue_thread t, q_dequeue (message_queue t) with
      | InDequeue, Ok (Returns (Some m), q) =>
          bool_decide (get_type m = Type_StateAckMsg) &&
          match (_ ← put_task sm (set_message_queue q t); handle_acknowledgment sm m) w with Ok (b, _) => b | Err _ => false end
      | _, _ => false
      end
  | None => false
  end.

Record calls := mkCalls { the_world : World Q; about_to_notify : bool; callers : list demander }.

Definition enters (i : nat) (x : TaskState) (st : stage) (w : World Q) (C : calls) : calls :=
  mkCalls w (about_to_notify C) (<[i := mkDemander x st]> (callers C)).

(** A thread inside [demand_state_transition] up to its next access. *)
Definition caller_move (i : nat) (C : calls) : result (option calls) :=
  match callers C !! i with
  | Some (mkDemander x Announcing) =>
      if mutex_free (callers C) then '(_, w) ← demand_target sm x (the_world C); Ok (Some (enters i x Publishing w C)) else Ok None
  | Some (mkDemander x Publishing) =>
      '(_, w) ← StateManager_transition_to_state sm x (the_world C); Ok (Some (enters i x Testing w C))
  | Some (mkDemander x Testing) =>
      if mutex_free (callers C) then
        '(r, w) ← all_tasks_in_state sm x (the_world C);
        Ok (Some (enters i x (if (r : bool) then Finished true else FallingAsleep) w C))
      else Ok None
  | Some (mkDemander x FallingAsleep) => Ok (Some (enters i x Asleep (the_world C) C))
  | _ => Ok None
  end.

(** [None]: the move is not possible now. *)
Definition call_move (e : move) (C : calls) : result (option calls) :=
  match e with
  | CallerMoves i => caller_move i C
  | TimeoutEnds i =>
      match callers C !! i with
      | Some (mkDemander x Asleep) =>
          if mutex_free (callers C) then '(r, w) ← demand_end sm x (the_world C); Ok (Some (enters i x (Finished r) w C)) else Ok None
      | _ => Ok None
      end
  | WakesUp i =>
      match callers C !! i with
      | Some (mkDemander x Asleep) => Ok (Some (enters i x Testing (the_world C) C))
      | _ => Ok None
      end
  | ThreadTurns p =>
      if bool_decide (p = sm) && about_to_notify C then Ok None
      else
        '(r, w) ← run_step p (the_world C);
        match r with
        | Progress => Ok (Some (mkCalls w (if decide (p = sm) then notified (the_world C) else about_to_notify C) (callers C)))
        | _ => Ok None
        end
  | Notifies i =>
      if about_to_notify C then
        match callers C !! i with
        | Some (mkDemander x Asleep) => Ok (Some (mkCalls (the_world C) false (<[i := mkDemander x Testing]> (callers C))))
        | _ =>
            if forallb (fun c => negb (bool_decide (at_stage c = Asleep))) (callers C)
            then Ok (Some (mkCalls (the_world C) false (callers C))) else Ok None
        end
      else Ok None
  end.

(** Moves one after the other; those that are not possible are left out, the
    others are counted. *)
Fixpoint call_moves (l : list move) (C : calls) : result (nat * calls) :=
  match l with
  | [] => Ok (0%nat, C)
  | e :: l' =>
      o ← call_move e C;
      '(n, C') ← call_moves l' (default C o);
      Ok (((if o is Some _ then 1 else 0) + n)%nat, C')
  end.
End moves.
Arguments calls Q : clear implicits.

(** ** The moves are steps of the scene *)

Section demand_calls.
Context {Q : Type} `{QueueImpl Q} `{UserTasks Q}.
Implicit Types (w : World Q) (b : bus) (s : StateManager) (h : HeartBeat) (N : network) (C : calls Q) (S : scene).

Context (sm hb : addr) (us : list addr) (cap : addr -> nat) (limit_ms : Z).
Context (Hsm : 0 < sm < 2 ^ 64) (Hhb : 0 < hb < 2 ^ 64) (Hne : sm <> hb).
Context (Hus : NoDup us) (Hin : forall p, p ∈ us -> 0 < p < 2 ^ 64 /\ p <> sm /\ p <> hb).

Abbreviation regs := (hb :: us).
Abbreviation threads := (sm :: regs).
Abbreviation shows := (shows sm hb us cap limit_ms).
Abbreviation ok := (net_ok hb us).
Abbreviation no_hb := (users_not_hb sm hb us Hin).
Abbreviation no_sm := (sm_not_reg sm hb us Hsm Hne Hin).

(** *** Room for the requests to come *)

(** Room for [c] more requests and what comes of them. *)
Record spare (c : nat) N : Prop := {
  sp_user p : p ∈ us -> (asked N p + 1 + c <= cap p)%nat;
  sp_hb : (asked N hb + length us + c <= cap hb)%nat;
  sp_sm : (total (asked N) regs + length (ack_queue N) + c * (1 + length us) <= cap sm)%nat
}.

Lemma spare_fits c N : spare c N -> fits sm hb us cap N.
Proof using Type. intros [Hu Hh Hm]. split; [intros p Hp; specialize (Hu p Hp); lia|lia|lia]. Qed.

Lemma spare_turn c p N N' : net_turn sm hb us p N N' -> spare c N -> spare c N'.
Proof.
  intros Hturn [Hu Hh Hm]. destruct (net_turn_counts sm hb us Hus no_hb no_sm p N N' Hturn) as (a & e & k & Hr & _ & Hk & Hle & _). split.
  - intros q Hq. specialize (Hu q Hq). specialize (Hle q). lia.
  - specialize (Hle hb). lia.
  - lia.
Qed.

Lemma spare_broadcast c x N : spare (1 + c) N -> spare c (broadcast hb us x N).
Proof using Type.
  intros [Hu Hh Hm]. split.
  - intros p Hp. rewrite broadcast_asked by (by apply list_elem_of_further). specialize (Hu p Hp). lia.
  - rewrite broadcast_asked by apply list_elem_of_here. lia.
  - rewrite (total_ext _ (fun p => asked N p + 1)%nat) by (intros p; apply broadcast_asked). rewrite total_succ. cbn [ack_queue broadcast].
    cbn [length] in *. lia.
Qed.

(** Demands that have not sent their request. *)
Definition unsent (c : demander) : nat := match at_stage c with Announcing | Publishing => 1 | _ => 0 end.

Lemma unsent_change cs i x st st' : cs !! i = Some (mkDemander x st) ->
  (total unsent (<[i := mkDemander x st']> cs) + unsent (mkDemander x st) = total unsent cs + unsent (mkDemander x st'))%nat.
Proof using. intros Hi. pose proof (total_update unsent cs i (mkDemander x st) (mkDemander x st') Hi) as Ht. clear -Ht. lia. Qed.

(** *** What the scene is a picture of *)

(** The registered tasks, and nobody else, are subscribed to requests. *)
Definition listens b : Prop := forall p, (p ∈ default [] (bus_subs b !! Z.to_nat Type_StateMsg)) <-> p ∈ regs.

Lemma listens_audience b x : listens b -> audience sm hb us b x.
Proof.
  intros Hl. split; [by intros p Hp; apply Hl|]. split; [intros Hs%Hl; by apply no_sm|]. intros p a Hp%Hl Hn. by destruct Hn.
Qed.

Lemma listens_pruned w b s h N b' : shows w b s h N -> pruned b b' -> listens b -> listens b'.
Proof.
  intros Hw Hp Hl p. destruct (Hp (Z.to_nat Type_StateMsg) p) as [H1 H2]. rewrite <- (Hl p). split; [done|]. intros Hpl. apply H2; [done|].
  apply (shows_mail sm hb us cap limit_ms w b s h N p Hw). by apply list_elem_of_further, Hl.
Qed.

Lemma shows_all_known w b s h N x : shows w b s h N -> all_in_state x (task_states s) = all_known hb us x N.
Proof.
  intros Hw. apply eq_true_iff_eq. rewrite all_in_state_spec by apply Hw. unfold all_known. rewrite <- Is_true_true, forallb_True, Forall_forall.
  split; intros Hall p Hp.
  - specialize (Hall p). rewrite (sh_keys _ _ _ _ _ _ _ _ _ _ Hw) in Hall. specialize (Hall Hp).
    rewrite (sh_known _ _ _ _ _ _ _ _ _ _ Hw p Hp) in Hall. injection Hall as Hall. by rewrite bool_decide_true.
  - apply (sh_keys _ _ _ _ _ _ _ _ _ _ Hw) in Hp. rewrite (sh_known _ _ _ _ _ _ _ _ _ _ Hw p Hp). f_equal.
    by apply (bool_decide_unpack _), Hall.
Qed.

(** The world and the threads show the scene; the counters of the queues last
    for [k] moves. *)
Definition shown (k : nat) C S : Prop :=
  exists b s h, shows (the_world C) b s h (net S) /\ ok (net S) /\ spare (total unsent (demanders S)) (net S) /\ listens b /\
    target_state s = Some (sought S) /\ about_to_notify C = telling S /\ callers C = demanders S /\
    Forall (fun c => 0 <= wanted c < 2 ^ 8) (demanders S) /\ fresh b (Z.of_nat k + 1) /\ Z.of_nat k + 1 < 2 ^ 32.

Lemma range_change cs i x st st' : cs !! i = Some (mkDemander x st) ->
  Forall (fun c => 0 <= wanted c < 2 ^ 8) cs -> Forall (fun c => 0 <= wanted c < 2 ^ 8) (<[i := mkDemander x st']> cs).
Proof using. intros Hi Hcs. apply Forall_insert; [done|]. by apply (Forall_lookup_1 _ _ _ _ Hcs Hi). Qed.

(** A thread goes on that had sent its request, or still has not. *)
Lemma shown_on k w b s h N t fl fl' cs cs' :
  shows w b s h N -> ok N -> spare (total unsent cs) N -> listens b -> target_state s = Some t ->
  Forall (fun c => 0 <= wanted c < 2 ^ 8) cs' -> total unsent cs' = total unsent cs -> fl = fl' ->
  fresh b (Z.of_nat (S k) + 1) -> Z.of_nat (S k) + 1 < 2 ^ 32 -> shown k (mkCalls w fl cs') (mkScene N t fl' cs').
Proof.
  intros Hw Hok Hsp Hl Ht Hr Hu -> Hf Hlt. exists b, s, h. cbn. rewrite Hu. split_and!; try done; [|lia].
  apply (fresh_le _ (Z.of_nat (S k) + 1)); [lia|done].
Qed.

Lemma clock_demand_end p x : leaves (Q := Q) clock (demand_end p x).
Proof using.
  pose proof (clock_log_as (Q := Q)) as Hlog. pose proof (clock_get_sm (Q := Q)) as Hget. unfold demand_end, all_tasks_in_state.
  apply leaves_bind; [keep|]. intros success. apply leaves_bind; [|keep]. apply leaves_if; [keep|].
  apply leaves_bind; [keep|]. intros _. apply leaves_bind; [keep|]. intros s'.
  induction (task_states s') as [|[q y] pairs IH]; cbn [log_laggards]; [keep|]. apply leaves_bind; [|intros _; exact IH].
  apply leaves_decide; [|keep]. unfold get_name. keep.
Qed.

Lemma demand_end_shows w b s h N x : shows w b s h N ->
  exists w', demand_end sm x w = Ok (all_known hb us x N, w') /\ shows w' b s h N.
Proof.
  intros Hw. destruct (shows_manager sm hb us cap limit_ms Hne Hin w b s h N Hw) as (t & Ht & Hd).
  destruct (demand_end_run sm x w t s Ht Hd) as (w' & Hrun & Hts & Hb).
  { intros p Hp%(sh_keys _ _ _ _ _ _ _ _ _ _ Hw). apply (shows_live sm hb us cap limit_ms w b s h N p Hw). by apply list_elem_of_further. }
  exists w'. rewrite <- (shows_all_known w b s h N x Hw). split; [done|]. apply (shows_again sm hb us cap limit_ms w b s h N);
      [done| |exact (clock_demand_end _ _ _ _ _ Hrun)|].
  - destruct (sh_view _ _ _ _ _ _ _ _ _ _ Hw) as (Hon & Hs & Hm). unfold bus_view. rewrite Hb. split_and!; [done|done|]. by apply (mailboxes_tasks w).
  - intros p. unfold status. by rewrite Hts.
Qed.

Definition possible (e : move) : Prop := match e with ThreadTurns p => p ∈ threads | _ => True end.

(** What a move has to be. *)
Definition matched (k : nat) (e : move) C S : Prop :=
  call_move sm e C = Ok None \/
  exists C' S', call_move sm e C = Ok (Some C') /\ demand_step sm hb us (made_by e) S S' /\ shown k C' S'.

Lemma caller_matched k i C S : shown (1 + k) C S -> matched k (CallerMoves i) C S.
Proof.
  destruct C as [w fl cs], S as [N t fl' cs']. intros (b & s & h & Hw & Hok & Hsp & Hl & Ht & Hfl & Hcs & Hr & Hf & Hlt).
  cbn [the_world net sought about_to_notify telling callers demanders] in *. subst fl' cs'. unfold matched. cbn [call_move]. unfold caller_move.
  cbn [the_world callers]. destruct (cs !! i) as [[x st]|] eqn:Hi; [|by left]. destruct st; [..|by left|by left].
  - destruct (mutex_free cs) eqn:Hm; [right|by left]. destruct (target_shows sm hb us cap limit_ms Hne Hin w b s h N x Hw) as (w1 & R1 & Hw1 & _).
    rewrite R1. do 2 eexists. split; [done|]. split; [by apply ds_target|]. apply (shown_on k w1 b (set_target_state x s) h N x fl fl cs);
      try done; [by eapply range_change|].
    pose proof (unsent_change cs i x _ Publishing Hi). cbn in *. lia.
  - right. pose proof (unsent_change cs i x _ Testing Hi) as Hu. cbn in Hu.
    assert (Hx : 0 <= x < 2 ^ 8) by apply (Forall_lookup_1 _ _ _ _ Hr Hi).
    assert (Hsp' : spare (total unsent (<[i:=mkDemander x Testing]> cs)) (broadcast hb us x N)).
    { apply spare_broadcast. by replace (1 + total unsent (<[i:=mkDemander x Testing]> cs))%nat with (total unsent cs) by lia. }
    destruct (transition_shows sm hb us cap limit_ms Hsm Hhb Hne Hus Hin w b s h N x Hw Hok) as (w1 & b1 & s1 & R1 & Hts & Htg & Hw1 & _ & Hp & Hf1);
      [by eapply spare_fits|by apply (fresh_le _ (Z.of_nat (1 + k) + 1)); [lia|]|by apply listens_audience|].
    rewrite R1. do 2 eexists. split; [done|]. split; [by apply ds_publish|]. exists b1, s1, h. cbn. split_and!; try done;
      [by apply broadcast_ok| |congruence|
      by eapply range_change| |lia].
    + by apply (listens_pruned w b s h N).
    + apply Hf1. by replace (Z.of_nat k + 1 + 1) with (Z.of_nat (1 + k) + 1) by lia.
  - destruct (mutex_free cs) eqn:Hm; [right|by left]. destruct (shows_manager sm hb us cap limit_ms Hne Hin w b s h N Hw) as (tk & Htk & Hd).
    rewrite (all_tasks_in_state_run sm x w tk s Htk Hd), (shows_all_known w b s h N x Hw). do 2 eexists. split; [done|]. split; [by apply ds_test|].
    apply (shown_on k w b s h N t fl fl cs); try done; [by eapply range_change|].
    pose proof (unsent_change cs i x _ (if all_known hb us x N then Finished true else FallingAsleep) Hi) as Hu. destruct (all_known hb us x N);
      cbn in *; lia.
  - right. do 2 eexists. split; [done|]. split; [by apply ds_sleep|]. apply (shown_on k w b s h N t fl fl cs); try done; [by eapply range_change|].
    pose proof (unsent_change cs i x _ Asleep Hi). cbn in *. lia.
Qed.

(** What a recorded acknowledgement makes of the comparison. *)
Lemma recorded_known w b s h N p y x :
  shows w b s h N -> p ∈ regs ->
  all_in_state x (pm_assign p y (task_states s)) = forallb (fun q => bool_decide ((<[p := y]> (known_state N) : addr -> TaskState) q = x)) regs.
Proof.
  intros Hw Hp. apply eq_true_iff_eq. rewrite all_in_state_spec by (apply pm_assign_sorted, Hw).
  rewrite <- (Is_true_true (forallb _ _)), forallb_True, Forall_forall.
  assert (Hfind : forall q, q ∈ regs -> pm_find q (pm_assign p y (task_states s)) = Some ((<[p := y]> (known_state N) : addr -> TaskState) q)).
  { intros q Hq. rewrite pm_assign_find, fn_at by apply Hw. case_decide; [done|]. by apply (sh_known _ _ _ _ _ _ _ _ _ _ Hw). }
  assert (Hkeys : forall q, (q ∈ (pm_assign p y (task_states s)).*1) <-> q ∈ regs).
  { intros q. rewrite pm_assign_keys, (sh_keys _ _ _ _ _ _ _ _ _ _ Hw). split; [by intros [->|]|by right]. }
  split; intros Hall q Hq.
  - specialize (Hall q ltac:(by apply Hkeys)). rewrite Hfind in Hall by done. injection Hall as Hall. by rewrite bool_decide_true.
  - apply Hkeys in Hq. rewrite Hfind by done. f_equal. by apply (bool_decide_unpack _), Hall.
Qed.

Lemma shows_notified w b s h N N' p x :
  shows w b s h N -> ok N -> net_turn sm hb us p N N' -> p = sm -> target_state s = Some x ->
  notified sm w = busy N' sm && all_known hb us x N'.
Proof.
  intros Hw Hok Hturn Hps Hx. destruct (sh_thread _ _ _ _ _ _ _ _ _ _ Hw sm (list_elem_of_here _ _)) as (c & d & Hrole & pt & a & Hst & Ha & Hi & _).
  rewrite (held_sm sm) in Hi. assert (Hd : d = IsStateManager s).
  { inversion Hrole as [c'|c' Hc'|p' c' d' Hp'' Hr' Hc']; [done|by destruct Hne|]. by destruct (Hin sm Hp'') as (_ & ? & _). }
  subst d. apply status_Some in Hst as (t & Ht & _ & _ & Hth & _ & Hd). unfold notified. rewrite Ht, Hth.
  pose proof (no_acks _ _ _ Hok) as Hacks. pose proof (fun p y => recorded_known w b s h N p y x Hw) as Hrec.
  destruct Hturn as [p q k so r st u Hp Hu|p l1 y l2 q k so r st u Hp Hu Hb Hl1
    |p l1 id ts l2 at_ms q k so r st u Hp Hu Hb|p l1 id ts at_ms l2 tm q k so r st u Hp Hu Hb|p y q k so r st u Hp Hu];
      cbn [busy ack_queue known_state] in *.
  - subst p. by rewrite Hu, fn_lookup_insert.
  - subst p. by destruct no_sm.
  - subst p. by destruct no_sm; apply list_elem_of_further.
  - destruct Hne. by rewrite Hps.
  - rewrite Hu, fn_lookup_insert. cbn [spot andb]. apply Forall_cons in Hacks as [[_ Hy] _]. cbn in Hy.
    pose proof (oldest_dequeue a (state_ack p y) (fmap (M := list) ack_msg k) Hi) as Hdq.
    assert (Hlow : Forall (fun m' => msg_lt (state_ack p y) m' = false) (fmap (M := list) ack_msg k)).
    { apply Forall_fmap, Forall_true. intros r'. unfold msg_lt. cbn. lia. }
    specialize (Hdq Hlow).
    destruct (sh_view _ _ _ _ _ _ _ _ _ _ Hw) as (_ & _ & Hm). destruct (mailboxes_task w _ sm a Hm Ha) as (t' & Ht' & Hv).
    assert (t' = t) as -> by congruence. destruct (q_dequeue_ok _ _ Hv) as (q' & Hq & _). rewrite Hq, Hdq. cbn [fst].
    set (t1 := set_message_queue q' t).
    assert (Hlive : registered_live (with_task sm t1 w) s).
    { intros z Hz%(sh_keys _ _ _ _ _ _ _ _ _ _ Hw). apply with_task_live, (shows_live sm hb us cap limit_ms _ b s h _ z Hw).
      by apply list_elem_of_further. }
    destruct (handle_acknowledgment_run sm (state_ack p y) (with_task sm t1 w) t1 s x (with_task_lookup _ _ _) Hd Hlive Hx)
      as (r' & w2 & Hrun & _ & _ & Hiff).
    rewrite (M_bind_Ok _ _ w tt (with_task sm t1 w) eq_refl), Hrun, bool_decide_true by done. cbn [andb].
    assert (Hrange : p <> nullptr) by (destruct (reg_range sm hb us Hhb Hne Hin p Hp); unfold nullptr; lia).
    assert (Hk : p ∈ (task_states s).*1) by (by apply (sh_keys _ _ _ _ _ _ _ _ _ _ Hw)).
    rewrite state_ack_applies in Hiff by done. unfold all_known. cbn [known_state]. rewrite <- (Hrec p y Hp).
    apply eq_true_iff_eq. rewrite Hiff. split; [by intros [_ ?]|]. intros Hall. split; [|done].
    unfold ack_effect. cbn. rewrite decide_False, find_raw_spec, decide_True by done. by eexists.
Qed.

Lemma turn_matched k p C S : shown (1 + k) C S -> p ∈ threads -> matched k (ThreadTurns p) C S.
Proof.
  destruct C as [w fl cs], S as [N t fl' cs']. intros (b & s & h & Hw & Hok & Hsp & Hl & Ht & Hfl & Hcs & Hr & Hf & Hlt) Hp.
  cbn [the_world net sought about_to_notify telling callers demanders] in *. subst fl' cs'. unfold matched.
      cbn [call_move about_to_notify the_world callers].
  destruct (bool_decide (p = sm) && fl) eqn:Hfree; [by left|].
  destruct (traffic_turn sm hb us cap limit_ms Hsm Hhb Hne Hus Hin p w b s h N Hw Hok) as [(Hrun & _)|(w' & b' & s' & h' & N' & Hrun & Hturn & Hw' & _ & Hpr & Htg & Hf')];
    [by eapply spare_fits|apply (fresh_le _ (Z.of_nat (1 + k) + 1)); [lia|done]|done|by left; rewrite Hrun|right].
  rewrite Hrun. do 2 eexists. split; [done|]. split.
  { apply (ds_turn sm hb us p N N' t fl cs Hturn). intros ->. by rewrite bool_decide_true in Hfree. }
  exists b', s', h'. cbn. split_and!; try done; [by apply (net_turn_ok sm hb us no_hb p N)|by apply (spare_turn _ p N)|by apply (listens_pruned w b s h N)|congruence| | |lia].
  - case_decide as Hps; [|done]. by apply (shows_notified w b s h N N' p t).
  - apply Hf'; [lia..|]. by replace (Z.of_nat k + 1 + 1) with (Z.of_nat (1 + k) + 1) by lia.
Qed.

Lemma sleepless cs : forallb (fun c => negb (bool_decide (at_stage c = Asleep))) cs = true <-> Forall (fun c => at_stage c <> Asleep) cs.
Proof using.
  rewrite <- Is_true_true, forallb_True, !Forall_forall. split; intros Hall c Hc; specialize (Hall c Hc).
  - intros Hf. by rewrite Hf in Hall.
  - by rewrite bool_decide_false.
Qed.

(** Every move is a step of the scene or not possible. *)
Lemma move_matched k e C S : shown (1 + k) C S -> possible e -> matched k e C S.
Proof.
  intros HC He. destruct e as [i|i|i|p|i]; [by apply caller_matched| | |by apply turn_matched|]; unfold matched.
  all: destruct C as [w fl cs], S as [N t fl' cs']; pose proof HC as (b & s & h & Hw & Hok & Hsp & Hl & Ht & Hfl & Hcs & Hr & Hf & Hlt).
  all: cbn [the_world net sought about_to_notify telling callers demanders] in *; subst fl' cs'; cbn [call_move about_to_notify the_world callers made_by].
  - destruct (cs !! i) as [[x []]|] eqn:Hi; try (by left). destruct (mutex_free cs) eqn:Hm; [right|by left].
    destruct (demand_end_shows w b s h N x Hw) as (w' & R & Hw'). rewrite R. do 2 eexists. split; [done|]. split; [by apply ds_timeout|].
    apply (shown_on k w' b s h N t fl fl cs); try done; [by eapply range_change|].
    pose proof (unsent_change cs i x _ (Finished (all_known hb us x N)) Hi). cbn in *. lia.
  - destruct (cs !! i) as [[x []]|] eqn:Hi; try (by left). right. do 2 eexists. split; [done|]. split; [by apply ds_spurious|].
    apply (shown_on k w b s h N t fl fl cs); try done; [by eapply range_change|]. pose proof (unsent_change cs i x _ Testing Hi). cbn in *. lia.
  - destruct fl; [|by left].
    assert (Hor : (exists x, cs !! i = Some (mkDemander x Asleep)) \/ ~ exists x, cs !! i = Some (mkDemander x Asleep)).
    { destruct (cs !! i) as [[x []]|]; [right; by intros [? ?]..|left; by eexists|right; by intros [? ?]|right; by intros [? ?]]. }
    destruct Hor as [[x Hi]|Hno].
    + rewrite Hi. right. do 2 eexists. split; [done|]. split; [by apply ds_notify|].
      apply (shown_on k w b s h N t false false cs); try done; [by eapply range_change|]. pose proof (unsent_change cs i x _ Testing Hi). cbn in *. lia.
    + destruct (forallb _ cs) eqn:Hall; [right|left; destruct (cs !! i) as [[x []]|]; try done; destruct Hno; by eexists].
      exists (mkCalls w false cs). eexists. split; [destruct (cs !! i) as [[x []]|]; try done; destruct Hno; by eexists|].
      split; [apply ds_notify_nobody; by apply sleepless|]. by apply (shown_on k w b s h N t false false cs).
Qed.

(** *** Sequences of moves *)

Definition wakeups (l : list move) : nat := total (fun e => if e is WakesUp _ then 1 else 0)%nat l.

Lemma moves_shown S0 l m : forall C S n k,
  demands_run sm hb us S0 n k S -> shown (length l + m) C S -> Forall possible l ->
  exists n' k' C' S', call_moves sm l C = Ok (n', C') /\ demands_run sm hb us S0 (n + n') k' S' /\ (k' <= k + wakeups l)%nat /\ shown m C' S'.
Proof.
  induction l as [|e l IH]; intros C S n k Hrun HC Hl.
  { exists 0%nat, k, C, S. rewrite Nat.add_0_r. split_and!; [done..|cbn; lia|done]. }
  apply Forall_cons in Hl as [He Hl]. cbn [call_moves]. unfold wakeups. rewrite total_cons. fold (wakeups l).
  destruct (move_matched (length l + m) e C S HC He) as [Hm|(C1 & S1 & Hm & Hstep & HC1)]; rewrite Hm.
  - cbn [mbind result_bind]. change (default C None) with C. destruct (IH C S n k Hrun) as (n' & k' & C' & S' & -> & Hrun' & Hk & HC'); [|done|].
    { destruct HC as (b & s & h & Hw & Hok & Hsp & Hli & Ht & Hfl & Hcs & Hr & Hf & Hlt). exists b, s, h. split_and!; try done; [|cbn in *; lia].
      apply (fresh_le _ (Z.of_nat (length (e :: l) + m) + 1)); [cbn; lia|done]. }
    exists n', k', C', S'. split_and!; [done..|lia|done].
  - cbn [mbind result_bind]. change (default C (Some C1)) with C1.
      destruct (IH C1 S1 (1 + n)%nat _ (demands_more _ _ _ _ _ _ _ _ _ Hrun Hstep) HC1 Hl) as (n' & k' & C' & S' & -> & Hrun' & Hk & HC').
    exists (1 + n')%nat, k', C', S'. split_and!; [done| | |done].
    + by replace (n + (1 + n'))%nat with (1 + n + n')%nat by lia.
    + destruct e; cbn in *; lia.
Qed.

Lemma net_turn_thread p N N' : net_turn sm hb us p N N' -> p ∈ threads /\ (busy N p = false -> held sm hb N p <> []).
Proof.
  intros Hturn. destruct Hturn as [p q k so r st u Hp Hu|p l1 y l2 q k so r st u Hp Hu Hb Hl1
    |p l1 id ts l2 at_ms q k so r st u Hp Hu Hb|p l1 id ts at_ms l2 tm q k so r st u Hp Hu Hb|p y q k so r st u Hp Hu]; cbn [busy].
  - split; [done|congruence].
  - split; [by apply list_elem_of_further|]. intros _. rewrite (held_reg sm hb us Hhb Hne Hin) by done. cbn [box]. rewrite Hb, fmap_app. by destruct l1.
  - split; [by do 2 apply list_elem_of_further|]. intros _. rewrite (held_reg sm hb us Hhb Hne Hin) by (by apply list_elem_of_further).
    cbn [box]. rewrite Hb, fmap_app. by destruct l1.
  - split; [apply list_elem_of_further, list_elem_of_here|]. intros _. rewrite (held_reg sm hb us Hhb Hne Hin) by apply list_elem_of_here.
    cbn [box]. rewrite Hb, fmap_app. by destruct l1.
  - split; [apply list_elem_of_here|]. intros _. by rewrite (held_sm sm).
Qed.

(** A step of the scene that is up to a thread is a move of the program. *)
Lemma step_possible k c C S S' :
  shown (1 + k) C S -> demand_step sm hb us c S S' -> c = ByThread -> exists e, possible e /\ made_by e = ByThread /\ call_move sm e C <> Ok None.
Proof.
  destruct C as [w fl cs]. intros (b & s & h & Hw & Hok & Hsp & Hl & Ht & Hfl & Hcs & Hr & Hf & Hlt) Hstep.
  destruct Hstep as [N t fl' cs' i x Hi Hm|N t fl' cs' i x Hi|N t fl' cs' i x Hi Hm|N t fl' cs' i x Hi|N t fl' cs' i x Hi Hm
    |N t fl' cs' i x Hi|p N N' t fl' cs' Hturn Hb|N t cs' i x Hi|N t cs' Hall]; intros Hc; try done;
    cbn [the_world net sought about_to_notify telling callers demanders] in *; rewrite ?Hfl, ?Hcs in *; clear Hfl Hcs Hc.
  1-4: exists (CallerMoves i); split; [done|split; [done|]]; cbn [call_move]; unfold caller_move; cbn [callers the_world]; rewrite Hi, ?Hm.
  - destruct (target_shows sm hb us cap limit_ms Hne Hin w b s h N x Hw) as (w1 & -> & _). done.
  - destruct (caller_matched k i (mkCalls w fl' cs') (mkScene N t fl' cs')) as [Hno|(C' & S2 & Hrun & _)]; [by exists b, s, h|..];
      cbn [call_move] in *; unfold caller_move in *; cbn [callers the_world] in *; rewrite Hi in *.
    + by destruct (StateManager_transition_to_state sm x w) as [[[] w']|er].
    + by rewrite Hrun.
  - destruct (shows_manager sm hb us cap limit_ms Hne Hin w b s h N Hw) as (tk & Htk & Hd). by rewrite (all_tasks_in_state_run sm x w tk s Htk Hd).
  - done.
  - destruct (net_turn_thread p N N' Hturn) as [Hp Hbusy]. exists (ThreadTurns p). split; [done|]. split; [done|].
      cbn [call_move about_to_notify the_world].
    assert (bool_decide (p = sm) && fl' = false) as -> by (destruct (bool_decide_reflect (p = sm)) as [Hps|]; [by rewrite (Hb Hps)|done]).
    destruct (traffic_turn sm hb us cap limit_ms Hsm Hhb Hne Hus Hin p w b s h N Hw Hok) as [(_ & Hbu & Hheld)|(w' & b' & s' & h' & N2 & Hrun & _)];
      [by eapply spare_fits|apply (fresh_le _ (Z.of_nat (1 + k) + 1)); [lia|done]|done|by destruct (Hbusy Hbu)|by rewrite Hrun].
  - exists (Notifies i). split; [done|]. split; [done|]. cbn. by rewrite Hi.
  - exists (Notifies 0). split; [done|]. split; [done|]. cbn [call_move about_to_notify callers the_world]. apply sleepless in Hall. rewrite Hall.
    by destruct (cs' !! 0%nat) as [[x []]|].
Qed.

(** When no thread can make a move, the scene is at rest. *)
Lemma calls_resting k C S :
  shown (1 + k) C S -> (forall e, possible e -> made_by e = ByThread -> call_move sm e C = Ok None) -> resting sm hb us S.
Proof.
  intros HC Hnone S' Hstep. destruct (step_possible k ByThread C S S' HC Hstep eq_refl) as (e & He & Hby & Hm). by apply Hm, Hnone.
Qed.

(** ** Properties *)

Definition start_calls w (xs : list TaskState) : calls Q := mkCalls w false ((fun x => mkDemander x Announcing) <$> xs).

Lemma start_shown m w b s h N t0 xs :
  shows w b s h N -> ok N -> spare (length xs) N -> listens b -> target_state s = Some t0 -> Forall (fun x => 0 <= x < 2 ^ 8) xs ->
  fresh b (Z.of_nat m + 1) -> Z.of_nat m + 1 < 2 ^ 32 -> shown m (start_calls w xs) (start_demands t0 N xs).
Proof.
  intros Hw Hok Hsp Hl Ht Hxs Hf Hlt. exists b, s, h. cbn [the_world net sought about_to_notify telling callers demanders start_calls start_demands].
  assert (total unsent ((fun x => mkDemander x Announcing) <$> xs) = length xs) as -> by (clear; induction xs; [done|];
      rewrite fmap_cons, total_cons, IHxs; done).
  split_and!; try done. by apply Forall_fmap.
Qed.

(** C14. The calls of the program do what the scene says: any number of threads
    call [demand_state_transition] of one state manager, with whatever is
    under way and room for the requests of all. Whatever sequence of moves is
    tried, of these threads in pieces cut at the mutex, the publication and
    the wait, of all message threads, of timeouts and spurious wake-ups, no
    move goes wrong, and but for the spurious wake-ups only a bounded number
    of them can be made; and once no thread can make a move, all registered
    tasks are, and are on record, in one of the demanded states, and every
    call has returned or sleeps, and would at the end of its timeout answer
    true exactly if its state is the one. *)
Theorem demand_calls_end w b s h N t0 xs l :
  shows w b s h N -> ok N -> spare (length xs) N -> listens b -> target_state s = Some t0 ->
  Forall (fun x => 0 <= x < 2 ^ 8) xs -> xs <> [] -> Forall possible l ->
  fresh b (Z.of_nat (length l) + 2) -> Z.of_nat (length l) + 2 < 2 ^ 32 ->
  exists n C, call_moves sm l (start_calls w xs) = Ok (n, C) /\
    (n <= 4 * turns_left sm hb us N + length xs * (21 + 16 * length us) + 3 * wakeups l)%nat /\
    ((forall e, possible e -> made_by e = ByThread -> call_move sm e C = Ok None) -> exists y, y ∈ xs /\
      (forall p, p ∈ regs -> current_state <$> tasks (the_world C) !! p = Some y) /\
      (exists t s', tasks (the_world C) !! sm = Some t /\ derived t = IsStateManager s' /\
        forall p, p ∈ regs -> pm_find p (task_states s') = Some y) /\
      forall i c, callers C !! i = Some c -> (exists r, at_stage c = Finished r) \/
        at_stage c = Asleep /\ exists w', call_move sm (TimeoutEnds i) C =
          Ok (Some (enters i (wanted c) (Finished (bool_decide (wanted c = y))) w' C))).
Proof.
  intros Hw Hok Hsp Hl Ht Hxs Hne' Hpl Hf Hlt.
  destruct (moves_shown (start_demands t0 N xs) l 1 (start_calls w xs) (start_demands t0 N xs) 0 0) as (n & k & C & S & Hrun & Hsteps & Hk & HC);
    [apply demands_none|apply (start_shown _ w b s h); try done; [|lia]|done|].
  { by replace (Z.of_nat (length l + 1) + 1) with (Z.of_nat (length l) + 2) by lia. }
  exists n, C. split; [done|]. split; [pose proof (demands_run_left sm hb us Hus no_hb no_sm _ _ _ _ Hsteps) as Hn; rewrite start_left in Hn; lia|].
  intros Hnone. pose proof (calls_resting 0 C S HC Hnone) as Hrest.
  pose proof (demands_inv_run sm hb us no_hb xs _ _ _ _ Hxs (demands_inv_start hb us xs t0 N Hok) Hsteps) as Hinv.
  destruct (resting_answers sm hb us Hus no_sm xs S Hinv Hne' Hrest) as (y & Hy & Hset & Hh & Hall). exists y. split; [done|].
  destruct C as [w' fl cs]. destruct HC as (b' & s' & h' & Hw' & _ & _ & _ & _ & _ & Hcs & _). cbn [the_world callers about_to_notify] in *. subst cs.
  split; [|split].
  - intros p Hp. rewrite <- (Hh p Hp). by apply (settled_shows sm hb us cap limit_ms Hsm Hhb Hne Hin w' b' s' h' (net S) p).
  - destruct (shows_manager sm hb us cap limit_ms Hne Hin w' b' s' h' (net S) Hw') as (t & Htk & Hd). exists t, s'. split_and!; [done..|].
    intros p Hp. rewrite <- (Hh p Hp). by apply (settled_shows sm hb us cap limit_ms Hsm Hhb Hne Hin w' b' s' h' (net S) p).
  - intros i c Hi. destruct (Hall i c Hi) as [Hr|(Ha & Hm & Hkn)]; [by left|right]. split; [done|].
    destruct (demand_end_shows w' b' s' h' (net S) (wanted c) Hw') as (w2 & R2 & _). exists w2.
    destruct c as [x st]. cbn [wanted at_stage] in *. subst st.
    cbn [call_move callers the_world]. by rewrite Hi, Hm, R2, Hkn.
Qed.
End demand_calls.

(** ** Witness: two demands that cross, a heartbeat under way *)

#[local] Existing Instance working_user.

(** The caller of ERROR sets [target_state], the caller of IDLE does so too,
    both broadcast, find their tasks elsewhere and go to sleep; then the
    message threads have their turns. *)
Definition crossing_moves : list move :=
  [CallerMoves 0; CallerMoves 1; CallerMoves 1; CallerMoves 0; CallerMoves 0; CallerMoves 0; CallerMoves 1; CallerMoves 1] ++
  concat (replicate 12 [ThreadTurns 32; ThreadTurns 48; ThreadTurns 16; Notifies 0; Notifies 1; CallerMoves 0; CallerMoves 1]).

Definition crossed_calls : calls aqueue :=
  match call_moves 16 crossing_moves (start_calls busy_world [ERROR; IDLE]) with Ok (_, C) => C | Err _ => start_calls busy_world [] end.

(** Both callers sleep, and no thread has anything to do. *)
Lemma crossed_callers : callers crossed_calls = [mkDemander ERROR Asleep; mkDemander IDLE Asleep].
Proof. by vm_compute. Qed.

Lemma crossed_rest e : possible 16 48 [32] e -> made_by e = ByThread -> call_move 16 e crossed_calls = Ok None.
Proof.
  destruct e as [i|i|i|p|i]; cbn [possible made_by]; intros Hp Hby; try done.
  - cbn [call_move]. unfold caller_move. rewrite crossed_callers. by destruct i as [|[|i]].
  - apply elem_of_cons in Hp as [->|[->| ->%list_elem_of_singleton]%elem_of_cons]; by vm_compute.
Qed.

Lemma demand_calls_end_witness :
  exists n, call_moves 16 crossing_moves (start_calls busy_world [ERROR; IDLE]) = Ok (n, crossed_calls) /\ (n <= 110)%nat /\
    exists y, (forall p, p ∈ [48; 32] -> current_state <$> tasks (the_world crossed_calls) !! p = Some y) /\
      exists w', call_move 16 (TimeoutEnds 0) crossed_calls = Ok (Some (enters 0 ERROR (Finished (bool_decide (ERROR = y))) w' crossed_calls)).
Proof.
  destruct (demand_calls_end 16 48 [32] (fun _ => 4%nat) 3 ltac:(lia) ltac:(lia) ltac:(done)) with
    (w := busy_world) (b := busy_bus) (s := busy_manager) (h := busy_poller) (N := busy_network) (t0 := RUNNING)
    (xs := [ERROR; IDLE]) (l := crossing_moves) as (n & C & Hrun & Hn & Hrest).
  - apply NoDup_singleton.
  - intros p ->%list_elem_of_singleton. lia.
  - apply busy_shows.
  - apply busy_ok.
  - split; [intros p ->%list_elem_of_singleton; vm_compute; lia|vm_compute; lia|vm_compute; lia].
  - intros p. cbn. reflexivity.
  - done.
  - repeat constructor; unfold ERROR, IDLE; lia.
  - done.
  - apply Forall_app_2; [repeat constructor|]. apply Forall_concat, Forall_replicate.
    repeat (apply Forall_cons; split; [cbn [possible]; set_solver|]). constructor.
  - apply busy_fresh. vm_compute. done.
  - vm_compute. done.
  - assert (HC : C = crossed_calls) by (unfold crossed_calls; by rewrite Hrun). rewrite HC in *. exists n. split; [exact Hrun|].
    split; [vm_compute in Hn; lia|]. destruct (Hrest crossed_rest) as (y & _ & Hst & _ & Hc). exists y. split; [exact Hst|].
    destruct (Hc 0%nat (mkDemander ERROR Asleep)) as [[r Hr]|(_ & w' & Hw')]; [by rewrite crossed_callers|done|]. exists w'. exact Hw'.
Defined.
