(* ===== verification/Unresponsive.v ===== *)
(** * Unresponsive: what becomes of a monitored task that hangs

    The periodic work of a heartbeat task, again and again, against a task
    whose thread never takes a message out of its queue: every timeout puts a
    request for ERROR into that queue and every round a heartbeat, and nothing
    stops the polling of a task that has been marked. *)

From S2P Require Import Prelude Msg Heap QueueSpec Logger World Broker TaskBase StateManager HeartBeat System Handshake Polling.
#[local] Open Scope Z_scope.

(** ** The check for timeouts leaves the clock, states and threads *)

Section check_leaves.
Context {Q : Type} `{QueueImpl Q}.
Implicit Types (t : Task Q) (w : World Q).

Lemma threads_modify_sm q p f : leaves (Q := Q) (threads_of q) (modify_sm p f).
Proof.
  intros w a w' (s & w1 & [-> (t & Ht & _)]%get_sm_inv & (t' & Ht' & ->)%modify_task_inv)%M_bind_inv.
  by apply (threads_with_task q p t').
Qed.

Lemma clock_check p : leaves (Q := Q) clock (check_for_timeouts p).
Proof.
  unfold check_for_timeouts. pose proof (clock_get_hb (Q := Q)). apply leaves_bind; [keep|]. intros c.
  apply leaves_bind; [keep|]. intros h. generalize (monitored_tasks h). intros l.
  induction l as [|[k st] l IH]; cbn [check_loop]; [keep|]. apply leaves_bind; [keep|]. intros h'.
  apply leaves_bind; [|intros; exact IH]. pose proof (@clock_log_as Q). pose proof (clock_modify_hb (Q := Q)).
  pose proof (@clock_deliver Q _). pose proof (@clock_modify_sm Q).
  apply leaves_if; [|keep]. unfold handle_unresponsive_task, mark_task_as_unresponsive, get_name. keep.
Qed.

Lemma clock_send p : leaves (Q := Q) clock (send_heartbeat p).
Proof. unfold send_heartbeat. pose proof (clock_get_hb (Q := Q)). pose proof (clock_send_loop (Q := Q)). keep. Qed.

Lemma threads_check q p : leaves (Q := Q) (threads_of q) (check_for_timeouts p).
Proof.
  unfold check_for_timeouts. pose proof (@threads_get_hb Q q). apply leaves_bind; [keep|]. intros c.
  apply leaves_bind; [keep|]. intros h. generalize (monitored_tasks h). intros l.
  induction l as [|[k st] l IH]; cbn [check_loop]; [keep|]. apply leaves_bind; [keep|]. intros h'.
  apply leaves_bind; [|intros; exact IH]. pose proof (@threads_log_as Q q). pose proof (@threads_modify_hb Q q).
  pose proof (@threads_deliver Q _ q). pose proof (threads_modify_sm q).
  apply leaves_if; [|keep]. unfold handle_unresponsive_task, mark_task_as_unresponsive, get_name. keep.
Qed.

Lemma threads_send q p : leaves (Q := Q) (threads_of q) (send_heartbeat p).
Proof. unfold send_heartbeat. pose proof (@threads_get_hb Q q). pose proof (@threads_send_loop Q _ q). keep. Qed.
End check_leaves.

Section unresponsive.
Context {Q : Type} `{QueueImpl Q}.
Implicit Types (t : Task Q) (w : World Q) (h : HeartBeat) (st : TaskStatus) (a : aqueue).

(** [n] times the periodic work of the heartbeat task. *)
Fixpoint periods (n : nat) (this : addr) : M Q unit :=
  match n with
  | O => mret tt
  | S n' => _ ← HeartBeat_periodic_task_process this; periods n' this
  end.

Lemma periods_add n1 n2 this w w1 r : periods n1 this w = Ok (tt, w1) -> periods n2 this w1 = r -> periods (n1 + n2) this w = r.
Proof.
  revert w. induction n1 as [|n1 IH]; intros w; cbn [periods Nat.add]; [by intros [= ->]|].
  intros ([] & w' & Hp & Hn)%M_bind_inv Hr. rewrite (M_bind_Ok _ _ _ _ _ Hp). by apply IH.
Qed.

(** A heartbeat task in RUNNING watches [p] alone; [mb !! p] is [a]. *)
Record watching (this p : addr) (h : HeartBeat) st w (mb : gmap addr aqueue) a : Prop := {
  watching_mail : mailboxes w mb;
  watching_hb : hb_at this w h;
  watching_task : monitored_tasks h = [(p, st)];
  watching_id : 0 <= next_heartbeat_id h < 2 ^ 32;
  watching_sm : exists s, sm_at (state_manager h) w s;
  watching_state : exists x, threads_of this w = Some x /\ x.1.1.1 = RUNNING;
  watching_queue : mb !! p = Some a;
  watching_ticks : aq_ticks a + Z.of_nat (aq_capacity a - length (aq_items a)) < 2 ^ 32 - 1;
}.

Section one_task.
Variables (this p sm : addr).
Hypothesis this_range : 0 < this < 2 ^ 64.
Hypothesis sm_range : 0 < sm < 2 ^ 64.
Hypothesis p_this : p <> this.

(** *** A full queue *)

Lemma deliver_full m w mb a :
  mailboxes w mb -> msg_wf m -> known_sender mb m -> mb !! p = Some a -> ~ has_room a -> aq_ticks a < 2 ^ 32 - 1 ->
  deliver_message p m w = Err queue_full.
Proof.
  intros Hm Hwf Hs Ha Hr Ht. pose proof (deliver_message_view p m w mb Hm Hwf) as Hd.
  unfold bus_deliver in Hd. rewrite decide_True, Ha, aq_enqueue_no_room in Hd by done.
  apply Hd. congruence.
Qed.

Lemma ticks_small h st w mb a : watching this p h st w mb a -> aq_ticks a < 2 ^ 32 - 1.
Proof. intros [? ? ? ? ? ? ? Ht]. lia. Qed.

(** [n] as the number of readings made so far. *)
Definition at_reading (n : nat) w : World Q := mkWorld (tasks w) (broker w) (logger w) (clock w) n (this_thread w).

Lemma watching_at_reading n h st w mb a : watching this p h st w mb a -> watching this p h st (at_reading n w) mb a.
Proof. by intros []. Qed.

(** *** The check *)

Lemma check_passes h st w mb a :
  watching this p h st w mb a -> timed_out (steady_ns (clock w (ticks w))) (response_timeout_ms h) st = false ->
  check_for_timeouts this w = Ok (tt, tick w).
Proof.
  intros Hw Hto. apply (watching_at_reading (S (ticks w))) in Hw as [_ Hh Hmon _ _ _ _ _].
  unfold check_for_timeouts. rewrite (M_bind_Ok _ _ w _ (tick w) eq_refl), (M_bind_Ok _ _ _ _ _ (hb_at_run _ _ _ Hh)).
  rewrite Hmon. cbn [check_loop]. rewrite (M_bind_Ok _ _ _ _ _ (hb_at_run _ _ _ Hh)), Hto. done.
Qed.

Lemma check_full h st w mb a :
  watching this p h st w mb a -> state_manager h = sm -> timed_out (steady_ns (clock w (ticks w))) (response_timeout_ms h) st = true ->
  ~ has_room a -> check_for_timeouts this w = Err queue_full.
Proof.
  intros Hw Hsm Hto Hr. pose proof (ticks_small _ _ _ _ _ Hw) as Hts. apply (watching_at_reading (S (ticks w))) in Hw as [Hm Hh Hmon _ [s Hs] _ Ha _].
  change (at_reading _ w) with (tick w) in *.
  unfold check_for_timeouts. rewrite (M_bind_Ok _ _ w _ (tick w) eq_refl), (M_bind_Ok _ _ _ _ _ (hb_at_run _ _ _ Hh)).
  rewrite Hmon. cbn [check_loop]. rewrite (M_bind_Ok _ _ _ _ _ (hb_at_run _ _ _ Hh)), Hto. apply M_bind_Err.
  destruct (mailboxes_task _ mb p a Hm Ha) as (u & Hu & _). pose proof Hh as (t & Ht & Hd).
  rewrite (M_bind_Ok _ _ _ _ _ (get_name_run p u _ Hu)), (M_bind_Ok _ _ _ _ _ (log_as_run this t _ _ _ Ht)).
  apply M_bind_Err. unfold handle_unresponsive_task. set (w1 := logged _ _ _ (tick w)).
  rewrite (M_bind_Ok _ _ w1 h w1) by (by apply hb_at_run; exists t). rewrite Hsm, decide_False by (unfold nullptr; lia).
  rewrite Hsm in Hs. destruct Hs as (ts & Hts' & Hds). unfold mark_task_as_unresponsive.
  rewrite (M_bind_Ok _ _ _ _ _ (get_name_run p u w1 Hu)), (M_bind_Ok _ _ _ _ _ (log_as_run sm ts _ _ w1 Hts')).
  rewrite (M_bind_Ok _ _ _ _ _ (lift_Msg_new _ _ _)). fold (state_request sm ERROR). apply M_bind_Err.
  apply (deliver_full _ _ mb a); try done; [apply state_request_wf; lia|].
  right. apply (mailboxes_live (tick w)); [done|]. by exists ts.
Qed.

(** The budget of sequence numbers lasts as long as the queue has room. *)
Lemma received_ticks m a :
  has_room a -> aq_ticks a + Z.of_nat (aq_capacity a - length (aq_items a)) < 2 ^ 32 - 1 ->
  aq_ticks (received m a) + Z.of_nat (aq_capacity (received m a) - length (aq_items (received m a))) < 2 ^ 32 - 1.
Proof. unfold has_room. cbn [received aq_ticks aq_capacity aq_items]. rewrite length_app. cbn [length]. lia. Qed.

Lemma watching_threads h h' st st' w w' mb mb' a a' :
  watching this p h st w mb a -> threads_of this w' = threads_of this w -> mailboxes w' mb' -> hb_at this w' h' ->
  monitored_tasks h' = [(p, st')] -> 0 <= next_heartbeat_id h' < 2 ^ 32 -> (exists s, sm_at (state_manager h') w' s) ->
  mb' !! p = Some a' -> aq_ticks a' + Z.of_nat (aq_capacity a' - length (aq_items a')) < 2 ^ 32 - 1 ->
  watching this p h' st' w' mb' a'.
Proof. intros [_ _ _ _ _ [x Hx] _ _] Ht ? ? ? ? ? ? ?. constructor; try done. exists x. by rewrite Ht. Qed.

Lemma check_room h st w mb a :
  watching this p h st w mb a -> state_manager h = sm -> timed_out (steady_ns (clock w (ticks w))) (response_timeout_ms h) st = true ->
  has_room a ->
  exists w' h', check_for_timeouts this w = Ok (tt, w') /\ state_manager h' = sm /\ clock w' = clock w /\
    watching this p h' (set_awaiting false st) w' (<[p := received (state_request sm ERROR) a]> mb) (received (state_request sm ERROR) a).
Proof.
  intros Hw Hsm Hto Hr. pose proof (ticks_small _ _ _ _ _ Hw) as Hts.
  pose proof (watching_at_reading (S (ticks w)) _ _ _ _ _ Hw) as [Hm Hh Hmon Hid [s Hs] _ Ha Hb].
  change (at_reading _ w) with (tick w) in *. rewrite <- Hsm in *.
  destruct (check_one_run this p st (tick w) h mb s a Hm Hh Hs sm_range Ha Hr Hts) as (w' & Hrun & Hm' & Hh' & Hs' & _).
  assert (Hcheck : check_for_timeouts this w = Ok (tt, w')).
  { unfold check_for_timeouts. rewrite (M_bind_Ok _ _ w _ (tick w) eq_refl), (M_bind_Ok _ _ _ _ _ (hb_at_run _ _ _ Hh)).
    rewrite Hmon. cbn [check_loop]. rewrite (M_bind_Ok _ _ _ _ _ (hb_at_run _ _ _ Hh)), Hto. by rewrite (M_bind_Ok _ _ _ _ _ Hrun). }
  exists w', (assign_status p (set_awaiting false st) h). split; [done|]. split; [done|]. split; [exact (clock_check _ _ _ _ Hcheck)|].
  eapply (watching_threads _ _ _ _ _ _ _ _ _ _ Hw); try done.
  - exact (threads_check _ _ _ _ _ Hcheck).
  - cbn. rewrite Hmon. cbn. by rewrite decide_False, decide_True by lia.
  - by eexists.
  - by rewrite lookup_insert_eq.
  - by apply received_ticks.
Qed.

(** *** The round of heartbeats *)

Lemma send_waits h st w mb a :
  watching this p h st w mb a -> awaiting_response st = true -> send_heartbeat this w = Ok (tt, w).
Proof.
  intros [_ Hh Hmon _ _ _ _ _] Haw. unfold send_heartbeat. rewrite (M_bind_Ok _ _ _ _ _ (hb_at_run _ _ _ Hh)), Hmon.
  cbn [send_loop]. by rewrite Haw.
Qed.

Lemma send_full h st w mb a :
  watching this p h st w mb a -> awaiting_response st = false -> ~ has_room a -> send_heartbeat this w = Err queue_full.
Proof.
  intros Hw Haw Hr. pose proof (ticks_small _ _ _ _ _ Hw) as Hts. destruct Hw as [Hm Hh Hmon Hid _ _ Ha _].
  unfold send_heartbeat. rewrite (M_bind_Ok _ _ _ _ _ (hb_at_run _ _ _ Hh)), Hmon.
  cbn [send_loop]. rewrite Haw. apply M_bind_Err. rewrite (M_bind_Ok _ _ w _ (tick w) eq_refl).
  destruct (hb_at_modify this (tick w) h mb (set_next_id (u32 (next_heartbeat_id h + 1))) Hm Hh) as (w1 & Hrun1 & Hm1 & Hh1 & _).
  assert (Hgen : generate_heartbeat_id this (tick w) = Ok (next_heartbeat_id h, w1)).
  { unfold generate_heartbeat_id. rewrite (M_bind_Ok _ _ (tick w) h (tick w)) by (by apply (hb_at_run this (tick w))).
    by rewrite (M_bind_Ok _ _ _ _ _ Hrun1). }
  rewrite (M_bind_Ok _ _ _ _ _ Hgen), (M_bind_Ok _ _ _ _ _ (lift_Msg_new _ _ _)).
  destruct (hb_at_modify this w1 _ mb (assign_status p (mkTaskStatus true (next_heartbeat_id h)
    (steady_ns (clock w (ticks w))) (last_response_time st))) Hm1 Hh1) as (w2 & Hrun2 & Hm2 & Hh2 & _). rewrite (M_bind_Ok _ _ _ _ _ Hrun2).
  apply (deliver_full _ w2 mb a); try done; [apply heartbeat_wf; lia|]. right. apply (mailboxes_live w2); [done|].
  destruct Hh2 as (t & ? & _). by exists t.
Qed.

Lemma send_room h st w mb a :
  watching this p h st w mb a -> state_manager h = sm -> this <> sm -> awaiting_response st = false -> has_room a ->
  exists w' h' st' mb' m, send_heartbeat this w = Ok (tt, w') /\ state_manager h' = sm /\ clock w' = clock w /\
    watching this p h' st' w' mb' (received m a).
Proof.
  intros Hw Hsm Hne Haw Hr. pose proof (ticks_small _ _ _ _ _ Hw) as Hts. pose proof Hw as [Hm Hh Hmon Hid [s Hs] _ Ha Hb].
  destruct (send_one_run this p st w h mb a Hm Hh this_range p_this Hid Ha Hr Hts Haw) as (w' & tm & Hrun & Hm' & Hh' & He & _).
  assert (Hsend : send_heartbeat this w = Ok (tt, w')).
  { unfold send_heartbeat. rewrite (M_bind_Ok _ _ _ _ _ (hb_at_run _ _ _ Hh)), Hmon. cbn [send_loop]. by rewrite (M_bind_Ok _ _ _ _ _ Hrun). }
  set (st' := mkTaskStatus true (next_heartbeat_id h) tm (last_response_time st)) in *.
  exists w', (assign_status p st' (set_next_id (u32 (next_heartbeat_id h + 1)) h)), st'. eexists _, _.
  split; [done|]. split; [done|]. split; [exact (clock_send _ _ _ _ Hsend)|].
  eapply (watching_threads _ _ _ _ _ _ _ _ _ _ Hw); try done.
  - exact (threads_send _ _ _ _ _ Hsend).
  - cbn. rewrite Hmon. cbn. by rewrite decide_False, decide_True by lia.
  - apply u32_range.
  - exists s. apply (sm_at_mail _ w w' _ [this]); [done| |done]. cbn. intros Hx%list_elem_of_singleton. congruence.
  - by rewrite lookup_insert_eq.
  - by apply received_ticks.
Qed.

(** *** The periods *)

(** Until the answer is overdue a period only reads the clock. *)
Lemma period_waits h st w mb a :
  watching this p h st w mb a -> awaiting_response st = true ->
  timed_out (steady_ns (clock w (ticks w))) (response_timeout_ms h) st = false ->
  HeartBeat_periodic_task_process this w = Ok (tt, at_reading (S (ticks w)) w).
Proof.
  intros Hw Haw Hto. unfold HeartBeat_periodic_task_process. rewrite (M_bind_Ok _ _ _ _ _ (check_passes h st w mb a Hw Hto)).
  pose proof (watching_at_reading (S (ticks w)) _ _ _ _ _ Hw) as Hw1. pose proof (watching_state _ _ _ _ _ _ _ Hw1) as ([[[x r] qt] pt] & Hx & Hrun).
  unfold threads_of in Hx. change (at_reading (S (ticks w)) w) with (tick w) in *. destruct (tasks (tick w) !! this) as [t|] eqn:Ht; [|done].
  cbn in Hx, Hrun. injection Hx as Hc _ _ _. unfold get_current_state.
  rewrite (M_bind_Ok _ _ (tick w) (current_state t) (tick w)) by (by rewrite (M_bind_Ok _ _ _ _ _ (get_task_run this t _ Ht))).
  rewrite decide_True by congruence. by apply (send_waits h st _ mb a).
Qed.

(** A period that has something to do puts a message into the queue, or aborts. *)
Lemma period_works h st w mb a :
  watching this p h st w mb a -> state_manager h = sm -> this <> sm ->
  awaiting_response st = false \/ timed_out (steady_ns (clock w (ticks w))) (response_timeout_ms h) st = true ->
  HeartBeat_periodic_task_process this w = Err queue_full \/
  exists w' h' st' mb' a', HeartBeat_periodic_task_process this w = Ok (tt, w') /\ watching this p h' st' w' mb' a' /\
    state_manager h' = sm /\ clock w' = clock w /\ aq_capacity a' = aq_capacity a /\
    (length (aq_items a) < length (aq_items a') <= aq_capacity a')%nat.
Proof.
  intros Hw Hsm Hne Hcase. unfold HeartBeat_periodic_task_process.
  assert (Hcheck : check_for_timeouts this w = Err queue_full \/
    exists w1 h1 st1 mb1 a1, check_for_timeouts this w = Ok (tt, w1) /\ watching this p h1 st1 w1 mb1 a1 /\ state_manager h1 = sm /\
      clock w1 = clock w /\ awaiting_response st1 = false /\ aq_capacity a1 = aq_capacity a /\ (length (aq_items a) <= length (aq_items a1))%nat).
  { destruct (timed_out (steady_ns (clock w (ticks w))) (response_timeout_ms h) st) eqn:Hto.
    - destruct (decide (has_room a)) as [Hr|Hr]; [right|left; by apply (check_full h st w mb a)].
      destruct (check_room h st w mb a Hw Hsm Hto Hr) as (w1 & h1 & Hrun & Hsm1 & Hc1 & Hw1).
      eexists w1, h1, _, _, _. split; [done|]. split; [exact Hw1|]. split_and!; try done. cbn. rewrite length_app. lia.
    - destruct Hcase as [Haw|]; [|done]. right. exists (tick w), h, st, mb, a.
      split; [by apply (check_passes h st w mb a)|]. split; [by apply (watching_at_reading (S (ticks w)))|]. by split_and!. }
  destruct Hcheck as [He|(w1 & h1 & st1 & mb1 & a1 & Hrun1 & Hw1 & Hsm1 & Hc1 & Haw1 & Hcap1 & Hlen1)].
  { left. by rewrite (M_bind_Err _ _ _ _ He). }
  rewrite (M_bind_Ok _ _ _ _ _ Hrun1). pose proof (watching_state _ _ _ _ _ _ _ Hw1) as ([[[x r] qt] pt] & Hx & Hrun).
  unfold threads_of in Hx. destruct (tasks w1 !! this) as [t|] eqn:Ht; [|done]. cbn in Hx, Hrun. injection Hx as Hc _ _ _.
  unfold get_current_state. rewrite (M_bind_Ok _ _ w1 (current_state t) w1) by (by rewrite (M_bind_Ok _ _ _ _ _ (get_task_run this t _ Ht))).
  rewrite decide_True by congruence. destruct (decide (has_room a1)) as [Hr|Hr]; [right|left; by apply (send_full h1 st1 w1 mb1 a1)].
  destruct (send_room h1 st1 w1 mb1 a1 Hw1 Hsm1 Hne Haw1 Hr) as (w' & h' & st' & mb' & m & Hrun' & Hsm' & Hc' & Hw').
  exists w', h', st', mb', (received m a1). split; [done|]. split; [done|]. split_and!; [done|congruence|done|..]; cbn; rewrite length_app; cbn.
  - lia.
  - unfold has_room in Hr. lia.
Qed.

(** The period in which the answer is found overdue. *)
Lemma until_overdue d h st w mb a :
  watching this p h st w mb a -> awaiting_response st = true ->
  timed_out (steady_ns (clock w (d + ticks w))) (response_timeout_ms h) st = true ->
  exists j, periods j this w = Ok (tt, at_reading (j + ticks w) w) /\
    timed_out (steady_ns (clock w (j + ticks w))) (response_timeout_ms h) st = true.
Proof.
  revert w. induction d as [|d IH]; intros w Hw Haw Hd.
  { exists O. split; [|done]. by destruct w. }
  destruct (timed_out (steady_ns (clock w (ticks w))) (response_timeout_ms h) st) eqn:Hto.
  { exists O. split; [by destruct w|done]. }
  pose proof (period_waits h st w mb a Hw Haw Hto) as Hrun.
  destruct (IH (at_reading (S (ticks w)) w)) as (j & Hj & Htj); [by apply watching_at_reading|done| |].
  { cbn. by replace (d + S (ticks w))%nat with (S d + ticks w)%nat by lia. }
  cbn in Hj, Htj. exists (S j). replace (S j + ticks w)%nat with (j + S (ticks w))%nat by lia. split; [|done].
  cbn [periods]. by rewrite (M_bind_Ok _ _ _ _ _ Hrun).
Qed.

(** A late enough reading makes every awaited answer overdue. *)
Lemma late_reading st time_ns limit_ms :
  awaiting_response st = true -> last_heartbeat_time st + (Z.abs limit_ms + 1) * 1000000 <= time_ns ->
  timed_out time_ns limit_ms st = true.
Proof.
  intros Haw Ht. unfold timed_out. rewrite Haw. apply bool_decide_eq_true.
  pose proof (duration_cast_ms_le ((Z.abs limit_ms + 1) * 1000000) (time_ns - last_heartbeat_time st) ltac:(lia)) as Hd.
  unfold duration_cast_ms in *. rewrite Z.quot_mul in Hd by done. lia.
Qed.

Lemma hung_task_fills k h st w mb a :
  watching this p h st w mb a -> state_manager h = sm -> this <> sm -> (length (aq_items a) <= aq_capacity a)%nat ->
  (aq_capacity a - length (aq_items a) <= k)%nat ->
  (forall time_ns n, exists n', (n <= n')%nat /\ time_ns <= steady_ns (clock w n')) ->
  exists n w', periods n this w = Ok (tt, w') /\ HeartBeat_periodic_task_process this w' = Err queue_full.
Proof.
  revert h st w mb a. induction k as [k IH] using lt_wf_ind. intros h st w mb a Hw Hsm Hne Hlen Hk Hclock.
  assert (Hdue : exists n, periods n this w = Ok (tt, at_reading (n + ticks w) w) /\
    (awaiting_response st = false \/ timed_out (steady_ns (clock w (n + ticks w))) (response_timeout_ms h) st = true)).
  { destruct (awaiting_response st) eqn:Haw; [|exists O; split; [by destruct w|by left]].
    destruct (Hclock (last_heartbeat_time st + (Z.abs (response_timeout_ms h) + 1) * 1000000) (ticks w)) as (n' & Hn' & Hlate).
    destruct (until_overdue (n' - ticks w) h st w mb a Hw Haw) as (j & Hj & Hto); [|by exists j; split; [|right]].
    replace (n' - ticks w + ticks w)%nat with n' by lia. by apply late_reading. }
  destruct Hdue as (n & Hrun & Hdue). set (w1 := at_reading (n + ticks w) w) in *.
  destruct (period_works h st w1 mb a) as [He|(w2 & h2 & st2 & mb2 & a2 & Hrun2 & Hw2 & Hsm2 & Hc2 & Hcap2 & Hlen2)];
    [by apply watching_at_reading|done..| |].
  { by exists n, w1. }
  destruct (IH (aq_capacity a2 - length (aq_items a2))%nat ltac:(lia) h2 st2 w2 mb2 a2) as (n2 & w3 & Hrun3 & He); try done.
  { lia. } { intros tm m. rewrite Hc2. apply Hclock. }
  exists (n + S n2)%nat, w3. split; [|done]. apply (periods_add _ _ _ _ w1); [done|].
  cbn [periods]. by rewrite (M_bind_Ok _ _ _ _ _ Hrun2).
Qed.
End one_task.

(** ** Property *)

(** C16. A hung task brings the process down: when the task a heartbeat task in
    RUNNING monitors never takes a message, and the clock does not stop, the
    periodic work succeeds a number of times, while timeouts and heartbeats
    fill the hung task's queue, and the period after them aborts with the pool's
    assertion, whatever the timeout and the capacity of the queue are. *)
Theorem hung_task_aborts this p h st w mb a :
  watching this p h st w mb a -> 0 < this < 2 ^ 64 -> 0 < state_manager h < 2 ^ 64 -> p <> this ->
  (length (aq_items a) <= aq_capacity a)%nat ->
  (forall time_ns n, exists n', (n <= n')%nat /\ time_ns <= steady_ns (clock w n')) ->
  exists n w', periods n this w = Ok (tt, w') /\
    HeartBeat_periodic_task_process this w' = Err (AssertFailed "Memory pool out of memory!").
Proof.
  intros Hw Hthis Hsm Hne Hlen Hclock. destruct (watching_sm _ _ _ _ _ _ _ Hw) as [s Hs].
  by apply (hung_task_fills this p _ Hthis Hsm Hne _ h st w mb a Hw eq_refl
              (hb_sm_differ this _ w h s (watching_hb _ _ _ _ _ _ _ Hw) Hs) Hlen (le_n _)).
Qed.
End unresponsive.

(** ** Witness: the heartbeat task of HeartBeat.v, whose user task hangs *)

Lemma hung_watching : watching 48 32 (hb_demo owing) owing (hb_world (hb_demo owing)) hb_mail (aq_new 4).
Proof.
  constructor; try done.
  - apply hb_mailboxes.
  - apply hb_demo_at.
  - eexists. apply sm_demo_at.
  - by eexists.
Qed.

Lemma hung_task_aborts_witness :
  exists n w', periods n 48 (hb_world (hb_demo owing)) = Ok (tt, w') /\
    HeartBeat_periodic_task_process 48 w' = Err (AssertFailed "Memory pool out of memory!").
Proof.
  apply (hung_task_aborts 48 32 (hb_demo owing) owing _ hb_mail (aq_new 4)).
  - apply hung_watching.
  - lia.
  - cbn. lia.
  - done.
  - cbn. lia.
  - intros time_ns n. exists (Nat.max n (Z.to_nat time_ns)). cbn. split; lia.
Defined.
