(* ===== verification/Scenario.v ===== *)
(** * Scenario: the whole model executed on the real queue

    A system like the one of the repository's state manager tests: a state
    manager, a heartbeat task that observes it and one user task whose
    handler follows every state request. Every object has a [MessageQueue] on
    its own pool; the runs below are evaluated by the kernel, from [main] to
    the joined threads. *)

From S2P Require Import Prelude MemoryPool Heap Msg QueueSpec MessageQueue Logger World Broker TaskBase StateManager HeartBeat System.
#[local] Open Scope Z_scope.

(** The handler of the user's task: go where a state message says, answer a
    heartbeat, and nothing between two messages. *)
#[local] Instance following : UserTasks MessageQueue := {
  user_process_message this m :=
    match get_data_as AStateMsg m, get_data_as AHeartbeatMsg m with
    | Some sm, _ => Task_transition_to_state this (state_of_byte (sm_state sm))
    | None, Some hb => handle_heartbeat this hb
    | None, None => mret tt
    end;
  user_periodic_task_process _ := mret tt
}.

Definition sm_addr : addr := 16.
Definition hb_addr : addr := 32.
Definition user_addr : addr := 48.

(** A queue of four messages whose pool's buffer lies at [base]. *)
Definition with_queue {A} (base : Z) (f : MessageQueue -> M MessageQueue A) : M MessageQueue A :=
  q ← lift (MessageQueue_new base node_size 4); f q.

(** [n] turns of the threads of the tasks of a list, in this order. *)
Fixpoint turns_of (ps : list addr) : M MessageQueue unit :=
  match ps with
  | [] => mret tt
  | p :: ps' => _ ← run_step p; turns_of ps'
  end.

(** What the other threads do while the state manager waits: the user's task
    and the heartbeat task take the request, the state manager their answers. *)
Definition round : M MessageQueue unit :=
  turns_of [user_addr; user_addr; user_addr; hb_addr; hb_addr; hb_addr; sm_addr; sm_addr; sm_addr; sm_addr; sm_addr; sm_addr].

(** [main] up to the tasks in IDLE. *)
Definition bring_up : M MessageQueue unit :=
  _ ← initialize DEFAULT_MAX_SUBSCRIBERS;
  _ ← with_queue 65536 (fun q => StateManager_create sm_addr q);
  _ ← with_queue 131072 (fun q => HeartBeat_create hb_addr "HeartBeat" q sm_addr 5 3);
  _ ← with_queue 196608 (fun q => UserTask_create user_addr "A" q 0 [Type_StateMsg; Type_HeartbeatMsg]);
  _ ← register_task sm_addr hb_addr;
  _ ← register_task sm_addr user_addr;
  StateManager_initialize sm_addr round.

(** Then everything runs, and the heartbeat task polls the user's task once. *)
Definition poll : M MessageQueue unit :=
  _ ← request_state_transition sm_addr RUNNING;
  _ ← round;
  _ ← run_periodic_step hb_addr;
  turns_of [user_addr; user_addr; hb_addr; hb_addr].

(** The user's task stays silent for longer than the timeout. *)
Definition silence : M MessageQueue unit :=
  _ ← request_state_transition sm_addr RUNNING;
  _ ← round;
  _ ← run_periodic_step hb_addr;
  _ ← (_ ← now; _ ← now; now);
  check_for_timeouts hb_addr.

(** And all stops; 40 turns for every join. *)
Definition shut_down : M MessageQueue unit :=
  j ← shutdown 40 sm_addr round;
  if (j : bool) then mret tt else throw (Thrown "a thread was not joined").

(** ** What a run is observed to do *)

Definition scenario_world : World MessageQueue :=
  empty_world (fun n => mkClockReading (Z.of_nat n * 1000000) 0 0).

Definition observe {A} (m : M MessageQueue unit) (f : World MessageQueue -> A) : option A :=
  match m scenario_world with Ok (_, w) => Some (f w) | Err _ => None end.

(** State, flag, threads and messages waiting, of an object. *)
Definition summary (w : World MessageQueue) (p : addr) : option (TaskState * bool * thread * thread * nat) :=
  t ← tasks w !! p;
  Some (current_state t, running t, queue_thread t, periodic_thread t, length (queue (message_queue t))).

Definition registry_of (w : World MessageQueue) : option (ptr_map TaskState) :=
  t ← tasks w !! sm_addr; match derived t with IsStateManager s => Some (task_states s) | _ => None end.

Definition poll_of (w : World MessageQueue) : option (list (addr * bool * Z)) :=
  t ← tasks w !! hb_addr;
  match derived t with
  | IsHeartBeat h => Some ((fun '(p, st) => (p, awaiting_response st, last_heartbeat_id st)) <$> monitored_tasks h)
  | _ => None
  end.

Example bring_up_reaches_idle :
  observe bring_up registry_of = Some (Some [(hb_addr, IDLE); (user_addr, IDLE)]).
Proof. vm_compute. reflexivity. Qed.

Example poll_is_answered : observe (_ ← bring_up; poll) poll_of = Some (Some [(user_addr, false, 1)]).
Proof. vm_compute. reflexivity. Qed.

Example silence_is_marked :
  observe (_ ← bring_up; silence) registry_of = Some (Some [(hb_addr, RUNNING); (user_addr, ERROR)]).
Proof. vm_compute. reflexivity. Qed.

(** Each task's last answer, and the request the state manager's own [stop]
    publishes, stay in queues whose threads are over; the state manager's
    override never changes the member [current_state] of [Task]. *)
Example shut_down_joins_every_thread :
  observe (_ ← bring_up; _ ← poll; shut_down) (fun w => summary w <$> [sm_addr; hb_addr; user_addr]) =
  Some [Some (NOT_STARTED, false, Unjoinable, Unjoinable, 1%nat);
        Some (STOPPED, false, Unjoinable, Unjoinable, 1%nat);
        Some (STOPPED, false, Unjoinable, Unjoinable, 1%nat)].
Proof. vm_compute. reflexivity. Qed.
