(* ===== verification/Tests.v ===== *)
(** * Tests: the repository's unit tests, run on the model

    The cases of test/ whose outcome is a property of the modelled state, as
    programs over the model with the real queue, evaluated by the kernel:
    memory pool, messages, queue, broker, tasks, state manager and heartbeat.
    A [sleep_for] of a test lets all threads take turns, in one order; an
    [EXPECT] that fails is an exception. These are checks of the model, not
    properties of the program: an outcome here is that of one schedule. The
    cases left out count calls inside a mock object, run without end, measure
    time or race threads on purpose; what they are after is proved for every
    schedule in QueueThreads, QueueWait and LoggerThreads. *)

From S2P Require Import Prelude MemoryPool Heap Msg QueueSpec MessageQueue Logger World Broker TaskBase StateManager HeartBeat System.
#[local] Open Scope Z_scope.

(** ** Expectations *)

Definition expect (b : bool) : result unit := if b then Ok tt else Err (Thrown "EXPECT").
Definition passes (r : result unit) : bool := is_ok r.

(** [EXPECT_DEATH]. *)
Definition expect_death {A} (r : result A) (why : string) : result unit :=
  match r with Err (AssertFailed w) => expect (bool_decide (w = why)) | _ => expect false end.

(** ** test_memory_pool.cpp *)

Fixpoint allocate_n (n : nat) (p : MemoryPool) : result (list Z * MemoryPool) :=
  match n with
  | O => Ok ([], p)
  | S n' => '(b, p) ← allocate p; '(bs, p) ← allocate_n n' p; Ok (b :: bs, p)
  end.
Fixpoint deallocate_all (bs : list Z) (p : MemoryPool) : result MemoryPool :=
  match bs with [] => Ok p | b :: bs' => p ← deallocate p b; deallocate_all bs' p end.
Definition all_blocks (bs : list Z) : bool := forallb (fun b => negb (bool_decide (b = nullptr))) bs.

Definition pool_basic : result unit :=
  pool ← MemoryPool_new 4096 64 10;
  '(block, pool) ← allocate pool;
  _ ← expect (negb (bool_decide (block = nullptr)));
  pool ← store_bytes pool block (replicate 64 171);
  _ ← deallocate pool block; Ok tt.

Definition pool_all_blocks : result unit :=
  pool ← MemoryPool_new 4096 64 10;
  '(blocks, pool) ← allocate_n 10 pool;
  _ ← expect (all_blocks blocks);
  '(overflow_block, pool) ← allocate pool;
  _ ← expect (bool_decide (overflow_block = nullptr));
  pool ← deallocate_all blocks pool;
  '(new_block, pool) ← allocate pool;
  _ ← expect (negb (bool_decide (new_block = nullptr)));
  _ ← deallocate pool new_block; Ok tt.

Definition pool_invalid_deallocation : result unit :=
  pool ← MemoryPool_new 4096 64 5;
  expect_death (deallocate pool 12) "Trying to deallocate a pointer not in the memory pool".

Definition pool_unique_blocks : result unit :=
  pool ← MemoryPool_new 4096 64 100;
  '(blocks, _) ← allocate_n 100 pool;
  expect (all_blocks blocks && bool_decide (NoDup blocks)).

Fixpoint pool_distances (sizes : list Z) : result unit :=
  match sizes with
  | [] => Ok tt
  | block_size :: sizes' =>
      pool ← MemoryPool_new 4096 block_size 10;
      '(block1, pool) ← allocate pool;
      '(block2, pool) ← allocate pool;
      _ ← expect (bool_decide (Z.abs (block2 - block1) = block_size));
      pool ← deallocate pool block1;
      _ ← deallocate pool block2;
      pool_distances sizes'
  end.

(** [random_shuffle]: any function that permutes. *)
Definition pool_recovery (random_shuffle : list Z -> list Z) : result unit :=
  pool ← MemoryPool_new 4096 64 50;
  '(allocated, pool) ← allocate_n 50 pool;
  _ ← expect (all_blocks allocated);
  pool ← deallocate_all (random_shuffle allocated) pool;
  '(reallocated, _) ← allocate_n 50 pool;
  expect (all_blocks reallocated).

Definition pool_tests : list (result unit) :=
  [pool_basic; pool_all_blocks; pool_invalid_deallocation; pool_unique_blocks;
   pool_distances [16; 32; 64; 128; 256]].

(** ** test_msg.cpp *)

Definition msg_accessors : result unit :=
  state_msg ← Msg_new 16 (VStateMsg (mkStateMsg 1));
  heartbeat ← Msg_new 16 (VHeartbeatMsg (mkHeartbeatMsg 12345 67890));
  ack ← Msg_new 16 (VHeartbeatAckMsg (mkHeartbeatAckMsg 54321 98765 99999));
  _ ← expect (bool_decide (get_priority state_msg = 100) && bool_decide (get_sender state_msg = 16));
  _ ← expect (bool_decide (get_data_as AStateMsg state_msg = Some (mkStateMsg 1)));
  _ ← expect (bool_decide (get_priority heartbeat = 50) && bool_decide (get_sender heartbeat = 16));
  _ ← expect (bool_decide (get_data_as AHeartbeatMsg heartbeat = Some (mkHeartbeatMsg 12345 67890)));
  _ ← expect (bool_decide (get_data_as AHeartbeatAckMsg ack = Some (mkHeartbeatAckMsg 54321 98765 99999)));
  _ ← expect (bool_decide (get_data_as AHeartbeatMsg state_msg = None));
  expect (has_data_type AStateMsg state_msg && negb (has_data_type AHeartbeatMsg state_msg)).

Definition msg_unique_types : result unit :=
  msg1 ← Msg_new 16 (VStateMsg (mkStateMsg 1));
  msg2 ← Msg_new 16 (VStateAckMsg (mkStateAckMsg 2));
  msg3 ← Msg_new 16 (VHeartbeatMsg (mkHeartbeatMsg 12345 67890));
  msg4 ← Msg_new 16 (VHeartbeatAckMsg (mkHeartbeatAckMsg 12345 67890 99999));
  expect (bool_decide (NoDup (get_type <$> [msg1; msg2; msg3; msg4]))).

(** ** test_queue.cpp *)

Definition max_msgs : Z := 100.
Definition new_queue : result MessageQueue := MessageQueue_new 4096 node_size max_msgs.
Definition state_of (r : option Msg) : option Z := r ≫= fun m => sm_state <$> get_data_as AStateMsg m.

(** [dequeue] of a test that is not meant to wait. *)
Definition dequeue_now (q : MessageQueue) : result (option Msg * MessageQueue) :=
  '(r, q) ← dequeue q; match r with Returns x => Ok (x, q) | Blocks => Err (Thrown "the test waits for ever") end.

Fixpoint enqueue_states (ss : list Z) (q : MessageQueue) : result MessageQueue :=
  match ss with
  | [] => Ok q
  | s :: ss' => m ← Msg_new 16 (VStateMsg (mkStateMsg (u8 s))); q ← enqueue q m; enqueue_states ss' q
  end.
Fixpoint take_n (take : MessageQueue -> result (option Msg * MessageQueue)) (n : nat) (q : MessageQueue) :
    result (list (option Msg) * MessageQueue) :=
  match n with
  | O => Ok ([], q)
  | S n' => '(r, q) ← take q; '(rs, q) ← take_n take n' q; Ok (r :: rs, q)
  end.

Definition queue_basic : result unit :=
  q ← new_queue;
  _ ← expect (is_empty q);
  q ← enqueue_states [42] q;
  _ ← expect (negb (is_empty q));
  '(received, q) ← dequeue_now q;
  _ ← expect (bool_decide (state_of received = Some 42));
  expect (is_empty q).

Definition queue_priorities : result unit :=
  q ← new_queue;
  low ← Msg_new 16 (VHeartbeatMsg (mkHeartbeatMsg 1 0));
  high ← Msg_new 16 (VStateMsg (mkStateMsg 2));
  medium ← Msg_new 16 (VStateAckMsg (mkStateAckMsg 3));
  q ← enqueue q low; q ← enqueue q high; q ← enqueue q medium;
  '(rs, _) ← take_n dequeue_now 3 q;
  expect (bool_decide (rs = [Some high; Some medium; Some low])).

Definition queue_timeout : result unit :=
  q ← new_queue;
  '(r, q) ← try_dequeue q; _ ← expect (bool_decide (r = None));
  q ← enqueue_states [42] q;
  '(r, q) ← try_dequeue q; _ ← expect (bool_decide (state_of r = Some 42));
  '(r, q) ← try_dequeue q; expect (bool_decide (r = None)).

Definition queue_capacity : result unit :=
  q ← new_queue;
  q ← enqueue_states (seqZ 0 max_msgs) q;
  '(rs, q) ← take_n try_dequeue 100 q;
  _ ← expect (forallb (fun r => bool_decide (is_Some (state_of r))) rs);
  expect (is_empty q).

Definition queue_fifo : result unit :=
  q ← new_queue;
  q ← enqueue_states [1; 2; 3; 4; 5] q;
  '(rs, _) ← take_n dequeue_now 5 q;
  expect (bool_decide (state_of <$> rs = [Some 1; Some 2; Some 3; Some 4; Some 5])).

(** ** The mock tasks *)

(** What the test files' classes do with a message. [Following]: MockTask of
    test_task.cpp and test_state_manager.cpp, and DelayedAckMockTask, whose
    delay is time that passes. *)
Inductive mock := Collecting | Following | NonResponsive | HeartbeatResponsive | HeartbeatNonResponsive.

(** The class of the object at an address. *)
Class Mocks := mock_of : addr -> mock.

Definition follow (this : addr) (m : Msg) : M MessageQueue unit :=
  match get_data_as AStateMsg m with
  | Some sm => Task_transition_to_state this (state_of_byte (sm_state sm))
  | None => mret tt
  end.

#[export] Instance mock_tasks `{Mocks} : UserTasks MessageQueue := {
  user_process_message this m :=
    match mock_of this with
    | Collecting => mret tt
    | Following | HeartbeatNonResponsive => follow this m
    | NonResponsive =>
        match get_data_as AStateMsg m with
        | Some sm =>
            state ← get_current_state this;
            if decide (state_of_byte (sm_state sm) = STOPPED \/ state = NOT_STARTED)
            then Task_transition_to_state this (state_of_byte (sm_state sm)) else mret tt
        | None => mret tt
        end
    | HeartbeatResponsive =>
        match get_data_as AStateMsg m, get_data_as AHeartbeatMsg m with
        | Some _, _ => follow this m
        | None, Some hb => handle_heartbeat this hb
        | None, None => mret tt
        end
    end;
  user_periodic_task_process _ := mret tt
}.

Definition expects (b : bool) : M MessageQueue unit := lift (expect b).

(** The [create] of the classes, over a queue in a buffer of its own, for the
    64 messages of [Task]'s default. *)
Definition create_mock (this : addr) (task_name : string) (types : list MsgType) : M MessageQueue addr :=
  q ← lift (MessageQueue_new (65536 * this) node_size 64);
  UserTask_create this task_name q 0 types.
Fixpoint create_mocks (ps : list addr) (types : list MsgType) : M MessageQueue unit :=
  match ps with
  | [] => mret tt
  | p :: ps' => _ ← create_mock p "Task" types; create_mocks ps' types
  end.

(** One turn of every thread of the tasks [ps], and [n] such rounds. *)
Fixpoint turns `{Mocks} (ps : list addr) : M MessageQueue unit :=
  match ps with
  | [] => mret tt
  | p :: ps' => _ ← run_step p; _ ← run_periodic_step p; turns ps'
  end.
Fixpoint sleep_for `{Mocks} (n : nat) (ps : list addr) : M MessageQueue unit :=
  match n with O => mret tt | S n' => _ ← turns ps; sleep_for n' ps end.

Definition in_state (p : addr) (s : TaskState) : M MessageQueue bool :=
  x ← get_current_state p; mret (bool_decide (x = s)).
Fixpoint in_states (l : list (addr * TaskState)) : M MessageQueue unit :=
  match l with
  | [] => mret tt
  | (p, s) :: l' => b ← in_state p s; _ ← expects b; in_states l'
  end.

(** [stop], with enough turns for the joins. *)
Definition stops `{Mocks} (p : addr) : M MessageQueue unit := b ← stop 60 p; expects b.

(** ** test_broker.cpp *)

(** [MockTask::process]: what it adds to [received_messages]. *)
Definition process (this : addr) : M MessageQueue (list Msg) :=
  t ← get_task this;
  '(r, q) ← lift (try_dequeue (message_queue t));
  _ ← put_task this (set_message_queue q t);
  mret (option_list r).

Fixpoint process_each (ps : list addr) : M MessageQueue (list (list Msg)) :=
  match ps with
  | [] => mret []
  | p :: ps' => r ← process p; rs ← process_each ps'; mret (r :: rs)
  end.
Fixpoint subscribe_each (ps : list addr) (ty : MsgType) : M MessageQueue unit :=
  match ps with [] => mret tt | p :: ps' => _ ← subscribe p ty; subscribe_each ps' ty end.

Definition broker_initialization : M MessageQueue unit :=
  _ ← initialize DEFAULT_MAX_SUBSCRIBERS;
  task ← create_mock 1 "test_task" [];
  _ ← subscribe task Type_HeartbeatMsg;
  m ← lift (Msg_new task (VHeartbeatMsg (mkHeartbeatMsg 0 0)));
  _ ← publish m;
  r ← process task;
  expects (bool_decide (length r = 1%nat)).

Definition broker_custom_limit : M MessageQueue unit :=
  _ ← initialize 32;
  let ps := seqZ 1 30 in
  _ ← create_mocks ps [];
  _ ← subscribe_each ps Type_StateMsg;
  m ← lift (Msg_new nullptr (VStateMsg (mkStateMsg 0)));
  _ ← publish m;
  rs ← process_each ps;
  expects (forallb (fun r => bool_decide (r = [m])) rs).

Definition broker_routing : M MessageQueue unit :=
  _ ← initialize DEFAULT_MAX_SUBSCRIBERS;
  _ ← create_mocks [1; 2; 3] [];
  _ ← subscribe_each [1; 3] Type_HeartbeatMsg;
  _ ← subscribe_each [2; 3] Type_StateMsg;
  heartbeat_msg ← lift (Msg_new nullptr (VHeartbeatMsg (mkHeartbeatMsg 0 0)));
  _ ← publish heartbeat_msg;
  hs ← process_each [1; 3];
  state_msg ← lift (Msg_new nullptr (VStateMsg (mkStateMsg 0)));
  _ ← publish state_msg;
  ss ← process_each [2; 3];
  expects (bool_decide (hs = [[heartbeat_msg]; [heartbeat_msg]]) && bool_decide (ss = [[state_msg]; [state_msg]])).

Definition broker_direct_delivery : M MessageQueue unit :=
  _ ← initialize DEFAULT_MAX_SUBSCRIBERS;
  _ ← create_mocks [1; 2] [];
  m ← lift (Msg_new 1 (VStateMsg (mkStateMsg 0)));
  _ ← deliver_message 2 m;
  r ← process 2;
  expects (bool_decide (get_type <$> r = [Type_StateMsg]) && bool_decide (get_sender <$> r = [1])).

(** ** test_task.cpp *)

Section task_tests.
#[local] Instance all_following : Mocks := fun _ => Following.

(** The fixture's [SetUp], and a task with the first address. *)
Definition task_fixture (body : M MessageQueue unit) : M MessageQueue unit :=
  _ ← initialize DEFAULT_MAX_SUBSCRIBERS;
  _ ← create_mock 1 "TestTask" [Type_StateMsg];
  _ ← start 1;
  _ ← sleep_for 3 [1];
  body.

Definition state_message (sender : addr) (s : TaskState) : M MessageQueue Msg :=
  lift (Msg_new sender (VStateMsg (mkStateMsg (state_to_byte s)))).
Fixpoint deliver_states (p : addr) (ss : list TaskState) : M MessageQueue unit :=
  match ss with
  | [] => mret tt
  | s :: ss' => m ← state_message p s; _ ← deliver_message p m; deliver_states p ss'
  end.

Definition task_start_stop : M MessageQueue unit :=
  r ← is_running 1; _ ← expects r;
  _ ← stops 1;
  r ← is_running 1; expects (negb r).

Definition task_state_transition : M MessageQueue unit :=
  _ ← deliver_states 1 [IDLE];
  _ ← sleep_for 3 [1];
  _ ← in_states [(1, IDLE)];
  stops 1.

Definition task_multiple_stop : M MessageQueue unit :=
  r ← is_running 1; _ ← expects r;
  _ ← stops 1; _ ← stops 1;
  r ← is_running 1; expects (negb r).

Definition task_safe_publish : M MessageQueue unit :=
  m ← state_message 1 RUNNING;
  _ ← safe_publish 1 m;
  _ ← sleep_for 3 [1];
  _ ← in_states [(1, RUNNING)];
  stops 1.

Definition task_shutdown_prevents : M MessageQueue unit :=
  _ ← stops 1;
  _ ← deliver_states 1 [RUNNING];
  _ ← sleep_for 3 [1];
  b ← in_state 1 RUNNING; expects (negb b).

Definition task_multiple_messages : M MessageQueue unit :=
  _ ← deliver_states 1 [IDLE; RUNNING; IDLE];
  _ ← sleep_for 8 [1];
  _ ← in_states [(1, IDLE)];
  stops 1.

Definition task_tests : list (M MessageQueue unit) :=
  task_fixture <$> [task_start_stop; task_state_transition; task_multiple_stop; task_safe_publish;
                    task_shutdown_prevents; task_multiple_messages].
End task_tests.

(** ** test_state_manager.cpp *)

Section state_manager_tests.
Context `{Mocks}.

Definition create_manager (this : addr) : M MessageQueue addr :=
  q ← lift (MessageQueue_new (65536 * this) node_size 64); StateManager_create this q.
Fixpoint register_all (sm : addr) (ps : list addr) : M MessageQueue unit :=
  match ps with [] => mret tt | p :: ps' => _ ← register_task sm p; register_all sm ps' end.

(** What all threads do while the main thread waits. *)
Definition meanwhile (ps : list addr) : M MessageQueue unit := sleep_for 16 (1 :: ps).

(** The state manager at 1, the tasks registered and initialized; at the end
    the state manager's [shutdown]. *)
Definition manager_test (ps : list addr) (body : M MessageQueue unit) : M MessageQueue unit :=
  _ ← initialize DEFAULT_MAX_SUBSCRIBERS;
  _ ← create_mocks ps [Type_StateMsg];
  _ ← create_manager 1;
  _ ← register_all 1 ps;
  _ ← StateManager_initialize 1 (meanwhile ps);
  _ ← body;
  b ← shutdown 60 1 (meanwhile ps); expects b.

Definition demand (ps : list addr) (s : TaskState) : M MessageQueue bool :=
  demand_state_transition 1 s (meanwhile ps).

Fixpoint demand_each (p : addr) (ss : list TaskState) : M MessageQueue unit :=
  match ss with
  | [] => mret tt
  | s :: ss' => _ ← demand [p] s; _ ← in_states [(p, s)]; demand_each p ss'
  end.

Definition sm_register_task : M MessageQueue unit := manager_test [2] (in_states [(2, IDLE)]).

Definition sm_request : M MessageQueue unit :=
  manager_test [2] (_ ← request_state_transition 1 RUNNING; _ ← meanwhile [2]; in_states [(2, RUNNING)]).

Definition sm_demand_success : M MessageQueue unit :=
  manager_test [2; 3] (b ← demand [2; 3] RUNNING; _ ← expects b; in_states [(2, RUNNING); (3, RUNNING)]).

(** With a NonResponsiveMockTask at 3. *)
Definition sm_demand_timeout : M MessageQueue unit :=
  manager_test [2; 3] (b ← demand [2; 3] RUNNING; _ ← expects (negb b); _ ← in_states [(2, RUNNING)];
    r ← in_state 3 RUNNING; expects (negb r)).

Definition sm_initialize_multiple : M MessageQueue unit :=
  manager_test [2; 3; 4] (in_states [(2, IDLE); (3, IDLE); (4, IDLE)]).

Definition sm_shutdown_multiple : M MessageQueue unit :=
  _ ← manager_test [2; 3] (meanwhile [2; 3]); in_states [(2, STOPPED); (3, STOPPED)].

Definition sm_multiple_transitions : M MessageQueue unit :=
  manager_test [2] (demand_each 2 [IDLE; RUNNING; IDLE; STOPPED; ERROR]).

Definition sm_error_state : M MessageQueue unit := manager_test [2] (demand_each 2 [ERROR; IDLE]).

Definition sm_mark_unresponsive : M MessageQueue unit :=
  manager_test [2; 3] (_ ← request_state_transition 1 RUNNING; _ ← meanwhile [2; 3];
    _ ← in_states [(2, RUNNING); (3, RUNNING)];
    _ ← mark_task_as_unresponsive 1 3; _ ← meanwhile [2; 3];
    in_states [(2, RUNNING); (3, ERROR)]).
End state_manager_tests.

(** The clocks advance by a tenth of a millisecond with every reading. *)
Definition test_world : World MessageQueue := empty_world (fun n => mkClockReading (Z.of_nat n * 100000) 0 0).
Definition run_test (t : M MessageQueue unit) : bool := is_ok (t test_world).

Definition manager_tests : list (M MessageQueue unit) :=
  let following : Mocks := fun _ => Following in
  let one_silent : Mocks := fun p => if decide (p = 3) then NonResponsive else Following in
  ((fun t : Mocks -> M MessageQueue unit => t following) <$>
    [@sm_register_task; @sm_request; @sm_demand_success; @sm_initialize_multiple; @sm_shutdown_multiple;
     @sm_multiple_transitions; @sm_error_state; @sm_mark_unresponsive]) ++
  [@sm_demand_timeout one_silent].

(** ** test_heartbeat.cpp *)

Section heartbeat_tests.

(** The state manager is at 1, the heartbeat task at 2, the responsive task at
    3 and the one that does not respond at 4. *)
Definition heartbeat_mocks : Mocks := fun p => if decide (p = 3) then HeartbeatResponsive else HeartbeatNonResponsive.
(** After [should_respond = false]. *)
Definition nobody_responds : Mocks := fun _ => HeartbeatNonResponsive.

(** While the tasks wait a round has one reading of the clock, that of the
    sleeping periodic thread: ten rounds take at least a millisecond. *)
Definition run_for (k : Mocks) (ms : nat) : M MessageQueue unit := sleep_for (H := k) (10 * ms) [1; 2; 3; 4].

(** The fixture's [TearDown]. *)
Definition tear_down `{Mocks} : M MessageQueue unit := b ← shutdown 200 1 (sleep_for 20 [1; 2; 3; 4]); expects b.

(** [k]: the classes at the end of the test. *)
Definition heartbeat_test (k : Mocks) (body : M MessageQueue unit) : M MessageQueue unit :=
  _ ← initialize DEFAULT_MAX_SUBSCRIBERS;
  _ ← create_manager 1;
  q ← lift (MessageQueue_new (65536 * 2) node_size 64);
  _ ← HeartBeat_create 2 "TestHeartBeat" q 1 10 30;
  _ ← create_mocks [3; 4] [Type_StateMsg; Type_HeartbeatMsg];
  _ ← set_task_registration_observer 1 2;
  _ ← register_all 1 [2; 3; 4];
  _ ← StateManager_initialize 1 (run_for heartbeat_mocks 2);
  _ ← run_for heartbeat_mocks 1;
  _ ← body;
  tear_down (H := k).

Definition start_tasks : M MessageQueue unit :=
  _ ← request_state_transition 1 RUNNING; run_for heartbeat_mocks 1.

(** The identifiers that have been handed out: heartbeats sent. *)
Definition heartbeats_sent : M MessageQueue Z := h ← get_hb 2; mret (next_heartbeat_id h - 1).

Definition hb_sent_when_running : M MessageQueue unit :=
  heartbeat_test heartbeat_mocks (_ ← start_tasks; _ ← run_for heartbeat_mocks 20; n ← heartbeats_sent; expects (bool_decide (2 <= n))).
Definition hb_not_when_idle : M MessageQueue unit :=
  heartbeat_test heartbeat_mocks (_ ← run_for heartbeat_mocks 20; n ← heartbeats_sent; expects (bool_decide (n = 0))).
Definition hb_responsive_stays : M MessageQueue unit :=
  heartbeat_test heartbeat_mocks (_ ← start_tasks; _ ← run_for heartbeat_mocks 50; in_states [(3, RUNNING)]).
Definition hb_unresponsive_handled : M MessageQueue unit :=
  heartbeat_test heartbeat_mocks (_ ← start_tasks; _ ← run_for heartbeat_mocks 60; in_states [(4, ERROR)]).
Definition hb_becomes_unresponsive : M MessageQueue unit :=
  heartbeat_test nobody_responds (_ ← start_tasks; _ ← run_for heartbeat_mocks 20; _ ← in_states [(3, RUNNING)];
    _ ← run_for nobody_responds 60; in_states [(3, ERROR)]).
End heartbeat_tests.

Definition heartbeat_tests : list (M MessageQueue unit) :=
  [hb_sent_when_running; hb_not_when_idle; hb_responsive_stays; hb_unresponsive_handled; hb_becomes_unresponsive].

(** ** test_logger.cpp *)

(** The fixture's logger with the entries of a test, and what its file holds
    once the worker has caught up. *)
Fixpoint log_each (es : list (LogLevel * string)) (L : Logger) : Logger :=
  match es with
  | [] => L
  | (l, text) :: es' => log_each es' (log l "TEST" text (mkClockReading 0 0 0) (1, 1) L)
  end.
Definition test_logger (l : LogLevel) : Logger := set_level l (add_sink (mkSink FileSink "") (set_level DEBUG Logger_new)).
Definition log_file (L : Logger) : list string := stream <$> sinks (worker_run 20 L).1.

Definition log_lines (ls : list string) : string := foldr (fun l s => l +:+ newline +:+ s) "" ls.

Definition logger_writes : result unit :=
  expect (bool_decide (log_file (log_each [(INFO, "Info entry"); (DEBUG, "Debug entry"); (LOG_ERROR, "Error entry")] (test_logger DEBUG)) =
    [log_lines ["0 [TEST] INFO - Info entry"; "0 [TEST] DEBUG - Debug entry"; "0 [TEST] ERROR - Error entry"]])).
Definition logger_filters : result unit :=
  expect (bool_decide (log_file (log_each [(INFO, "Should be filtered out"); (LOG_ERROR, "Should appear")] (test_logger WARN)) =
    [log_lines ["0 [TEST] ERROR - Should appear"]])).
Definition logger_order : result unit :=
  expect (bool_decide (log_file (log_each [(DEBUG, "First"); (DEBUG, "Second"); (DEBUG, "Third")] (test_logger DEBUG)) =
    [log_lines ["0 [TEST] DEBUG - First"; "0 [TEST] DEBUG - Second"; "0 [TEST] DEBUG - Third"]])).

(** ** The outcomes *)

Definition plain_tests : list (result unit) :=
  pool_tests ++ [msg_accessors; msg_unique_types] ++
  [queue_basic; queue_priorities; queue_timeout; queue_capacity; queue_fifo] ++
  [logger_writes; logger_filters; logger_order].

Definition system_tests : list (M MessageQueue unit) :=
  [broker_initialization; broker_custom_limit; broker_routing; broker_direct_delivery] ++
  task_tests ++ manager_tests ++ heartbeat_tests.

Lemma allocate_n_ok p l free :
  pool_rep p (l ++ free) -> exists p', allocate_n (length l) p = Ok (l, p') /\ pool_rep p' free /\ same_shape p p'.
Proof.
  revert p. induction l as [|a l IH]; intros p Hp; cbn [allocate_n length]; [exists p; by split_and!; try apply same_shape_refl|].
  destruct (allocate_pop p a (l ++ free) Hp) as (p1 & Ha & Hp1 & Hsh & _). destruct (IH p1 Hp1) as (p2 & Hn & Hp2 & Hsh2).
  exists p2. rewrite Ha. cbn [mbind result_bind]. rewrite Hn. split_and!; [done|done|]. by eapply same_shape_trans.
Qed.

Lemma deallocate_all_ok p l free :
  pool_rep p free -> NoDup (l ++ free) -> l ⊆ blocks p ->
  exists p', deallocate_all l p = Ok p' /\ pool_rep p' (rev l ++ free) /\ same_shape p p'.
Proof.
  revert p free. induction l as [|a l IH]; intros p free Hp Hnd Hl; cbn [deallocate_all]; [exists p; by split_and!; try apply same_shape_refl|].
  apply NoDup_cons in Hnd as [Ha Hnd]. rewrite elem_of_app in Ha.
  destruct (deallocate_push p a free Hp) as (p1 & Hd & Hp1 & Hsh & _); [apply Hl, list_elem_of_here|tauto|].
  destruct (IH p1 (a :: free) Hp1) as (p2 & Hn & Hp2 & Hsh2).
  - rewrite <- Permutation_middle. apply NoDup_cons. by rewrite elem_of_app.
  - intros x Hx. rewrite (same_shape_blocks p p1 Hsh). by apply Hl, list_elem_of_further.
  - exists p2. rewrite Hd. cbn [mbind result_bind]. rewrite Hn. split; [done|]. split; [|by eapply same_shape_trans].
    cbn [rev]. by rewrite <- app_assoc.
Qed.

Lemma all_blocks_nonnull p l : pool_geometry p -> l ⊆ blocks p -> all_blocks l = true.
Proof.
  intros G Hl. apply forallb_forall. intros x Hx%list_elem_of_In. apply negb_true_iff, bool_decide_eq_false.
  pose proof (block_nonnull p x G (Hl x Hx)). unfold nullptr. lia.
Qed.

(** The pool recovers whatever the order of the deallocations. *)
Lemma pool_recovery_passes random_shuffle :
  (forall l, random_shuffle l ≡ₚ l) -> passes (pool_recovery random_shuffle) = true.
Proof.
  intros Hperm. destruct (MemoryPool_new_ok 4096 64 50) as (p & Hnew & Hp & Hbs & Hbc & Hbase); [done|done|done|done|].
  assert (Hlen : length (blocks p) = 50%nat) by (by rewrite length_blocks, Hbc). pose proof (rep_geometry _ _ Hp) as G.
  destruct (allocate_n_ok p (blocks p) []) as (p1 & Ha & Hp1 & Hsh1); [by rewrite app_nil_r|]. rewrite Hlen in Ha.
  set (l := random_shuffle (blocks p)). pose proof (Hperm (blocks p)) as Hl. fold l in Hl.
  assert (Hsub : l ⊆ blocks p) by (intros x; by rewrite Hl).
  destruct (deallocate_all_ok p1 l []) as (p2 & Hd & Hp2 & Hsh2); [done|rewrite app_nil_r, Hl; by apply NoDup_blocks|by rewrite (same_shape_blocks p p1)|].
  destruct (allocate_n_ok p2 (rev l) []) as (p3 & Hr & _); [done|].
  rewrite length_rev, (Permutation_length Hl), Hlen in Hr.
  unfold pool_recovery. rewrite Hnew. cbn [mbind result_bind]. rewrite Ha. cbn [mbind result_bind].
  rewrite (all_blocks_nonnull p) by done. cbn [expect mbind result_bind]. fold l. rewrite Hd. cbn [mbind result_bind]. rewrite Hr.
  cbn [mbind result_bind]. rewrite (all_blocks_nonnull p); [done|done|]. intros x Hx.
  apply Hsub, list_elem_of_In, in_rev. by apply list_elem_of_In.
Qed.

(** The other modelled cases are evaluated. *)
Example plain_tests_pass : forallb passes plain_tests = true.
Proof. vm_compute. reflexivity. Qed.

Example system_tests_pass : forallb run_test system_tests = true.
Proof. vm_compute. reflexivity. Qed.
